(* ===== verification/_CoqProject ===== *)
-Q . S2P
Prelude.v
JsString.v
JsNumber.v
JsRegex.v
View.v
Elements.v
JsValue.v
Go.v
Api.v
Ddl.v
Risk.v
TableQuery.v
TableMutations.v
TableView.v
TableApply.v
Id.v
Schema.v
Controls.v
ControlViews.v
CreateTable.v
FilterBuilder.v
Tabs.v
TableGrid.v
TableGridProps.v
Async.v
Ui.v
History.v
Workbench.v
WorkbenchInvariant.v
WorkbenchProps.v
RedisKeys.v
SchemaProps.v
SchemaWorkspace.v
Uri.v
Http.v
ApiClient.v
EventStream.v
LogsClient.v
LogsPage.v
LogsPageProps.v
SqlCompletion.v
SqlCompletionProps.v
Connections.v
ConnectionsProps.v
ConnectionsPage.v
ConnectionsPageProps.v
Auth.v
AuthProps.v
DatabasePage.v
Settings.v
SettingsPages.v
Membership.v
SettingsProps.v
SettingsViews.v
SettingsViewsProps.v
Json.v
JsonProps.v
RedisService.v
RedisViews.v
RedisProps.v
MongoService.v
MongoViews.v
MongoProps.v
ConnectionsView.v
ConnectionsViewProps.v
Shell.v
WorkbenchPanels.v
Slots.v
Smoke.v
SmokeProps.v
WorkbenchView.v
WorkbenchViewProps.v
