(* ===== verification/Prelude.v ===== *)
(** * dbtabase-workbench: a verification library

    The program is a web console for databases, Redis and SSH logs.  The client
    (TypeScript and React, under [src/web/src]) keeps the state of the user's work and
    talks to a Go server (under [src/api]).  The library models the client, and of the server
    what the client has to agree with: the classification of statements, the membership of
    teams, and the services for Redis and MongoDB.

    ** Parts of the program and where they are modelled

    Each part is a file of definitions, followed where the proofs are long by a file
    [<Part>Props].  Definitions keep the source's names; paths are below [src/web/src]
    unless they begin with [api/].

    The language.
    - [Prelude]: tactics, hint databases and lemmas on lists, options and integers.
    - [JsString], [JsNumber], [JsRegex], [JsValue]: strings of UTF-16 code units, IEEE 754
      doubles with rounding, the regular expressions the source writes, and the values
      that JSON and inputs produce.
    - [Async]: [async] functions as programs that stop at each [await]; a [world] is the
      state of a component with the programs that wait, [wstep] the events and replies
      that change it, in any order.
    - [Uri], [Http]: [encodeURIComponent] and paths; responses and the errors they become
      ([api/shared.ts]).

    SQL text.
    - [Ddl] ([features/workspace/ddl.ts]): quoting, CREATE and DROP, the tokenizer, the
      target a drop must be confirmed with.
    - [Risk] ([classifyClientRisk] of [app/DatabaseWorkbench.tsx]; [Classify] of
      [api/internal/query/risk.go] and the guard of [api/internal/httpapi/router.go]).
    - [TableQuery] ([features/table/tableViewState.ts], [tableQuery.ts]): rules, sort,
      pages and the SELECT of a table tab.
    - [SqlCompletion] ([features/editor/sqlCompletion.ts]).

    The database workbench.
    - [Api] ([api/types.ts], [api/driver.ts]), [Id] ([lib/id.ts]), [History]
      ([features/history/store.ts]).
    - [TableMutations], [TableView], [TableApply] ([features/table/]): coercion of edited
      cells, updates and compaction of a draft, the handlers of the view, and what applying
      a draft does to the table behind it.  [TableGrid], [TableGridProps]: the elements of the
      view and of its filter panel, and what their events do.
    - [Tabs] ([features/workspace/types.ts], [tableTabLoader.ts],
      [features/editor/sqlTemplate.ts]).
    - [Workbench] ([app/DatabaseWorkbench.tsx]): a record [WB] with a field per [useState]
      variable, a program per handler.  It composes [Tabs], [TableQuery], [Risk], [Ddl] and
      [History]; [WorkbenchInvariant] and [WorkbenchProps] reason about it.  [WorkbenchPanels]
      and [WorkbenchView] are its elements, with the components that make calls of their own
      behind the class [Children]; [WorkbenchViewProps] reasons about the page.
    - [Schema], [SchemaWorkspace] ([features/schema/]): the draft of a table's structure,
      index changes, and the editor [SW] that requests previews and saves.
    - [RedisKeys] ([features/redis/]): the tree of scanned keys and the rows displayed.

    Interfaces.
    - [View]: the elements a component returns, as texts and controls with what they do, and
      [offers], what can happen in them; [Elements] and [ControlViews] ([features/ui/]) are the
      elements that the pages share, with rules for what they offer.
    - [Ui]: a page as a transition system of what it shows, of the parts that it gave the
      shell in earlier renderings, and of replies, with rules for invariants and calls.
    - [SettingsViews], [ConnectionsView], [WorkbenchView] and their [Props]: the pages.

    The rest of the console.
    - [ApiClient] ([api/client.ts]): the session, its retries, and the request of every
      method.
    - [LogsClient], [EventStream] ([logs/client.ts]), [LogsPage] ([pages/LogsPage.tsx]):
      requests, the reader of the event stream, and the page [LP] with its queue of
      React updates.
    - [Connections] ([connections/], [features/connections/]), [ConnectionsPage]
      ([pages/ConnectionsPage.tsx]): the records, the form, the client and the page.
    - [Auth], [AuthProps] ([auth/], [app/AppRouter.tsx], guards of [settings/]): the
      session and its token, login, logout, and the page of each route; [DatabasePage]
      ([pages/DatabasePage.tsx], [features/database/]).
    - [Settings], [SettingsPages], [SettingsProps] ([settings/]): requests, helpers and
      dialogs; the state that the user and team pages share, with their handlers.
      [Membership] models the transactions of [api/internal/identity/store.go] that those
      pages call, and [SettingsProps] composes the two.
    - [Json], [JsonProps]: [JSON.parse] and [JSON.stringify] and their round trip.
    - [RedisService] ([api/internal/redisdb/service.go]), [RedisViews]
      ([features/redis/RedisKeyView.tsx], [RedisConsoleView.tsx]), [RedisProps].
    - [MongoService] ([api/internal/mongo/service.go]), [MongoViews] ([features/mongo/],
      [features/results/ResultGrid.tsx]), [MongoProps].  The client libraries the two
      services call are the classes [RedisServer] and [MongoServer], whose laws are their
      documented behaviour; the witnesses use instances on maps and lists.
    - [CreateTable] ([features/workspace/CreateTableDialog.tsx]), [FilterBuilder]
      ([features/table/TableFilterBuilder.tsx]), [Controls] ([features/ui/]): drafts and
      keyboard controls.
    - [Shell] ([layout/], [storage/theme.ts], [features/explorer/],
      [features/connections/DatabaseSwitcher.tsx]): links, commands, menus and themes.
    - [Slots] ([layout/UnifiedShellContext.tsx]): what pages give the shell by effects with
      dependencies; a slot shows what its user had when they last changed.
    - [Go]: the functions of Go's library that the services use.
    - [Smoke], [SmokeProps] ([scripts/smoke-foundation.mjs]): the requests and checks of the
      smoke test, and what its search for secrets finds.

    ** How handlers are modelled

    A component's state is a record with one setter per field.  A handler that does not
    wait is a function on it.  An [async] handler is a program of [Async]: it uses the state
    of the rendering its closure belongs to, calls ([Call]) what the source awaits, and goes
    on with the reply, which may be a rejection.  Between a call and its reply any other
    event may be handled, so the invariants hold under every interleaving.  Effects of React
    run at the end of the handler that changes what they depend on.  The sidebar of the
    workbench is given to the shell by such an effect and keeps the handlers of the rendering
    in which it ran: [Workbench.page_step] keeps that rendering beside the state.

    ** What the theorems show

    - Tables: an edit changes one cell ([TableView.update_cell_spec]); applying a draft
      makes the table the displayed one ([TableApply.apply_draft_effect]), and a refused
      request leaves it half applied ([TableApply.apply_partial_failure]); compaction,
      drafts and pages are characterised.
    - SQL: quoted names and literals, and the WHERE clause, read back as what they were
      made from ([Ddl.quoting_roundtrip], [TableQuery.where_roundtrip]); the confirmation of
      the client is the one the server asks for ([Risk.client_server_targets_agree],
      [Risk.admin_drop_accepted]).
    - Workbench: whatever is pressed and answered, in the page and in the sidebar of any
      earlier rendering, open tabs stay distinct ([WorkbenchViewProps.workbench_tabs]), with
      the exception that [WorkbenchProps.sidebar_acts_on_old_state] shows; what the table view
      offers is possible and keeps its draft well formed ([TableGridProps.table_view_safe]);
      the shortcut of the editor runs an old statement
      ([WorkbenchViewProps.shortcut_runs_old_statement]);
      dangerous statements do not run unconfirmed ([WorkbenchProps.run_guard]);
      polling terminates; reloading, closing and switching do what they should.
    - Structure editor: operations turn the stored columns and indexes into the edited
      ones (refinement of the meaning of an operation); only the latest preview is shown.
    - Sessions and requests: one retry after a lost session; the server reads back every
      identifier from the path.
    - Logs: the tail shows the stream however it is cut, within its bound; imports stop at
      the first refusal.
    - Connections: the rules of the form, what an edit keeps, the end of a submission; what the
      page offers changes or removes a connection only under the dialog that names it
      ([ConnectionsViewProps.connections_guarded]).
    - Session: the page shown is one the session may see ([AuthProps.pages_guarded]).
    - Settings: the pages let nobody disable or delete the own account, and offer the rights of
      a team to those who have them ([SettingsViewsProps]); saving a team makes its members those of the dialog
      ([SettingsProps.save_members_spec]); what loading shows, and what a list that could not
      be loaded costs ([SettingsProps.settings_loaded], [SettingsProps.edit_user_memberships]).
    - Redis and MongoDB: what a save sends and what the service makes of it, what is lost on
      the way, and that no blocked command runs ([RedisProps], [MongoProps]).
    - Dialogs: drafts stay well formed under every edit, and a submission is refused exactly
      for an invalid one ([CreateTable.create_table_spec], [FilterBuilder.filter_builder_spec]).
    - Behaviour that surprises is stated as it is: stale replies, a connection retried
      without end, repeated React keys, lost messages.

    ** Bounds and fuel

    - [poll_rounds] bounds the rounds of a poll; [WorkbenchProps.poll_terminates] shows that
      the deadline of the source ends it before the bound.
    - The tokenizer of [Ddl] and the loops of [Uri] and [EventStream] have the length of the
      text as fuel: each round consumes at least one code unit.
    - A repetition of [JsRegex] has the length of the rest as fuel, because an iteration
      that consumes nothing is refused.
    - Numbers are doubles, with their rounding where the source computes with them: the
      console counter stops at 2^53, so what is said of consoles is about smaller ones.
    - The tail keeps 5000 lines, the history 500 entries, and creating a session makes three
      attempts, as in the source.

    ** Assumptions

    Unicode tables and collation ([Unicode]) and the supply of identifiers ([IdSupply]) are
    classes whose laws are documented behaviour; each has an instance that witnesses use.
    Replies of the server are arbitrary, except in [TableApply], where a server that means
    what its mutations say is given ([serve]).

    ** Not modelled

    - Styles, focus and layout, and the elements of the pages not named under Interfaces.
      Routes are a table; how the router matches a path is a parameter.
    - The server beyond the parts named above: its Go code is input and output around
      database drivers, SSH and files.
    - Timers beyond their order; the 15 second timeout of a session request is one of the
      errors it may end with.
    - The encoding of text as UTF-8, and the fields and headers of requests beyond their JSON.
    - Deployment files and documentation. *)
From Stdlib Require Export NArith ZArith.
From stdpp Require Export sorting gmap numbers list.
#[export] Set Default Goal Selector "1".

(** * Tactics of the development *)

(** Split the boolean connectives and comparisons of the code into propositions. *)
Ltac bool_to_prop :=
  repeat
    match goal with
    | H : andb _ _ = true |- _ => apply andb_true_iff in H; destruct H
    | H : orb _ _ = false |- _ => apply orb_false_iff in H; destruct H
    | H : negb _ = true |- _ => apply negb_true_iff in H
    | H : negb _ = false |- _ => apply negb_false_iff in H
    | H : bool_decide _ = true |- _ => apply bool_decide_eq_true in H
    | H : bool_decide _ = false |- _ => apply bool_decide_eq_false in H
    | H : N.eqb _ _ = true |- _ => apply N.eqb_eq in H
    | H : N.eqb _ _ = false |- _ => apply N.eqb_neq in H
    | H : N.leb _ _ = true |- _ => apply N.leb_le in H
    | H : N.ltb _ _ = true |- _ => apply N.ltb_lt in H
    | H : N.leb _ _ = false |- _ => apply N.leb_gt in H
    | H : N.ltb _ _ = false |- _ => apply N.ltb_ge in H
    | H : Z.eqb _ _ = true |- _ => apply Z.eqb_eq in H
    | H : Z.eqb _ _ = false |- _ => apply Z.eqb_neq in H
    | H : Z.leb _ _ = true |- _ => apply Z.leb_le in H
    | H : Z.ltb _ _ = true |- _ => apply Z.ltb_lt in H
    | H : Z.leb _ _ = false |- _ => apply Z.leb_gt in H
    | H : Z.ltb _ _ = false |- _ => apply Z.ltb_ge in H
    end.

(** Case analysis on the first [if] or [match] of the goal, keeping the equation. *)
Ltac cases_goal :=
  match goal with
  | |- context [match ?e with _ => _ end] =>
      lazymatch e with
      | context [match _ with _ => _ end] => fail
      | _ => let E := fresh "E" in destruct e eqn:E
      end
  end.

Ltac cases_in H :=
  match type of H with
  | context [match ?e with _ => _ end] =>
      lazymatch e with
      | context [match _ with _ => _ end] => fail
      | _ => let E := fresh "E" in destruct e eqn:E
      end
  end.

Ltac crush_cases := repeat (cases_goal; simplify_eq/=; try done).

Create HintDb wb.
Create Rewrite HintDb wb.

(** * Lists *)

Section list_lemmas.
Context {A B : Type}.
Implicit Types (l k : list A).

(** The code's [list.find(p)]. *)
Definition find_first (p : A → bool) (l : list A) : option A := List.find p l.

Lemma find_first_Some p l x :
  find_first p l = Some x → x ∈ l ∧ p x = true.
Proof.
  intros H. apply List.find_some in H as [H1 H2].
  split; [by apply list_elem_of_In | done].
Qed.

Lemma find_first_None p l :
  find_first p l = None ↔ ∀ x, x ∈ l → p x = false.
Proof.
  split.
  - intros H x Hx. apply (List.find_none _ _ H). by apply list_elem_of_In.
  - intros H. induction l as [|y l IH]; [done|]. simpl.
    rewrite (H y) by set_solver. apply IH. set_solver.
Qed.

Lemma find_first_app p l k :
  find_first p (l ++ k) =
    match find_first p l with Some x => Some x | None => find_first p k end.
Proof. unfold find_first. induction l as [|x l IH]; simpl; [done|]. by destruct (p x). Qed.

(** Boolean filter, as the code's [list.filter(p)]. *)
Definition filterb (p : A → bool) (l : list A) : list A := List.filter p l.

Lemma elem_of_filterb p l x : x ∈ filterb p l ↔ x ∈ l ∧ p x = true.
Proof. unfold filterb. rewrite !list_elem_of_In. apply List.filter_In. Qed.

Lemma filterb_app p l k : filterb p (l ++ k) = filterb p l ++ filterb p k.
Proof. apply List.filter_app. Qed.

Lemma filterb_cons p x l :
  filterb p (x :: l) = if p x then x :: filterb p l else filterb p l.
Proof. done. Qed.

Lemma filterb_id p l : (∀ x, x ∈ l → p x = true) → filterb p l = l.
Proof.
  induction l as [|x l IH]; intros H; [done|]. rewrite filterb_cons.
  rewrite (H x) by set_solver. f_equal. apply IH. set_solver.
Qed.

Lemma filterb_none p l : (∀ x, x ∈ l → p x = false) → filterb p l = [].
Proof.
  induction l as [|x l IH]; intros H; [done|]. rewrite filterb_cons.
  rewrite (H x) by set_solver. apply IH. set_solver.
Qed.

Lemma filterb_idemp p l : filterb p (filterb p l) = filterb p l.
Proof. apply filterb_id. intros x Hx. by apply elem_of_filterb in Hx as [_ ?]. Qed.

Lemma NoDup_filterb p l : NoDup l → NoDup (filterb p l).
Proof. intros H. unfold filterb. apply NoDup_ListNoDup, List.NoDup_filter. by apply NoDup_ListNoDup. Qed.

Lemma length_filterb_le p l : length (filterb p l) ≤ length l.
Proof. apply List.filter_length_le. Qed.

Lemma filterb_NoDup_fmap p (f : A → B) l : NoDup (f <$> l) → NoDup (f <$> filterb p l).
Proof.
  induction l as [|x l IH]; [done|]. rewrite filterb_cons. cbn.
  intros [Hx Hl]%list.NoDup_cons. destruct (p x); cbn; [|by apply IH].
  apply list.NoDup_cons. split; [|by apply IH].
  intros (y & Heq & Hy)%list_elem_of_fmap. apply Hx. rewrite Heq.
  apply list_elem_of_fmap. exists y. split; [done|]. by apply elem_of_filterb in Hy as [? _].
Qed.

(** The code's [list.some(p)] and [list.every(p)]. *)
Lemma existsb_elem p l : existsb p l = true ↔ ∃ x, x ∈ l ∧ p x = true.
Proof.
  rewrite List.existsb_exists.
  split; intros (x & ? & ?); exists x; split; try done; by apply list_elem_of_In.
Qed.

Lemma existsb_not p l : existsb p l = false ↔ ∀ x, x ∈ l → p x = false.
Proof.
  rewrite <- not_true_iff_false, existsb_elem. split.
  - intros H x Hx. apply not_true_iff_false. intros ?. apply H. eauto.
  - intros H (x & Hx & Hp). rewrite H in Hp by done. done.
Qed.

Lemma forallb_elem p l : forallb p l = true ↔ ∀ x, x ∈ l → p x = true.
Proof.
  rewrite List.forallb_forall.
  split; intros H x Hx; apply H; by apply list_elem_of_In.
Qed.

Lemma NoDup_app_singleton l x : NoDup l → x ∉ l → NoDup (l ++ [x]).
Proof.
  intros Hl Hx. apply NoDup_app. split; [done|]. split; [|apply NoDup_singleton].
  intros y Hy ->%list_elem_of_singleton. done.
Qed.
End list_lemmas.

(** A separator that occurs in neither prefix cuts in one way. *)
Lemma cut_unique {A} (c : A) x y u w :
  c ∉ x → c ∉ y → x ++ c :: u = y ++ c :: w → x = y ∧ u = w.
Proof.
  revert y. induction x as [|a x IH]; intros [|b y] Hx Hy E; injection E.
  - by intros ->.
  - intros _ <-. by apply not_elem_of_cons in Hy as [? _].
  - intros _ ->. by apply not_elem_of_cons in Hx as [? _].
  - intros E' ->. apply not_elem_of_cons in Hx as [_ Hx], Hy as [_ Hy].
    by destruct (IH y Hx Hy E') as [-> ->].
Qed.

Lemma delete_app_l {A} (l k : list A) i : i < length l → delete i (l ++ k) = delete i l ++ k.
Proof.
  revert i. induction l as [|x l IH]; intros [|i] Hi; simpl in *; try done; [lia|lia|].
  f_equal. apply IH. lia.
Qed.

Lemma delete_app_r {A} (l k : list A) i :
  length l ≤ i → delete i (l ++ k) = l ++ delete (i - length l) k.
Proof.
  revert i. induction l as [|x l IH]; intros i Hi; simpl in *; [by rewrite Nat.sub_0_r|].
  destruct i as [|i]; [lia|]. simpl. f_equal. apply IH. lia.
Qed.

Arguments find_first {A} p !l /.
Arguments filterb {A} p !l /.

Lemma filterb_filterb {A} (p q : A → bool) l : filterb p (filterb q l) = filterb (λ x, q x && p x) l.
Proof.
  induction l as [|x l IH]; [done|]. rewrite !filterb_cons.
  destruct (q x); cbn [andb]; [by rewrite filterb_cons, IH | done].
Qed.

Lemma filterb_fmap {A B} (p : B → bool) (f : A → B) l : filterb p (f <$> l) = f <$> filterb (λ x, p (f x)) l.
Proof. induction l as [|x l IH]; [done|]. cbn [fmap list_fmap]. rewrite !filterb_cons, IH. by destruct (p (f x)). Qed.

Lemma find_first_head {A} (p : A → bool) l : find_first p l = head (filterb p l).
Proof. induction l as [|x l IH]; [done|]. rewrite filterb_cons. cbn. by destruct (p x). Qed.

Lemma filterb_ext {A} (p q : A → bool) l : (∀ x, x ∈ l → p x = q x) → filterb p l = filterb q l.
Proof.
  induction l as [|x l IH]; intros Hpq; [done|]. rewrite !filterb_cons.
  rewrite Hpq by by left. rewrite IH by (intros; apply Hpq; by right). done.
Qed.

Lemma filterb_sublist {A} (p : A → bool) l k : sublist l k → sublist (filterb p l) (filterb p k).
Proof.
  induction 1 as [|x l k _ IH|x l k _ IH]; [done|..]; rewrite !filterb_cons; destruct (p x);
    [by constructor|done|by constructor|done].
Qed.

(** The items of a sublist are those the list has in common with it. *)
Lemma filterb_of_sublist {A} `{EqDecision A} (l k : list A) :
  sublist l k → NoDup k → filterb (λ x, bool_decide (x ∈ l)) k = l.
Proof.
  induction 1 as [|x l k Hs IH|x l k Hs IH]; intros Hnd; [done|..];
    apply list.NoDup_cons in Hnd as [Hx Hnd]; rewrite filterb_cons.
  - rewrite bool_decide_eq_true_2 by by left. f_equal. etrans; [|by apply IH]. apply filterb_ext.
    intros y Hy. apply bool_decide_ext. rewrite elem_of_cons. split; [|by right]. by intros [->|].
  - rewrite bool_decide_eq_false_2; [by apply IH|]. intros Hx'. apply Hx. by eapply elem_of_sublist.
Qed.

(** [list.map((x) => x.id === id ? f x : x)], the shape of every keyed update. *)
Definition update_where {A} (p : A → bool) (f : A → A) (l : list A) : list A :=
  (λ x, if p x then f x else x) <$> l.

Lemma length_update_where {A} p (f : A → A) l : length (update_where p f l) = length l.
Proof. apply length_fmap. Qed.

Lemma update_where_fmap {A B} (g : A → B) p f l :
  (∀ x, p x = true → g (f x) = g x) → g <$> update_where p f l = g <$> l.
Proof.
  intros H. unfold update_where. rewrite <- list_fmap_compose.
  apply list_fmap_ext. intros i x _. simpl. destruct (p x) eqn:E; [by apply H | done].
Qed.

#[export] Hint Rewrite @length_update_where @length_fmap @length_app : wb.

(** [[...new Set(list)]]: the first occurrence of each item. *)
Definition unique `{EqDecision A} (l : list A) : list A :=
  foldl (λ acc x, if bool_decide (x ∈ acc) then acc else acc ++ [x]) [] l.

Lemma unique_snoc `{EqDecision A} (l : list A) x :
  unique (l ++ [x]) = if bool_decide (x ∈ unique l) then unique l else unique l ++ [x].
Proof. unfold unique. by rewrite foldl_app. Qed.

Lemma NoDup_unique `{EqDecision A} (l : list A) : NoDup (unique l).
Proof.
  induction l as [|x l IH] using rev_ind; [apply NoDup_nil_2|]. rewrite unique_snoc.
  case_bool_decide; [done|]. by apply NoDup_app_singleton.
Qed.

Lemma elem_of_unique `{EqDecision A} (l : list A) x : x ∈ unique l ↔ x ∈ l.
Proof.
  induction l as [|y l IH] using rev_ind; [done|]. rewrite unique_snoc, elem_of_app, list_elem_of_singleton, <- IH.
  case_bool_decide; [naive_solver|]. by rewrite elem_of_app, list_elem_of_singleton.
Qed.

Lemma unique_app `{EqDecision A} (l k : list A) :
  ∃ r, unique (l ++ k) = unique l ++ r.
Proof.
  induction k as [|y k [r IH]] using rev_ind; [exists []; by rewrite !app_nil_r|].
  rewrite app_assoc, unique_snoc, IH. case_bool_decide; [by exists r|]. exists (r ++ [y]). by rewrite app_assoc.
Qed.

(** * Stable sorting, the code's [list.sort(cmp)] *)

Section sort_by.
Context {A : Type} (cmp : A → A → Z).

Fixpoint insert_by (x : A) (l : list A) : list A :=
  match l with
  | [] => [x]
  | y :: r => if (cmp x y <=? 0)%Z then x :: l else y :: insert_by x r
  end.
Definition sort_by (l : list A) : list A := foldr insert_by [] l.

Definition ordered : relation A := λ x y, (cmp x y <= 0)%Z.

Lemma insert_by_perm x l : insert_by x l ≡ₚ x :: l.
Proof.
  induction l as [|y l IH]; simpl; [done|].
  destruct (cmp x y <=? 0)%Z; [done|]. rewrite IH. apply Permutation_swap.
Qed.

Lemma sort_by_perm l : sort_by l ≡ₚ l.
Proof. induction l as [|x l IH]; simpl; [done|]. by rewrite insert_by_perm, IH. Qed.

Lemma elem_of_sort_by x l : x ∈ sort_by l ↔ x ∈ l.
Proof. by rewrite sort_by_perm. Qed.

Context (Hanti : ∀ a b, Z.sgn (cmp a b) = (- Z.sgn (cmp b a))%Z).
Context (Htrans : ∀ a b c, (cmp a b <= 0 → cmp b c <= 0 → cmp a c <= 0)%Z).

Lemma insert_by_sorted x l : StronglySorted ordered l → StronglySorted ordered (insert_by x l).
Proof.
  induction l as [|y l IH]; intros Hl; simpl.
  - repeat constructor.
  - inversion Hl as [|? ? Hs Hf]; subst.
    destruct (cmp x y <=? 0)%Z eqn:E; bool_to_prop.
    + constructor; [done|]. constructor; [done|].
      eapply Forall_impl; [exact Hf|]. intros z Hz. by eapply Htrans.
    + constructor; [by apply IH|]. rewrite insert_by_perm. constructor; [|done].
      unfold ordered. specialize (Hanti x y). lia.
Qed.

Lemma sort_by_sorted l : StronglySorted ordered (sort_by l).
Proof. induction l as [|x l IH]; simpl; [constructor | by apply insert_by_sorted]. Qed.
End sort_by.
