(* ===== verification/JsString.v ===== *)
(** * JavaScript strings

    A JavaScript string is a sequence of 16-bit code units, here [jstr := list N].
    Literals are written in UTF-8 between double quotes in scope [%js] and are
    decoded to UTF-16, so the lengths and indices of the model are those of the
    program.  The file holds the [String.prototype] operations the source uses
    (trim, split, join, includes, slice, padStart, replace of one character) and
    their lemmas.  Case mapping of non-ASCII text and collation depend on Unicode
    tables and the host's locale data: they are the fields of the class [Unicode],
    whose laws are the documented ASCII behaviour. *)
From Stdlib Require Import Strings.Byte.
From S2P Require Import Prelude.

Abbreviation jstr := (list N).

Declare Scope js_scope.
Delimit Scope js_scope with js.

(** ** Literals: UTF-8 source text to UTF-16 code units *)

Definition utf16_units (cp : N) : jstr :=
  if (cp <? 65536)%N then [cp]
  else let v := (cp - 65536)%N in
       [(55296 + N.shiftr v 10)%N; (56320 + N.land v 1023)%N].

Fixpoint utf8_decode (bs : list N) : jstr :=
  match bs with
  | [] => []
  | b0 :: r0 =>
      if (b0 <? 128)%N then b0 :: utf8_decode r0
      else match r0 with
           | [] => []
           | b1 :: r1 =>
               if (b0 <? 224)%N
               then utf16_units (N.land b0 31 * 64 + N.land b1 63) ++ utf8_decode r1
               else match r1 with
                    | [] => []
                    | b2 :: r2 =>
                        if (b0 <? 240)%N
                        then utf16_units (N.land b0 15 * 4096 + N.land b1 63 * 64
                                          + N.land b2 63) ++ utf8_decode r2
                        else match r2 with
                             | [] => []
                             | b3 :: r3 =>
                                 utf16_units (N.land b0 7 * 262144 + N.land b1 63 * 4096
                                              + N.land b2 63 * 64 + N.land b3 63)
                                   ++ utf8_decode r3
                             end
                    end
           end
  end%N.

Definition js_of_bytes (bs : list byte) : jstr := utf8_decode (Byte.to_N <$> bs).
Definition js_to_bytes (s : jstr) : option (list byte) :=
    if bool_decide (s = []) then None
    else mapM (λ c, if (32 <=? c)%N && (c <? 127)%N then Byte.of_N c else None) s.
  String Notation jstr js_of_bytes js_to_bytes : js_scope.

(** Code units that a literal cannot hold or that are clearer by name. *)
Definition c_nl : N := 10.
Definition c_space : N := 32.
Definition c_dquote : N := 34.
Definition c_quote : N := 39.
Definition c_backtick : N := 96.
Definition c_backslash : N := 92.

(** ** Character classes of the regular expressions and of [trim] *)

(** WhiteSpace and LineTerminator of ECMAScript: the class [\s]. *)
#[local] Open Scope N_scope.
Definition is_ws (c : N) : bool :=
  ((9 <=? c) && (c <=? 13)) || (c =? 32) || (c =? 160) || (c =? 5760)
  || ((8192 <=? c) && (c <=? 8202)) || (c =? 8232) || (c =? 8233) || (c =? 8239)
  || (c =? 8287) || (c =? 12288) || (c =? 65279).
Definition is_line_terminator (c : N) : bool :=
  (c =? 10) || (c =? 13) || (c =? 8232) || (c =? 8233).
Definition is_digit (c : N) : bool := (48 <=? c) && (c <=? 57).
Definition is_upper (c : N) : bool := (65 <=? c) && (c <=? 90).
Definition is_lower (c : N) : bool := (97 <=? c) && (c <=? 122).
Definition is_alpha (c : N) : bool := is_upper c || is_lower c.
(** The class [\w]. *)
Definition is_word (c : N) : bool := is_alpha c || is_digit c || (c =? 95).
Definition is_ascii (c : N) : bool := c <? 128.

Definition upper_char (c : N) : N := if is_lower c then c - 32 else c.
Definition lower_char (c : N) : N := if is_upper c then c + 32 else c.
Definition ascii_upper (s : jstr) : jstr := upper_char <$> s.
Definition ascii_lower (s : jstr) : jstr := lower_char <$> s.

#[local] Close Scope N_scope.

(** ** Operations *)

(** [s.replace(/\s+/g, ' ')]. *)
Fixpoint collapse_ws (s : jstr) : jstr :=
  match s with
  | [] => []
  | c :: r =>
      if is_ws c
      then match r with d :: _ => if is_ws d then collapse_ws r else 32%N :: collapse_ws r | [] => [32%N] end
      else c :: collapse_ws r
  end.

Fixpoint trim_start (s : jstr) : jstr :=
  match s with
  | [] => []
  | c :: r => if is_ws c then trim_start r else s
  end.
Definition trim_end (s : jstr) : jstr := reverse (trim_start (reverse s)).
Definition trim (s : jstr) : jstr := trim_end (trim_start s).

(** [Boolean(s)] of a string. *)
Definition truthy (s : jstr) : bool := match s with [] => false | _ => true end.
(** [a || b] on strings. *)
Definition or_else (a b : jstr) : jstr := if truthy a then a else b.

Fixpoint starts_with (p s : jstr) : bool :=
  match p, s with
  | [], _ => true
  | _ :: _, [] => false
  | a :: p', c :: s' => (a =? c)%N && starts_with p' s'
  end.

(** [s.includes(p)]. *)
Fixpoint includes (p s : jstr) : bool :=
  starts_with p s || match s with [] => false | _ :: s' => includes p s' end.

(** [s.split(sep)]: the empty separator splits into code units. *)
Fixpoint split_go (sep s : jstr) (skip : nat) : list jstr :=
  match s with
  | [] => [[]]
  | c :: s' =>
      match skip with
      | S k => split_go sep s' k
      | O =>
          if starts_with sep s then [] :: split_go sep s' (length sep - 1)
          else match split_go sep s' 0 with
               | h :: t => (c :: h) :: t
               | [] => [[c]]
               end
      end
  end.
Definition split (sep s : jstr) : list jstr :=
  match sep with
  | [] => (λ c, [c]) <$> s
  | _ => split_go sep s 0
  end.

(** [parts.join(sep)]. *)
Fixpoint join (sep : jstr) (parts : list jstr) : jstr :=
  match parts with
  | [] => []
  | [p] => p
  | p :: ps => p ++ sep ++ join sep ps
  end.

(** [s.replace(/c/g, r)] for one literal character [c]. *)
Definition replace_char (c : N) (r s : jstr) : jstr :=
  s ≫= λ x, if (x =? c)%N then r else [x].

(** [s.padStart(n, fill)] for a one-character fill. *)
Definition pad_start (n : nat) (fill : N) (s : jstr) : jstr :=
  replicate (n - length s) fill ++ s.

(** [s.lastIndexOf(p)], [None] standing for -1; [i] is the index of the text's start. *)
Fixpoint last_index_from (p s : jstr) (i : nat) : option nat :=
  match s with
  | [] => if starts_with p [] then Some i else None
  | _ :: s' =>
      match last_index_from p s' (S i) with
      | Some j => Some j
      | None => if starts_with p s then Some i else None
      end
  end.
Definition lastIndexOf (p s : jstr) : option nat := last_index_from p s 0.

(** [s.slice(i)]. *)
Definition slice_from (i : nat) (s : jstr) : jstr := drop i s.

(** ** Unicode case mapping and collation of the host *)

Class Unicode := {
    toLowerCase : jstr → jstr;
    toUpperCase : jstr → jstr;
    (** The sign of [a.localeCompare(b)]. *)
    localeCompare : jstr → jstr → Z;
    lower_ascii : ∀ s, forallb is_ascii s = true → toLowerCase s = ascii_lower s;
    upper_ascii : ∀ s, forallb is_ascii s = true → toUpperCase s = ascii_upper s;
    lower_empty : ∀ s, toLowerCase s = [] → s = [];
    compare_refl : ∀ a, localeCompare a a = 0%Z;
    compare_antisym : ∀ a b, Z.sgn (localeCompare a b) = (- Z.sgn (localeCompare b a))%Z;
    compare_trans : ∀ a b c,
        (localeCompare a b <= 0)%Z → (localeCompare b c <= 0)%Z → (localeCompare a c <= 0)%Z;
  }.

(** A host whose case mapping stops at ASCII and whose collation compares code
    units: the instance on which the examples and witnesses evaluate. *)
Fixpoint compare_units (a b : jstr) : Z :=
  match a, b with
  | [], [] => 0
  | [], _ :: _ => -1
  | _ :: _, [] => 1
  | x :: a', y :: b' =>
      if (x =? y)%N then compare_units a' b' else if (x <? y)%N then -1 else 1
  end%Z.

Lemma compare_units_refl a : compare_units a a = 0%Z.
Proof. induction a as [|x a IH]; simpl; [done|]. by rewrite N.eqb_refl. Qed.

Lemma compare_units_antisym a b :
  Z.sgn (compare_units a b) = (- Z.sgn (compare_units b a))%Z.
Proof.
  revert b. induction a as [|x a IH]; intros [|y b]; simpl; try done.
  rewrite (N.eqb_sym y x). destruct (N.eqb_spec x y); [apply IH|].
  destruct (N.ltb_spec x y), (N.ltb_spec y x); simpl; lia.
Qed.

Lemma compare_units_trans a b c :
  (compare_units a b <= 0 → compare_units b c <= 0 → compare_units a c <= 0)%Z.
Proof.
  revert b c. induction a as [|x a IH]; intros [|y b] [|z c]; simpl; try lia.
  destruct (N.eqb_spec x y), (N.eqb_spec y z), (N.eqb_spec x z);
    repeat match goal with |- context [(?m <? ?n)%N] => destruct (N.ltb_spec m n) end;
    subst; try lia; try (intros; eapply IH; eassumption).
Qed.

Definition ascii_unicode : Unicode.
Proof.
  refine {| toLowerCase := ascii_lower; toUpperCase := ascii_upper;
            localeCompare := compare_units |}; try done.
  - intros [|c s]; done.
  - apply compare_units_refl.
  - apply compare_units_antisym.
  - apply compare_units_trans.
Defined.

(** ** Lemmas on trimming *)

Lemma trim_start_no_ws s :
  trim_start s = s ↔ match s with [] => True | c :: _ => is_ws c = false end.
Proof.
  destruct s as [|c r]; simpl; [done|]. destruct (is_ws c) eqn:E; [|done].
  split; [|done]. intros H. exfalso.
  assert (Hlen : ∀ l, length (trim_start l) ≤ length l).
  { induction l as [|d l IH]; simpl; [lia|]. destruct (is_ws d); simpl; lia. }
  specialize (Hlen r). rewrite H in Hlen. simpl in Hlen. lia.
Qed.

Lemma trim_start_idemp s : trim_start (trim_start s) = trim_start s.
Proof. induction s as [|c s IH]; simpl; [done|]. destruct (is_ws c) eqn:E; [done|]. simpl. by rewrite E. Qed.

Lemma trim_start_suffix s : ∃ p, s = p ++ trim_start s ∧ Forall (λ c, is_ws c = true) p.
Proof.
  induction s as [|c s (p & Hp & Hw)]; simpl; [by exists []|].
  destruct (is_ws c) eqn:E; [|by exists []].
  exists (c :: p). simpl. split; [by f_equal | by constructor].
Qed.

Lemma trim_none s : Forall (λ c, is_ws c = false) s → trim s = s.
Proof.
  intros H. unfold trim, trim_end.
  assert (trim_start s = s) as -> by (apply trim_start_no_ws; by inversion H).
  assert (trim_start (reverse s) = reverse s) as ->; [|by rewrite reverse_involutive].
  apply trim_start_no_ws. apply Forall_reverse in H. destruct (reverse s); [done|]. by inversion H.
Qed.

Lemma trim_start_head s c r : trim_start s = c :: r → is_ws c = false.
Proof.
  induction s as [|d s IH]; simpl; [done|].
  destruct (is_ws d) eqn:E; [done|]. by intros [= -> ->].
Qed.

(** Trimming the end keeps the head of a string that does not start with a space. *)
Lemma trim_end_prefix s : ∃ q, s = trim_end s ++ q ∧ Forall (λ c, is_ws c = true) q.
Proof.
  destruct (trim_start_suffix (reverse s)) as (p & Hp & Hw).
  exists (reverse p). split; [|by apply Forall_reverse].
  rewrite <- (reverse_involutive s), Hp at 1. by rewrite reverse_app.
Qed.

Lemma trim_idemp s : trim (trim s) = trim s.
Proof.
  unfold trim at 1. assert (trim_start (trim s) = trim s) as ->.
  { apply trim_start_no_ws. destruct (trim s) as [|c r] eqn:E; [done|].
    unfold trim in E. destruct (trim_end_prefix (trim_start s)) as (q & Hq & _).
    rewrite E in Hq. simpl in Hq. by eapply trim_start_head. }
  unfold trim, trim_end. by rewrite reverse_involutive, trim_start_idemp.
Qed.

Lemma trim_decompose s : ∃ p q,
  s = p ++ trim s ++ q ∧ Forall (λ c, is_ws c = true) p ∧ Forall (λ c, is_ws c = true) q.
Proof.
  destruct (trim_start_suffix s) as (p & Hp & Hwp).
  destruct (trim_end_prefix (trim_start s)) as (q & Hq & Hwq).
  exists p, q. split; [|done]. unfold trim. rewrite <- Hq. done.
Qed.

(** ** Lemmas on [split] and [join] *)

Lemma split_go_skip sep s k : split_go sep s k = split_go sep (drop k s) 0.
Proof.
  revert k. induction s as [|c s IH]; intros [|k]; simpl; try done.
Qed.

Lemma split_go_nonempty sep s k : split_go sep s k ≠ [].
Proof.
  revert k. induction s as [|c s IH]; intros k; [done|].
  destruct k as [|k]; [|apply IH]. cbn [split_go].
  destruct (starts_with sep (c :: s)); [done|].
  destruct (split_go sep s 0); done.
Qed.

Lemma starts_with_app p s : starts_with p s = true ↔ ∃ r, s = p ++ r.
Proof.
  revert s. induction p as [|a p IH]; intros s; simpl; [by split; eauto|].
  destruct s as [|c s]; [split; [done | intros (r & ?); done]|].
  rewrite andb_true_iff, N.eqb_eq, IH. split.
  - intros [-> (r & ->)]. by exists r.
  - intros (r & [= -> ->]). eauto.
Qed.

Lemma join_cons sep p ps : ps ≠ [] → join sep (p :: ps) = p ++ sep ++ join sep ps.
Proof. by destruct ps. Qed.

Lemma join_app sep ps qs :
  ps ≠ [] → qs ≠ [] → join sep (ps ++ qs) = join sep ps ++ sep ++ join sep qs.
Proof.
  intros Hp Hq. induction ps as [|p [|p' ps] IH]; [done| |].
  - simpl app. by rewrite join_cons.
  - rewrite <- app_comm_cons, join_cons by (simpl; done).
    rewrite IH, (join_cons sep p (p' :: ps)) by done. by rewrite <- !app_assoc.
Qed.

Lemma join_head sep c h t : join sep ((c :: h) :: t) = c :: join sep (h :: t).
Proof. by destruct t. Qed.

(** Splitting and joining by the same separator gives the string back. *)
Lemma join_split sep s : sep ≠ [] → join sep (split sep s) = s.
Proof.
  intros Hsep. assert (∀ n t, length t ≤ n → join sep (split_go sep t 0) = t) as H;
    [|destruct sep; [done | by eapply H]].
  induction n as [|n IH]; intros [|c t] Hlen; simpl in Hlen; try done; [lia|].
  change (split_go sep (c :: t) 0) with
    (if starts_with sep (c :: t) then [] :: split_go sep t (length sep - 1)
     else match split_go sep t 0 with h :: u => (c :: h) :: u | [] => [[c]] end).
  destruct (starts_with sep (c :: t)) eqn:E.
  - apply starts_with_app in E as (r & Hr).
    rewrite join_cons by apply split_go_nonempty. rewrite split_go_skip. simpl app.
    destruct sep as [|a sep]; [done|]. simpl in Hr. injection Hr as -> ->.
    simpl length. rewrite Nat.sub_succ, Nat.sub_0_r, drop_app_length.
    rewrite IH by (rewrite length_app in Hlen; lia). done.
  - destruct (split_go sep t 0) as [|h u] eqn:Eu; [by apply split_go_nonempty in Eu|].
    rewrite join_head, <- Eu, IH by lia. done.
Qed.

(** The one-character separator. *)
Lemma split_char_nil c : split [c] [] = [[]].
Proof. done. Qed.

Lemma split_char_cons c x s :
  split [c] (x :: s) =
    if (c =? x)%N then [] :: split [c] s
    else match split [c] s with h :: t => (x :: h) :: t | [] => [[x]] end.
Proof. unfold split. simpl. rewrite andb_true_r. by destruct (c =? x)%N. Qed.

Lemma split_char_no c s : c ∉ s → split [c] s = [s].
Proof.
  induction s as [|x s IH]; intros H; [done|]. rewrite split_char_cons.
  apply not_elem_of_cons in H as [Hx Hs].
  destruct (N.eqb_spec c x) as [->|_]; [done|]. by rewrite IH.
Qed.

Lemma split_char_app c s t : c ∉ s → split [c] (s ++ c :: t) = s :: split [c] t.
Proof.
  induction s as [|x s IH]; intros H; simpl app; rewrite split_char_cons.
  - by rewrite N.eqb_refl.
  - apply not_elem_of_cons in H as [Hx Hs].
    destruct (N.eqb_spec c x) as [->|_]; [done|]. by rewrite IH.
Qed.

Lemma split_join c ps :
  ps ≠ [] → Forall (λ p, c ∉ p) ps → split [c] (join [c] ps) = ps.
Proof.
  induction ps as [|p [|q ps] IH]; intros Hne HF; [done| |].
  - simpl. apply split_char_no. by inversion HF.
  - rewrite join_cons by done. inversion HF; subst. simpl app.
    rewrite split_char_app by done. f_equal. by apply IH.
Qed.

Lemma split_char_parts c s p : p ∈ split [c] s → c ∉ p.
Proof.
  revert p. induction s as [|x s IH]; intros p.
  - intros ->%list_elem_of_singleton. apply not_elem_of_nil.
  - rewrite split_char_cons. destruct (N.eqb_spec c x) as [->|Hne].
    + intros [->|Hp]%elem_of_cons; [apply not_elem_of_nil | by apply IH].
    + destruct (split [c] s) as [|h t].
      * intros ->%list_elem_of_singleton. set_solver.
      * intros [->|Hp]%elem_of_cons; [|apply IH; set_solver].
        specialize (IH h). set_solver.
Qed.

#[export] Hint Resolve split_go_nonempty : wb.

Lemma elem_of_starts_with p s c : starts_with p s = true → c ∈ p → c ∈ s.
Proof. intros (r & ->)%starts_with_app. set_solver. Qed.

(** A text without one of the pattern's characters does not contain the pattern. *)
Lemma includes_no_char p s c : c ∈ p → c ∉ s → includes p s = false.
Proof.
  intros Hp. induction s as [|x s IH]; intros Hs; simpl.
  - destruct p; [set_solver|done].
  - apply orb_false_iff. split; [|apply IH; set_solver].
    apply not_true_iff_false. intros Ht. apply Hs. by eapply elem_of_starts_with.
Qed.

Lemma ascii_upper_app s t : ascii_upper (s ++ t) = ascii_upper s ++ ascii_upper t.
Proof. apply fmap_app. Qed.

Lemma trim_id s :
  match s with [] => True | c :: _ => is_ws c = false end →
  match last s with Some c => is_ws c = false | None => True end →
  trim s = s.
Proof.
  intros Hh Hl. unfold trim. assert (trim_start s = s) as -> by by apply trim_start_no_ws.
  unfold trim_end. assert (trim_start (reverse s) = reverse s) as ->; [|apply reverse_involutive].
  apply trim_start_no_ws.
  destruct s as [|c s] using rev_ind; [done|]. rewrite reverse_snoc.
  by rewrite last_snoc in Hl.
Qed.

Lemma last_index_from_no c s i : c ∉ s → last_index_from [c] s i = None.
Proof.
  revert i. induction s as [|x s IH]; intros i H; [done|]. apply not_elem_of_cons in H as [Hx Hs].
  cbn [last_index_from]. rewrite IH by done. simpl. by destruct (N.eqb_spec c x).
Qed.

Lemma last_index_from_app c s r i :
  c ∉ r → last_index_from [c] (s ++ c :: r) i = Some (i + length s).
Proof.
  intros Hr. revert i. induction s as [|x s IH]; intros i.
  - cbn [app last_index_from]. rewrite last_index_from_no by done. simpl. rewrite N.eqb_refl. f_equal. lia.
  - cbn [app last_index_from]. rewrite IH. f_equal. simpl. lia.
Qed.

(** The last part of a split. *)
Lemma split_char_snoc c s r : c ∉ r → split [c] (s ++ c :: r) = split [c] s ++ [r].
Proof.
  intros Hr. induction s as [|x s IH]; cbn [app].
  - rewrite split_char_cons, N.eqb_refl. by rewrite split_char_no.
  - rewrite !split_char_cons, IH. destruct (c =? x)%N; [done|].
    destruct (split [c] s) as [|h t] eqn:E; [|done]. exfalso. by apply (split_go_nonempty [c] s 0).
Qed.

Lemma includes_char c s : includes [c] s = bool_decide (c ∈ s).
Proof.
  induction s as [|x s IH]; [symmetry; by apply bool_decide_eq_false_2, not_elem_of_nil|].
  cbn [includes starts_with]. rewrite IH, andb_true_r. destruct (N.eqb_spec c x) as [->|Hne]; cbn [orb].
  - symmetry. apply bool_decide_eq_true_2. by left.
  - apply bool_decide_ext. rewrite elem_of_cons. naive_solver.
Qed.

(** A text with the separator, cut at its last occurrence. *)
Lemma last_cut c (s : jstr) : c ∈ s → ∃ a b, s = a ++ c :: b ∧ c ∉ b.
Proof.
  induction s as [|x s IH] using rev_ind; intros H; [by apply elem_of_nil in H|].
  destruct (decide (x = c)) as [->|Hne].
  - exists s, []. split; [done|apply not_elem_of_nil].
  - apply elem_of_app in H as [H| ->%list_elem_of_singleton]; [|done].
    destruct (IH H) as (a & b & -> & Hb). exists a, (b ++ [x]). rewrite <- app_assoc. split; [done|].
    rewrite elem_of_app, list_elem_of_singleton. naive_solver.
Qed.

(** [s.includes(c) ? s.slice(s.lastIndexOf(c) + 1) : s] is the last part of [s.split(c)]. *)
Lemma last_part c s :
  last (split [c] s) =
    Some (if includes [c] s then slice_from (match lastIndexOf [c] s with Some i => S i | None => 0 end) s else s).
Proof.
  rewrite includes_char. destruct (decide (c ∈ s)) as [Hc|Hc].
  - rewrite bool_decide_eq_true_2 by done. destruct (last_cut c s Hc) as (a & b & -> & Hb).
    rewrite split_char_snoc, last_snoc by done. unfold lastIndexOf, slice_from.
    rewrite last_index_from_app by done. cbn [from_option]. f_equal.
    cbn [Nat.add]. rewrite <- Nat.add_1_r. symmetry. apply (drop_app_add a (c :: b) 1).
  - rewrite bool_decide_eq_false_2 by done. by rewrite split_char_no.
Qed.
