(* ===== verification/JsNumber.v ===== *)
(** * JavaScript numbers

    The [number] type is IEEE 754 binary64.  A finite value is kept as the exact
    dyadic [m * 2^e] in canonical form ([e <= 0], and [m] odd when [e < 0]), so
    that an integer [n] is [num n = Fin n 0] and equality is structural.  Every
    operation computes exactly and rounds once, to nearest with ties to even.
    [to_number] is [Number(text)] ([StringToNumber], with its decimal, hexadecimal,
    octal and binary literals), [number_to_string] is [String(n)], the shortest
    digits that read back as the same number. *)
From S2P Require Import Prelude JsString.

#[local] Open Scope Z_scope.

Inductive number :=
| NaN
| Infinity (neg : bool)
| NegZero
| Fin (m e : Z).

#[export] Instance number_eq_dec : EqDecision number.
Proof. solve_decision. Defined.

Abbreviation num n := (Fin n 0).

Definition max_safe : Z := 9007199254740991.

(** ** Rounding *)

Fixpoint strip2 (fuel : nat) (m e : Z) : Z * Z :=
  match fuel with
  | O => (m, e)
  | S f => if (e <? 0) && Z.even m then strip2 f (m / 2) (e + 1) else (m, e)
  end.

(** [a / 2^s] for [a >= 0], to nearest, ties to even. *)
Definition rne (a s : Z) : Z :=
  let f := 2 ^ s in
  let q := a / f in
  let r := a mod f in
  if 2 * r <? f then q
  else if f <? 2 * r then q + 1
  else if Z.even q then q else q + 1.

(** The double nearest to [m * 2^e] ([m <> 0]). *)
Definition round_dyadic (m e : Z) : number :=
  let a := Z.abs m in
  let q := Z.max e (Z.max (Z.log2 a + 1 + e - 53) (-1074)) in
  let v := if q =? e then a else rne a (q - e) in
  if v =? 0 then (if m <? 0 then NegZero else num 0)
  else if 0 <=? q
       then let w := v * 2 ^ q in
            if 2 ^ 1024 <=? w then Infinity (m <? 0) else num (Z.sgn m * w)
       else let '(v', q') := strip2 (Z.to_nat (- q)) v q in Fin (Z.sgn m * v') q'.

Definition of_dyadic (m e : Z) : number := if m =? 0 then num 0 else round_dyadic m e.

(** The double nearest to [n / d] ([n >= 0], [d > 0]): the quotient is computed with
    at least 55 bits and a sticky bit, then rounded once. *)
Definition round_ratio (n d : Z) : number :=
  if n =? 0 then num 0
  else let s := Z.max 0 (56 + Z.log2 d - Z.log2 n) in
       let q := (n * 2 ^ s) / d in
       let r := (n * 2 ^ s) mod d in
       round_dyadic (2 * q + (if r =? 0 then 0 else 1)) (- s - 1).

(** ** Arithmetic and comparison *)

Definition is_neg (x : number) : bool :=
  match x with Infinity b => b | NegZero => true | Fin m _ => m <? 0 | NaN => false end.

Definition neg (x : number) : number :=
  match x with
  | NaN => NaN
  | Infinity b => Infinity (negb b)
  | NegZero => num 0
  | Fin m e => if m =? 0 then NegZero else Fin (- m) e
  end.

Definition mul (x y : number) : number :=
  match x, y with
  | NaN, _ | _, NaN => NaN
  | Infinity b, Infinity c => Infinity (xorb b c)
  | Infinity b, NegZero | NegZero, Infinity b => NaN
  | Infinity b, Fin m _ | Fin m _, Infinity b =>
      if m =? 0 then NaN else Infinity (xorb b (m <? 0))
  | NegZero, _ | _, NegZero => if xorb (is_neg x) (is_neg y) then NegZero else num 0
  | Fin m e, Fin m' e' =>
      if m * m' =? 0
      then (if xorb (is_neg x) (is_neg y) then NegZero else num 0)
      else round_dyadic (m * m') (e + e')
  end.

Definition add (x y : number) : number :=
  match x, y with
  | NaN, _ | _, NaN => NaN
  | Infinity b, Infinity c => if Bool.eqb b c then Infinity b else NaN
  | Infinity b, _ | _, Infinity b => Infinity b
  | NegZero, _ => y
  | _, NegZero => x
  | Fin m e, Fin m' e' =>
      let k := Z.min e e' in of_dyadic (m * 2 ^ (e - k) + m' * 2 ^ (e' - k)) k
  end.
Definition sub (x y : number) : number := add x (neg y).

(** [Some c] with the order of two comparable numbers, [None] when one is NaN. *)
Definition num_compare (x y : number) : option comparison :=
  match x, y with
  | NaN, _ | _, NaN => None
  | Infinity b, Infinity c =>
      Some (match b, c with true, false => Lt | false, true => Gt | _, _ => Eq end)
  | Infinity b, _ => Some (if b then Lt else Gt)
  | _, Infinity b => Some (if b then Gt else Lt)
  | NegZero, NegZero => Some Eq
  | NegZero, Fin m _ => Some (0 ?= m)
  | Fin m _, NegZero => Some (m ?= 0)
  | Fin m e, Fin m' e' =>
      let k := Z.min e e' in Some (m * 2 ^ (e - k) ?= m' * 2 ^ (e' - k))
  end.
Definition num_lt (x y : number) : bool :=
  match num_compare x y with Some Lt => true | _ => false end.
Definition num_le (x y : number) : bool :=
  match num_compare x y with Some Lt | Some Eq => true | _ => false end.
(** [x === y]. *)
Definition num_eq (x y : number) : bool :=
  match num_compare x y with Some Eq => true | _ => false end.

(** [Math.max(x, y)]. *)
Definition num_max (x y : number) : number :=
  match num_compare x y with
  | None => NaN
  | Some Lt => y
  | Some Gt => x
  | Some Eq => match x with NegZero => y | _ => x end
  end.

(** [Number.isInteger(x)] and [Boolean(x)]. *)
Definition is_integer (x : number) : bool :=
  match x with NegZero => true | Fin _ e => e =? 0 | _ => false end.
Definition num_truthy (x : number) : bool :=
  match x with NaN | NegZero => false | Fin m _ => negb (m =? 0) | Infinity _ => true end.

(** ** Decimal text *)

Fixpoint dec_go (fuel : nat) (n : Z) (acc : jstr) : jstr :=
  match fuel with
  | O => acc
  | S f =>
      let acc' := (48 + Z.to_N (n mod 10))%N :: acc in
      if n / 10 =? 0 then acc' else dec_go f (n / 10) acc'
  end.
(** The decimal digits of [n >= 0]. *)
Definition dec_digits (n : Z) : jstr := dec_go (S (Z.to_nat (Z.log2 n))) n [].
Definition dec_Z (n : Z) : jstr :=
  if n <? 0 then 45%N :: dec_digits (- n) else dec_digits n.

(** The value of a run of digits, after the value [acc] of those before it. *)
Definition digits_value (base : Z) (digit : N → option Z) (acc : Z) (s : jstr) : option Z :=
  foldl (λ a c, a ← a; d ← digit c; Some (a * base + d)) (Some acc) s.

Definition dec_digit (c : N) : option Z :=
  if is_digit c then Some (Z.of_N c - 48) else None.
Definition hex_digit (c : N) : option Z :=
  if is_digit c then Some (Z.of_N c - 48)
  else if (97 <=? c)%N && (c <=? 102)%N then Some (Z.of_N c - 87)
  else if (65 <=? c)%N && (c <=? 70)%N then Some (Z.of_N c - 55) else None.
Definition small_digit (base : Z) (c : N) : option Z :=
  d ← dec_digit c; if d <? base then Some d else None.

Fixpoint span_digits (s : jstr) : jstr * jstr :=
  match s with
  | c :: r => if is_digit c then let '(d, t) := span_digits r in (c :: d, t) else ([], s)
  | [] => ([], [])
  end.

(** [m * 10^e] rounded. *)
Definition of_decimal (m e : Z) : number :=
  if 0 <=? e then of_dyadic (m * 10 ^ e) 0 else round_ratio m (10 ^ (- e)).

(** The optional exponent part of a decimal literal; [None] when the text that is
    left is not one. *)
Definition parse_exponent (s : jstr) : option Z :=
  match s with
  | [] => Some 0
  | c :: r =>
      if ((c =? 101) || (c =? 69))%N then
        let '(sg, ds) := match r with
                         | 43%N :: r' => (1, r')
                         | 45%N :: r' => (-1, r')
                         | _ => (1, r)
                         end in
        match ds with
        | [] => None
        | _ => v ← digits_value 10 dec_digit 0 ds; Some (sg * v)
        end
      else None
  end.

Definition parse_unsigned (s : jstr) : number :=
  if bool_decide (s = "Infinity"%js) then Infinity false
  else
    let '(ip, r) := span_digits s in
    let '(fp, r') := match r with 46%N :: t => span_digits t | _ => ([], r) end in
    match ip, fp with
    | [], [] => NaN
    | _, _ =>
        match parse_exponent r', digits_value 10 dec_digit 0 (ip ++ fp) with
        | Some e, Some v => of_decimal v (e - Z.of_nat (length fp))
        | _, _ => NaN
        end
    end.

Definition radix_value (base : Z) (digit : N → option Z) (s : jstr) : number :=
  match s with
  | [] => NaN
  | _ => match digits_value base digit 0 s with Some v => of_dyadic v 0 | None => NaN end
  end.

(** [Number(text)]. *)
Definition to_number (text : jstr) : number :=
  match trim text with
  | [] => num 0
  | 48%N :: 120%N :: r | 48%N :: 88%N :: r => radix_value 16 hex_digit r
  | 48%N :: 111%N :: r | 48%N :: 79%N :: r => radix_value 8 (small_digit 8) r
  | 48%N :: 98%N :: r | 48%N :: 66%N :: r => radix_value 2 (small_digit 2) r
  | 45%N :: r => neg (parse_unsigned r)
  | 43%N :: r => parse_unsigned r
  | s => parse_unsigned s
  end.

(** [Number.parseInt(text, 10)]: an optional sign and the longest run of digits. *)
Definition parse_int10 (text : jstr) : number :=
  let run s := match span_digits s with
               | ([], _) => NaN
               | (ds, _) => match digits_value 10 dec_digit 0 ds with
                            | Some v => of_dyadic v 0
                            | None => NaN
                            end
               end in
  match trim_start text with
  | 45%N :: r => neg (run r)
  | 43%N :: r => run r
  | s => run s
  end.

(** ** [String(n)] *)

(** [n] with [10^(n-1) <= p/q < 10^n], for [p, q > 0]. *)
Fixpoint leading_zeros (fuel : nat) (p q : Z) : Z :=
  match fuel with
  | O => 0
  | S f => if q <=? 10 * p then 0 else 1 + leading_zeros f (10 * p) q
  end.
Definition point_position (p q : Z) : Z :=
  if q <=? p then Z.of_nat (length (dec_digits (p / q))) else - leading_zeros 330 p q.

(** The integer [s] of [k] digits with [s * 10^(n-k)] reading back as [x = p/q], the
    nearest to [x] if there are two. *)
Definition shortest_with (x : number) (p q n k : Z) : option Z :=
  let a := if 0 <=? k - n then p * 10 ^ (k - n) else p in
  let b := if 0 <=? k - n then q else q * 10 ^ (n - k) in
  let f := a / b in
  let ok s := bool_decide (of_decimal s (n - k) = x) in
  let nearer := 2 * (a mod b) <=? b in
  if nearer then (if ok f then Some f else if ok (f + 1) then Some (f + 1) else None)
  else (if ok (f + 1) then Some (f + 1) else if ok f then Some f else None).

Fixpoint shortest (x : number) (p q n : Z) (fuel : nat) (k : Z) : Z * Z :=
  match fuel with
  | O => (p / q, k)
  | S f => match shortest_with x p q n k with
           | Some s => (s, k)
           | None => shortest x p q n f (k + 1)
           end
  end.

Definition zeros (k : Z) : jstr := replicate (Z.to_nat k) 48%N.

Definition format_number (s k n : Z) : jstr :=
  let ds := dec_digits s in
  if (k <=? n) && (n <=? 21) then ds ++ zeros (n - k)
  else if (0 <? n) && (n <=? 21)
       then take (Z.to_nat n) ds ++ 46%N :: drop (Z.to_nat n) ds
  else if (-6 <? n) && (n <=? 0) then "0."%js ++ zeros (- n) ++ ds
  else let e := n - 1 in
       let sign := if e <? 0 then "e-"%js else "e+"%js in
       match ds with
       | [d] => d :: sign ++ dec_digits (Z.abs e)
       | d :: r => d :: 46%N :: r ++ sign ++ dec_digits (Z.abs e)
       | [] => []
       end.

Definition number_to_string (x : number) : jstr :=
  match x with
  | NaN => "NaN"%js
  | Infinity b => if b then "-Infinity"%js else "Infinity"%js
  | NegZero => "0"%js
  | Fin m e =>
      if (e =? 0) && (Z.abs m <=? max_safe) then dec_Z m
      else
        let p := if 0 <=? e then Z.abs m * 2 ^ e else Z.abs m in
        let q := if 0 <=? e then 1 else 2 ^ (- e) in
        let n := point_position p q in
        let '(s, k) := shortest (Fin (Z.abs m) e) p q n 17 1 in
        (if m <? 0 then [45%N] else []) ++ format_number s k n
  end.

(** [(n / d).toFixed(1)] for whole [n] not negative and [d] a power of two: the quotient is
    exact, and the larger of two equally near decimals is taken. *)
Definition to_fixed1 (n d : Z) : jstr :=
  let tenths := (20 * n + d) / (2 * d) in dec_Z (tenths / 10) ++ "."%js ++ dec_Z (tenths mod 10).

(** Evaluations against the language. *)
Example to_number_ex1 : to_number "9007199254740993"%js = num 9007199254740992.
Proof. vm_compute. reflexivity. Qed.
Example to_number_ex2 : number_to_string (to_number "0.1"%js) = "0.1"%js.
Proof. vm_compute. reflexivity. Qed.
Example to_number_ex3 : number_to_string (add (to_number "0.1"%js) (to_number "0.2"%js)) = "0.30000000000000004"%js.
Proof. vm_compute. reflexivity. Qed.
Example to_number_ex4 : number_to_string (to_number " 1e21 "%js) = "1e+21"%js.
Proof. vm_compute. reflexivity. Qed.
Example to_number_ex5 : number_to_string (to_number "1152921504606846976"%js) = "1152921504606847000"%js.
Proof. vm_compute. reflexivity. Qed.
Example to_number_ex6 : number_to_string (to_number "-1.5e-9"%js) = "-1.5e-9"%js.
Proof. vm_compute. reflexivity. Qed.
Example to_number_ex7 : to_number "0x1F90"%js = num 8080 ∧ to_number "12px"%js = NaN ∧ to_number ""%js = num 0.
Proof. vm_compute. done. Qed.
Example to_number_ex8 : number_to_string (to_number "5e-324"%js) = "5e-324"%js.
Proof. vm_compute. reflexivity. Qed.
Example to_number_ex9 : number_to_string (to_number "1.7976931348623157e308"%js) = "1.7976931348623157e+308"%js
  ∧ to_number "1.7976931348623159e308"%js = Infinity false.
Proof. vm_compute. done. Qed.
Example to_number_ex10 : number_to_string (to_number "123456.789"%js) = "123456.789"%js.
Proof. vm_compute. reflexivity. Qed.

(** ** Exactness on safe integers *)

Lemma log2_safe a : 0 < a → a <= max_safe → Z.log2 a < 53.
Proof. intros H1 H2. apply Z.log2_lt_pow2; [done|]. unfold max_safe in H2. lia. Qed.

Lemma round_dyadic_safe m : m ≠ 0 → Z.abs m <= max_safe → round_dyadic m 0 = num m.
Proof.
  intros Hm Hs. unfold round_dyadic.
  assert (Z.log2 (Z.abs m) < 53) by (apply log2_safe; lia).
  assert (Z.max 0 (Z.max (Z.log2 (Z.abs m) + 1 + 0 - 53) (-1074)) = 0) as -> by lia.
  rewrite Z.eqb_refl. destruct (Z.eqb_spec (Z.abs m) 0); [lia|].
  rewrite Z.leb_refl, Z.mul_1_r. destruct (Z.leb_spec (2 ^ 1024) (Z.abs m)) as [Hle|_].
  - exfalso. assert (max_safe < 2 ^ 1024) by (vm_compute; reflexivity). lia.
  - f_equal. rewrite Z.mul_comm. apply Z.abs_sgn.
Qed.

Lemma of_dyadic_safe m : Z.abs m <= max_safe → of_dyadic m 0 = num m.
Proof.
  intros H. unfold of_dyadic. destruct (Z.eqb_spec m 0) as [->|]; [done|].
  by apply round_dyadic_safe.
Qed.

Lemma mul_safe a b :
  0 <= a → 0 <= b → a * b <= max_safe → mul (num a) (num b) = num (a * b).
Proof.
  intros Ha Hb Hs. unfold mul. destruct (Z.eqb_spec (a * b) 0) as [->|].
  - simpl. destruct (Z.ltb_spec a 0), (Z.ltb_spec b 0); try lia. done.
  - apply round_dyadic_safe; [done|]. rewrite Z.abs_eq; lia.
Qed.

Lemma add_safe a b : Z.abs (a + b) <= max_safe → add (num a) (num b) = num (a + b).
Proof. intros H. cbn. rewrite !Z.mul_1_r. by apply of_dyadic_safe. Qed.

Lemma sub_safe a b : b ≠ 0 → Z.abs (a - b) <= max_safe → sub (num a) (num b) = num (a - b).
Proof.
  intros Hb H. unfold sub. cbn [neg]. destruct (Z.eqb_spec b 0); [done|].
  rewrite add_safe; f_equal; lia.
Qed.

Lemma num_compare_int a b : num_compare (num a) (num b) = Some (a ?= b).
Proof. cbn. by rewrite !Z.mul_1_r. Qed.

Lemma num_lt_int a b : num_lt (num a) (num b) = (a <? b).
Proof. unfold num_lt. by rewrite num_compare_int. Qed.

Lemma num_le_int a b : num_le (num a) (num b) = (a <=? b).
Proof. unfold num_le. by rewrite num_compare_int. Qed.

Lemma num_max_int a b : num_max (num a) (num b) = num (Z.max a b).
Proof.
  unfold num_max. rewrite num_compare_int. unfold Z.max. by destruct (a ?= b) eqn:E.
Qed.

Lemma number_to_string_safe n : Z.abs n <= max_safe → number_to_string (num n) = dec_Z n.
Proof. intros H. unfold number_to_string. rewrite Z.eqb_refl. by rewrite (proj2 (Z.leb_le _ _) H). Qed.

(** ** Decimal digits read back *)

Lemma digits_value_app base d acc s t :
  digits_value base d acc (s ++ t) = (v ← digits_value base d acc s; digits_value base d v t).
Proof.
  unfold digits_value. rewrite foldl_app.
  destruct (foldl _ (Some acc) s) as [v|]; simpl; [done|].
  induction t as [|c t IH]; [done|]. simpl. apply IH.
Qed.

Lemma dec_digit_char d : 0 <= d < 10 → dec_digit (48 + Z.to_N d) = Some d.
Proof.
  intros H. unfold dec_digit, is_digit.
  destruct (N.leb_spec 48 (48 + Z.to_N d)), (N.leb_spec (48 + Z.to_N d) 57); try lia.
  simpl. f_equal. lia.
Qed.

Lemma is_digit_char d : 0 <= d < 10 → is_digit (48 + Z.to_N d) = true.
Proof.
  intros H. unfold is_digit.
  destruct (N.leb_spec 48 (48 + Z.to_N d)), (N.leb_spec (48 + Z.to_N d) 57); try lia.
Qed.

Lemma dec_go_app fuel n acc : dec_go fuel n acc = dec_go fuel n [] ++ acc.
Proof.
  revert n acc. induction fuel as [|f IH]; intros n acc; [done|]. cbn [dec_go].
  destruct (n / 10 =? 0); [done|]. rewrite IH, (IH _ [_]), <- app_assoc. done.
Qed.

Lemma dec_go_value fuel n :
  0 <= n < 2 ^ Z.of_nat fuel → fuel ≠ O →
  digits_value 10 dec_digit 0 (dec_go fuel n []) = Some n.
Proof.
  revert n. induction fuel as [|f IH]; intros n [Hn Hlt] Hf; [done|]. cbn [dec_go].
  assert (0 <= n mod 10 < 10) by (apply Z.mod_pos_bound; lia).
  pose proof (Z.div_mod n 10 ltac:(lia)).
  destruct (Z.eqb_spec (n / 10) 0) as [E|E].
  - unfold digits_value. cbn -[dec_digit]. rewrite dec_digit_char by done. cbn.
    f_equal. lia.
  - rewrite dec_go_app, digits_value_app, IH.
    + cbn -[dec_digit]. unfold digits_value. cbn -[dec_digit].
      rewrite dec_digit_char by done. cbn. f_equal. lia.
    + split; [apply Z.div_pos; lia|].
      rewrite Nat2Z.inj_succ, Z.pow_succ_r in Hlt by lia.
      apply Z.div_lt_upper_bound; lia.
    + intros ->. simpl in Hlt. assert (n / 10 = 0) by (apply Z.div_small; lia). done.
Qed.

Lemma dec_digits_value n : 0 <= n → digits_value 10 dec_digit 0 (dec_digits n) = Some n.
Proof.
  intros Hn. apply dec_go_value; [|done]. split; [done|].
  rewrite Nat2Z.inj_succ, Z2Nat.id by apply Z.log2_nonneg.
  destruct (Z.eq_dec n 0) as [->|]; [done|]. apply Z.log2_spec. lia.
Qed.

Lemma dec_go_digits fuel n acc :
  0 <= n → Forall (λ c, is_digit c = true) acc → Forall (λ c, is_digit c = true) (dec_go fuel n acc).
Proof.
  revert n acc. induction fuel as [|f IH]; intros n acc Hn Hacc; [done|]. cbn [dec_go].
  assert (0 <= n mod 10 < 10) by (apply Z.mod_pos_bound; lia).
  assert (Forall (λ c, is_digit c = true) ((48 + Z.to_N (n mod 10))%N :: acc)).
  { constructor; [by apply is_digit_char | done]. }
  destruct (n / 10 =? 0); [done|]. apply IH; [apply Z.div_pos; lia | done].
Qed.

Lemma dec_digits_digits n : 0 <= n → Forall (λ c, is_digit c = true) (dec_digits n).
Proof. intros H. by apply dec_go_digits. Qed.

Lemma dec_digits_nonempty n : dec_digits n ≠ [].
Proof.
  unfold dec_digits. cbn [dec_go]. destruct (n / 10 =? 0); [done|].
  rewrite dec_go_app. intros [_ ?]%app_nil. done.
Qed.

Lemma span_digits_all s : Forall (λ c, is_digit c = true) s → span_digits s = (s, []).
Proof. induction 1 as [|c s Hc Hs IH]; [done|]. simpl. by rewrite Hc, IH. Qed.

(** Reading a run of decimal digits as a number. *)
Lemma parse_unsigned_digits s v :
  s ≠ [] → Forall (λ c, is_digit c = true) s →
  digits_value 10 dec_digit 0 s = Some v → parse_unsigned s = of_dyadic v 0.
Proof.
  intros Hne Hd Hv. unfold parse_unsigned. rewrite bool_decide_eq_false_2.
  2:{ intros ->. by inversion Hd. }
  rewrite span_digits_all by done. destruct s as [|c s]; [done|].
  rewrite app_nil_r. cbn [parse_exponent length]. rewrite Hv.
  unfold of_decimal. cbn [Z.leb]. simpl. by rewrite Z.mul_1_r.
Qed.

Lemma digit_cases c :
  is_digit c = true →
  (c = 48 ∨ c = 49 ∨ c = 50 ∨ c = 51 ∨ c = 52 ∨ c = 53 ∨ c = 54 ∨ c = 55 ∨ c = 56 ∨ c = 57)%N.
Proof. unfold is_digit. intros H. bool_to_prop. lia. Qed.

Lemma digit_not_ws c : is_digit c = true → is_ws c = false.
Proof. intros Hc%digit_cases. by destruct_or! Hc; subst. Qed.

(** Reading a run of decimal digits with [parseInt]. *)
Lemma parse_int_digits s v :
  s ≠ [] → Forall (λ c, is_digit c = true) s →
  digits_value 10 dec_digit 0 s = Some v → parse_int10 s = of_dyadic v 0.
Proof.
  intros Hne Hd Hv. destruct s as [|c s]; [done|].
  assert (Hc : is_digit c = true) by by inversion Hd.
  unfold parse_int10. rewrite (proj2 (trim_start_no_ws (c :: s))) by by apply digit_not_ws.
  pose proof (span_digits_all _ Hd) as Hr. apply digit_cases in Hc.
  destruct_or! Hc; subst; cbv beta zeta iota; by rewrite Hr, Hv.
Qed.

Lemma trim_digits s : Forall (λ c, is_digit c = true) s → trim s = s.
Proof. intros H. apply trim_none. eapply Forall_impl; [exact H|]. apply digit_not_ws. Qed.

Lemma dec_digits_inj a b : 0 <= a → 0 <= b → dec_digits a = dec_digits b → a = b.
Proof.
  intros Ha Hb E. apply (f_equal (digits_value 10 dec_digit 0)) in E.
  rewrite !dec_digits_value in E by done. by injection E.
Qed.

Lemma dec_Z_inj a b : 0 <= a → 0 <= b → dec_Z a = dec_Z b → a = b.
Proof.
  intros Ha Hb. unfold dec_Z. destruct (Z.ltb_spec a 0), (Z.ltb_spec b 0); try lia.
  by apply dec_digits_inj.
Qed.

(** Reading a run of decimal digits with [Number]. *)
Lemma to_number_digits s v :
  s ≠ [] → Forall (λ c, is_digit c = true) s →
  digits_value 10 dec_digit 0 s = Some v → to_number s = of_dyadic v 0.
Proof.
  intros Hne Hd Hv. destruct s as [|c s]; [done|]. unfold to_number. rewrite trim_digits by done.
  rewrite <- (parse_unsigned_digits (c :: s) v) by done.
  inversion Hd as [|? ? Hc Hs]; subst. apply digit_cases in Hc. destruct s as [|d s].
  - by destruct_or! Hc; subst.
  - inversion Hs as [|? ? Hd' _]; subst. apply digit_cases in Hd'. destruct_or! Hc; subst; try done. by destruct_or! Hd'; subst.
Qed.

Lemma to_number_dec n : 0 <= n <= max_safe → to_number (dec_Z n) = num n.
Proof.
  intros Hn. unfold dec_Z. rewrite (proj2 (Z.ltb_ge n 0)) by lia.
  rewrite (to_number_digits _ n); [|apply dec_digits_nonempty|apply dec_digits_digits; lia|apply dec_digits_value; lia].
  apply of_dyadic_safe. lia.
Qed.
