(* ===== verification/JsRegex.v ===== *)
(** * Regular expressions of the source

    A backtracking matcher with the semantics of ECMAScript's [RegExp] for the
    constructs the source uses: character classes, sequence, ordered alternation,
    greedy and lazy repetition, groups and back references, [^], [$] (with and
    without the flag [m]) and [\b].  The matcher is in continuation-passing style,
    as the specification's [CompileSubpattern]; a repetition refuses an iteration
    that consumes nothing, so [length (after s)] iterations are enough.  The flag
    [i] folds ASCII letters: every pattern of the source is ASCII, and without the
    flag [u] no other code unit canonicalises to an ASCII one. *)
From S2P Require Import Prelude JsString.

Inductive re :=
| Eps
| Class_ (p : N → bool)
| Seq (a b : re)
| Alt (a b : re)
| Star (greedy : bool) (a : re)
| Group (n : nat) (a : re)
| Backref (n : nat)
| Bol
| Eol (multiline : bool)
| WordB.

Declare Scope re_scope.
Delimit Scope re_scope with re.
Bind Scope re_scope with re.
Infix "·" := Seq (at level 60, right associativity) : re_scope.
Infix "∥" := Alt (at level 85, right associativity) : re_scope.

(** Derived forms: [a?], [a+], literals and case-insensitive literals. *)
Definition Opt (a : re) : re := Alt a Eps.
Definition Plus (a : re) : re := Seq a (Star true a).
Definition Lit (s : jstr) : re := foldr (λ c r, Seq (Class_ (N.eqb c)) r) Eps s.
Definition LitI (s : jstr) : re :=
  foldr (λ c r, Seq (Class_ (λ x, N.eqb (upper_char c) (upper_char x))) r) Eps s.
Definition AltsI (ws : list jstr) : re :=
  match LitI <$> ws with
  | [] => Class_ (λ _, false)
  | w :: ws' => foldl Alt w ws'
  end.

(** Matching state: the text before the position, reversed, the text after it, and
    the captured groups. *)
Record mstate := MState {
  m_before : jstr;
  m_after : jstr;
  m_caps : gmap nat jstr;
}.

Definition word_at (s : jstr) : bool :=
  match s with [] => false | c :: _ => is_word c end.

Fixpoint mrun (r : re) (k : mstate → option mstate) (s : mstate) : option mstate :=
  match r with
  | Eps => k s
  | Class_ p =>
      match m_after s with
      | c :: t => if p c then k (MState (c :: m_before s) t (m_caps s)) else None
      | [] => None
      end
  | Seq a b => mrun a (mrun b k) s
  | Alt a b => match mrun a k s with Some x => Some x | None => mrun b k s end
  | Star greedy a =>
      (fix loop (fuel : nat) (s : mstate) : option mstate :=
         match fuel with
         | O => k s
         | S f =>
             let more := λ _ : unit, mrun a (λ s', if length (m_after s') =? length (m_after s)
                                      then None else loop f s') s in
             if greedy then match more tt with Some x => Some x | None => k s end
             else match k s with Some x => Some x | None => more tt end
         end)%nat (length (m_after s)) s
  | Group n a =>
      mrun a (λ s', k (MState (m_before s') (m_after s')
                         (<[n := take (length (m_after s) - length (m_after s')) (m_after s)]>
                            (m_caps s')))) s
  | Backref n =>
      let t := default [] (m_caps s !! n) in
      if starts_with t (m_after s)
      then k (MState (reverse t ++ m_before s) (drop (length t) (m_after s)) (m_caps s))
      else None
  | Bol => if truthy (m_before s) then None else k s
  | Eol multiline =>
      match m_after s with
      | [] => k s
      | c :: _ => if multiline && is_line_terminator c then k s else None
      end
  | WordB => if xorb (word_at (m_before s)) (word_at (m_after s)) then k s else None
  end.

(** The loop of [Star], as a function of its own. *)
Definition star_loop (greedy : bool) (a : re) (k : mstate → option mstate) :=
  fix loop (fuel : nat) (s : mstate) : option mstate :=
    match fuel with
    | O => k s
    | S f =>
        let more := λ _ : unit, mrun a (λ s', if (length (m_after s') =? length (m_after s))%nat
                                 then None else loop f s') s in
        if greedy then match more tt with Some x => Some x | None => k s end
        else match k s with Some x => Some x | None => more tt end
    end.

Lemma mrun_star greedy a k s :
  mrun (Star greedy a) k s = star_loop greedy a k (length (m_after s)) s.
Proof. done. Qed.

(** A match: the text before it, the matched text, the text after it, its groups. *)
Record rmatch := RMatch {
  r_pre : jstr;
  r_text : jstr;
  r_post : jstr;
  r_caps : gmap nat jstr;
}.
Definition group (n : nat) (m : rmatch) : option jstr := r_caps m !! n.

Definition match_here (r : re) (before after : jstr) : option rmatch :=
  s ← mrun r Some (MState before after ∅);
  Some (RMatch (reverse before) (take (length after - length (m_after s)) after)
               (m_after s) (m_caps s)).

(** [r.exec] from a position on: the leftmost position that matches. *)
Fixpoint search_from (r : re) (before after : jstr) : option rmatch :=
  match match_here r before after with
  | Some m => Some m
  | None => match after with
            | [] => None
            | c :: t => search_from r (c :: before) t
            end
  end.
Definition exec (r : re) (s : jstr) : option rmatch := search_from r [] s.
Definition test (r : re) (s : jstr) : bool :=
  match exec r s with Some _ => true | None => false end.

(** All matches of a global expression from left to right; an empty match moves the
    position one code unit on.  [S (length s)] steps are enough. *)
Fixpoint all_from (fuel : nat) (r : re) (before after : jstr) : list rmatch :=
  match fuel with
  | O => []
  | S f =>
      match search_from r before after with
      | None => []
      | Some m =>
          let before' := reverse (r_text m) ++ reverse (r_pre m) in
          m :: match r_text m, r_post m with
               | [], [] => []
               | [], c :: t => all_from f r (c :: before') t
               | _ :: _, t => all_from f r before' t
               end
      end
  end.
Definition exec_all (r : re) (s : jstr) : list rmatch := all_from (S (length s)) r [] s.

(** [s.replace(r, text)] with the flag [g], and without it. *)
Fixpoint replace_from (fuel : nat) (r : re) (by_ before after : jstr) : jstr :=
  match fuel with
  | O => after
  | S f =>
      match search_from r before after with
      | None => after
      | Some m =>
          let skipped := drop (length before) (r_pre m) in
          let before' := reverse (r_text m) ++ reverse (r_pre m) in
          skipped ++ by_ ++
            match r_text m, r_post m with
            | [], [] => []
            | [], c :: t => c :: replace_from f r by_ (c :: before') t
            | _ :: _, t => replace_from f r by_ before' t
            end
      end
  end.
Definition replace_all (r : re) (by_ s : jstr) : jstr :=
  replace_from (S (length s)) r by_ [] s.
Definition replace_first (r : re) (by_ s : jstr) : jstr :=
  match exec r s with
  | None => s
  | Some m => r_pre m ++ by_ ++ r_post m
  end.

(** [s.split(r)] for an expression without groups that matches no empty text. *)
Fixpoint split_re_go (r : re) (ms : list rmatch) (start : nat) (s : jstr) : list jstr :=
  match ms with
  | [] => [drop start s]
  | m :: ms' =>
      take (length (r_pre m) - start) (drop start s)
        :: split_re_go r ms' (length (r_pre m) + length (r_text m)) s
  end.
Definition split_re (r : re) (s : jstr) : list jstr := split_re_go r (exec_all r s) 0 s.

(** The classes of the source's patterns. *)
Definition any_unit : re := Class_ (λ _, true).
Definition not_newline : re := Class_ (λ c, negb (is_line_terminator c)).
Definition ws : re := Class_ is_ws.
Definition word : re := Class_ is_word.

(** ** Lemmas *)

Lemma mrun_lit_fail l k s :
  starts_with l (m_after s) = false → mrun (Lit l) k s = None.
Proof.
  revert s. induction l as [|c l IH]; intros [b a cp]; simpl; [done|].
  destruct a as [|x a]; [done|]. destruct (N.eqb_spec c x) as [->|]; simpl; [|done].
  intros H. by apply IH.
Qed.

Lemma mrun_lit l k b r cp :
  mrun (Lit l) k (MState b (l ++ r) cp) = k (MState (reverse l ++ b) r cp).
Proof.
  revert b. induction l as [|c l IH]; intros b; simpl; [done|].
  rewrite N.eqb_refl. unfold Lit in IH. rewrite IH.
  by rewrite reverse_cons, <- app_assoc.
Qed.

Lemma mrun_seq a b k s : mrun (Seq a b) k s = mrun a (mrun b k) s.
Proof. done. Qed.

Lemma mrun_opt a k s :
  mrun (Opt a) k s = match mrun a k s with Some x => Some x | None => k s end.
Proof. done. Qed.

Lemma mrun_class p k b a cp :
  mrun (Class_ p) k (MState b a cp) =
    match a with
    | c :: t => if p c then k (MState (c :: b) t cp) else None
    | [] => None
    end.
Proof. done. Qed.

(** A greedy run of a class that must reach the end of the text. *)
Lemma star_class_eol p k b a cp :
  mrun (Star true (Class_ p)) (mrun (Eol false) k) (MState b a cp) =
    if forallb p a then k (MState (reverse a ++ b) [] cp) else None.
Proof.
  rewrite mrun_star. cbn [m_after]. revert b. induction a as [|c a IH]; intros b; [done|].
  cbn [length star_loop mrun m_after m_before m_caps forallb].
  destruct (p c); simpl; [|done].
  assert ((length a =? S (length a))%nat = false) as -> by (apply Nat.eqb_neq; lia).
  rewrite IH. rewrite reverse_cons, <- app_assoc. simpl.
  by destruct (forallb p a); [destruct (k _)|].
Qed.

(** A greedy run of a class that takes the whole rest, when what follows matches there. *)
Lemma star_class_all p k b a cp m :
  forallb p a = true → k (MState (reverse a ++ b) [] cp) = Some m →
  mrun (Star true (Class_ p)) k (MState b a cp) = Some m.
Proof.
  rewrite mrun_star. cbn [m_after]. revert b. induction a as [|c a IH]; intros b Ha Hk.
  - cbn. by rewrite (Hk : k (MState b [] cp) = _).
  - simpl in Ha. apply andb_true_iff in Ha as [Hc Ha].
    cbn [length star_loop mrun m_after m_before m_caps]. rewrite Hc.
    assert ((length a =? S (length a))%nat = false) as -> by (apply Nat.eqb_neq; lia).
    rewrite reverse_cons, <- app_assoc in Hk. rewrite (IH (c :: b)) by done. done.
Qed.

(** An anchored expression only matches at the start. *)
Lemma match_here_bol r before after :
  match_here (Seq Bol r) before after =
    if truthy before then None else match_here r before after.
Proof. unfold match_here. cbn [mrun m_before]. by destruct (truthy before). Qed.

Lemma search_bol_later r before after :
  truthy before = true → search_from (Seq Bol r) before after = None.
Proof.
  revert before. induction after as [|c t IH]; intros before H; cbn [search_from];
    rewrite match_here_bol, H; [done|]. by apply IH.
Qed.

Lemma exec_bol r s : exec (Seq Bol r) s = match_here r [] s.
Proof.
  unfold exec. destruct s as [|c t]; cbn [search_from]; rewrite match_here_bol; cbn [truthy].
  - by destruct (match_here r [] []).
  - destruct (match_here r [] (c :: t)); [done|]. by apply search_bol_later.
Qed.

(** When nothing matches at any position there is no match. *)
Lemma search_none r before after :
  (∀ b a, (∃ p, after = p ++ a ∧ b = reverse p ++ before) → match_here r b a = None) →
  search_from r before after = None.
Proof.
  revert before. induction after as [|c t IH]; intros before H; simpl.
  - rewrite H; [done|]. exists []. done.
  - rewrite H by (by exists []). apply IH. intros b a (p & -> & ->). apply H.
    exists (c :: p). rewrite reverse_cons, <- app_assoc. done.
Qed.

Lemma replace_all_none r by_ s : exec r s = None → replace_all r by_ s = s.
Proof. intros H. unfold replace_all, exec in *. simpl. by rewrite H. Qed.

Lemma includes_cons p c s : includes p (c :: s) = starts_with p (c :: s) || includes p s.
Proof. done. Qed.

Lemma includes_app_r p a b : includes p (a ++ b) = false → includes p b = false.
Proof.
  induction a as [|c a IH]; [done|]. rewrite <- app_comm_cons, includes_cons.
  intros [_ H]%orb_false_iff. by apply IH.
Qed.

(** An expression that begins with a literal does not match a text without it. *)
Lemma exec_lit_none l r s : includes l s = false → exec (Seq (Lit l) r) s = None.
Proof.
  intros H. apply search_none. intros b a (p & -> & _). unfold match_here. simpl.
  rewrite mrun_lit_fail; [done|]. simpl. apply includes_app_r in H.
  destruct a as [|c a]; simpl in H; [|by apply orb_false_iff in H as [? _]].
  by apply orb_false_iff in H as [? _].
Qed.

(** [test] of one class. *)
Lemma test_class p s : test (Class_ p) s = existsb p s.
Proof.
  unfold test, exec. generalize (@nil N) as b. induction s as [|c s IH]; intros b; [done|].
  simpl. unfold match_here at 1. simpl. destruct (p c); [done|]. apply IH.
Qed.

(** A case-insensitive literal that must be the whole text. *)
Lemma mrun_litI l k b a cp :
  mrun (LitI l) k (MState b a cp) =
    if bool_decide (take (length l) (ascii_upper a) = ascii_upper l)
    then k (MState (reverse (take (length l) a) ++ b) (drop (length l) a) cp)
    else None.
Proof.
  revert b a. induction l as [|c l IH]; intros b a; [done|].
  destruct a as [|x a]; [done|]. cbn [LitI foldr mrun m_after m_before m_caps].
  change (ascii_upper (x :: a)) with (upper_char x :: ascii_upper a).
  change (ascii_upper (c :: l)) with (upper_char c :: ascii_upper l).
  cbn [length take drop]. destruct (N.eqb_spec (upper_char c) (upper_char x)) as [E|E].
  - unfold LitI in IH. rewrite IH, reverse_cons, <- app_assoc.
    erewrite bool_decide_ext; [done|]. rewrite E. split; [by intros -> | by intros [=]].
  - rewrite bool_decide_eq_false_2; [done|]. congruence.
Qed.

(** What a match of a greedy run of a class tells. *)
Lemma mrun_star_class_sound p k s r :
  mrun (Star true (Class_ p)) k s = Some r →
  ∃ u v, m_after s = u ++ v ∧ Forall (λ c, p c = true) u ∧ k (MState (reverse u ++ m_before s) v (m_caps s)) = Some r.
Proof.
  rewrite mrun_star. generalize (length (m_after s)) as fuel. intros fuel. revert s.
  induction fuel as [|fuel IH]; intros [b a cp].
  - intros H. exists [], a. by split_and!; [|constructor|].
  - cbn [star_loop mrun m_after m_before m_caps]. destruct a as [|c a].
    + intros H. exists [], []. by split_and!; [|constructor|].
    + destruct (p c) eqn:Ec; [|by intros H; exists [], (c :: a); split_and!; [|constructor|]].
      cbn [m_after length]. destruct (length a =? S (length a))%nat eqn:El; [apply Nat.eqb_eq in El; lia|].
      destruct (star_loop true (Class_ p) k fuel (MState (c :: b) a cp)) as [x|] eqn:Es.
      * intros [= <-]. apply IH in Es as (u & v & Ha & Hu & Hk). cbn in *. exists (c :: u), v.
        split_and!; [by rewrite Ha|by constructor|]. by rewrite reverse_cons, <- app_assoc.
      * intros H. exists [], (c :: a). by split_and!; [|constructor|].
Qed.

(** A greedy run stops where the class does, when what follows matches there. *)
Lemma star_class_stop p k u v b cp m :
  forallb p u = true → match v with c :: _ => p c = false | [] => True end →
  k (MState (reverse u ++ b) v cp) = Some m → mrun (Star true (Class_ p)) k (MState b (u ++ v) cp) = Some m.
Proof.
  rewrite mrun_star. cbn [m_after]. intros Hu Hv. revert b.
  assert (Hf : length u ≤ length (u ++ v)) by (rewrite length_app; lia). revert Hf.
  generalize (length (u ++ v)) as fuel. intros fuel Hf. revert fuel Hf. induction u as [|c u IH]; intros fuel Hf b Hk.
  - destruct fuel; [done|]. cbn [star_loop mrun m_after m_before m_caps app]. destruct v as [|x v]; [done|]. by rewrite Hv.
  - destruct fuel as [|fuel]; [cbn in Hf; lia|]. cbn in Hu. apply andb_true_iff in Hu as [Hc Hu].
    cbn [star_loop mrun m_after m_before m_caps app]. rewrite Hc. cbn [length].
    destruct (length (u ++ v) =? S (length (u ++ v)))%nat eqn:El; [apply Nat.eqb_eq in El; lia|].
    rewrite reverse_cons, <- app_assoc in Hk. rewrite (IH Hu fuel); [done|cbn in Hf; lia|done].
Qed.

(** The match found is the leftmost one. *)
Lemma search_from_first r before after m :
  search_from r before after = Some m →
  ∃ p a, after = p ++ a ∧ match_here r (reverse p ++ before) a = Some m
    ∧ ∀ q b, p = q ++ b → b ≠ [] → match_here r (reverse q ++ before) (b ++ a) = None.
Proof.
  revert before. induction after as [|c t IH]; intros before; cbn [search_from];
    destruct (match_here r before _) as [x|] eqn:E; intros H; simplify_eq.
  - exists [], []. split_and!; [done|done|]. by intros [|] [|].
  - exists [], (c :: t). split_and!; [done|done|]. by intros [|] [|].
  - apply IH in H as (p & a & -> & H & Hmin). exists (c :: p), a. split_and!; [done|by rewrite reverse_cons, <- app_assoc|].
    intros [|c' q] b Hq Hb; cbn in Hq; [by subst b|]. simplify_eq. rewrite reverse_cons, <- app_assoc. by apply Hmin.
Qed.

Lemma search_from_none r before after p a :
  search_from r before after = None → after = p ++ a → match_here r (reverse p ++ before) a = None.
Proof.
  revert before p. induction after as [|c t IH]; intros before p; cbn [search_from];
    destruct (match_here r before _) eqn:E; try done; intros H Ha.
  - symmetry in Ha. apply app_nil in Ha as [-> ->]. done.
  - destruct p as [|c' p]; cbn in Ha; [by subst|]. simplify_eq. rewrite reverse_cons, <- app_assoc. by apply IH.
Qed.
