(* ===== verification/View.v ===== *)
(** * What a component shows

    The elements a React component returns, as assistive technology sees them: texts, parts
    with a role, and controls with what they do, of type [E] (a program of the page, a new
    local state, or a call of the parent).  Classes, icons, focus and layout are left out; a
    listener that the component puts on the document while it is shown is a gesture too. *)
From S2P Require Import Prelude JsString.

(** A file that was picked or dropped. *)
Record Picked := MkPicked { pk_name : jstr; pk_size : Z; pk_text : jstr }.

Inductive Gesture :=
| Click | DoubleClick | RightClick | EscapeKey | EnterOrSpace | EnterKey | Backdrop | Hover | DropOn | OutsideClick | FocusIn | FocusOut
(** A key by the name that [event.key] gives it. *)
| Typed (key : jstr)
(** What React starts itself after an update: an effect. *)
| Effect.
#[export] Instance Gesture_eq_dec : EqDecision Gesture.
Proof. solve_decision. Defined.

#[local] Unset Elimination Schemes.
Inductive view (E : Type) :=
| Words (s : jstr)
(** A part with the role [status] or [alert]. *)
| Notice (role s : jstr)
| Anchor (label target : jstr)
| Button (label : jstr) (disabled : bool) (press : E)
(** A button of type [button] without a handler. *)
| Inert (label : jstr)
(** A button of type [submit]. *)
| Submit (label : jstr) (disabled : bool)
| Field (label text : jstr) (disabled : bool) (change : jstr → E)
| Tick (label : jstr) (checked disabled : bool) (change : bool → E)
| Choice (label selected : jstr) (options : list (jstr * jstr)) (disabled : bool) (change : jstr → E)
| Upload (label : jstr) (change : option Picked → E)
(** A button whose handler opens a dialog of the browser, with what it does for each answer:
    a text, or none when the dialog is cancelled. *)
| Ask (label : jstr) (disabled : bool) (press : option jstr → E)
| Region (role label : jstr) (children : list (view E))
| Form (label : jstr) (submit : E) (children : list (view E))
| On (gesture : Gesture) (event : E) (child : view E).
#[local] Set Elimination Schemes.
Arguments Words {E}. Arguments Notice {E}. Arguments Anchor {E}. Arguments Button {E}. Arguments Inert {E}.
Arguments Submit {E}. Arguments Field {E}. Arguments Tick {E}. Arguments Choice {E}. Arguments Upload {E}. Arguments Ask {E}.
Arguments Region {E}. Arguments Form {E}. Arguments On {E}.

(** [{condition && element}] and [{value && element(value)}]. *)
Definition only_if {E} (b : bool) (v : view E) : list (view E) := if b then [v] else [].
Definition only_some {A E} (o : option A) (f : A → view E) : list (view E) := match o with Some a => [f a] | None => [] end.
Definition Group {E} : list (view E) → view E := Region [] [].

Section view.
Context {E : Type}.

Section view_ind.
Context (P : view E → Prop).
Context (Hwords : ∀ s, P (Words s)) (Hnotice : ∀ r s, P (Notice r s)) (Hanchor : ∀ l t, P (Anchor l t)).
Context (Hbutton : ∀ l d e, P (Button l d e)) (Hinert : ∀ l, P (Inert l)) (Hsubmit : ∀ l d, P (Submit l d)).
Context (Hfield : ∀ l t d c, P (Field l t d c)) (Htick : ∀ l b d c, P (Tick l b d c)).
Context (Hchoice : ∀ l s o d c, P (Choice l s o d c)) (Hupload : ∀ l c, P (Upload l c)) (Hask : ∀ l d c, P (Ask l d c)).
Context (Hregion : ∀ r l vs, Forall P vs → P (Region r l vs)) (Hform : ∀ l e vs, Forall P vs → P (Form l e vs)).
Context (Hon : ∀ g e v, P v → P (On g e v)).

Fixpoint view_ind (v : view E) : P v :=
  let fix all vs : Forall P vs := match vs with [] => Forall_nil_2 _ | v :: vs => Forall_cons_2 _ _ _ (view_ind v) (all vs) end in
  match v with
  | Words s => Hwords s
  | Notice r s => Hnotice r s
  | Anchor l t => Hanchor l t
  | Button l d e => Hbutton l d e
  | Inert l => Hinert l
  | Submit l d => Hsubmit l d
  | Field l t d c => Hfield l t d c
  | Tick l b d c => Htick l b d c
  | Choice l s o d c => Hchoice l s o d c
  | Upload l c => Hupload l c
  | Ask l d c => Hask l d c
  | Region r l vs => Hregion r l vs (all vs)
  | Form l e vs => Hform l e vs (all vs)
  | On g e v => Hon g e v (view_ind v)
  end.
End view_ind.

(** A form can be submitted while one of its submit buttons is enabled. *)
Fixpoint submits (v : view E) : bool :=
  match v with
  | Submit _ disabled => negb disabled
  | Region _ _ vs => existsb submits vs
  | On _ _ v => submits v
  | _ => false
  end.

(** What can happen in what is shown. *)
Inductive offers : view E → E → Prop :=
| offers_button l e : offers (Button l false e) e
| offers_field l t c x : offers (Field l t false c) (c x)
| offers_tick l b c : offers (Tick l b false c) (c (negb b))
| offers_choice l s opts c o : o ∈ opts → offers (Choice l s opts false c) (c o.1)
| offers_upload l c x : offers (Upload l c) (c x)
| offers_ask l c x : offers (Ask l false c) (c x)
| offers_region r l vs v e : v ∈ vs → offers v e → offers (Region r l vs) e
| offers_submit l e vs : existsb submits vs = true → offers (Form l e vs) e
| offers_form l e vs v e' : v ∈ vs → offers v e' → offers (Form l e vs) e'
| offers_gesture g e v : offers (On g e v) e
| offers_on g e v e' : offers v e' → offers (On g e v) e'.

Lemma offers_choice_inv l s opts d c e : offers (Choice l s opts d c) e → d = false ∧ ∃ o, o ∈ opts ∧ e = c o.1.
Proof. intros H. inversion H; subst. eauto. Qed.

(** [P] of everything that can happen. *)
Fixpoint every (P : E → Prop) (v : view E) : Prop :=
  match v with
  | Words _ | Notice _ _ | Anchor _ _ | Inert _ | Submit _ _ => True
  | Button _ d e => d = false → P e
  | Field _ _ d c => d = false → ∀ x, P (c x)
  | Tick _ b d c => d = false → P (c (negb b))
  | Choice _ _ opts d c => d = false → Forall (λ o, P (c o.1)) opts
  | Upload _ c => ∀ x, P (c x)
  | Ask _ d c => d = false → ∀ x, P (c x)
  | Region _ _ vs => foldr (λ v Q, every P v ∧ Q) True vs
  | Form _ e vs => (existsb submits vs = true → P e) ∧ foldr (λ v Q, every P v ∧ Q) True vs
  | On _ e v => P e ∧ every P v
  end.

Definition every_of (P : E → Prop) (vs : list (view E)) : Prop := Forall (every P) vs.
Lemma every_foldr P vs : foldr (λ v Q, every P v ∧ Q) True vs ↔ every_of P vs.
Proof. induction vs as [|v vs IH]; cbn; [split; [constructor|done]|]. rewrite IH. symmetry. apply Forall_cons. Qed.
Lemma every_region P r l vs : every P (Region r l vs) ↔ every_of P vs.
Proof. apply every_foldr. Qed.
Lemma every_form P l e vs : every P (Form l e vs) ↔ (existsb submits vs = true → P e) ∧ every_of P vs.
Proof. cbn. by rewrite every_foldr. Qed.

Lemma every_offers P v : every P v ↔ ∀ e, offers v e → P e.
Proof.
  induction v as [s|r s|l t|l d e|l|l d|l t d c|l b d c|l s o d c|l c|l d c|r l vs IH|l e vs IH|g e v IH] using view_ind;
    try (split; [intros _ e' H; by inversion H|done]).
  - cbn. split; [intros H e' He; inversion He; subst; by apply H|]. intros H ->. apply H. constructor.
  - cbn. split; [intros H e' He; inversion He; subst; by apply H|]. intros H -> x. apply H. constructor.
  - cbn. split; [intros H e' He; inversion He; subst; by apply H|]. intros H ->. apply H. constructor.
  - cbn. split; [intros H e' He; inversion He; subst; by eapply Forall_forall in H|].
    intros H ->. apply Forall_forall. intros x Hx. apply H. by constructor.
  - cbn. split; [intros H e' He; inversion He; subst; by apply H|]. intros H x. apply H. constructor.
  - cbn. split; [intros H e' He; inversion He; subst; by apply H|]. intros H -> x. apply H. constructor.
  - rewrite every_region. unfold every_of. rewrite Forall_forall. rewrite Forall_forall in IH. split.
    + intros H e He. inversion He as [| | | | | |? ? ? w ? Hw Ho| | | |]; subst. by apply (proj1 (IH w Hw) (H w Hw)).
    + intros H w Hw. apply (IH w Hw). intros e He. apply H. by econstructor.
  - rewrite every_form. unfold every_of. rewrite Forall_forall. rewrite Forall_forall in IH. split.
    + intros [H1 H] e' He. inversion He as [| | | | | | |? ? ? Hs|? ? ? w ? Hw Ho| |]; subst; [by apply H1|].
      by apply (proj1 (IH w Hw) (H w Hw)).
    + intros H. split; [intros Hs; apply H; by constructor|]. intros w Hw. apply (IH w Hw). intros e' He. apply H. by econstructor.
  - cbn. rewrite IH. split.
    + intros [H1 H] e' He. inversion He; subst; [done|by apply H].
    + intros H. split; [apply H; constructor|]. intros e' He. apply H. by constructor.
Qed.

Lemma every_mono (P Q : E → Prop) v : (∀ e, P e → Q e) → every P v → every Q v.
Proof. rewrite !every_offers. naive_solver. Qed.
Lemma every_and P Q v : every P v → every Q v → every (λ e, P e ∧ Q e) v.
Proof. rewrite !every_offers. naive_solver. Qed.

Lemma every_on P g e v : every P (On g e v) ↔ P e ∧ every P v.
Proof. done. Qed.
Lemma every_of_app P vs ws : every_of P (vs ++ ws) ↔ every_of P vs ∧ every_of P ws.
Proof. apply Forall_app. Qed.
Lemma every_of_cons P v vs : every_of P (v :: vs) ↔ every P v ∧ every_of P vs.
Proof. apply Forall_cons. Qed.
Lemma every_of_nil P : every_of P [] ↔ True.
Proof. split; [done|constructor]. Qed.
Lemma every_when P b v : every_of P (only_if b v) ↔ (b = true → every P v).
Proof. destruct b; cbn; rewrite ?every_of_cons, every_of_nil; naive_solver. Qed.
Lemma every_when_some {A} P (o : option A) f : every_of P (only_some o f) ↔ ∀ a, o = Some a → every P (f a).
Proof. destruct o; cbn; rewrite ?every_of_cons, every_of_nil; naive_solver. Qed.
Lemma every_fmap {A} P (f : A → view E) l : every_of P (f <$> l) ↔ ∀ a, a ∈ l → every P (f a).
Proof. unfold every_of. rewrite Forall_fmap, Forall_forall. done. Qed.
End view.

#[export] Instance every_proper E : Proper (pointwise_relation E impl ==> eq ==> impl) every.
Proof. intros P Q HPQ v _ <- H. by eapply every_mono; [apply HPQ|]. Qed.

(** ** Parts of components *)

(** The same elements with other events. *)
Section map_view.
Context {A B : Type} (f : A → B).
Fixpoint map_view (v : view A) : view B :=
  match v with
  | Words s => Words s
  | Notice r s => Notice r s
  | Anchor l t => Anchor l t
  | Button l d e => Button l d (f e)
  | Inert l => Inert l
  | Submit l d => Submit l d
  | Field l t d c => Field l t d (λ x, f (c x))
  | Tick l b d c => Tick l b d (λ x, f (c x))
  | Choice l s o d c => Choice l s o d (λ x, f (c x))
  | Upload l c => Upload l (λ x, f (c x))
  | Ask l d c => Ask l d (λ x, f (c x))
  | Region r l vs => Region r l (map map_view vs)
  | Form l e vs => Form l (f e) (map map_view vs)
  | On g e v => On g (f e) (map_view v)
  end.

Lemma submits_map v : submits (map_view v) = submits v.
Proof.
  induction v as [s|r s|l t|l d e|l|l d|l t d c|l b d c|l s o d c|l c|l d c|r l vs IH|l e vs IH|g e v IH] using view_ind; try done.
  cbn. induction IH as [|v vs Hv _ IH]; [done|]. cbn. by rewrite Hv, IH.
Qed.

Lemma every_map P v : every P (map_view v) ↔ every (λ e, P (f e)) v.
Proof.
  induction v as [s|r s|l t|l d e|l|l d|l t d c|l b d c|l s o d c|l c|l d c|r l vs IH|l e vs IH|g e v IH] using view_ind; try done.
  - cbn. induction IH as [|v vs Hv _ IH]; [done|]. cbn. by rewrite Hv, IH.
  - cbn. assert (Hs : existsb submits (map map_view vs) = existsb submits vs).
    { clear IH. induction vs as [|v vs IH]; [done|]. cbn. by rewrite submits_map, IH. }
    rewrite Hs. f_equiv. clear Hs. induction IH as [|v vs Hv _ IH]; [done|]. cbn. by rewrite Hv, IH.
  - cbn. by rewrite IH.
Qed.

Lemma offers_map v e' : offers (map_view v) e' ↔ ∃ e, offers v e ∧ e' = f e.
Proof.
  split.
  - revert e'. apply every_offers, every_map, every_offers. intros e He. by exists e.
  - intros (e & He & ->). revert e He. apply every_offers, (every_map (λ e', offers (map_view v) e')), every_offers. done.
Qed.
End map_view.

(** ** Reading what is shown *)

Section read.
Context {E : Type}.

Fixpoint texts (v : view E) : list jstr :=
  match v with
  | Words s | Notice _ s => [s]
  | Region _ _ vs | Form _ _ vs => flat_map texts vs
  | On _ _ v => texts v
  | _ => []
  end.

(** The labels of the controls, with whether they are enabled. *)
Fixpoint controls (v : view E) : list (jstr * bool) :=
  match v with
  | Button l d _ | Submit l d | Field l _ d _ | Tick l _ d _ | Choice l _ _ d _ | Ask l d _ => [(l, negb d)]
  | Upload l _ | Inert l => [(l, true)]
  | Region _ _ vs | Form _ _ vs => flat_map controls vs
  | On _ _ v => controls v
  | _ => []
  end.

(** The parts with a role, with their labels. *)
Fixpoint regions (role : jstr) (v : view E) : list jstr :=
  match v with
  | Region r l vs => (if bool_decide (r = role) then [l] else []) ++ flat_map (regions role) vs
  | Form l _ vs => (if bool_decide (role = "dialog"%js) then [l] else []) ++ flat_map (regions role) vs
  | On _ _ v => regions role v
  | _ => []
  end.

Lemma elem_of_regions role r l vs v x : v ∈ vs → x ∈ regions role v → x ∈ regions role (Region r l vs).
Proof.
  intros Hv Hx. cbn. apply elem_of_app. right. apply list_elem_of_In, in_flat_map. exists v. by rewrite <- !list_elem_of_In.
Qed.

(** What pressing the first enabled button with a label does, if there is one. *)
Fixpoint press (label : jstr) (v : view E) : option E :=
  let fix first vs := match vs with [] => None | v :: vs => match press label v with Some e => Some e | None => first vs end end in
  match v with
  | Button l false e => if bool_decide (l = label) then Some e else None
  | Region _ _ vs | Form _ _ vs => first vs
  | On _ _ v => press label v
  | _ => None
  end.

Lemma elem_of_flat_map {A B} (f : A → list B) (l : list A) a b : a ∈ l → b ∈ f a → b ∈ flat_map f l.
Proof. intros Ha Hb. apply list_elem_of_In, in_flat_map. exists a. by rewrite <- !list_elem_of_In. Qed.
Lemma elem_of_texts r l vs v x : v ∈ vs → x ∈ texts v → x ∈ texts (Region r l vs).
Proof. apply elem_of_flat_map. Qed.
Lemma elem_of_form_texts l e vs v x : v ∈ vs → x ∈ texts v → x ∈ texts (Form l e vs).
Proof. apply elem_of_flat_map. Qed.

(** The first event of a gesture. *)
Fixpoint gesture (g : Gesture) (v : view E) : option E :=
  let fix first vs := match vs with [] => None | v :: vs => match gesture g v with Some e => Some e | None => first vs end end in
  match v with
  | Region _ _ vs | Form _ _ vs => first vs
  | On g' e v => if bool_decide (g' = g) then Some e else gesture g v
  | _ => None
  end.
(** The submission of the first form that can be submitted. *)
Fixpoint submission (v : view E) : option E :=
  let fix first vs := match vs with [] => None | v :: vs => match submission v with Some e => Some e | None => first vs end end in
  match v with
  | Region _ _ vs => first vs
  | Form _ e vs => if existsb submits vs then Some e else None
  | On _ _ v => submission v
  | _ => None
  end.

Lemma first_some (f : view E → option E) vs e :
  (fix first vs := match vs with [] => None | v :: vs => match f v with Some e => Some e | None => first vs end end) vs = Some e →
  ∃ v, v ∈ vs ∧ f v = Some e.
Proof.
  induction vs as [|v vs IH]; [done|]. destruct (f v) eqn:Ev.
  - intros [= ->]. exists v. split; [by left|done].
  - intros Hf. destruct (IH Hf) as (w & Hw & Hp). exists w. split; [by right|done].
Qed.
Lemma first_offered (f : view E → option E) vs e :
  Forall (λ v, ∀ e, f v = Some e → offers v e) vs →
  (fix first vs := match vs with [] => None | v :: vs => match f v with Some e => Some e | None => first vs end end) vs = Some e →
  ∃ v, v ∈ vs ∧ offers v e.
Proof. intros IH (v & Hv & Hf)%first_some. exists v. split; [done|]. rewrite Forall_forall in IH. by apply IH. Qed.

Lemma press_offered label v e : press label v = Some e → offers v e.
Proof.
  revert e. induction v as [s|r s|l t|l d e|l|l d|l t d c|l b d c|l s o d c|l c|l d c|r l vs IH|l e vs IH|g e v IH] using view_ind; intros e' H; try done.
  - destruct d; [done|]. cbn in H. case_bool_decide; [|done]. injection H as <-. constructor.
  - apply (first_offered _ _ _ IH) in H as (w & Hw & Hp). by econstructor.
  - apply (first_offered _ _ _ IH) in H as (w & Hw & Hp). by eapply offers_form.
  - apply offers_on. by apply IH.
Qed.
Lemma gesture_offered g v e : gesture g v = Some e → offers v e.
Proof.
  revert e. induction v as [s|r s|l t|l d e|l|l d|l t d c|l b d c|l s o d c|l c|l d c|r l vs IH|l e vs IH|g' e v IH] using view_ind; intros e' H; try done.
  - apply (first_offered _ _ _ IH) in H as (w & Hw & Hp). by econstructor.
  - apply (first_offered _ _ _ IH) in H as (w & Hw & Hp). by eapply offers_form.
  - cbn in H. case_bool_decide; [injection H as <-; constructor|]. apply offers_on. by apply IH.
Qed.
Lemma submission_offered v e : submission v = Some e → offers v e.
Proof.
  revert e. induction v as [s|r s|l t|l d e|l|l d|l t d c|l b d c|l s o d c|l c|l d c|r l vs IH|l e vs IH|g' e v IH] using view_ind; intros e' H; try done.
  - apply (first_offered _ _ _ IH) in H as (w & Hw & Hp). by econstructor.
  - cbn in H. destruct (existsb submits vs) eqn:Es; [|done]. injection H as <-. by constructor.
  - apply offers_on. by apply IH.
Qed.

(** Pressing the first enabled button with a label that asks, and the answer. *)
Fixpoint answer_to (label : jstr) (answer : option jstr) (v : view E) : option E :=
  let fix first vs := match vs with [] => None | v :: vs => match answer_to label answer v with Some e => Some e | None => first vs end end in
  match v with
  | Ask l false c => if bool_decide (l = label) then Some (c answer) else None
  | Region _ _ vs | Form _ _ vs => first vs
  | On _ _ v => answer_to label answer v
  | _ => None
  end.
Lemma answer_offered label a v e : answer_to label a v = Some e → offers v e.
Proof.
  revert e. induction v as [s|r s|l t|l d e|l|l d|l t d c|l b d c|l s o d c|l c|l d c|r l vs IH|l e vs IH|g' e v IH] using view_ind; intros e' H; try done.
  - destruct d; [done|]. cbn in H. case_bool_decide; [|done]. injection H as <-. constructor.
  - apply (first_offered _ _ _ IH) in H as (w & Hw & Hp). by econstructor.
  - apply (first_offered _ _ _ IH) in H as (w & Hw & Hp). by eapply offers_form.
  - apply offers_on. by apply IH.
Qed.

(** Typing a text into the first enabled field with a label, and choosing the first option with
    a value from a list. *)
Fixpoint fill (label x : jstr) (v : view E) : option E :=
  let fix first vs := match vs with [] => None | v :: vs => match fill label x v with Some e => Some e | None => first vs end end in
  match v with
  | Field l _ false c => if bool_decide (l = label) then Some (c x) else None
  | Choice l _ opts false c =>
      if bool_decide (l = label) then (λ o, c o.1) <$> find_first (λ o, bool_decide (o.1 = x)) opts else None
  | Region _ _ vs | Form _ _ vs => first vs
  | On _ _ v => fill label x v
  | _ => None
  end.
Lemma fill_offered label x v e : fill label x v = Some e → offers v e.
Proof.
  revert e. induction v as [s|r s|l t|l d e|l|l d|l t d c|l b d c|l s o d c|l c|l d c|r l vs IH|l e vs IH|g' e v IH] using view_ind; intros e' H; try done.
  - destruct d; [done|]. cbn in H. case_bool_decide; [|done]. injection H as <-. constructor.
  - destruct d; [done|]. cbn in H. case_bool_decide; [|done]. apply fmap_Some in H as (y & [Hy _]%find_first_Some & ->). by constructor.
  - apply (first_offered _ _ _ IH) in H as (w & Hw & Hp). by econstructor.
  - apply (first_offered _ _ _ IH) in H as (w & Hw & Hp). by eapply offers_form.
  - apply offers_on. by apply IH.
Qed.
End read.
