(* ===== verification/Elements.v ===== *)
(** * Shared elements

    [src/web/src/features/ui/]: the dialogs ([ConfirmDialog.tsx], [FormDialog.tsx]), the
    fields ([TextField.tsx], [TextAreaField.tsx], [Checkbox.tsx], [FileField.tsx],
    [Dropzone.tsx]), and the frames, tables and states around them.  An optional text that
    the element tests with [||] or [&&] counts as absent when it is empty. *)
From S2P Require Import Prelude JsString JsNumber View.

Section elements.
Context {E : Type}.

(** ** ConfirmDialog.tsx and FormDialog.tsx *)

Definition ConfirmDialog (title description confirmLabel : jstr) (danger : bool) (onCancel onConfirm : E) : view E :=
  On EscapeKey onCancel (On Backdrop onCancel
    (Region "dialog"%js title
      [Words (if danger then "危险操作"%js else "请确认"%js);
       Words title;
       Words description;
       Button "取消"%js false onCancel;
       Button confirmLabel false onConfirm])).

Definition FormDialog (title : jstr) (description kicker : option jstr) (submitLabel : jstr) (submitting : bool)
    (onCancel onSubmit : E) (children : list (view E)) : view E :=
  On EscapeKey onCancel (On Backdrop onCancel
    (Form title onSubmit
      (only_some kicker Words
       ++ [Words title]
       ++ only_if (truthy (default [] description)) (Words (default [] description))
       ++ children
       ++ [Button "取消"%js submitting onCancel;
           Submit (if submitting then "提交中…"%js else submitLabel) submitting]))).

(** ** Fields *)

(** [{(error || hint) && <small …>{error ?? hint}</small>}]. *)
Definition field_message (error hint : option jstr) : list (view E) :=
  let shown := default [] (match error with Some e => Some e | None => hint end) in
  if truthy (default [] error) then [Notice "alert"%js shown]
  else only_if (truthy (default [] hint)) (Words shown).

Definition TextField (label text : jstr) (error hint : option jstr) (change : jstr → E) : view E :=
  Group (Field label text false change :: field_message error hint).
Definition TextAreaField (label text : jstr) (error hint : option jstr) (change : jstr → E) : view E :=
  Group (Field label text false change :: field_message error hint).

(** [label] is the accessible name: [aria-label] where it is given. *)
Definition Checkbox (label : jstr) (description : option jstr) (checked : bool) (change : bool → E) : view E :=
  Group (Tick label checked false change :: only_if (truthy (default [] description)) (Words (default [] description))).

(** A closed list of options; the popover and its keys are in [Controls]. *)
Definition SelectControl (label selected : jstr) (options : list (jstr * jstr)) (disabled : bool) (change : jstr → E) : view E :=
  Choice label selected options disabled change.

(** A field with a list: it reports every text typed, and the options chosen. *)
Definition ComboboxControl (label value : jstr) (options : list (jstr * jstr)) (disabled : bool) (change : jstr → E) : view E :=
  Group [Field label value disabled change; Choice (label ++ " 选项"%js) value options disabled change].

Definition formatFileSize (size : Z) : jstr :=
  if (1024 * 1024 <=? size)%Z then to_fixed1 size (1024 * 1024) ++ " MB"%js
  else if (1024 <=? size)%Z then to_fixed1 size 1024 ++ " KB"%js
  else dec_Z size ++ " B"%js.

Definition Dropzone (label : jstr) (file : option Picked) (error hint : option jstr) (change : option Picked → E) : view E :=
  Group
    ([Words label;
      Region "button"%js label
        (Upload (label ++ "文件选择"%js) change ::
         match file with
         | Some f => [Words (pk_name f); Words (formatFileSize (pk_size f)); Button ("清除 "%js ++ pk_name f) false (change None)]
         | None => [Words "拖放文件到这里"%js; Words "或点击选择文件"%js]
         end)]
     ++ field_message error hint).

Definition FileField (label : jstr) (value : option Picked) (error : option jstr) (change : option Picked → E) : view E :=
  Group
    ([Words label;
      Words (from_option pk_name "未选择文件"%js value)]
     ++ only_if (bool_decide (is_Some value)) (Button "清除"%js false (change None))
     ++ [Upload label change]
     ++ only_if (truthy (default [] error)) (Notice "alert"%js (default [] error))).

(** ** States, frames and tables *)

Definition EmptyState (title description : jstr) (action : list (view E)) : view E :=
  Region "status"%js title ([Words title] ++ only_if (truthy description) (Words description) ++ action).
Definition StatusBadge (s : jstr) : view E := Words s.
Definition TerminalStatus (s : jstr) : view E := Words s.
Definition TerminalInlineAction (label : jstr) (disabled : bool) (press : E) : view E := Button label disabled press.
Definition TerminalCommandFilter (label text : jstr) (tokens : list jstr) (change : jstr → E) : view E :=
  Group (Field label text false change :: (Words <$> tokens)).

(** [empty] is the element shown instead of the rows, if there is one. *)
Definition DataGrid (label : jstr) (loading : bool) (empty : option (view E)) (children : list (view E)) : view E :=
  if loading then Notice "status"%js "正在加载…"%js
  else match empty with
       | Some e => Group [e]
       | None => Region "table"%js label children
       end.

Definition WorkbenchFrame (onSidebarOpenChange : bool → E) (children : list (view E)) : view E :=
  Group (Button "关闭侧栏"%js false (onSidebarOpenChange false) :: children).
Definition WorkbenchPaneToolbar (onOpenSidebar : option E) (children : list (view E)) : view E :=
  Group (only_some onOpenSidebar (Button "打开侧栏"%js false) ++ children).
Definition WorkbenchSidebar (label : jstr) (children footer : list (view E)) : view E :=
  Region "complementary"%js label (children ++ footer).
Definition WorkbenchContent (label : jstr) (children : list (view E)) : view E := Region "main"%js label children.

(** ** Rules *)

Lemma shown_error label text error hint (change : jstr → E) :
  error ≠ [] → error ∈ texts (TextField label text (Some error) hint change).
Proof. intros He. unfold TextField, field_message. destruct error; [done|]. cbn. by left. Qed.
Lemma shown_in_dialog title description kicker label submitting (onCancel onSubmit : E) children v x :
  v ∈ children → x ∈ texts v → x ∈ texts (FormDialog title description kicker label submitting onCancel onSubmit children).
Proof.
  intros Hv Hx. unfold FormDialog. cbn [texts]. apply (elem_of_flat_map _ _ v); [|done].
  rewrite !elem_of_app. by do 3 right; left.
Qed.

Context (P : E → Prop).

(** The cancel button is disabled while the form is submitted; the backdrop and Escape are
    not. *)
Lemma every_confirm title description label danger onCancel onConfirm :
  every P (ConfirmDialog title description label danger onCancel onConfirm) ↔ P onCancel ∧ P onConfirm.
Proof. cbn. naive_solver. Qed.
Lemma every_form_dialog title description kicker label submitting onCancel onSubmit children :
  every P (FormDialog title description kicker label submitting onCancel onSubmit children)
  ↔ P onCancel ∧ (submitting = false ∨ existsb submits children = true → P onSubmit) ∧ every_of P children.
Proof.
  unfold FormDialog. cbn [every]. rewrite every_foldr, !every_of_app, every_when_some, every_when.
  rewrite !every_of_cons, every_of_nil, !existsb_app.
  assert (Hk : existsb submits (only_some kicker (@Words E)) = false) by (by destruct kicker).
  assert (Hd : existsb submits (only_if (truthy (default [] description)) (@Words E (default [] description))) = false).
  { by destruct (truthy _). }
  rewrite Hk, Hd. cbn. rewrite !orb_false_r. split.
  - intros (Hc & _ & Hs & _ & _ & _ & Hch & _). split_and!; [done| |done]. intros Hx. apply Hs, orb_true_iff. destruct Hx as [->|Hx]; [by right|by left].
  - intros (Hc & Hs & Hch). split_and!; try done. intros [H|H]%orb_true_iff; apply Hs; [by right|left; by destruct submitting].
Qed.

Lemma every_message error hint : every_of P (field_message error hint).
Proof. unfold field_message. destruct (truthy _); [|destruct (truthy _)]; repeat constructor. Qed.
Lemma every_text_field label text error hint change : every P (TextField label text error hint change) ↔ ∀ x, P (change x).
Proof. unfold TextField, Group. rewrite every_region, every_of_cons. pose proof (every_message error hint). cbn. naive_solver. Qed.
Lemma every_area_field label text error hint change : every P (TextAreaField label text error hint change) ↔ ∀ x, P (change x).
Proof. apply every_text_field. Qed.
Lemma every_checkbox label description checked change : every P (Checkbox label description checked change) ↔ P (change (negb checked)).
Proof. unfold Checkbox, Group. rewrite every_region, every_of_cons, every_when. cbn. naive_solver. Qed.
Lemma every_select label selected options disabled change :
  every P (SelectControl label selected options disabled change) ↔ (disabled = false → ∀ o, o ∈ options → P (change o.1)).
Proof. cbn. by rewrite Forall_forall. Qed.
Lemma every_combobox label value options disabled change :
  every P (ComboboxControl label value options disabled change) ↔
  (disabled = false → (∀ x, P (change x)) ∧ ∀ o, o ∈ options → P (change o.1)).
Proof.
  unfold ComboboxControl, Group. rewrite every_region, !every_of_cons, every_of_nil. cbn. rewrite Forall_forall. naive_solver.
Qed.
Lemma every_dropzone label file error hint change : every P (Dropzone label file error hint change) ↔ ∀ x, P (change x).
Proof.
  unfold Dropzone, Group. rewrite every_region, !every_of_app, !every_of_cons, every_region, every_of_cons.
  pose proof (every_message error hint). destruct file; rewrite ?every_of_cons, every_of_nil; cbn; naive_solver.
Qed.
Lemma every_empty title description action : every P (EmptyState title description action) ↔ every_of P action.
Proof. unfold EmptyState. rewrite every_region, !every_of_app, every_when, every_of_cons, every_of_nil. cbn. naive_solver. Qed.
Lemma every_words l : every_of P (Words <$> l).
Proof. rewrite every_fmap. done. Qed.
Lemma every_grid label loading empty children :
  every P (DataGrid label loading empty children) ↔ (loading = false → from_option (every P) (every_of P children) empty).
Proof. unfold DataGrid, Group. destruct loading, empty; rewrite ?every_region, ?every_of_cons, ?every_of_nil; cbn; naive_solver. Qed.
Lemma every_action label disabled e : every P (TerminalInlineAction label disabled e) ↔ (disabled = false → P e).
Proof. done. Qed.
Lemma every_filter label text tokens change : every P (TerminalCommandFilter label text tokens change) ↔ ∀ x, P (change x).
Proof. unfold TerminalCommandFilter, Group. rewrite every_region, every_of_cons. pose proof (every_words tokens). cbn. naive_solver. Qed.
Lemma every_group vs : every P (Group vs) ↔ every_of P vs.
Proof. apply every_region. Qed.
End elements.

(** Reduces a statement on what is offered to one per control. *)
Ltac elements :=
  repeat first [rewrite every_foldr | rewrite every_on | rewrite every_confirm | rewrite every_form_dialog | rewrite every_text_field | rewrite every_area_field
    | rewrite every_checkbox | rewrite every_select | rewrite every_combobox | rewrite every_dropzone | rewrite every_empty | rewrite every_grid
    | rewrite every_action | rewrite every_filter | rewrite every_group | rewrite every_region | rewrite every_form | rewrite every_of_app | rewrite every_of_cons | rewrite every_of_nil
    | rewrite every_when | rewrite every_when_some | rewrite every_fmap | rewrite every_map]; cbn [every].

(** A file just below a megabyte is shown as 1024.0 KB. *)
Example kilobytes_roll_over : formatFileSize 1048575 = "1024.0 KB"%js.
Proof. reflexivity. Qed.
