(* ===== verification/JsValue.v ===== *)
(** * JavaScript values

    The values that reach the code from JSON payloads and from inputs (the type
    [unknown] of the cells): primitives, arrays and plain objects.  [to_str] is
    [String(v)]; a plain object prints as [[object Object]].  Objects used as string
    maps are [gmap jstr _] where only lookups matter; object values nested in a cell
    keep their fields in insertion order. *)
From S2P Require Import Prelude JsString JsNumber.

Inductive value :=
| VUndefined
| VNull
| VBool (b : bool)
| VNum (n : number)
| VStr (s : jstr)
| VArr (l : list value)
| VObj (fields : list (jstr * value)).

#[export] Instance value_eq_dec : EqDecision value.
Proof.
  refine (fix go (a b : value) {struct a} : Decision (a = b) :=
    match a, b with
    | VUndefined, VUndefined => left _
    | VNull, VNull => left _
    | VBool x, VBool y => cast_if (decide (x = y))
    | VNum x, VNum y => cast_if (decide (x = y))
    | VStr x, VStr y => cast_if (decide (x = y))
    | VArr x, VArr y => cast_if (@list_eq_dec value go x y)
    | VObj x, VObj y =>
        cast_if (@list_eq_dec (jstr * value) (λ p q,
          match p, q with
          | (k, v), (k', v') => cast_if_and (decide (k = k')) (go v v')
          end) x y)
    | _, _ => right _
    end); abstract congruence.
Defined.

(** [v == null]: null or undefined. *)
Definition is_nullish (v : value) : bool :=
  match v with VUndefined | VNull => true | _ => false end.

(** [String(v)]; in an array the nullish items print as nothing. *)
Fixpoint to_str (v : value) : jstr :=
  match v with
  | VUndefined => "undefined"%js
  | VNull => "null"%js
  | VBool b => if b then "true"%js else "false"%js
  | VNum n => number_to_string n
  | VStr s => s
  | VArr l =>
      join ","%js ((λ x, match x with VUndefined | VNull => [] | _ => to_str x end) <$> l)
  | VObj _ => "[object Object]"%js
  end.

(** [a === b] on primitives.  Arrays and objects compare by reference: two values of
    the model that are not primitive count as distinct, which no caller can observe
    because each of them compares [String(a)] with [String(b)] next. *)
Definition strict_eq (a b : value) : bool :=
  match a, b with
  | VUndefined, VUndefined | VNull, VNull => true
  | VBool x, VBool y => Bool.eqb x y
  | VNum x, VNum y => num_eq x y
  | VStr x, VStr y => bool_decide (x = y)
  | _, _ => false
  end.

(** [Boolean(v)]. *)
Definition truthy_value (v : value) : bool :=
  match v with
  | VUndefined | VNull => false
  | VBool b => b
  | VNum n => num_truthy n
  | VStr s => truthy s
  | VArr _ | VObj _ => true
  end.

(** A record of the source with string keys. *)
Abbreviation record := (gmap jstr value).

(** [record[key]]: [undefined] when the key is absent. *)
Definition get (r : record) (key : jstr) : value := default VUndefined (r !! key).

(** [Object.fromEntries(entries)]: the last entry of a key wins. *)
Definition from_entries (es : list (jstr * value)) : record :=
  foldl (λ m e, <[e.1 := e.2]> m) ∅ es.

Lemma from_entries_snoc es e : from_entries (es ++ [e]) = <[e.1 := e.2]> (from_entries es).
Proof. unfold from_entries. by rewrite foldl_app. Qed.

Lemma from_entries_not_in es k : k ∉ es.*1 → from_entries es !! k = None.
Proof.
  induction es as [|e es IH] using rev_ind; intros H; [done|].
  rewrite from_entries_snoc. rewrite fmap_app in H.
  apply not_elem_of_app in H as [H1 H2]. rewrite lookup_insert_ne by set_solver. by apply IH.
Qed.

Lemma from_entries_lookup es k v :
  NoDup es.*1 → (k, v) ∈ es → from_entries es !! k = Some v.
Proof.
  induction es as [|[k' v'] es IH] using rev_ind; intros Hnd Hin; [set_solver|].
  rewrite from_entries_snoc. simpl. rewrite fmap_app in Hnd. simpl in Hnd.
  apply NoDup_app in Hnd as (Hnd & Hdisj & _).
  apply elem_of_app in Hin as [Hin|Hin].
  - rewrite lookup_insert_ne; [by apply IH|]. intros ->.
    apply (Hdisj k); [|set_solver]. apply list_elem_of_fmap. by exists (k, v).
  - apply list_elem_of_singleton in Hin as [= -> ->]. apply lookup_insert_eq.
Qed.

Lemma from_entries_dom es : dom (from_entries es) = list_to_set es.*1.
Proof.
  induction es as [|e es IH] using rev_ind; [done|].
  rewrite from_entries_snoc, dom_insert_L, IH, fmap_app. simpl. set_solver.
Qed.
