(* ===== verification/Go.v ===== *)
(** * Go's strings and formatting

    What the models of the server use of Go's standard library: [strings.TrimSpace], and as
    an interface the lower case of strings and [fmt]. *)
From S2P Require Import Prelude JsString JsNumber JsValue.

(** [unicode.IsSpace] and [strings.TrimSpace]. *)
Definition go_space (c : N) : bool :=
  ((9 <=? c) && (c <=? 13) || (c =? 32) || (c =? 133) || (c =? 160) || (c =? 5760) || (8192 <=? c) && (c <=? 8202)
   || (c =? 8232) || (c =? 8233) || (c =? 8239) || (c =? 8287) || (c =? 12288))%N.
Fixpoint drop_spaces (s : jstr) : jstr := match s with c :: r => if go_space c then drop_spaces r else s | [] => [] end.
Definition TrimSpace (s : jstr) : jstr := rev (drop_spaces (rev (drop_spaces s))).

(** [strings.ToLower], [fmt.Sprint] of a decoded JSON value and the verb [%q]. *)
Class GoFmt := {
  go_ToLower : jstr → jstr;
  go_lower_ascii : ∀ s, forallb is_ascii s = true → go_ToLower s = ascii_lower s;
  go_Sprint : value → jstr;
  go_Sprint_string : ∀ s, go_Sprint (VStr s) = s;
  go_Quote : jstr → jstr;
}.

(** An instance: every value prints as JavaScript prints it. *)
Definition plain_fmt : GoFmt.
Proof. refine {| go_ToLower := ascii_lower; go_Sprint := to_str; go_Quote := id |}; done. Defined.

(** Wrapping around at 64 bits. *)
Definition wrap64 (n : Z) : Z := ((n + 2 ^ 63) mod 2 ^ 64 - 2 ^ 63)%Z.
Lemma wrap64_id n : (- 2 ^ 63 <= n < 2 ^ 63)%Z → wrap64 n = n.
Proof. intros Hn. unfold wrap64. rewrite Z.mod_small; lia. Qed.

(** Decoding a JSON number into an [int64]: its text must be one of an integer in range. *)
Definition int64_of_text (s : jstr) : option Z :=
  let '(neg, ds) := match s with 45%N :: r => (true, r) | _ => (false, s) end in
  match ds with
  | [] => None
  | _ =>
      n ← digits_value 10 dec_digit 0 ds;
      let n := if neg then (- n)%Z else n in
      if ((- 2 ^ 63 <=? n) && (n <? 2 ^ 63))%Z then Some n else None
  end.
