(* ===== verification/Api.v ===== *)
(** * The data the client exchanges with the server

    [src/web/src/api/types.ts] and [src/web/src/api/driver.ts]: database objects,
    query results, schema operations, and the driver tables. *)
From S2P Require Import Prelude JsString JsNumber JsValue.

(** ** api/driver.ts *)

Inductive DriverId := mysql | postgres | mongodb | redis.
#[export] Instance DriverId_eq_dec : EqDecision DriverId.
Proof. solve_decision. Defined.

(** The two drivers with a SQL workbench. *)
Inductive SqlDriver := MySQL | PostgreSQL.
#[export] Instance SqlDriver_eq_dec : EqDecision SqlDriver.
Proof. solve_decision. Defined.

Record ConnectionCapabilities := {
  queryLanguage : jstr;
  documentBrowse : option bool;
  aggregateQuery : option bool;
  indexEdit : option bool;
  schemaEdit : option bool;
  keyBrowse : option bool;
  commandConsole : option bool;
  rowEdit : option bool;
  supportsTransactions : option bool;
  supportsSqlWorkbench : option bool;
}.

(** The texts of the union type. *)
Definition driver_text (d : DriverId) : jstr :=
  match d with mysql => "mysql" | postgres => "postgres" | mongodb => "mongodb" | redis => "redis" end%js.

(** [DriverId | ''] is [option DriverId]. *)
Definition isSqlDriver (d : option DriverId) : bool :=
  match d with Some mysql | Some postgres => true | _ => false end.
Definition isMongoDriver (d : option DriverId) : bool := bool_decide (d = Some mongodb).
Definition isRedisDriver (d : option DriverId) : bool := bool_decide (d = Some redis).

Definition defaultPort (d : DriverId) : Z :=
  match d with mysql => 3306 | postgres => 5432 | mongodb => 27017 | redis => 6379 end.

Definition sqlDriverOrDefault (d : option DriverId) : SqlDriver :=
  if bool_decide (d = Some mysql) then MySQL else PostgreSQL.

Definition driverLabel (d : option DriverId) : jstr :=
  match d with
  | Some mysql => "MySQL"
  | Some postgres => "PostgreSQL"
  | Some mongodb => "MongoDB"
  | Some redis => "Redis"
  | None => "数据库"
  end%js.

(** ** api/types.ts *)

Record ConnectionInput := {
  ci_driver : DriverId;
  ci_host : jstr;
  ci_port : number;
  ci_database : jstr;
  ci_user : jstr;
  ci_password : jstr;
  ci_tlsMode : jstr;
}.

Inductive ObjectKind := KTable | KColumn | KView | KIndex | KKey.
#[export] Instance ObjectKind_eq_dec : EqDecision ObjectKind.
Proof. solve_decision. Defined.

Record DatabaseObject := MkObject {
  o_kind : ObjectKind;
  o_catalog : option jstr;
  o_schema : option jstr;
  o_name : jstr;
  o_parent : option jstr;
  o_dataType : option jstr;
  o_nullable : option bool;
}.
#[export] Instance DatabaseObject_eq_dec : EqDecision DatabaseObject.
Proof. solve_decision. Defined.

Inductive RiskLevel := Safe | Confirm | TypeTarget.
#[export] Instance RiskLevel_eq_dec : EqDecision RiskLevel.
Proof. solve_decision. Defined.

Record QueryRisk := MkRisk {
  level : RiskLevel;
  kind : option jstr;
  target : option jstr;
  reason : option jstr;
}.

Record QueryColumn := MkColumn { qc_name : jstr; qc_databaseType : option jstr }.

Record QueryResult := MkResult {
  r_queryId : jstr;
  r_columns : option (list QueryColumn);
  r_rows : option (list (list value));
  r_nextCursor : option number;
  r_affectedRows : option number;
  r_durationMs : number;
  r_truncated : option bool;
  r_running : bool;
}.

Record MutationInput := MkMutation {
  mi_schema : option jstr;
  mi_table : jstr;
  mi_values : option record;
  mi_key : option record;
  mi_transactionId : option jstr;
}.

Record SchemaColumn := MkSchemaColumn {
  sc_name : jstr;
  sc_type : jstr;
  sc_nullable : bool;
  sc_default : option jstr;
  sc_comment : option jstr;
  sc_primary : option bool;
}.
#[export] Instance SchemaColumn_eq_dec : EqDecision SchemaColumn.
Proof. solve_decision. Defined.

Record SchemaIndex := MkIndex { si_name : jstr; si_columns : list jstr; si_unique : bool }.
#[export] Instance SchemaIndex_eq_dec : EqDecision SchemaIndex.
Proof. solve_decision. Defined.

Record SchemaForeignKey := MkForeignKey {
  fk_name : jstr;
  fk_columns : list jstr;
  fk_refSchema : jstr;
  fk_refTable : jstr;
  fk_refColumns : list jstr;
  fk_onDelete : option jstr;
  fk_onUpdate : option jstr;
}.
#[export] Instance SchemaForeignKey_eq_dec : EqDecision SchemaForeignKey.
Proof. solve_decision. Defined.

Record TableDetail := {
  td_schema : jstr;
  td_name : jstr;
  td_columns : list SchemaColumn;
  td_indexes : list SchemaIndex;
  td_foreignKeys : list SchemaForeignKey;
  td_ddl : option jstr;
  td_permissions : list jstr;
}.

(** The operations the schema editor sends: [kind] with the fields that it uses. *)
Inductive SchemaOperation :=
| drop_column (name : jstr)
| add_column (column : SchemaColumn)
| rename_column (name newName : jstr)
| alter_column (column : SchemaColumn)
| set_column_comment (column : SchemaColumn)
| set_primary (name : jstr)
| drop_primary
| drop_index (name : jstr)
| add_index (index : SchemaIndex)
| add_foreign_key (foreignKey : SchemaForeignKey)
| drop_foreign_key (name : jstr).
#[export] Instance SchemaOperation_eq_dec : EqDecision SchemaOperation.
Proof. solve_decision. Defined.

Record RedisKeySummary := MkRedisKey { rk_key : jstr; rk_type : jstr; rk_ttl : number }.
#[export] Instance RedisKeySummary_eq_dec : EqDecision RedisKeySummary.
Proof. solve_decision. Defined.

Record RedisKeysResult := { rks_keys : list RedisKeySummary; rks_cursor : number; rks_durationMs : number }.

(** ** The driver tables agree *)

Lemma sqlDriverOrDefault_sql d :
  isSqlDriver (Some d) = true →
  match sqlDriverOrDefault (Some d) with MySQL => d = mysql | PostgreSQL => d = postgres end.
Proof. by destruct d. Qed.
