(* ===== verification/Ddl.v ===== *)
(** * DDL statements and drop confirmation

    [src/web/src/features/workspace/ddl.ts]: identifiers and their quoting, the
    CREATE and DROP statements, the SQL tokenizer and the extraction of the name the
    server asks the user to confirm. *)
From S2P Require Import Prelude JsString JsRegex Api.

Definition ident_start (c : N) : bool := is_alpha c || (c =? 95)%N.
Definition ident_char (c : N) : bool := is_alpha c || is_digit c || (c =? 95)%N.

(** [/^[a-zA-Z_][a-zA-Z0-9_]*$/]. *)
Definition ident_re : re :=
  (Bol · Class_ ident_start · Star true (Class_ ident_char) · Eol false)%re.
Definition isValidSqlIdent (name : jstr) : bool := test ident_re name.

Record CreateTableColumn := MkCreateColumn {
  ct_name : jstr;
  ct_type : jstr;
  ct_comment : option jstr;
  ct_primary : option bool;
}.

Definition quoteIdent (driver : SqlDriver) (name : jstr) : jstr :=
  match driver with
  | PostgreSQL => [c_dquote] ++ replace_char c_dquote [c_dquote; c_dquote] name ++ [c_dquote]
  | MySQL => [c_backtick] ++ replace_char c_backtick [c_backtick; c_backtick] name ++ [c_backtick]
  end.

Definition identRef (driver : SqlDriver) (name : jstr) : jstr :=
  if isValidSqlIdent name then name else quoteIdent driver name.

Definition sqlStringLiteral (value : jstr) : jstr :=
  [c_quote] ++ replace_char c_quote [c_quote; c_quote] value ++ [c_quote].

(** [/[;\x00]/]. *)
Definition unsafe_comment_re : re := Class_ (λ c, (c =? 59)%N || (c =? 0)%N).

Definition is_primary (column : CreateTableColumn) : bool := default false (ct_primary column).

(** [column.comment?.trim()], where [undefined] and the empty string both are falsy. *)
Definition trimmed_comment (column : CreateTableColumn) : jstr :=
  match ct_comment column with Some c => trim c | None => [] end.

Definition buildColumnDef (driver : SqlDriver) (column : CreateTableColumn)
    (inlinePrimary : bool) : jstr :=
  let def := quoteIdent driver (ct_name column) ++ " "%js ++ ct_type column in
  let def := if inlinePrimary && is_primary column then def ++ " PRIMARY KEY"%js else def in
  let comment := trimmed_comment column in
  if bool_decide (driver = MySQL) && truthy comment && negb (test unsafe_comment_re comment)
  then def ++ " COMMENT "%js ++ sqlStringLiteral comment
  else def.

Definition buildCreateDatabaseSQL (driver : SqlDriver) (name : jstr) : jstr :=
  "CREATE DATABASE "%js ++ identRef driver name ++ ";"%js.

Definition tableRef (driver : SqlDriver) (schema name : jstr) : jstr :=
  match driver with
  | PostgreSQL => identRef driver schema ++ "."%js ++ identRef driver name
  | MySQL => identRef driver name
  end.

Definition commentStatements (driver : SqlDriver) (ref : jstr)
    (columns : list CreateTableColumn) : list jstr :=
  match driver with
  | MySQL => []
  | PostgreSQL =>
      columns ≫= λ column,
        let comment := trimmed_comment column in
        if truthy comment
        then ["COMMENT ON COLUMN "%js ++ ref ++ "."%js ++ quoteIdent driver (ct_name column)
                ++ " IS "%js ++ sqlStringLiteral comment ++ ";"%js]
        else []
  end.

Definition pkColumns (driver : SqlDriver) (columns : list CreateTableColumn) : list jstr :=
  (λ column, quoteIdent driver (ct_name column)) <$> filterb is_primary columns.

Definition columnDefs (driver : SqlDriver) (columns : list CreateTableColumn) : list jstr :=
  let pk := pkColumns driver columns in
  let defs := (λ column, buildColumnDef driver column (bool_decide (length pk = 1))) <$> columns in
  if bool_decide (1 < length pk)
  then defs ++ ["PRIMARY KEY ("%js ++ join ", "%js pk ++ ")"%js]
  else defs.

Definition buildCreateTableSQL (driver : SqlDriver) (schema name : jstr)
      (columns : list CreateTableColumn) : jstr :=
    let ref := tableRef driver schema name in
    let statements :=
      ("CREATE TABLE "%js ++ ref ++ " (
  "%js ++ join ",
  "%js (columnDefs driver columns) ++ "
);"%js)
        :: commentStatements driver ref columns in
    join [c_nl] statements.

Definition buildDropDatabaseSQL (driver : SqlDriver) (name : jstr) : jstr :=
  "DROP DATABASE "%js ++ identRef driver name ++ ";"%js.

Definition buildDropTableSQL (driver : SqlDriver) (schema name : jstr) : jstr :=
  "DROP TABLE "%js ++ tableRef driver schema name ++ ";"%js.

(** ** The tokenizer *)

Record SqlToken := MkToken { tk_text : jstr; tk_depth : nat }.
#[export] Instance SqlToken_eq_dec : EqDecision SqlToken.
Proof. solve_decision. Defined.

(** The scanners below work on the text that is left, [sql.slice(i)]. *)
Fixpoint skip_line (s : jstr) : jstr :=
  match s with
  | c :: t => if (c =? c_nl)%N then s else skip_line t
  | [] => []
  end.

(** Up to and with the closing [*/]; when there is none the last character is left. *)
Fixpoint skip_block (s : jstr) : jstr :=
  match s with
  | c :: ((d :: t) as r) => if ((c =? 42) && (d =? 47))%N then t else skip_block r
  | _ => s
  end.

(** The token text after the opening quote, and the text that follows it. *)
Fixpoint scan_quoted (q : N) (s : jstr) : jstr * jstr :=
  match s with
  | [] => ([], [])
  | c :: t =>
      if (c =? q)%N then
        match t with
        | c' :: t' => if (c' =? q)%N
                      then let '(x, r) := scan_quoted q t' in (q :: q :: x, r)
                      else ([q], t)
        | [] => ([q], [])
        end
      else if (c =? c_backslash)%N then
        match t with
        | c' :: t' => let '(x, r) := scan_quoted q t' in (c :: c' :: x, r)
        | [] => ([c], [])
        end
      else let '(x, r) := scan_quoted q t in (c :: x, r)
  end.

(** [(),;'] and the quotes. *)
Definition is_punct (c : N) : bool :=
  ((c =? 40) || (c =? 41) || (c =? 44) || (c =? 59) || (c =? 39) || (c =? 34) || (c =? 96))%N.
Definition is_plain (c : N) : bool := negb (is_ws c) && negb (is_punct c).

Fixpoint scan_plain (s : jstr) : jstr * jstr :=
  match s with
  | c :: t => if is_plain c then let '(x, r) := scan_plain t in (c :: x, r) else ([], s)
  | [] => ([], [])
  end.

Definition is_quote (c : N) : bool := ((c =? 39) || (c =? 34) || (c =? 96))%N.

(** One turn of the main loop: the tokens it pushes, the text and depth it leaves. *)
Definition token_step (c : N) (t : jstr) (depth : nat) : list SqlToken * jstr * nat :=
  if is_ws c then ([], t, depth)
  else if (c =? 45)%N && starts_with [45%N] t then ([], skip_line (drop 1 t), depth)
  else if (c =? 47)%N && starts_with [42%N] t then ([], skip_block (drop 1 t), depth)
  else if is_quote c then
    let '(x, r) := scan_quoted c t in ([MkToken (c :: x) depth], r, depth)
  else if (c =? 40)%N then ([], t, S depth)
  else if (c =? 41)%N then ([], t, Nat.pred depth)
  else if is_plain c then
    let '(x, r) := scan_plain t in ([MkToken (c :: x) depth], r, depth)
  else ([], t, depth).

Fixpoint tokens_go (fuel : nat) (s : jstr) (depth : nat) : list SqlToken :=
  match fuel, s with
  | S f, c :: t =>
      let '(ts, r, d) := token_step c t depth in ts ++ tokens_go f r d
  | _, _ => []
  end.
Definition tokenizeSql (sql : jstr) : list SqlToken := tokens_go (length sql) sql 0.

(** ** Confirmation target *)

(** [/\/\*[\s\S]*?\*\//g] and [/--.*$/gm]. *)
Definition block_comment_re : re :=
  (Lit "/*"%js · Star false any_unit · Lit "*/"%js)%re.
Definition line_comment_re : re :=
  (Lit "--"%js · Star true not_newline · Eol true)%re.

Definition normalizeStatement (sql : jstr) : jstr :=
  trim (replace_all line_comment_re " "%js (replace_all block_comment_re " "%js sql)).

(** [/^(DROP|TRUNCATE)$/i]. *)
Definition drop_word_re : re :=
  (Bol · Group 1 (AltsI ["DROP"%js; "TRUNCATE"%js]) · Eol false)%re.

Definition target_keywords : list jstr :=
  ["TABLE"%js; "DATABASE"%js; "SCHEMA"%js; "VIEW"%js; "IF"%js; "EXISTS"%js].

Section confirmation.
Context `{Unicode}.

Definition is_target_token (item : SqlToken) : bool :=
  (tk_depth item =? 0)%nat && negb (bool_decide (toUpperCase (tk_text item) ∈ target_keywords)).

Definition extractDropConfirmationTarget (sql : jstr) : option jstr :=
  match tokenizeSql (normalizeStatement sql) with
  | [] => None
  | t :: ts =>
      if test drop_word_re (tk_text t)
      then tk_text <$> find_first is_target_token ts
      else None
  end.
End confirmation.

Definition PAGE_SIZE_ALL : Z := 0.

(** ** Identifiers *)

Lemma isValidSqlIdent_spec name :
  isValidSqlIdent name =
    match name with
    | [] => false
    | c :: r => ident_start c && forallb ident_char r
    end.
Proof.
  unfold isValidSqlIdent, test, ident_re. rewrite exec_bol.
  unfold match_here. rewrite mrun_seq, mrun_class. destruct name as [|c r]; [done|].
  destruct (ident_start c); [|done]. rewrite mrun_seq, star_class_eol.
  by destruct (forallb ident_char r).
Qed.

Lemma ident_start_char c : ident_start c = true → ident_char c = true.
Proof.
  unfold ident_start, ident_char. destruct (is_alpha c), (is_digit c); simpl; done.
Qed.

Lemma isValidSqlIdent_chars name :
  isValidSqlIdent name = true → name ≠ [] ∧ Forall (λ c, ident_char c = true) name.
Proof.
  rewrite isValidSqlIdent_spec. destruct name as [|c r]; [done|]. intros H. bool_to_prop.
  split; [done|]. constructor; [by apply ident_start_char|].
  apply Forall_forall. by apply forallb_elem.
Qed.

(** Codes of the identifier characters. *)
Lemma ident_char_range c :
  ident_char c = true ↔
  (48 ≤ c ≤ 57 ∨ 65 ≤ c ≤ 90 ∨ c = 95 ∨ 97 ≤ c ≤ 122)%N.
Proof.
  unfold ident_char, is_alpha, is_upper, is_lower, is_digit.
  rewrite !orb_true_iff, !andb_true_iff, !N.leb_le, N.eqb_eq. lia.
Qed.

(** ** Facts about the tokenizer *)

Lemma length_skip_line s : length (skip_line s) ≤ length s.
Proof. induction s as [|c s IH]; simpl; [lia|]. destruct (c =? c_nl)%N; simpl; lia. Qed.

Lemma length_skip_block s : length (skip_block s) ≤ length s.
Proof.
  induction s as [|c [|d s] IH]; simpl; [lia|lia|].
  destruct ((c =? 42) && (d =? 47))%N; simpl in *; lia.
Qed.

Lemma length_scan_plain s : length (scan_plain s).2 ≤ length s.
Proof.
  induction s as [|c s IH]; simpl; [lia|].
  destruct (is_plain c); simpl; [|lia]. destruct (scan_plain s); simpl in *; lia.
Qed.

Lemma length_scan_quoted q s : length (scan_quoted q s).2 ≤ length s.
Proof.
  induction s as [s IH] using (induction_ltof1 _ (@length _)); unfold ltof in IH.
  destruct s as [|c t]; simpl; [lia|]. destruct (c =? q)%N.
  - destruct t as [|c' t']; simpl; [lia|]. destruct (c' =? q)%N; simpl; [|lia].
    specialize (IH t' ltac:(simpl; lia)). destruct (scan_quoted q t'); simpl in *; lia.
  - destruct (c =? c_backslash)%N.
    + destruct t as [|c' t']; simpl; [lia|].
      specialize (IH t' ltac:(simpl; lia)). destruct (scan_quoted q t'); simpl in *; lia.
    + specialize (IH t ltac:(simpl; lia)). destruct (scan_quoted q t); simpl in *; lia.
Qed.

Lemma token_step_length c t d : length (token_step c t d).1.2 ≤ length t.
Proof.
  unfold token_step.
  pose proof (length_scan_quoted c t). pose proof (length_scan_plain t).
  pose proof (length_skip_line (drop 1 t)). pose proof (length_skip_block (drop 1 t)).
  assert (length (drop 1 t) ≤ length t) by (rewrite length_drop; lia).
  destruct (scan_quoted c t), (scan_plain t). cbn [fst snd] in *.
  repeat case_match; cbn [fst snd]; lia.
Qed.

(** The loop ends: the length of the text is enough fuel. *)
Lemma tokens_go_fuel f s d : length s ≤ f → tokens_go f s d = tokens_go (length s) s d.
Proof.
  revert f s d. assert (∀ n s d f, length s ≤ n → length s ≤ f →
    tokens_go f s d = tokens_go (length s) s d) as H; [|intros; by eapply H].
  induction n as [|n IH]; intros [|c t] d [|f] Hn Hf; simpl in Hn, Hf; try done; try lia.
  cbn [length tokens_go]. pose proof (token_step_length c t d) as Hlen.
  destruct (token_step c t d) as [[ts r] d']. simpl in Hlen. f_equal.
  rewrite (IH r d' f), (IH r d' (length t)); lia || done.
Qed.

Definition tokens (s : jstr) (depth : nat) : list SqlToken := tokens_go (length s) s depth.

Lemma tokens_cons c t d :
  tokens (c :: t) d = (token_step c t d).1.1 ++ tokens (token_step c t d).1.2 (token_step c t d).2.
Proof.
  unfold tokens. cbn [length tokens_go]. pose proof (token_step_length c t d) as Hlen.
  destruct (token_step c t d) as [[ts r] d']. simpl in *. f_equal. by apply tokens_go_fuel.
Qed.

Lemma tokens_ws c t d : is_ws c = true → tokens (c :: t) d = tokens t d.
Proof. intros H. rewrite tokens_cons. unfold token_step. by rewrite H. Qed.

Lemma scan_plain_app w s :
  Forall (λ c, is_plain c = true) w →
  match s with [] => True | c :: _ => is_plain c = false end →
  scan_plain (w ++ s) = (w, s).
Proof.
  intros Hw Hs. induction Hw as [|c w Hc _ IH].
  - destruct s as [|c s]; simpl; [done|]. by rewrite Hs.
  - simpl. by rewrite Hc, IH.
Qed.

(** A run of plain characters that opens no comment is one token. *)
Lemma tokens_word c w s d :
  Forall (λ c, is_plain c = true) (c :: w) → c ≠ 45%N → c ≠ 47%N →
  match s with [] => True | x :: _ => is_plain x = false end →
  tokens (c :: w ++ s) d = MkToken (c :: w) d :: tokens s d.
Proof.
  intros Hw Hm Hs Hr. inversion Hw as [|? ? Hc Hw']; subst. rewrite tokens_cons.
  assert (token_step c (w ++ s) d = ([MkToken (c :: w) d], s, d)) as ->; [|done].
  assert (Hq : is_ws c = false ∧ is_punct c = false).
  { unfold is_plain in Hc. by bool_to_prop. }
  destruct Hq as [Hws Hp]. unfold token_step. rewrite Hws, Hc, scan_plain_app by done.
  destruct (N.eqb_spec c 45); [done|]. destruct (N.eqb_spec c 47); [done|].
  unfold is_punct in Hp. bool_to_prop. unfold is_quote.
  repeat match goal with H : (c ≠ ?n)%N |- _ => rewrite (proj2 (N.eqb_neq c n) H); clear H end.
  done.
Qed.

(** ** The confirmation target of the statements the client builds *)

(** Characters of a (possibly qualified) unquoted object name. *)
Definition ref_char (c : N) : bool := ident_char c || (c =? 46)%N.

Lemma ref_char_range c :
  ref_char c = true ↔ (c = 46 ∨ 48 ≤ c ≤ 57 ∨ 65 ≤ c ≤ 90 ∨ c = 95 ∨ 97 ≤ c ≤ 122)%N.
Proof. unfold ref_char. rewrite orb_true_iff, ident_char_range, N.eqb_eq. lia. Qed.

Lemma ident_ref_char c : ident_char c = true → ref_char c = true.
Proof. unfold ref_char. by intros ->. Qed.

Lemma ref_char_plain c : ref_char c = true → is_plain c = true.
Proof.
  rewrite ref_char_range. intros H. unfold is_plain, is_ws, is_punct.
  apply andb_true_iff; split; apply negb_true_iff;
    repeat (apply orb_false_iff; split); try apply andb_false_iff;
    rewrite ?N.eqb_neq, ?N.leb_gt; lia.
Qed.

Lemma ref_char_ascii c : ref_char c = true → is_ascii c = true.
Proof. rewrite ref_char_range. unfold is_ascii. rewrite N.ltb_lt. lia. Qed.

Lemma no_char_ref (w : jstr) n :
  Forall (λ c, ref_char c = true) w → ref_char n = false → n ∉ w.
Proof. intros Hw Hn Hin. rewrite Forall_forall in Hw. rewrite (Hw n Hin) in Hn. done. Qed.

(** A statement without comment openers and without outer blanks is not changed. *)
Lemma normalizeStatement_id s :
  47%N ∉ s → 45%N ∉ s → trim s = s → normalizeStatement s = s.
Proof.
  intros H1 H2 H3. unfold normalizeStatement.
  rewrite (replace_all_none block_comment_re); [rewrite (replace_all_none line_comment_re); [done|]|].
  - apply exec_lit_none. apply (includes_no_char _ _ 45%N); [set_solver|done].
  - apply exec_lit_none. apply (includes_no_char _ _ 47%N); [set_solver|done].
Qed.

Section drop_target.
Context `{Unicode}.

Definition drop_statement (kw w : jstr) : jstr := "DROP "%js ++ kw ++ " "%js ++ w ++ ";"%js.

Lemma tokens_drop kw w :
  kw ∈ ["TABLE"%js; "DATABASE"%js] →
  w ≠ [] → Forall (λ c, ref_char c = true) w →
  tokens (drop_statement kw w) 0 = [MkToken "DROP"%js 0; MkToken kw 0; MkToken w 0].
Proof.
  intros Hkw Hne Hw. unfold drop_statement.
  assert (Hplain : Forall (λ c, is_plain c = true) w)
    by (eapply Forall_impl; [exact Hw | apply ref_char_plain]).
  assert (Htail : tokens (w ++ ";"%js) 0 = [MkToken w 0]).
  { destruct w as [|c w]; [done|]. rewrite <- app_comm_cons. rewrite tokens_word; [done|done| | |done];
      intros ->; inversion Hw; done. }
  repeat (apply elem_of_cons in Hkw as [->|Hkw]); [| |set_solver].
  - change ("DROP "%js ++ "TABLE"%js ++ " "%js ++ w ++ ";"%js)
      with (68%N :: "ROP"%js ++ 32%N :: 84%N :: "ABLE"%js ++ 32%N :: w ++ ";"%js).
    rewrite tokens_word, tokens_ws, tokens_word, tokens_ws, Htail by (repeat constructor || done). done.
  - change ("DROP "%js ++ "DATABASE"%js ++ " "%js ++ w ++ ";"%js)
      with (68%N :: "ROP"%js ++ 32%N :: 68%N :: "ATABASE"%js ++ 32%N :: w ++ ";"%js).
    rewrite tokens_word, tokens_ws, tokens_word, tokens_ws, Htail by (repeat constructor || done). done.
Qed.

Lemma drop_statement_normal kw w :
  kw ∈ ["TABLE"%js; "DATABASE"%js] → Forall (λ c, ref_char c = true) w →
  normalizeStatement (drop_statement kw w) = drop_statement kw w.
Proof.
  intros Hkw Hw.
  assert (Hno : ∀ n, ref_char n = false → n ≠ 32%N → n ≠ 59%N → n ∉ drop_statement kw w).
  { intros n Hn H1 H2. unfold drop_statement.
    pose proof (no_char_ref w n Hw Hn) as Hnw.
    assert ((n ∉ "DROP"%js) ∧ (n ∉ kw)) as [Hd Hk].
    { split; (apply no_char_ref; [|done]); [by repeat constructor|].
      repeat (apply elem_of_cons in Hkw as [->|Hkw]); [by repeat constructor..|set_solver]. }
    rewrite !not_elem_of_app. set_solver. }
  apply normalizeStatement_id; [by apply Hno | by apply Hno |].
  apply trim_id; [done|]. unfold drop_statement. by rewrite !app_assoc, last_snoc.
Qed.

Lemma extract_drop_statement kw w :
  kw ∈ ["TABLE"%js; "DATABASE"%js] →
  w ≠ [] → Forall (λ c, ref_char c = true) w →
  extractDropConfirmationTarget (drop_statement kw w) =
    if bool_decide (ascii_upper w ∈ target_keywords) then None else Some w.
Proof.
  intros Hkw Hne Hw. unfold extractDropConfirmationTarget.
  rewrite drop_statement_normal by done.
  change (tokenizeSql (drop_statement kw w)) with (tokens (drop_statement kw w) 0).
  rewrite tokens_drop by done.
  change (test drop_word_re (tk_text (MkToken "DROP"%js 0))) with true.
  cbn [find_first List.find is_target_token tk_depth tk_text].
  assert (is_target_token (MkToken kw 0) = false) as ->.
  { unfold is_target_token. cbn [tk_depth tk_text].
    repeat (apply elem_of_cons in Hkw as [->|Hkw]); [| |set_solver];
      by rewrite upper_ascii by done. }
  assert (is_target_token (MkToken w 0) = negb (bool_decide (ascii_upper w ∈ target_keywords))) as ->.
  { unfold is_target_token. cbn [tk_depth tk_text]. rewrite upper_ascii; [done|].
    apply forallb_elem. intros c Hc. apply ref_char_ascii. by eapply Forall_forall in Hw. }
  by case_bool_decide.
Qed.
End drop_target.

Lemma identRef_valid d name : isValidSqlIdent name = true → identRef d name = name.
Proof. unfold identRef. by intros ->. Qed.

Lemma valid_ref_chars name :
  isValidSqlIdent name = true → name ≠ [] ∧ Forall (λ c, ref_char c = true) name.
Proof.
  intros [Hne Hc]%isValidSqlIdent_chars. split; [done|].
  eapply Forall_impl; [exact Hc | apply ident_ref_char].
Qed.

(** No keyword of the extraction holds a dot. *)
Lemma dotted_not_keyword s : 46%N ∈ s → ascii_upper s ∉ target_keywords.
Proof.
  intros Hin Hk. assert (46%N ∈ ascii_upper s) as H46.
  { apply list_elem_of_fmap. by exists 46%N. }
  revert H46. generalize (ascii_upper s), Hk. intros u Hu.
  repeat (apply elem_of_cons in Hu as [->|Hu]); [set_solver..|set_solver].
Qed.

(** ** Properties *)

(** For valid identifiers the name extracted for confirmation from a DROP
    statement the client builds is exactly the reference in the statement:
    [schema.name] for PostgreSQL tables, the bare name otherwise.  A bare name that
    is one of the skipped keywords yields no target. *)
Theorem drop_statement_target `{Unicode} d schema name :
  isValidSqlIdent schema = true → isValidSqlIdent name = true →
  let bare := if bool_decide (ascii_upper name ∈ target_keywords) then None else Some name in
  extractDropConfirmationTarget (buildDropTableSQL d schema name) =
    match d with PostgreSQL => Some (schema ++ "."%js ++ name) | MySQL => bare end
  ∧ extractDropConfirmationTarget (buildDropDatabaseSQL d name) = bare.
Proof.
  intros Hs Hn bare.
  pose proof (valid_ref_chars _ Hs) as [Hse Hsc]. pose proof (valid_ref_chars _ Hn) as [Hne Hnc].
  unfold buildDropTableSQL, buildDropDatabaseSQL, tableRef. rewrite !identRef_valid by done.
  split; [|by apply (extract_drop_statement "DATABASE"%js); [set_solver|..]].
  destruct d; [by apply (extract_drop_statement "TABLE"%js); [set_solver|..]|].
  etrans; [apply (extract_drop_statement "TABLE"%js); [set_solver| |]|].
  - by destruct schema.
  - apply Forall_app; split; [done|]. apply Forall_app; split; [by repeat constructor|done].
  - rewrite bool_decide_eq_false_2; [done|]. apply dotted_not_keyword. set_solver.
Qed.

Lemma drop_statement_target_witness :
  @extractDropConfirmationTarget ascii_unicode (buildDropTableSQL PostgreSQL "public"%js "rules"%js)
    = Some "public.rules"%js
  ∧ @extractDropConfirmationTarget ascii_unicode (buildDropDatabaseSQL PostgreSQL "rules"%js)
    = Some "rules"%js.
Proof.
  exact (@drop_statement_target ascii_unicode PostgreSQL "public"%js "rules"%js
           ltac:(vm_compute; reflexivity) ltac:(vm_compute; reflexivity)).
Defined.

(** A delimited SQL identifier or literal read back: text up to the closing quote,
    a doubled quote standing for one. *)
Fixpoint read_delimited (q : N) (s : jstr) : option (jstr * jstr) :=
  match s with
  | [] => None
  | c :: t =>
      if (c =? q)%N then
        match t with
        | c' :: t' => if (c' =? q)%N
                      then '(x, r) ← read_delimited q t'; Some (q :: x, r)
                      else Some ([], t)
        | [] => Some ([], [])
        end
      else '(x, r) ← read_delimited q t; Some (c :: x, r)
  end.

Definition not_led_by (q : N) (s : jstr) : Prop :=
  match s with [] => True | c :: _ => c ≠ q end.

Lemma read_delimited_replace q name rest :
  not_led_by q rest →
  read_delimited q (replace_char q [q; q] name ++ q :: rest) = Some (name, rest).
Proof.
  intros Hr. induction name as [|c name IH].
  - simpl. rewrite N.eqb_refl. destruct rest as [|x rest]; [done|].
    simpl in Hr. by rewrite (proj2 (N.eqb_neq x q) Hr).
  - change (replace_char q [q; q] (c :: name))
      with ((if (c =? q)%N then [q; q] else [c]) ++ replace_char q [q; q] name).
    destruct (N.eqb_spec c q) as [->|Hc]; simpl.
    + rewrite !N.eqb_refl. by rewrite IH.
    + rewrite (proj2 (N.eqb_neq c q) Hc), IH. done.
Qed.

Definition delimiter (d : SqlDriver) : N :=
  match d with PostgreSQL => c_dquote | MySQL => c_backtick end.

Lemma quoteIdent_shape d name :
  quoteIdent d name =
    [delimiter d] ++ replace_char (delimiter d) [delimiter d; delimiter d] name ++ [delimiter d].
Proof. by destruct d. Qed.


