(* ===== verification/Risk.v ===== *)
(** * Risk classification, on the client and on the server

    [classifyClientRisk] of [src/web/src/app/DatabaseWorkbench.tsx] decides which
    dialog a statement needs; [Classify] of [src/api/internal/query/risk.go] decides
    what the server demands, and the handler of [src/api/internal/httpapi/router.go]
    compares the confirmation it receives with [Classify]'s target.  The comment on
    [extractDropConfirmationTarget] asks the client's target to agree with it. *)
From S2P Require Import Prelude JsString JsRegex Api Ddl.

(** ** The client *)

Definition risk_destructive_re : re :=
  (Bol · Group 1 (AltsI ["DROP"%js; "TRUNCATE"%js]) · Plus ws
     · Opt (AltsI ["TABLE"%js; "DATABASE"%js; "SCHEMA"%js; "VIEW"%js]) · Star true ws
     · Opt (LitI "IF"%js · Plus ws · LitI "EXISTS"%js · Plus ws)
     · Group 2 (Plus (Class_ (λ c, negb (is_ws c) && negb (c =? 59)%N))))%re.
Definition risk_write_re : re := (Bol · AltsI ["UPDATE"%js; "DELETE"%js] · WordB)%re.
Definition risk_where_re : re := (WordB · LitI "WHERE"%js · WordB)%re.

Section client.
Context `{Unicode}.

Definition classifyClientRisk (statement : jstr) : QueryRisk :=
  let normalized := normalizeStatement statement in
  match exec risk_destructive_re normalized with
  | Some m =>
      MkRisk TypeTarget (toLowerCase <$> group 1 m) (group 2 m)
        (Some "该操作将删除数据库对象，请输入对象名称确认。"%js)
  | None =>
      if test risk_write_re normalized && negb (test risk_where_re normalized)
      then MkRisk Confirm (Some "write_without_where"%js) None
             (Some "语句缺少 WHERE 条件，可能影响整张表。"%js)
      else MkRisk Safe None None None
  end.
End client.

(** ** The server *)

(** Case conversion of Go's [strings] package, on bytes: its ASCII behaviour. *)
Class GoStrings := {
    go_ToUpper : jstr → jstr;
    go_EqualFold : jstr → jstr → bool;
    go_upper_ascii : ∀ s, forallb is_ascii s = true → go_ToUpper s = ascii_upper s;
    go_fold_ascii : ∀ s t, forallb is_ascii s = true → forallb is_ascii t = true →
      go_EqualFold s t = bool_decide (ascii_upper s = ascii_upper t);
  }.

Definition isSpace (value : N) : bool :=
  ((value =? 32) || (value =? 9) || (value =? 10) || (value =? 13))%N.

Definition go_plain (c : N) : bool := negb (isSpace c) && negb (is_punct c).

Fixpoint go_scan (s : jstr) : jstr * jstr :=
  match s with
  | c :: t => if go_plain c then let '(x, r) := go_scan t in (c :: x, r) else ([], s)
  | [] => ([], [])
  end.

(** The text after a quoted run; it becomes no token. *)
Fixpoint go_skip_quoted (q : N) (s : jstr) : jstr :=
  match s with
  | [] => []
  | c :: t =>
      if (c =? q)%N then
        match t with
        | c' :: t' => if (c' =? q)%N then go_skip_quoted q t' else t
        | [] => []
        end
      else if (c =? c_backslash)%N then
        match t with
        | _ :: t' => go_skip_quoted q t'
        | [] => []
        end
      else go_skip_quoted q t
  end.

Definition go_step (c : N) (t : jstr) (depth : nat) : list SqlToken * jstr * nat :=
  if isSpace c then ([], t, depth)
  else if (c =? 45)%N && starts_with [45%N] t then ([], skip_line (drop 1 t), depth)
  else if (c =? 47)%N && starts_with [42%N] t then ([], skip_block (drop 1 t), depth)
  else if is_quote c then ([], go_skip_quoted c t, depth)
  else if (c =? 40)%N then ([], t, S depth)
  else if (c =? 41)%N then ([], t, Nat.pred depth)
  else if go_plain c then
    let '(x, r) := go_scan t in ([MkToken (c :: x) depth], r, depth)
  else ([], t, depth).

Fixpoint tokenize_go (fuel : nat) (s : jstr) (depth : nat) : list SqlToken :=
  match fuel, s with
  | S f, c :: t => let '(ts, r, d) := go_step c t depth in ts ++ tokenize_go f r d
  | _, _ => []
  end.
Definition tokenize (sql : jstr) : list SqlToken := tokenize_go (length sql) sql 0.

Record Risk := MkGoRisk { Level : RiskLevel; Kind : jstr; Target : jstr; Reason : jstr }.

Section server.
Context `{GoStrings}.

Definition go_is_target (item : SqlToken) : bool :=
  (tk_depth item =? 0)%nat && negb (bool_decide (go_ToUpper (tk_text item) ∈ target_keywords)).

Definition Classify (statement : jstr) : Risk :=
  match tokenize statement with
  | [] => MkGoRisk Safe [] [] []
  | t :: ts =>
      let first := go_ToUpper (tk_text t) in
      if bool_decide (first ∈ ["UPDATE"%js; "DELETE"%js]) then
        if existsb (λ i, (tk_depth i =? 0)%nat && go_EqualFold (tk_text i) "WHERE"%js) ts
        then MkGoRisk Safe [] [] []
        else MkGoRisk Confirm (ascii_lower first ++ "_without_where"%js) []
               "语句缺少顶层 WHERE 条件"%js
      else if bool_decide (first ∈ ["DROP"%js; "TRUNCATE"%js]) then
        MkGoRisk TypeTarget (ascii_lower first)
          (default [] (tk_text <$> find_first go_is_target ts)) "操作将删除数据库对象"%js
      else MkGoRisk Safe [] [] []
  end.

(** The guard of the query endpoint: [true] when the statement may run. *)
Definition server_accepts (sql : jstr) (confirmed : bool) (confirmationTarget : jstr) : bool :=
  let risk := Classify sql in
  negb (bool_decide (Level risk = Confirm) && negb confirmed)
  && negb (bool_decide (Level risk = TypeTarget)
           && (negb confirmed || negb (bool_decide (confirmationTarget = Target risk)))).
End server.

(** The request [executeAdminSql] makes: the confirmation is sent when a target is found. *)
Definition admin_accepted `{Unicode, GoStrings} (sql : jstr) : bool :=
  match extractDropConfirmationTarget sql with
  | Some t => if truthy t then server_accepts sql true t else server_accepts sql false []
  | None => server_accepts sql false []
  end.

(** ** Where the two tokenizers agree *)

(** ASCII text without quotes, vertical tab or form feed. *)
Definition shared_char (c : N) : bool :=
  is_ascii c && negb (is_quote c) && negb (c =? 11)%N && negb (c =? 12)%N.

Lemma shared_space c : shared_char c = true → is_ws c = isSpace c.
Proof.
  unfold shared_char, is_ascii, is_ws, isSpace. intros Hc. bool_to_prop.
  apply eq_true_iff_eq. rewrite !orb_true_iff, !andb_true_iff, !N.eqb_eq, !N.leb_le. lia.
Qed.

Lemma shared_plain c : shared_char c = true → is_plain c = go_plain c.
Proof. intros Hc. unfold is_plain, go_plain. by rewrite shared_space. Qed.

Lemma shared_scan s : forallb shared_char s = true → scan_plain s = go_scan s.
Proof.
  induction s as [|c s IH]; simpl; [done|]. intros [Hc Hs]%andb_true_iff.
  rewrite (shared_plain c Hc). destruct (go_plain c); [|done]. by rewrite IH.
Qed.

Lemma shared_step c t d :
  forallb shared_char (c :: t) = true → token_step c t d = go_step c t d.
Proof.
  simpl. intros [Hc Ht]%andb_true_iff. unfold token_step, go_step.
  rewrite (shared_space c Hc), (shared_plain c Hc), (shared_scan t Ht).
  assert (is_quote c = false) as ->; [|done].
  unfold shared_char in Hc. by bool_to_prop.
Qed.

Lemma skip_line_suffix s : skip_line s `suffix_of` s.
Proof.
  induction s as [|c s IH]; simpl; [done|].
  destruct (c =? c_nl)%N; [done | by apply suffix_cons_r].
Qed.

Lemma skip_block_suffix s : skip_block s `suffix_of` s.
Proof.
  induction s as [|c [|d s] IH]; [done|done|].
  change (skip_block (c :: d :: s)) with
    (if ((c =? 42) && (d =? 47))%N then s else skip_block (d :: s)).
  destruct ((c =? 42) && (d =? 47))%N; [by do 2 apply suffix_cons_r | by apply suffix_cons_r].
Qed.

Lemma go_scan_suffix s : (go_scan s).2 `suffix_of` s.
Proof.
  induction s as [|c s IH]; simpl; [done|]. destruct (go_plain c); [|done].
  destruct (go_scan s). simpl in *. by apply suffix_cons_r.
Qed.

Lemma go_step_suffix c t d : is_quote c = false → (go_step c t d).1.2 `suffix_of` t.
Proof.
  intros Hq. unfold go_step. rewrite Hq.
  pose proof (go_scan_suffix t). pose proof (skip_line_suffix (drop 1 t)).
  pose proof (skip_block_suffix (drop 1 t)).
  assert (drop 1 t `suffix_of` t) by apply suffix_drop.
  destruct (go_scan t). cbn [snd] in *.
  repeat case_match; cbn [fst snd]; try done; by etrans.
Qed.

Lemma forallb_suffix {A} (p : A → bool) s t :
  s `suffix_of` t → forallb p t = true → forallb p s = true.
Proof. intros (k & ->). rewrite forallb_app. by intros [_ ?]%andb_true_iff. Qed.

Lemma shared_tokens s d n :
  length s ≤ n → forallb shared_char s = true → tokens_go n s d = tokenize_go n s d.
Proof.
  revert s d. induction n as [|n IH]; intros [|c t] d Hn Hs; simpl in Hn; try done.
  cbn [tokens_go tokenize_go]. rewrite (shared_step c t d Hs).
  pose proof (token_step_length c t d) as Hlen. rewrite (shared_step c t d Hs) in Hlen.
  assert (Hq : is_quote c = false).
  { simpl in Hs. apply andb_true_iff in Hs as [Hc _]. unfold shared_char in Hc. by bool_to_prop. }
  pose proof (go_step_suffix c t d Hq) as Hsuf.
  destruct (go_step c t d) as [[ts r] d']. cbn [fst snd] in *. f_equal.
  apply IH; [lia|]. eapply forallb_suffix; [done|].
  simpl in Hs. by apply andb_true_iff in Hs as [_ ?].
Qed.

Lemma shared_tokenize s : forallb shared_char s = true → tokenizeSql s = tokenize s.
Proof. intros H. by apply shared_tokens. Qed.

(** Token texts are pieces of the statement. *)
Lemma go_scan_elem s c : c ∈ (go_scan s).1 → c ∈ s.
Proof.
  revert c. induction s as [|x s IH]; intros c; simpl; [done|]. destruct (go_plain x); simpl; [|set_solver].
  destruct (go_scan s). simpl in *. set_solver.
Qed.

Lemma go_step_tokens c t d :
  (go_step c t d).1.1 = [] ∨ (go_step c t d).1.1 = [MkToken (c :: (go_scan t).1) d].
Proof.
  unfold go_step. destruct (go_scan t). repeat case_match; cbn [fst]; by auto.
Qed.

Lemma tokenize_go_ascii n s d t :
  forallb shared_char s = true → t ∈ tokenize_go n s d →
  tk_text t ≠ [] ∧ forallb is_ascii (tk_text t) = true.
Proof.
  revert s d. induction n as [|n IH]; intros [|c r] d Hs; simpl; try by intros ?%elem_of_nil.
  assert (Hq : is_quote c = false).
  { simpl in Hs. apply andb_true_iff in Hs as [Hc _]. unfold shared_char in Hc. by bool_to_prop. }
  pose proof (go_step_suffix c r d Hq) as Hsuf.
  assert (Hin : ∀ t', t' ∈ (go_step c r d).1.1 →
    tk_text t' ≠ [] ∧ ∀ x, x ∈ tk_text t' → x ∈ c :: r).
  { intros t'. pose proof (go_scan_elem r) as He.
    destruct (go_step_tokens c r d) as [->| ->]; [by intros ?%elem_of_nil|].
    intros ->%list_elem_of_singleton. cbn [tk_text]. split; [done|].
    intros x [->|Hx]%elem_of_cons; [by left | right; by apply He]. }
  assert (Hr : forallb shared_char r = true) by (simpl in Hs; by apply andb_true_iff in Hs as [_ ?]).
  destruct (go_step c r d) as [[ts r'] d']. cbn [fst snd] in *.
  intros [Ht|Ht]%elem_of_app.
  - apply Hin in Ht as [Hne Ht]. split; [done|]. apply forallb_elem. intros x Hx.
    rewrite forallb_elem in Hs. specialize (Hs x (Ht x Hx)).
    unfold shared_char in Hs. by bool_to_prop.
  - eapply IH; [|exact Ht]. by eapply forallb_suffix.
Qed.

(** [/^(DROP|TRUNCATE)$/i] on a whole token. *)
Lemma litI_end l k a cp :
  (∀ b c r cp', k (MState b (c :: r) cp') = None) →
  mrun (LitI l) k (MState [] a cp) =
    if bool_decide (ascii_upper a = ascii_upper l)
    then k (MState (reverse a) [] cp) else None.
Proof.
  intros Hk. rewrite mrun_litI. destruct (decide (length a ≤ length l)) as [Hle|Hgt].
  - rewrite !take_ge by (unfold ascii_upper; rewrite ?length_fmap; lia).
    rewrite drop_ge by lia. rewrite app_nil_r. done.
  - rewrite (bool_decide_eq_false_2 (ascii_upper a = _)).
    2:{ intros E%(f_equal length). unfold ascii_upper in E. rewrite !length_fmap in E. lia. }
    destruct (drop (length l) a) eqn:E; [|by case_bool_decide].
    apply (f_equal length) in E. rewrite length_drop in E. simpl in E. lia.
Qed.

Lemma drop_word_spec s :
  test drop_word_re s = bool_decide (ascii_upper s ∈ ["DROP"%js; "TRUNCATE"%js]).
Proof.
  unfold test, drop_word_re. rewrite exec_bol. unfold match_here.
  cbn [AltsI fmap list_fmap foldl]. rewrite mrun_seq. cbn [mrun m_before m_after m_caps].
  rewrite !litI_end by done. cbn [m_after].
  change (ascii_upper "DROP"%js) with "DROP"%js.
  change (ascii_upper "TRUNCATE"%js) with "TRUNCATE"%js.
  repeat case_bool_decide; simpl; try done; set_solver.
Qed.

Section agreement.
Context `{Unicode, GoStrings}.

Lemma shared_target_token item :
  forallb is_ascii (tk_text item) = true → is_target_token item = go_is_target item.
Proof.
  intros Ha. unfold is_target_token, go_is_target. by rewrite upper_ascii, go_upper_ascii.
Qed.

Lemma find_first_ext {A} (p q : A → bool) l :
  (∀ x, x ∈ l → p x = q x) → find_first p l = find_first q l.
Proof.
  intros Hpq. induction l as [|x l IH]; [done|]. unfold find_first in *. simpl.
  rewrite Hpq by set_solver. rewrite IH by set_solver. done.
Qed.
End agreement.

Lemma drop_not_write (w : jstr) :
  w ∈ ["DROP"%js; "TRUNCATE"%js] → w ∉ ["UPDATE"%js; "DELETE"%js].
Proof.
  intros [->|[->|[]%elem_of_nil]%elem_of_cons]%elem_of_cons;
    rewrite !not_elem_of_cons; (split_and!; [done|done|apply not_elem_of_nil]).
Qed.

Section target_agreement.
Context `{Unicode, GoStrings}.

Lemma targets_agree sql :
  forallb shared_char sql = true → normalizeStatement sql = sql →
  extractDropConfirmationTarget sql =
    (let r := Classify sql in
     if bool_decide (Level r = TypeTarget) && truthy (Target r) then Some (Target r) else None).
Proof.
  intros Hs Hn. unfold extractDropConfirmationTarget, Classify. rewrite Hn, shared_tokenize by done.
  pose proof (tokenize_go_ascii (length sql) sql 0) as Ha. fold (tokenize sql) in Ha.
  destruct (tokenize sql) as [|t ts]; [done|].
  rewrite drop_word_spec, go_upper_ascii by (by eapply Ha; [|left]).
  assert (Hts : ∀ i, i ∈ ts → tk_text i ≠ [] ∧ forallb is_ascii (tk_text i) = true)
    by (intros i Hi; apply Ha; [done | by right]).
  destruct (decide (ascii_upper (tk_text t) ∈ ["DROP"%js; "TRUNCATE"%js])) as [Hd|Hd].
  - rewrite !bool_decide_eq_true_2, (bool_decide_eq_false_2 (_ ∈ ["UPDATE"%js; "DELETE"%js]))
      by (done || by apply drop_not_write).
    rewrite (find_first_ext _ go_is_target) by (intros i Hi; by apply shared_target_token, Hts).
    destruct (find_first go_is_target ts) as [i|] eqn:E; [|done].
    apply find_first_Some in E as [Hi _]. apply Hts in Hi as [Hne _]. simpl.
    by destruct (tk_text i).
  - rewrite !(bool_decide_eq_false_2 (_ ∈ ["DROP"%js; _])) by done.
    destruct (bool_decide (_ ∈ ["UPDATE"%js; "DELETE"%js])); [|done].
    by destruct (existsb _ ts).
Qed.
End target_agreement.

(** A host of ASCII text, for the witnesses. *)
Definition ascii_go : GoStrings.
Proof.
  by refine {| go_ToUpper := ascii_upper;
               go_EqualFold := λ s t, bool_decide (ascii_upper s = ascii_upper t) |}.
Defined.

(** ** The DROP statements of the workbench, on the server *)

Lemma ref_char_shared c : ref_char c = true → shared_char c = true.
Proof.
  rewrite ref_char_range. intros H. unfold shared_char, is_ascii, is_quote.
  repeat (apply andb_true_iff; split); rewrite ?negb_true_iff, ?orb_false_iff, ?N.eqb_neq, ?N.ltb_lt;
    split_and?; lia.
Qed.

Lemma drop_statement_shared kw w :
  kw ∈ ["TABLE"%js; "DATABASE"%js] → Forall (λ c, ref_char c = true) w →
  forallb shared_char (drop_statement kw w) = true.
Proof.
  intros Hkw Hw. assert (forallb shared_char w = true) as Hsw.
  { apply forallb_elem. intros c Hc. apply ref_char_shared. by eapply Forall_forall in Hw. }
  unfold drop_statement. rewrite !forallb_app, Hsw.
  by apply elem_of_cons in Hkw as [->|[->|[]%elem_of_nil]%elem_of_cons].
Qed.

(** The body of a quoted name without backslashes is skipped to its closing quote. *)
Lemma go_skip_quoted_replace q name rest :
  q ≠ c_backslash → c_backslash ∉ name → not_led_by q rest →
  go_skip_quoted q (replace_char q [q; q] name ++ q :: rest) = rest.
Proof.
  intros Hq Hn Hr. induction name as [|c name IH].
  - simpl. rewrite N.eqb_refl. destruct rest as [|x rest]; [done|].
    simpl in Hr. by rewrite (proj2 (N.eqb_neq x q) Hr).
  - apply not_elem_of_cons in Hn as [Hc Hn].
    change (replace_char q [q; q] (c :: name))
      with ((if (c =? q)%N then [q; q] else [c]) ++ replace_char q [q; q] name).
    destruct (N.eqb_spec c q) as [->|Hcq]; simpl.
    + rewrite !N.eqb_refl. by apply IH.
    + rewrite (proj2 (N.eqb_neq c q) Hcq).
      rewrite (proj2 (N.eqb_neq c c_backslash)) by done. by apply IH.
Qed.

Lemma tokenize_go_quoted f q s d :
  is_quote q = true → is_ws q = false → tokenize_go (S f) (q :: s) d = tokenize_go f (go_skip_quoted q s) d.
Proof.
  intros Hq Hw. cbn [tokenize_go]. unfold is_quote in Hq.
  apply orb_true_iff in Hq as [[->%N.eqb_eq| ->%N.eqb_eq]%orb_true_iff| ->%N.eqb_eq]; done.
Qed.

Definition quoted_statement (d : SqlDriver) (kw name : jstr) : jstr :=
  "DROP "%js ++ kw ++ " "%js ++ quoteIdent d name ++ ";"%js.

(** The server finds no token in a quoted name. *)
Lemma tokenize_quoted d kw name :
  kw ∈ ["TABLE"%js; "DATABASE"%js] → c_backslash ∉ name →
  tokenize (quoted_statement d kw name) = [MkToken "DROP"%js 0; MkToken kw 0].
Proof.
  intros Hkw Hn.
  set (q := delimiter d).
  set (body := replace_char q [q; q] name ++ q :: ";"%js).
  assert (Hs : quoteIdent d name ++ ";"%js = q :: body).
  { unfold body, q. rewrite quoteIdent_shape. simpl app. rewrite <- app_assoc. done. }
  assert (Hskip : go_skip_quoted q body = ";"%js) by (apply go_skip_quoted_replace; by destruct d).
  assert (Hb : ∃ n, length body = S n) by (unfold body; rewrite length_app; simpl; rewrite Nat.add_succ_r; eauto).
  destruct Hb as [n Hb].
  unfold quoted_statement, tokenize. rewrite Hs.
  apply elem_of_cons in Hkw as [->|[->|[]%elem_of_nil]%elem_of_cons].
  - change (length _) with (11 + S (length body)). rewrite Hb.
    transitivity ([MkToken "DROP"%js 0; MkToken "TABLE"%js 0] ++ tokenize_go (S (8 + n)) (q :: body) 0); [done|].
    rewrite tokenize_go_quoted, Hskip by (by destruct d). done.
  - change (length _) with (14 + S (length body)). rewrite Hb.
    transitivity ([MkToken "DROP"%js 0; MkToken "DATABASE"%js 0] ++ tokenize_go (S (11 + n)) (q :: body) 0); [done|].
    rewrite tokenize_go_quoted, Hskip by (by destruct d). done.
Qed.

Section drops.
Context `{Unicode, GoStrings}.

Lemma classify_drop ts kw :
  kw ∈ ["TABLE"%js; "DATABASE"%js] → ∀ sql, tokenize sql = MkToken "DROP"%js 0 :: MkToken kw 0 :: ts →
  Level (Classify sql) = TypeTarget
  ∧ Target (Classify sql) = default [] (tk_text <$> find_first go_is_target ts).
Proof.
  intros Hkw sql E. unfold Classify. rewrite E. cbn [tk_text].
  rewrite go_upper_ascii by done. change (ascii_upper "DROP"%js) with "DROP"%js.
  rewrite bool_decide_eq_false_2, bool_decide_eq_true_2 by (by vm_compute; eauto using elem_of_list || set_solver).
  split; [done|]. cbn [Target].
  assert (go_is_target (MkToken kw 0) = false) as Hk.
  { unfold go_is_target. cbn [tk_text].
    apply elem_of_cons in Hkw as [->|[->|[]%elem_of_nil]%elem_of_cons]; by rewrite go_upper_ascii. }
  simpl. by rewrite Hk.
Qed.

Lemma accepts_no_confirmation sql t :
  Level (Classify sql) = TypeTarget → server_accepts sql false t = false.
Proof.
  intros HL. unfold server_accepts. rewrite HL, (bool_decide_eq_true_2 (TypeTarget = TypeTarget)) by done.
  done.
Qed.

Lemma accepts_confirmed sql t :
  Level (Classify sql) = TypeTarget →
  server_accepts sql true t = bool_decide (t = Target (Classify sql)).
Proof.
  intros HL. unfold server_accepts. rewrite HL, (bool_decide_eq_true_2 (TypeTarget = TypeTarget)) by done.
  simpl. apply negb_involutive.
Qed.

(** An administrative statement without a target on the server is never accepted:
  the client sends a confirmation only with a non-empty name. *)
Lemma no_target_rejected sql :
  Level (Classify sql) = TypeTarget → Target (Classify sql) = [] → admin_accepted sql = false.
Proof.
  intros HL HT. unfold admin_accepted.
  destruct (extractDropConfirmationTarget sql) as [[|c t]|]; simpl.
  - by apply accepts_no_confirmation.
  - rewrite accepts_confirmed, HT by done. done.
  - by apply accepts_no_confirmation.
Qed.

(** For an unquoted reference the server accepts unless the name is a skipped keyword. *)
Lemma drop_accepted kw w :
  kw ∈ ["TABLE"%js; "DATABASE"%js] → w ≠ [] → Forall (λ c, ref_char c = true) w →
  admin_accepted (drop_statement kw w) = negb (bool_decide (ascii_upper w ∈ target_keywords)).
Proof.
  intros Hkw Hne Hw.
  assert (Hsh := drop_statement_shared kw w Hkw Hw).
  assert (Htok := tokens_drop kw w Hkw Hne Hw).
  change (tokens (drop_statement kw w) 0) with (tokenizeSql (drop_statement kw w)) in Htok.
  rewrite shared_tokenize in Htok by done.
  destruct (classify_drop _ kw Hkw _ Htok) as [HL HT].
  assert (Hex := extract_drop_statement kw w Hkw Hne Hw).
  unfold admin_accepted. rewrite Hex. case_bool_decide as Hk; simpl.
  - by apply accepts_no_confirmation.
  - destruct w as [|c w]; [done|]. cbn [truthy]. rewrite accepts_confirmed, HT by done.
    assert (go_is_target (MkToken (c :: w) 0) = true) as Ht.
    { unfold go_is_target. cbn [tk_text]. rewrite go_upper_ascii; [by rewrite bool_decide_eq_false_2|].
      apply forallb_elem. intros x Hx. apply ref_char_ascii. by eapply Forall_forall in Hw. }
    simpl. rewrite Ht. by apply bool_decide_eq_true_2.
Qed.
End drops.

(** ** Properties *)





(** A name that has to be quoted cannot be dropped: the server's tokenizer makes no
    token of quoted text, so its target is empty, and whatever confirmation the client
    derives is refused. *)
Theorem quoted_drop_rejected `{Unicode, GoStrings} d schema name :
  isValidSqlIdent name = false → c_backslash ∉ name →
  admin_accepted (buildDropDatabaseSQL d name) = false
  ∧ admin_accepted (buildDropTableSQL MySQL schema name) = false.
Proof.
  intros Hv Hb. unfold buildDropTableSQL, buildDropDatabaseSQL, tableRef, identRef. rewrite Hv.
  split.
  - destruct (classify_drop [] "DATABASE"%js ltac:(set_solver) _
                (tokenize_quoted d "DATABASE"%js name ltac:(set_solver) Hb)) as [HL HT].
    by apply no_target_rejected.
  - destruct (classify_drop [] "TABLE"%js ltac:(set_solver) _
                (tokenize_quoted MySQL "TABLE"%js name ltac:(set_solver) Hb)) as [HL HT].
    by apply no_target_rejected.
Qed.

Lemma quoted_drop_rejected_witness :
  @admin_accepted ascii_unicode ascii_go (buildDropDatabaseSQL PostgreSQL "my-db"%js) = false
  ∧ @admin_accepted ascii_unicode ascii_go (buildDropTableSQL MySQL "s"%js "my-db"%js) = false.
Proof.
  refine (@quoted_drop_rejected ascii_unicode ascii_go PostgreSQL "s"%js "my-db"%js
           ltac:(vm_compute; reflexivity) _).
  apply (bool_decide_unpack _). vm_compute. exact I.
Defined.
