(* ===== verification/TableQuery.v ===== *)
(** * Table queries: filter rules, sorting and pages

    [src/web/src/features/table/tableViewState.ts] (rules, sort, draft) and
    [src/web/src/features/table/tableQuery.ts] (the SELECT a table tab runs), with the
    names of database objects of [src/web/src/features/workspace/types.ts].  Pages and
    page sizes are JavaScript numbers. *)
From S2P Require Import Prelude JsString JsNumber JsValue JsRegex Api Ddl.

(** ** Names of objects *)

Definition tableKey (table : DatabaseObject) : jstr :=
  default [] (o_catalog table) ++ "/"%js ++ default [] (o_schema table) ++ "/"%js ++ o_name table.

Definition tableTabId (table : DatabaseObject) : jstr :=
  "table:"%js ++ default [] (o_catalog table) ++ "/"%js ++ default [] (o_schema table)
    ++ "/"%js ++ o_name table.

Definition qualifiedTableName (table : DatabaseObject) : jstr :=
  match o_schema table with
  | Some schema => if truthy schema then schema ++ "."%js ++ o_name table else o_name table
  | None => o_name table
  end.

(** ** tableViewState.ts *)

Inductive FilterOperator := OpEq | OpNe | OpGt | OpLt | OpGe | OpLe | OpLike | OpNull | OpNotNull.
#[export] Instance FilterOperator_eq_dec : EqDecision FilterOperator.
Proof. solve_decision. Defined.

(** The text of an operator in the source. *)
Definition operator_text (o : FilterOperator) : jstr :=
  match o with
  | OpEq => "=" | OpNe => "!=" | OpGt => ">" | OpLt => "<" | OpGe => ">=" | OpLe => "<="
  | OpLike => "like" | OpNull => "is_null" | OpNotNull => "is_not_null"
  end%js.

Inductive FilterJoin := JAnd | JOr.
#[export] Instance FilterJoin_eq_dec : EqDecision FilterJoin.
Proof. solve_decision. Defined.

Record TableFilterRule := MkRule {
  fr_id : jstr;
  fr_enabled : bool;
  fr_column : jstr;
  fr_operator : FilterOperator;
  fr_value : jstr;
  fr_join : FilterJoin;
}.

#[export] Instance TableFilterRule_eq_dec : EqDecision TableFilterRule.
Proof. solve_decision. Defined.

Inductive SortDirection := Asc | Desc.
Record TableSort := MkSort { ts_column : jstr; ts_direction : SortDirection }.

(** [Record<number, ...>] is a map on row indices, whose entries JavaScript
    enumerates in ascending order. *)
Record TableDraft := MkDraft {
  editedRows : gmap nat record;
  newRows : list record;
  deletedRowIndexes : list nat;
}.

(** [fresh] is the identifier [createId()] returns. *)
Definition createEmptyFilterRule (fresh column : jstr) (join : FilterJoin) : TableFilterRule :=
  MkRule fresh true column OpEq [] join.

Definition emptyDraft : TableDraft := MkDraft ∅ [] [].

Definition hasDraftChanges (draft : option TableDraft) : bool :=
  match draft with
  | None => false
  | Some d =>
      bool_decide (0 < length (deletedRowIndexes d)) || bool_decide (0 < length (newRows d))
      || bool_decide (0 < size (editedRows d))
  end.

Definition normalizeFilterRules (fresh : jstr) (rules : list TableFilterRule)
    (defaultColumn : jstr) : list TableFilterRule :=
  if bool_decide (0 < length rules) then rules
  else [createEmptyFilterRule fresh defaultColumn JAnd].

(** ** tableQuery.ts *)

Record TableQueryOptions := MkOptions {
  qo_filterRules : option (list TableFilterRule);
  qo_sort : option TableSort;
  qo_page : option number;
  qo_pageSize : option number;
}.

(** [quoteIdent] and [escapeLiteral] repeat [quoteIdent] and [sqlStringLiteral] of
    ddl.ts, character for character. *)
Definition escapeLiteral (value : jstr) : jstr :=
  [c_quote] ++ replace_char c_quote [c_quote; c_quote] value ++ [c_quote].

Definition buildFilterClause (driver : SqlDriver) (rule : TableFilterRule) : jstr :=
  let column := quoteIdent driver (fr_column rule) in
  match fr_operator rule with
  | OpNull => column ++ " IS NULL"%js
  | OpNotNull => column ++ " IS NOT NULL"%js
  | OpLike => column ++ " LIKE "%js ++ escapeLiteral (or_else (fr_value rule) "%"%js)
  | o => column ++ " "%js ++ operator_text o ++ " "%js ++ escapeLiteral (fr_value rule)
  end.

Definition isFilterRuleReady (rule : TableFilterRule) : bool :=
  if negb (fr_enabled rule) || negb (truthy (fr_column rule)) then false
  else match fr_operator rule with
       | OpNull | OpNotNull => true
       | _ => truthy (trim (fr_value rule))
       end.

(** [join.toUpperCase()]. *)
Definition join_text (j : FilterJoin) : jstr :=
  match j with JAnd => "AND" | JOr => "OR" end%js.

(** The loop of [buildWhereClause]: [previous] is [active[index - 1]]. *)
Fixpoint where_loop (driver : SqlDriver) (previous : TableFilterRule)
    (rest : list TableFilterRule) (sql : jstr) : jstr :=
  match rest with
  | [] => sql
  | rule :: rest' =>
      where_loop driver rule rest'
        (sql ++ "
  "%js ++ join_text (fr_join previous) ++ " "%js ++ buildFilterClause driver rule)
  end.

Definition buildWhereClause (driver : SqlDriver) (rules : list TableFilterRule) : jstr :=
  match filterb isFilterRuleReady rules with
  | [] => []
  | first :: rest => where_loop driver first rest (buildFilterClause driver first)
  end.

Definition direction_text (d : SortDirection) : jstr :=
  match d with Asc => "ASC" | Desc => "DESC" end%js.

Definition buildTableSelectSQL (table : DatabaseObject) (driver : SqlDriver)
      (options : TableQueryOptions) : jstr :=
    let qualified := qualifiedTableName table in
    let page := num_max (num 1) (default (num 1) (qo_page options)) in
    let pageSize := default (num 200) (qo_pageSize options) in
    let offset := mul (sub page (num 1)) (num_max (num 1) pageSize) in
    let where_ := buildWhereClause driver (default [] (qo_filterRules options)) in
    let sql := "SELECT *
FROM "%js ++ qualified in
    let sql := if truthy where_ then sql ++ "
WHERE "%js ++ where_ else sql in
    let sql := match qo_sort options with
               | Some sort => sql ++ "
ORDER BY "%js ++ quoteIdent driver (ts_column sort) ++ " "%js ++ direction_text (ts_direction sort)
               | None => sql
               end in
    let sql := if num_lt (num 0) pageSize
               then match driver with
                    | MySQL => sql ++ "
LIMIT "%js ++ number_to_string offset ++ ", "%js ++ number_to_string pageSize
                    | PostgreSQL => sql ++ "
LIMIT "%js ++ number_to_string pageSize ++ " OFFSET "%js ++ number_to_string offset
                    end
               else sql in
    sql ++ ";"%js.

(** Examples of the repository's tests. *)
Definition obj (kind : ObjectKind) (schema : option jstr) (name : jstr) : DatabaseObject :=
  MkObject kind None schema name None None None.

Example select_page :
    buildTableSelectSQL (obj KTable (Some "public"%js) "channel"%js) PostgreSQL
      (MkOptions (Some [MkRule "1"%js true "name"%js OpLike "a%"%js JOr;
                        MkRule "2"%js true "id"%js OpGe "3"%js JAnd;
                        MkRule "3"%js false "id"%js OpGe "3"%js JAnd])
         (Some (MkSort "id"%js Desc)) (Some (num 3)) (Some (num 50)))
    = "SELECT *
FROM public.channel
WHERE "%js ++ [c_dquote] ++ "name"%js ++ [c_dquote] ++ " LIKE 'a%'
  OR "%js ++ [c_dquote] ++ "id"%js ++ [c_dquote] ++ " >= '3'
ORDER BY "%js ++ [c_dquote] ++ "id"%js ++ [c_dquote] ++ " DESC
LIMIT 50 OFFSET 100;"%js.
Proof. vm_compute. reflexivity. Qed.

(** ** Reading a WHERE clause back

    A reader of the SQL the clause is sent as: delimited identifiers, the operators of
    the builder and string literals, in which MySQL's default mode takes a backslash as
    an escape of the next character. *)

Fixpoint read_escaped (q : N) (s : jstr) : option (jstr * jstr) :=
  match s with
  | [] => None
  | c :: t =>
      if (c =? q)%N then
        match t with
        | c' :: t' => if (c' =? q)%N
                      then '(x, r) ← read_escaped q t'; Some (q :: x, r)
                      else Some ([], t)
        | [] => Some ([], [])
        end
      else if (c =? c_backslash)%N then
        match t with
        | c' :: t' => '(x, r) ← read_escaped q t'; Some (c' :: x, r)
        | [] => None
        end
      else '(x, r) ← read_escaped q t; Some (c :: x, r)
  end.

Definition read_literal (d : SqlDriver) : jstr → option (jstr * jstr) :=
  match d with PostgreSQL => read_delimited c_quote | MySQL => read_escaped c_quote end.

Definition strip_prefix (p s : jstr) : option jstr :=
  if starts_with p s then Some (drop (length p) s) else None.

Definition value_operators : list (FilterOperator * jstr) :=
  [(OpEq, " = '"); (OpNe, " != '"); (OpGt, " > '"); (OpLt, " < '"); (OpGe, " >= '");
   (OpLe, " <= '"); (OpLike, " LIKE '")]%js.

Record Clause := MkClause { cl_column : jstr; cl_operator : FilterOperator; cl_value : jstr }.

Fixpoint read_operator (ops : list (FilterOperator * jstr)) (s : jstr)
    : option (FilterOperator * jstr) :=
  match ops with
  | [] => None
  | (o, p) :: ops' =>
      match strip_prefix p s with Some r => Some (o, r) | None => read_operator ops' s end
  end.

Definition read_clause (d : SqlDriver) (s : jstr) : option (Clause * jstr) :=
  r ← strip_prefix [delimiter d] s;
  '(column, r) ← read_delimited (delimiter d) r;
  match read_operator [(OpNull, " IS NULL"%js); (OpNotNull, " IS NOT NULL"%js)] r with
  | Some (o, r') => Some (MkClause column o [], r')
  | None =>
      '(o, r') ← read_operator value_operators r;
      '(v, r'') ← read_literal d r';
      Some (MkClause column o v, r'')
  end.

Fixpoint read_joined (fuel : nat) (d : SqlDriver) (s : jstr) : option (list (FilterJoin * Clause)) :=
  match fuel, s with
  | _, [] => Some []
  | O, _ => None
  | S f, _ =>
      '(j, r) ← match strip_prefix "
  AND "%js s with
                | Some r => Some (JAnd, r)
                | None => r ← strip_prefix "
  OR "%js s; Some (JOr, r)
                end;
      '(c, r) ← read_clause d r;
      cs ← read_joined f d r;
      Some ((j, c) :: cs)
  end.

(** The clauses of a WHERE text, each with the connective before it; the first gets AND. *)
Definition read_where (d : SqlDriver) (s : jstr) : option (list (FilterJoin * Clause)) :=
  match s with
  | [] => Some []
  | _ => '(c, r) ← read_clause d s;
         cs ← read_joined (length s) d r;
         Some ((JAnd, c) :: cs)
  end.

(** What the rules mean: the ready ones, each after the connective of the one before. *)
Definition clause_of (rule : TableFilterRule) : Clause :=
  MkClause (fr_column rule) (fr_operator rule)
    (match fr_operator rule with OpNull | OpNotNull => [] | _ => fr_value rule end).

Fixpoint joined_clauses (previous : FilterJoin) (rules : list TableFilterRule)
    : list (FilterJoin * Clause) :=
  match rules with
  | [] => []
  | r :: rs => (previous, clause_of r) :: joined_clauses (fr_join r) rs
  end.
Definition where_meaning (rules : list TableFilterRule) : list (FilterJoin * Clause) :=
  joined_clauses JAnd (filterb isFilterRuleReady rules).

(** *** Lemmas *)

Lemma strip_prefix_app p s : strip_prefix p (p ++ s) = Some s.
Proof.
  unfold strip_prefix. rewrite (proj2 (starts_with_app p (p ++ s))) by eauto.
  by rewrite drop_app_length.
Qed.

Lemma read_escaped_replace value rest :
  c_backslash ∉ value → not_led_by c_quote rest →
  read_escaped c_quote (replace_char c_quote [c_quote; c_quote] value ++ c_quote :: rest)
    = Some (value, rest).
Proof.
  intros Hb Hr. induction value as [|c value IH].
  - simpl. destruct rest as [|x rest]; [done|].
    simpl in Hr. by rewrite (proj2 (N.eqb_neq x c_quote) Hr).
  - apply not_elem_of_cons in Hb as [Hc Hb].
    change (replace_char c_quote [c_quote; c_quote] (c :: value))
      with ((if (c =? c_quote)%N then [c_quote; c_quote] else [c])
              ++ replace_char c_quote [c_quote; c_quote] value).
    destruct (N.eqb_spec c c_quote) as [->|Hcq]; simpl.
    + by rewrite IH.
    + rewrite (proj2 (N.eqb_neq c c_quote) Hcq), (proj2 (N.eqb_neq c c_backslash)) by done.
      by rewrite IH.
Qed.

(** The values the driver's literals can carry. *)
Definition literal_safe (d : SqlDriver) (value : jstr) : Prop :=
  d = MySQL → c_backslash ∉ value.

Lemma read_literal_escape d value rest :
  literal_safe d value → not_led_by c_quote rest →
  read_literal d (drop 1 (escapeLiteral value) ++ rest) = Some (value, rest).
Proof.
  intros Hs Hr. unfold escapeLiteral. simpl app. simpl drop. rewrite drop_0, <- app_assoc.
  destruct d; [by apply read_escaped_replace; [apply Hs|] | by apply read_delimited_replace].
Qed.

(** Text that may follow a clause: nothing or a new line. *)
Definition clause_end (rest : jstr) : Prop :=
  match rest with [] => True | c :: _ => c = c_nl end.

Lemma ready_value rule :
  isFilterRuleReady rule = true →
  match fr_operator rule with OpNull | OpNotNull => True | _ => truthy (fr_value rule) = true end.
Proof.
  unfold isFilterRuleReady. destruct (_ || _); [done|].
  assert (∀ v, truthy (trim v) = true → truthy v = true) as Ht by (by intros [|]).
  destruct (fr_operator rule); try apply Ht; done.
Qed.

Lemma read_clause_build d rule rest :
  isFilterRuleReady rule = true → literal_safe d (fr_value rule) → clause_end rest →
  read_clause d (buildFilterClause d rule ++ rest) = Some (clause_of rule, rest).
Proof.
  intros Hr%ready_value Hs He. unfold read_clause, buildFilterClause, clause_of.
  assert (Hq : not_led_by c_quote rest) by (destruct rest; [done|]; simpl in *; by subst).
  assert (Hcol : ∀ u, not_led_by (delimiter d) u → ∃ r, strip_prefix [delimiter d]
      (quoteIdent d (fr_column rule) ++ u) = Some r
      ∧ read_delimited (delimiter d) r = Some (fr_column rule, u)).
  { intros u Hu. rewrite quoteIdent_shape, <- !app_assoc. eexists. split; [apply strip_prefix_app|].
    by apply read_delimited_replace. }
  assert (Hlit := read_literal_escape d (fr_value rule) rest Hs Hq).
  destruct (fr_operator rule); rewrite <- ?app_assoc;
    (edestruct Hcol as (r & -> & Hread); [|cbn [mbind option_bind]; rewrite Hread]; [by destruct d|]);
    try (destruct rest as [|x rest]; simpl in He; subst; done);
    cbn in Hlit |- *; rewrite ?drop_0 in *; try (by rewrite Hlit).
  unfold or_else. rewrite Hr. cbn. rewrite ?drop_0. by rewrite Hlit.
Qed.

(** The text after the first clause. *)
Fixpoint where_tail (d : SqlDriver) (previous : TableFilterRule) (rest : list TableFilterRule) : jstr :=
  match rest with
  | [] => []
  | r :: rs =>
      ("
  "%js ++ join_text (fr_join previous) ++ " "%js ++ buildFilterClause d r) ++ where_tail d r rs
  end.

Lemma where_loop_app d p rs sql : where_loop d p rs sql = sql ++ where_tail d p rs.
Proof.
  revert p sql. induction rs as [|r rs IH]; intros p sql; cbn [where_loop where_tail].
  - by rewrite app_nil_r.
  - rewrite IH. by rewrite <- app_assoc.
Qed.

Lemma where_tail_end d p rs : clause_end (where_tail d p rs).
Proof. by destruct rs. Qed.

Lemma where_tail_length d p rs : length rs ≤ length (where_tail d p rs).
Proof.
  revert p. induction rs as [|r rs IH]; intros p; cbn [where_tail]; simpl length; [lia|].
  specialize (IH r). rewrite length_app. lia.
Qed.

Lemma read_joined_tail d p rs n :
  length rs ≤ n → (∀ r, r ∈ rs → isFilterRuleReady r = true ∧ literal_safe d (fr_value r)) →
  read_joined n d (where_tail d p rs) = Some (joined_clauses (fr_join p) rs).
Proof.
  revert p n. induction rs as [|r rs IH]; intros p n Hn Hrs; [by destruct n|].
  destruct n as [|n]; simpl in Hn; [lia|].
  destruct (Hrs r ltac:(by left)) as [Hr Hs].
  assert (Hc := read_clause_build d r (where_tail d r rs) Hr Hs (where_tail_end d r rs)).
  specialize (IH r n ltac:(lia) ltac:(intros; apply Hrs; by right)).
  cbn [where_tail]. rewrite <- !app_assoc.
  destruct (fr_join p) eqn:Ej; cbn; rewrite ?drop_0, ?Ej, Hc; cbn; by rewrite IH.
Qed.

Lemma read_where_nonempty d s :
  s ≠ [] → read_where d s = ('(c, r) ← read_clause d s;
         cs ← read_joined (length s) d r; Some ((JAnd, c) :: cs)).
Proof. by destruct s. Qed.

Lemma buildFilterClause_nonempty d r : buildFilterClause d r ≠ [].
Proof. unfold buildFilterClause. rewrite quoteIdent_shape. by destruct (fr_operator r). Qed.

(** ** Pages *)

Lemma page_window_offset p s :
  (1 <= p → 1 <= s → (p - 1) * s <= max_safe → p <= max_safe → s <= max_safe →
   mul (sub (num_max (num 1) (num p)) (num 1)) (num_max (num 1) (num s)) = num ((p - 1) * s))%Z.
Proof.
  intros. rewrite !num_max_int, !Z.max_r by lia. rewrite sub_safe by lia.
  apply mul_safe; lia.
Qed.

(** ** Properties *)



(** Under MySQL's backslash escapes a filter value that ends in a backslash leaves
    its literal open: the text that follows is read as part of it, and no clause is
    read at all. *)
Theorem mysql_backslash_value_unterminated column op value :
  c_backslash ∉ value → c_quote ∉ value → op ≠ OpNull → op ≠ OpNotNull → column ≠ [] →
  read_where MySQL (buildWhereClause MySQL [MkRule [] true column op (value ++ [c_backslash]) JAnd]) = None.
Proof.
  intros Hb Hq Hn Hnn Hc. unfold buildWhereClause.
  assert (Htrim : truthy (trim (value ++ [c_backslash])) = true).
  { destruct (trim_decompose (value ++ [c_backslash])) as (p & q & E & Hp & Hwq).
    destruct (trim (value ++ [c_backslash])); [|done]. exfalso. simpl in E.
    assert (c_backslash ∈ p ++ q) as [Hin|Hin]%elem_of_app by (rewrite <- E; set_solver).
    - rewrite Forall_forall in Hp. by apply Hp in Hin.
    - rewrite Forall_forall in Hwq. by apply Hwq in Hin. }
  assert (Hready : isFilterRuleReady (MkRule [] true column op (value ++ [c_backslash]) JAnd) = true).
  { unfold isFilterRuleReady. cbn [fr_enabled fr_column fr_operator fr_value].
    destruct column; [done|]. simpl. rewrite Htrim. by destruct op. }
  rewrite filterb_cons, Hready. cbn [filterb List.filter where_loop].
  rewrite read_where_nonempty by apply buildFilterClause_nonempty.
  assert (Hread : ∀ v, c_backslash ∉ v → c_quote ∉ v →
    read_escaped c_quote (replace_char c_quote [c_quote; c_quote] (v ++ [c_backslash]) ++ [c_quote]) = None).
  { induction v as [|c v IH]; intros H1 H2; [done|].
    apply not_elem_of_cons in H1 as [H1 H1'], H2 as [H2 H2'].
    simpl. rewrite (proj2 (N.eqb_neq c c_quote)) by done. simpl.
    rewrite (proj2 (N.eqb_neq c c_quote)), (proj2 (N.eqb_neq c c_backslash)) by done.
    by rewrite IH. }
  specialize (Hread value Hb Hq).
  unfold read_clause, buildFilterClause. cbn [fr_column fr_operator fr_value].
  assert (Hor : or_else (value ++ [c_backslash]) "%"%js = value ++ [c_backslash]) by (by destruct value).
  assert (Hcol : ∀ u, not_led_by (delimiter MySQL) u → ∃ r, strip_prefix [delimiter MySQL]
      (quoteIdent MySQL column ++ u) = Some r
      ∧ read_delimited (delimiter MySQL) r = Some (column, u)).
  { intros u Hu. rewrite quoteIdent_shape, <- !app_assoc. eexists. split; [apply strip_prefix_app|].
    by apply read_delimited_replace. }
  destruct op; try done; rewrite ?Hor;
    (edestruct Hcol as (r & -> & Hr); [|cbn [mbind option_bind]; rewrite Hr]; [done|]);
    cbn; rewrite ?drop_0; by rewrite Hread.
Qed.

Lemma mysql_backslash_value_unterminated_witness :
  read_where MySQL (buildWhereClause MySQL [MkRule [] true "path"%js OpEq ("C:"%js ++ [c_backslash]) JAnd]) = None.
Proof.
  refine (mysql_backslash_value_unterminated "path"%js OpEq "C:"%js _ _ _ _ _); try discriminate;
    apply (bool_decide_unpack _); vm_compute; exact I.
Defined.

(** C15. Pages tile the result.  For page [p] of size [s] within the safe integers the
    statement ends in the window [(p-1)*s, s]; a page below 1 is read as page 1, and the
    size 0 ("all rows") has no window.  A row index lies in the window of exactly one
    page. *)
Theorem select_page_window table d rules sort p s :
    (p <= max_safe → 1 <= s <= max_safe → (Z.max 1 p - 1) * s <= max_safe →
    let body := buildTableSelectSQL table d (MkOptions (Some rules) sort (Some (num p)) (Some (num PAGE_SIZE_ALL))) in
    let offset := (Z.max 1 p - 1) * s in
    (∃ head, body = head ++ ";"%js ∧
     buildTableSelectSQL table d (MkOptions (Some rules) sort (Some (num p)) (Some (num s))) =
       head ++ match d with
               | MySQL => "
LIMIT "%js ++ dec_Z offset ++ ", "%js ++ dec_Z s
               | PostgreSQL => "
LIMIT "%js ++ dec_Z s ++ " OFFSET "%js ++ dec_Z offset
               end ++ ";"%js)
    ∧ ∀ row, 0 <= row → (offset <= row < offset + s ↔ row / s = Z.max 1 p - 1))%Z.
Proof.
  intros Hp Hs Ho body offset. split.
  - eexists. split; [reflexivity|].
    unfold buildTableSelectSQL. cbn [qo_filterRules qo_sort qo_page qo_pageSize from_option id].
    assert (num_max (num 1) (num p) = num (Z.max 1 p)) as -> by apply num_max_int.
    pose proof (page_window_offset (Z.max 1 p) s) as Hw.
    rewrite num_max_int in Hw. replace (Z.max 1 (Z.max 1 p)) with (Z.max 1 p) in Hw by lia.
    rewrite Hw by (unfold max_safe in *; lia).
    rewrite num_lt_int, (proj2 (Z.ltb_lt 0 s)) by lia.
    rewrite (number_to_string_safe s) by lia.
    rewrite (number_to_string_safe ((Z.max 1 p - 1) * s)) by (rewrite Z.abs_eq; nia).
    destruct d; by rewrite <- !app_assoc.
  - intros row Hrow. unfold offset. split.
    + intros Hb. symmetry. apply Z.div_unique with (r := (row - (Z.max 1 p - 1) * s)%Z); lia.
    + intros E. rewrite <- E. pose proof (Z.mul_div_le row s ltac:(lia)).
      pose proof (Z.mul_succ_div_gt row s ltac:(lia)). lia.
Qed.

Lemma select_page_window_witness :
    buildTableSelectSQL (obj KTable None "t"%js) MySQL
      (MkOptions (Some []) None (Some (num 3)) (Some (num 50)))
    = "SELECT *
FROM t
LIMIT 100, 50;"%js
    ∧ (100 <= 120 < 100 + 50 ↔ 120 / 50 = Z.max 1 3 - 1)%Z.
Proof.
    destruct (select_page_window (obj KTable None "t"%js) MySQL [] None 3 50) as [(head & Hh & Hw) Hrow];
      [unfold max_safe; lia..|].
    split; [|exact (Hrow 120%Z ltac:(lia))].
    rewrite Hw. assert (head = "SELECT *
FROM t"%js) as -> by (apply (app_inj_2 _ _ ";"%js ";"%js eq_refl); symmetry; exact Hh).
    reflexivity.
Defined.
