(* ===== verification/TableMutations.v ===== *)
(** * Cell values, row updates and the draft of a table

    [src/web/src/features/table/tableMutations.ts] (coercion of edited cells, the key
    and the values of an update, compaction of the draft) and
    [src/web/src/features/table/tableColumns.ts] (the columns a table view shows).
    Rows are arrays of JSON values; [Record<string, unknown>] is a [record]. *)
From S2P Require Import Prelude JsString JsNumber JsValue JsRegex Api TableQuery.

(** ** tableColumns.ts *)

Record TableColumn := MkTableColumn { col_name : jstr; col_dataType : option jstr }.
#[export] Instance TableColumn_eq_dec : EqDecision TableColumn.
Proof. solve_decision. Defined.

Definition resolveTableColumns (table : DatabaseObject) (result : option QueryResult)
    (objects : list DatabaseObject) : list TableColumn :=
  let columns := match result with Some r => default [] (r_columns r) | None => [] end in
  let fromResult := filterb (λ column, truthy (qc_name column)) columns in
  if bool_decide (0 < length fromResult)
  then (λ column, MkTableColumn (qc_name column) (qc_databaseType column)) <$> fromResult
  else (λ object, MkTableColumn (o_name object) (o_dataType object)) <$>
         filterb (λ object, bool_decide (o_kind object = KColumn)
                            && bool_decide (o_parent object = Some (o_name table))
                            && bool_decide (default [] (o_schema object) = default [] (o_schema table)))
           objects.

Definition set_columns (columns : option (list QueryColumn)) (r : QueryResult) : QueryResult :=
  MkResult (r_queryId r) columns (r_rows r) (r_nextCursor r) (r_affectedRows r)
    (r_durationMs r) (r_truncated r) (r_running r).

Definition preserveResultColumns (previous : option QueryResult) (next : QueryResult) : QueryResult :=
  if bool_decide (0 < length (default [] (r_columns next))) then next
  else match previous with
       | Some p =>
           match r_columns p with
           | Some (c :: cs) => set_columns (Some (c :: cs)) next
           | _ => next
           end
       | None => next
       end.

(** ** tableMutations.ts *)

Abbreviation row := (list value).

(** [row[index]]. *)
Definition cell (r : row) (i : nat) : value := default VUndefined (r !! i).

(** [/^-?\d+(\.\d+)?$/]. *)
Definition decimal_re : re :=
  (Bol · Opt (Lit "-"%js) · Plus (Class_ is_digit)
     · Opt (Lit "."%js · Plus (Class_ is_digit)) · Eol false)%re.

Section mutations.
Context `{Unicode}.

Definition isNumericType (dataType : option jstr) : bool :=
  match dataType with
  | None => false
  | Some t =>
      if negb (truthy t) then false
      else let type := toLowerCase t in
           includes "int"%js type || includes "numeric"%js type || includes "decimal"%js type
           || includes "double"%js type || includes "real"%js type || includes "serial"%js type
  end.

Definition isBooleanType (dataType : option jstr) : bool :=
  match dataType with Some t => includes "bool"%js (toLowerCase t) | None => false end.

Definition valuesEqual (left right : value) : bool :=
  if strict_eq left right then true
  else if is_nullish left && is_nullish right then true
  else bool_decide (to_str left = to_str right).

Definition coerceCellValue (raw : value) (dataType : option jstr) : value :=
  if is_nullish raw then VNull
  else match raw with
       | VStr s =>
           let text := trim s in
           if bool_decide (text = []) then VNull
           else if isBooleanType dataType && bool_decide (toLowerCase text = "true"%js) then VBool true
           else if isBooleanType dataType && bool_decide (toLowerCase text = "false"%js) then VBool false
           else if isNumericType dataType && test decimal_re text
                then VNum (if includes "."%js text then to_number text else parse_int10 text)
           else raw
       | _ => raw
       end.

Definition rowToRecord (columns : list TableColumn) (r : row) : record :=
  from_entries (imap (λ index column, (col_name column, cell r index)) columns).

Definition buildRowKey (columns : list TableColumn) (r : row) (uniqueKey : list jstr) : record :=
  let rec := rowToRecord columns r in
  from_entries ((λ name, (name, get rec name)) <$> uniqueKey).

(** [row[columns.findIndex((item) => item.name === name)]]; the index -1 of an absent
  name reads [undefined]. *)
Definition cell_of (columns : list TableColumn) (r : row) (name : jstr) : value :=
  match list_find (λ item, col_name item = name) columns with
  | Some (i, _) => cell r i
  | None => VUndefined
  end.

(** The loop body of [buildRowUpdate]. *)
Definition update_column (columns : list TableColumn) (originalRow : row) (editedRow : record)
    (uniqueKey : list jstr) (values : record) (column : TableColumn) : record :=
  if bool_decide (col_name column ∈ uniqueKey) then values
  else
    let nextValue := coerceCellValue (get editedRow (col_name column)) (col_dataType column) in
    let previousValue := cell_of columns originalRow (col_name column) in
    if negb (valuesEqual nextValue previousValue)
    then <[col_name column := nextValue]> values else values.

Definition buildRowUpdate (columns : list TableColumn) (originalRow : row) (editedRow : record)
    (uniqueKey : list jstr) : option (record * record) :=
  let key := buildRowKey columns originalRow uniqueKey in
  let values := foldl (update_column columns originalRow editedRow uniqueKey) ∅ columns in
  if bool_decide (values = ∅) then None else Some (key, values).

Definition buildInsertValues (columns : list TableColumn) (r : record) : record :=
  from_entries ((λ column, (col_name column,
                   coerceCellValue (get r (col_name column)) (col_dataType column))) <$> columns).

(** [Object.entries] of an object with array-index keys: ascending keys. *)
Definition index_entries {A} (m : gmap nat A) : list (nat * A) :=
  sort_by (λ a b, (Z.of_nat a.1 - Z.of_nat b.1)%Z) (map_to_list m).

Definition compact_row (columns : list TableColumn) (rows : list row)
    (acc : gmap nat record) (entry : nat * record) : gmap nat record :=
  match rows !! entry.1 with
  | None => acc
  | Some originalRow =>
      if bool_decide (is_Some (buildRowUpdate columns originalRow entry.2 []))
      then <[entry.1 := entry.2]> acc else acc
  end.

Definition compactDraft (columns : list TableColumn) (rows : list row) (draft : TableDraft)
    : option TableDraft :=
  let edited := foldl (compact_row columns rows) ∅ (index_entries (editedRows draft)) in
  let next := MkDraft edited (newRows draft) (deletedRowIndexes draft) in
  if bool_decide (length (deletedRowIndexes next) = 0) && bool_decide (length (newRows next) = 0)
     && bool_decide (edited = ∅)
  then None else Some next.

Definition hasEffectiveDraftChanges (columns : list TableColumn) (rows : list row)
    (draft : option TableDraft) : bool :=
  match draft with
  | None => false
  | Some d => bool_decide (is_Some (compactDraft columns rows d))
  end.
End mutations.

(** ** Lemmas *)

Section mutation_lemmas.
Context `{Unicode}.
Implicit Types (columns : list TableColumn) (rows : list row) (uniqueKey : list jstr).

Lemma valuesEqual_refl v : valuesEqual v v = true.
Proof. unfold valuesEqual. rewrite (bool_decide_eq_true_2 (to_str v = to_str v)) by done. by repeat case_match. Qed.

Definition next_value (editedRow : record) (column : TableColumn) : value :=
  coerceCellValue (get editedRow (col_name column)) (col_dataType column).

(** A column whose new value is part of the update. *)
Definition changed columns (originalRow : row) (editedRow : record) uniqueKey (column : TableColumn) : bool :=
  negb (bool_decide (col_name column ∈ uniqueKey))
  && negb (valuesEqual (next_value editedRow column) (cell_of columns originalRow (col_name column))).

Lemma update_column_eq columns o e uk values column :
  update_column columns o e uk values column =
    if changed columns o e uk column
    then <[col_name column := next_value e column]> values else values.
Proof.
  unfold update_column, changed, next_value. case_bool_decide; simpl; [done|].
  by destruct (valuesEqual _ _).
Qed.

Lemma update_values_lookup columns o e uk cs acc column :
  NoDup (col_name <$> cs) → column ∈ cs →
  foldl (update_column columns o e uk) acc cs !! col_name column =
    if changed columns o e uk column then Some (next_value e column) else acc !! col_name column.
Proof.
  revert acc. induction cs as [|c cs IH]; intros acc Hnd Hin; [by apply elem_of_nil in Hin|].
  cbn in Hnd. apply list.NoDup_cons in Hnd as [Hc Hnd]. cbn [foldl]. rewrite update_column_eq.
  apply elem_of_cons in Hin as [->|Hin].
  - assert (Hout : ∀ cs' acc', col_name c ∉ col_name <$> cs' →
      foldl (update_column columns o e uk) acc' cs' !! col_name c = acc' !! col_name c).
    { intros cs'. induction cs' as [|d cs' IH']; intros acc' Hd; [done|]. cbn in Hd.
      apply not_elem_of_cons in Hd as [Hd Hd']. cbn [foldl]. rewrite IH' by done.
      rewrite update_column_eq. destruct (changed _ _ _ _ d); [by rewrite lookup_insert_ne|done]. }
    rewrite Hout by done. destruct (changed _ _ _ _ c); [by rewrite lookup_insert_eq|done].
  - rewrite IH by done. destruct (changed columns o e uk column); [done|].
    destruct (changed _ _ _ _ c); [|done]. rewrite lookup_insert_ne; [done|].
    intros E. apply Hc. apply list_elem_of_fmap. by exists column.
Qed.

Lemma update_values_origin columns o e uk cs name v :
  foldl (update_column columns o e uk) ∅ cs !! name = Some v →
  ∃ c, c ∈ cs ∧ col_name c = name ∧ changed columns o e uk c = true ∧ v = next_value e c.
Proof.
  assert (∀ acc, foldl (update_column columns o e uk) acc cs !! name = Some v →
    acc !! name = Some v ∨
    ∃ c, c ∈ cs ∧ col_name c = name ∧ changed columns o e uk c = true ∧ v = next_value e c) as G.
  { induction cs as [|c cs IH]; intros acc Hl; [by left|]. cbn [foldl] in Hl.
    apply IH in Hl as [Hl|(d & Hd & ?)]; [|right; exists d; split; [by right|done]].
    rewrite update_column_eq in Hl. destruct (changed columns o e uk c) eqn:Ec; [|by left].
    destruct (decide (col_name c = name)) as [<-|Hne].
    - rewrite lookup_insert_eq in Hl. simplify_eq. right. exists c. split; [by left|done].
    - rewrite lookup_insert_ne in Hl by done. by left. }
  intros Hl. apply G in Hl as [Hl|?]; [|done]. by rewrite lookup_empty in Hl.
Qed.

Lemma update_values_nonempty columns o e uk cs acc :
  acc ≠ ∅ → foldl (update_column columns o e uk) acc cs ≠ ∅.
Proof.
  induction cs as [|c cs IH] in acc |- *; intros Ha; [done|]. cbn [foldl].
  apply IH. rewrite update_column_eq. destruct (changed _ _ _ _ c); [apply insert_non_empty|done].
Qed.

(** The values of an update are empty exactly when no column changed. *)
Lemma update_values_empty columns o e uk cs :
  foldl (update_column columns o e uk) ∅ cs = ∅ ↔ ∀ c, c ∈ cs → changed columns o e uk c = false.
Proof.
  split.
  - induction cs as [|c cs IH]; intros E x Hx; [by apply elem_of_nil in Hx|].
    cbn [foldl] in E. rewrite update_column_eq in E.
    destruct (changed columns o e uk c) eqn:Ec.
    + exfalso. by apply (update_values_nonempty _ _ _ _ _ _ (insert_non_empty _ _ _)) in E.
    + apply elem_of_cons in Hx as [->|Hx]; [done|]. by apply IH.
  - intros Hc. apply map_empty. intros name. apply eq_None_not_Some. intros [v Hv].
    apply update_values_origin in Hv as (c & Hin & _ & Hch & _). by rewrite Hc in Hch.
Qed.

Lemma buildRowUpdate_None columns o e uk :
  buildRowUpdate columns o e uk = None ↔ ∀ c, c ∈ columns → changed columns o e uk c = false.
Proof. unfold buildRowUpdate. rewrite <- update_values_empty. by case_bool_decide. Qed.

Lemma coerce_idem v t : coerceCellValue (coerceCellValue v t) t = coerceCellValue v t.
Proof.
  destruct v; try done. unfold coerceCellValue at 2 3. cbn [is_nullish].
  repeat case_match; try done. unfold coerceCellValue. cbn [is_nullish].
  by repeat (simplify_eq/=; case_match).
Qed.

(** *** The draft *)

Lemma index_entries_perm {A} (m : gmap nat A) : index_entries m ≡ₚ map_to_list m.
Proof. apply sort_by_perm. Qed.

Definition effective columns rows (entry : nat * record) : bool :=
  match rows !! entry.1 with
  | Some r => bool_decide (is_Some (buildRowUpdate columns r entry.2 []))
  | None => false
  end.

Lemma compact_row_eq columns rows acc entry :
  compact_row columns rows acc entry =
    if effective columns rows entry then <[entry.1 := entry.2]> acc else acc.
Proof. unfold compact_row, effective. by destruct (rows !! entry.1). Qed.

Lemma compact_rows_lookup columns rows es acc i :
  NoDup es.*1 →
  foldl (compact_row columns rows) acc es !! i =
    match list_to_map (M := gmap nat record) es !! i with
    | Some e => if effective columns rows (i, e) then Some e else acc !! i
    | None => acc !! i
    end.
Proof.
  revert acc. induction es as [|[j e] es IH]; intros acc Hnd; [done|]. cbn in Hnd.
  apply list.NoDup_cons in Hnd as [Hj Hnd]. cbn [foldl]. rewrite IH by done.
  rewrite compact_row_eq. cbn [list_to_map foldr uncurry fst snd].
  fold (list_to_map (M := gmap nat record) es). destruct (decide (i = j)) as [->|Hij].
  - rewrite lookup_insert_eq, (not_elem_of_list_to_map_1 es j) by done.
    destruct (effective columns rows (j, e)); [by rewrite lookup_insert_eq|done].
  - rewrite (lookup_insert_ne _ j i) by done.
    destruct (effective columns rows (j, e)); [by rewrite (lookup_insert_ne _ j i)|done].
Qed.

Lemma compact_rows_filter columns rows (m : gmap nat record) :
  foldl (compact_row columns rows) ∅ (index_entries m)
    = filter (λ entry, effective columns rows entry = true) m.
Proof.
  assert (Hnd : NoDup (index_entries m).*1)
    by (rewrite index_entries_perm; apply NoDup_fst_map_to_list).
  apply map_eq. intros i. rewrite compact_rows_lookup by done.
  rewrite (list_to_map_proper _ (map_to_list m) Hnd (index_entries_perm m)).
  rewrite list_to_map_to_list, map_lookup_filter, lookup_empty.
  destruct (m !! i) as [e|]; [|done]. simpl.
  destruct (effective columns rows (i, e)) eqn:E; case_guard; naive_solver.
Qed.

Lemma compactDraft_eq columns rows d :
  compactDraft columns rows d =
    let edited := filter (λ entry, effective columns rows entry = true) (editedRows d) in
    if bool_decide (deletedRowIndexes d = []) && bool_decide (newRows d = []) && bool_decide (edited = ∅)
    then None else Some (MkDraft edited (newRows d) (deletedRowIndexes d)).
Proof.
  unfold compactDraft. rewrite compact_rows_filter. cbn [deletedRowIndexes newRows].
  rewrite (bool_decide_ext _ _ (length_zero_iff_nil (deletedRowIndexes d))),
    (bool_decide_ext _ _ (length_zero_iff_nil (newRows d))). done.
Qed.
End mutation_lemmas.

(** ** Numeric text *)

Lemma decimal_re_digits s : s ≠ [] → Forall (λ c, is_digit c = true) s → test decimal_re s = true.
Proof.
  intros Hne Hd. destruct s as [|c s]; [done|]. inversion Hd as [|? ? Hc Hs]; subst.
  unfold test, decimal_re. rewrite exec_bol. unfold match_here. rewrite mrun_seq.
  assert (Hmain : is_Some (mrun (Plus (Class_ is_digit)
      · Opt (Lit "."%js · Plus (Class_ is_digit)) · Eol false)%re Some (MState [] (c :: s) ∅))).
  { rewrite mrun_seq. unfold Plus at 1. rewrite mrun_seq, mrun_class, Hc.
    eexists. eapply star_class_all; [by apply forallb_elem, Forall_forall | done]. }
  destruct Hmain as [m Hm]. rewrite mrun_opt.
  rewrite mrun_lit_fail; [by rewrite Hm|]. cbn [starts_with m_after].
  destruct (N.eqb_spec 45 c) as [<-|]; [by vm_compute in Hc|done].
Qed.

Lemma dot_not_digits s : Forall (λ c, is_digit c = true) s → includes "."%js s = false.
Proof.
  intros Hs. apply (includes_no_char _ _ 46%N); [by left|].
  intros Hin. rewrite Forall_forall in Hs. by apply Hs in Hin.
Qed.


Lemma parse_int_dec n : (0 <= n)%Z → parse_int10 (dec_digits n) = of_dyadic n 0.
Proof.
  intros Hn. apply parse_int_digits;
    [apply dec_digits_nonempty | by apply dec_digits_digits | by apply dec_digits_value].
Qed.

(** Decimal text in a numeric column is sent as the nearest double. *)
Lemma coerce_decimal `{Unicode} t n :
  isNumericType (Some t) = true → isBooleanType (Some t) = false → (0 <= n)%Z →
  coerceCellValue (VStr (dec_digits n)) (Some t) = VNum (of_dyadic n 0).
Proof.
  intros Ht Hb Hn. pose proof (dec_digits_digits n Hn) as Hd. pose proof (dec_digits_nonempty n) as Hne.
  unfold coerceCellValue. cbn [is_nullish]. rewrite trim_digits by done.
  rewrite bool_decide_eq_false_2 by done. rewrite Hb, Ht, decimal_re_digits by done. cbn [andb].
  rewrite dot_not_digits by done. by rewrite parse_int_dec.
Qed.

Lemma buildRowKey_lookup columns r uniqueKey name :
  name ∈ uniqueKey →
  buildRowKey columns r uniqueKey !! name = Some (get (rowToRecord columns r) name).
Proof.
  unfold buildRowKey. generalize (rowToRecord columns r) as rec. intros rec.
  induction uniqueKey as [|k ks IH] using rev_ind; intros Hin; [by apply elem_of_nil in Hin|].
  rewrite fmap_app. cbn [fmap list_fmap]. rewrite from_entries_snoc. cbn [fst snd].
  destruct (decide (k = name)) as [->|Hne]; [by rewrite lookup_insert_eq|].
  rewrite lookup_insert_ne by done.
  apply elem_of_app in Hin as [Hin| ->%list_elem_of_singleton]; [by apply IH|done].
Qed.

(** ** What an update does to a row

    The effect the server gives an UPDATE: the sent values replace the cells of their
    columns. *)
Definition updated_cell (columns : list TableColumn) (r : row) (values : record) (column : TableColumn) : value :=
  default (cell_of columns r (col_name column)) (values !! col_name column).

(** ** Properties *)

(** [buildRowUpdate] sends exactly the changed non-key columns.  It answers [null]
    when no such column differs, and otherwise the original values of the key and, for
    each column, the coerced new value if and only if it differs from the original. *)
Theorem row_update_spec `{Unicode} columns r edited uniqueKey :
  NoDup (col_name <$> columns) →
  match buildRowUpdate columns r edited uniqueKey with
  | None => ∀ c, c ∈ columns → col_name c ∉ uniqueKey →
      valuesEqual (coerceCellValue (get edited (col_name c)) (col_dataType c))
                  (cell_of columns r (col_name c)) = true
  | Some (key, values) =>
      (∀ name, name ∈ uniqueKey → key !! name = Some (get (rowToRecord columns r) name))
      ∧ values ≠ ∅ ∧ dom values ⊆ list_to_set (col_name <$> columns)
      ∧ ∀ c, c ∈ columns → values !! col_name c =
          let new := coerceCellValue (get edited (col_name c)) (col_dataType c) in
          if bool_decide (col_name c ∈ uniqueKey) || valuesEqual new (cell_of columns r (col_name c))
          then None else Some new
  end.
Proof.
  intros Hnd. destruct (buildRowUpdate columns r edited uniqueKey) as [[key values]|] eqn:E.
  - unfold buildRowUpdate in E. case_bool_decide as He; [done|]. simplify_eq. split_and!.
    + intros name Hin. by apply buildRowKey_lookup.
    + done.
    + intros name [v Hv]%elem_of_dom. apply update_values_origin in Hv as (c & Hc & <- & _).
      apply elem_of_list_to_set, list_elem_of_fmap. by exists c.
    + intros c Hc. rewrite update_values_lookup, lookup_empty by done. unfold changed, next_value.
      cbv zeta. case_bool_decide; cbn [negb andb orb]; [done|]. by destruct (valuesEqual _ _).
  - intros c Hc Hk. assert (Hf := proj1 (buildRowUpdate_None _ _ _ _) E c Hc).
    unfold changed, next_value in Hf. rewrite (bool_decide_eq_false_2 _ Hk) in Hf.
    by apply negb_false_iff in Hf.
Qed.

Definition demo_columns : list TableColumn :=
  [MkTableColumn "id"%js (Some "bigint"%js); MkTableColumn "name"%js (Some "text"%js)].
Definition demo_row : row := [VNum (num 7); VStr "a"%js].
Definition demo_edit : record := <["name"%js := VStr "b"%js]> (<["id"%js := VNum (num 7)]> ∅).

Lemma row_update_spec_witness :
  NoDup (col_name <$> demo_columns) ∧
  match @buildRowUpdate ascii_unicode demo_columns demo_row demo_edit ["id"%js] with
  | None => False
  | Some (key, values) => key !! "id"%js = Some (VNum (num 7)) ∧ values !! "name"%js = Some (VStr "b"%js)
  end.
Proof.
  assert (Hnd : NoDup (col_name <$> demo_columns)) by (apply (bool_decide_unpack _); vm_compute; exact I).
  split; [exact Hnd|].
  pose proof (@row_update_spec ascii_unicode demo_columns demo_row demo_edit ["id"%js] Hnd) as Hs.
  destruct (@buildRowUpdate ascii_unicode demo_columns demo_row demo_edit ["id"%js]) as [[key values]|] eqn:E.
  - destruct Hs as (Hk & _ & _ & Hv). split; [apply (Hk "id"%js); by left|].
    apply (Hv (MkTableColumn "name"%js (Some "text"%js))). by right; left.
  - vm_compute in E. discriminate.
Defined.

(** An update refines the edit: whether or not one is sent, every column outside
    the key then holds a value equal to the coerced edit, and a key column keeps its
    original value. *)
Theorem row_update_refines_edit `{Unicode} columns r edited uniqueKey c :
  NoDup (col_name <$> columns) → c ∈ columns →
  let sent := match buildRowUpdate columns r edited uniqueKey with
              | Some (_, values) => values | None => ∅ end in
  if bool_decide (col_name c ∈ uniqueKey)
  then updated_cell columns r sent c = cell_of columns r (col_name c)
  else valuesEqual (coerceCellValue (get edited (col_name c)) (col_dataType c))
                   (updated_cell columns r sent c) = true.
Proof.
  intros Hnd Hc sent.
  assert (Hl : sent !! col_name c = if changed columns r edited uniqueKey c
                                    then Some (next_value edited c) else None).
  { unfold sent. destruct (buildRowUpdate columns r edited uniqueKey) as [[key values]|] eqn:E.
    - unfold buildRowUpdate in E. case_bool_decide; [done|]. simplify_eq.
      by rewrite update_values_lookup, lookup_empty.
    - by rewrite (proj1 (buildRowUpdate_None _ _ _ _) E c Hc). }
  unfold updated_cell. rewrite Hl. unfold changed, next_value.
  case_bool_decide; cbn [negb andb]; [done|].
  destruct (valuesEqual _ (cell_of _ _ _)) eqn:Ev; cbn; [done | apply valuesEqual_refl].
Qed.

Lemma row_update_refines_edit_witness :
  valuesEqual (VStr "b"%js)
    (updated_cell demo_columns demo_row (<["name"%js := VStr "b"%js]> ∅) (MkTableColumn "name"%js (Some "text"%js)))
  = true.
Proof.
  exact (@row_update_refines_edit ascii_unicode demo_columns demo_row demo_edit ["id"%js]
    (MkTableColumn "name"%js (Some "text"%js))
    ltac:(apply (bool_decide_unpack _); vm_compute; exact I) ltac:(by right; left)).
Defined.

(** An edit of key columns alone is lost.  When the edited row agrees with the
    original outside the key but not in it, the draft counts as a change (compaction,
    which ignores the key, keeps it) and yet no update is sent for it. *)
Theorem key_only_edit_lost `{Unicode} columns rows i r edited uniqueKey k :
  rows !! i = Some r → k ∈ columns → col_name k ∈ uniqueKey →
  (∀ c, c ∈ columns → col_name c ∉ uniqueKey →
    valuesEqual (coerceCellValue (get edited (col_name c)) (col_dataType c)) (cell_of columns r (col_name c)) = true) →
  valuesEqual (coerceCellValue (get edited (col_name k)) (col_dataType k)) (cell_of columns r (col_name k)) = false →
  hasEffectiveDraftChanges columns rows (Some (MkDraft {[i := edited]} [] [])) = true
  ∧ buildRowUpdate columns r edited uniqueKey = None.
Proof.
  intros Hr Hk Hkey Hsame Hdiff. split.
  - unfold hasEffectiveDraftChanges. rewrite compactDraft_eq. cbn [editedRows newRows deletedRowIndexes].
    apply bool_decide_eq_true_2. rewrite (bool_decide_eq_false_2 (filter _ _ = ∅)); [by eauto|].
    intros He. assert (filter (λ entry, effective columns rows entry = true)
      ({[i := edited]} : gmap nat record) !! i = None) as Hn by by rewrite He, lookup_empty.
    rewrite map_lookup_filter, lookup_singleton_eq in Hn. cbn in Hn.
    unfold effective in Hn. cbn [fst snd] in Hn. rewrite Hr in Hn.
    rewrite bool_decide_eq_true_2 in Hn; [done|].
    apply not_eq_None_Some. intros HN. apply buildRowUpdate_None with (c := k) in HN; [|done].
    unfold changed, next_value in HN. rewrite Hdiff in HN. by rewrite bool_decide_eq_false_2 in HN by set_solver.
  - apply buildRowUpdate_None. intros c Hc. unfold changed, next_value.
    case_bool_decide as Hin; [done|]. by rewrite Hsame.
Qed.

Lemma key_only_edit_lost_witness :
  @hasEffectiveDraftChanges ascii_unicode demo_columns [demo_row]
    (Some (MkDraft {[0 := <["id"%js := VNum (num 8)]> (<["name"%js := VStr "a"%js]> ∅)]} [] [])) = true
  ∧ @buildRowUpdate ascii_unicode demo_columns demo_row
      (<["id"%js := VNum (num 8)]> (<["name"%js := VStr "a"%js]> ∅)) ["id"%js] = None.
Proof.
  refine (@key_only_edit_lost ascii_unicode demo_columns [demo_row] 0 demo_row
    (<["id"%js := VNum (num 8)]> (<["name"%js := VStr "a"%js]> ∅)) ["id"%js]
    (MkTableColumn "id"%js (Some "bigint"%js)) eq_refl _ _ _ _); [by left|by left| |by vm_compute].
  intros c [->|[->|[]%elem_of_nil]%elem_of_cons]%elem_of_cons Hc; [|by vm_compute].
  exfalso. apply Hc. by left.
Defined.

(** [compactDraft] keeps exactly the edits that change their row, keeps new and
    deleted rows, answers [null] exactly when nothing is left, and compacting twice is
    compacting once. *)
Theorem compact_draft_spec `{Unicode} columns rows d :
  (compactDraft columns rows d = None ↔
     deletedRowIndexes d = [] ∧ newRows d = []
     ∧ ∀ i e, editedRows d !! i = Some e → effective columns rows (i, e) = false)
  ∧ ∀ d', compactDraft columns rows d = Some d' →
      (∀ i e, editedRows d' !! i = Some e ↔
         editedRows d !! i = Some e ∧ effective columns rows (i, e) = true)
      ∧ newRows d' = newRows d ∧ deletedRowIndexes d' = deletedRowIndexes d
      ∧ compactDraft columns rows d' = Some d'.
Proof.
  split.
  - rewrite compactDraft_eq. cbv zeta. split.
    + destruct (_ && _) eqn:E; [|done]. intros _. bool_to_prop. split_and!; [done..|].
      intros i e He. apply not_true_is_false. intros Heff.
      assert (filter (λ entry, effective columns rows entry = true) (editedRows d) !! i = Some e) as Hl
        by by apply map_lookup_filter_Some.
      rename select (filter _ _ = ∅) into Hf. by rewrite Hf, lookup_empty in Hl.
    + intros (-> & -> & He). rewrite !bool_decide_eq_true_2; [done| |done|done].
      apply map_empty. intros i. apply eq_None_not_Some. intros [e [Hi Heff]%map_lookup_filter_Some].
      by rewrite (He i e Hi) in Heff.
  - intros d' E. assert (E2 := E). rewrite compactDraft_eq in E. cbv zeta in E.
    destruct (_ && _) eqn:Ec; [done|]. injection E as <-. cbn [editedRows newRows deletedRowIndexes].
    split_and!; [intros i e; apply map_lookup_filter_Some|done|done|].
    rewrite compactDraft_eq. cbn [editedRows newRows deletedRowIndexes].
    rewrite map_filter_id by (by intros i e [_ ?]%map_lookup_filter_Some).
    by rewrite Ec.
Qed.

(** Integers typed into a numeric column: the text of [n] is sent as the double
    nearest to [n].  Up to the largest safe integer that is [n] itself, and reads back
    as the same text; 2^53 + 1 is sent as 2^53. *)
Theorem integer_edit_precision `{Unicode} t n :
  isNumericType (Some t) = true → isBooleanType (Some t) = false → (0 <= n)%Z →
  coerceCellValue (VStr (dec_digits n)) (Some t) = VNum (of_dyadic n 0)
  ∧ ((n <= max_safe)%Z → of_dyadic n 0 = num n ∧ to_str (VNum (num n)) = dec_digits n)
  ∧ coerceCellValue (VStr "9007199254740993"%js) (Some t) = VNum (num 9007199254740992).
Proof.
  intros Ht Hb Hn. split_and!.
  - by apply coerce_decimal.
  - intros Hs. split; [apply of_dyadic_safe; lia|]. cbn [to_str].
    rewrite number_to_string_safe by lia. unfold dec_Z. destruct (Z.ltb_spec n 0); [lia|done].
  - change "9007199254740993"%js with (dec_digits 9007199254740993).
    rewrite coerce_decimal by done. vm_compute. done.
Qed.

Lemma integer_edit_precision_witness :
  @coerceCellValue ascii_unicode (VStr (dec_digits 42)) (Some "BIGINT"%js) = VNum (of_dyadic 42 0)
  ∧ ((42 <= max_safe)%Z → of_dyadic 42 0 = num 42 ∧ to_str (VNum (num 42)) = dec_digits 42)
  ∧ @coerceCellValue ascii_unicode (VStr "9007199254740993"%js) (Some "BIGINT"%js) = VNum (num 9007199254740992).
Proof.
  exact (@integer_edit_precision ascii_unicode "BIGINT"%js 42 ltac:(by vm_compute)
           ltac:(by vm_compute) ltac:(by vm_compute)).
Defined.
