(* ===== verification/TableView.v ===== *)
(** * The table view

    [src/web/src/features/table/TableView.tsx]: the rows it displays and its handlers
    [updateCell], [addRow], [deleteSelectedRow] and [applyDraft], on the properties the
    component gets and the draft and selection its parent keeps.  A handler gives the
    view its callbacks leave behind; [None] is an exception it throws. *)
From S2P Require Import Prelude JsString JsNumber JsValue Api TableQuery TableMutations.

Record View := MkView {
  v_columns : list TableColumn;
  v_rows : list row;
  v_uniqueKey : list jstr;
  v_selectedRow : option nat;
  v_draft : option TableDraft;
}.

Definition set_draft (d : option TableDraft) (v : View) : View :=
  MkView (v_columns v) (v_rows v) (v_uniqueKey v) (v_selectedRow v) d.
Definition set_selected (s : option nat) (v : View) : View :=
  MkView (v_columns v) (v_rows v) (v_uniqueKey v) s (v_draft v).

Record DisplayRow := MkDisplay { dr_sourceIndex : Z; dr_isNew : bool; dr_values : list value }.

Section view.
Context `{Unicode}.

Definition editable (v : View) : bool :=
  bool_decide (0 < length (v_uniqueKey v))
  && forallb (λ key, existsb (λ column, bool_decide (col_name column = key)) (v_columns v)) (v_uniqueKey v).

Definition draftState (v : View) : TableDraft := default emptyDraft (v_draft v).

Definition dirty (v : View) : bool := hasEffectiveDraftChanges (v_columns v) (v_rows v) (v_draft v).

(** [edits[column.name] !== undefined ? edits[column.name] : row[columnIndex]]. *)
Definition edited_cell (edits : record) (r : row) (columnIndex : nat) (column : TableColumn) : value :=
  match get edits (col_name column) with VUndefined => cell r columnIndex | x => x end.

Definition display_source (columns : list TableColumn) (d : TableDraft) (index : nat) (r : row) : DisplayRow :=
  match editedRows d !! index with
  | None => MkDisplay (Z.of_nat index) false r
  | Some edits => MkDisplay (Z.of_nat index) false (imap (edited_cell edits r) columns)
  end.

(** [newRow[column.name] ?? null]. *)
Definition display_new (columns : list TableColumn) (newRow : record) : DisplayRow :=
  MkDisplay (-1) true
    ((λ column, let x := get newRow (col_name column) in if is_nullish x then VNull else x) <$> columns).

Definition display (columns : list TableColumn) (rows : list row) (d : TableDraft) : list DisplayRow :=
  omap id (imap (λ index r, if bool_decide (index ∈ deletedRowIndexes d) then None
                            else Some (display_source columns d index r)) rows)
  ++ (display_new columns <$> newRows d).

Definition displayRows (v : View) : list DisplayRow := display (v_columns v) (v_rows v) (draftState v).

(** The cell editor's [onBlur]. *)
Definition updateCell (v : View) (rowIndex columnIndex : nat) (text : jstr) : option View :=
  match displayRows v !! rowIndex with
  | None => Some v
  | Some item =>
      column ← v_columns v !! columnIndex;
      let coerced := coerceCellValue (if bool_decide (text = []) then VNull else VStr text) (col_dataType column) in
      let next := draftState v in
      let compacted d := Some (set_draft (compactDraft (v_columns v) (v_rows v) d) v) in
      if dr_isNew item then
        let newIndex := rowIndex - (length (displayRows v) - length (newRows next)) in
        compacted (MkDraft (editedRows next)
                     (alter (λ r, <[col_name column := coerced]> r) newIndex (newRows next))
                     (deletedRowIndexes next))
      else
        let source := Z.to_nat (dr_sourceIndex item) in
        originalRow ← v_rows v !! source;
        let originalValue := coerceCellValue (cell originalRow columnIndex) (col_dataType column) in
        if valuesEqual coerced originalValue then
          match editedRows next !! source with
          | None => Some v
          | Some edits =>
              let current := <[col_name column := coerced]> edits in
              let edited := match buildRowUpdate (v_columns v) originalRow current [] with
                            | None => delete source (editedRows next)
                            | Some _ => <[source := current]> (editedRows next)
                            end in
              compacted (MkDraft edited (newRows next) (deletedRowIndexes next))
          end
        else
          let current := default (rowToRecord (v_columns v) originalRow) (editedRows next !! source) in
          compacted (MkDraft (<[source := <[col_name column := coerced]> current]> (editedRows next))
                       (newRows next) (deletedRowIndexes next))
  end.

Definition addRow (v : View) : View :=
  let next := draftState v in
  let blank := from_entries ((λ column, (col_name column, VNull)) <$> v_columns v) in
  set_selected (Some (length (displayRows v)))
    (set_draft (Some (MkDraft (editedRows next) (newRows next ++ [blank]) (deletedRowIndexes next))) v).

Definition deleteSelectedRow (v : View) : View :=
  match v_selectedRow v with
  | None => v
  | Some selected =>
      match displayRows v !! selected with
      | None => v
      | Some item =>
          let next := draftState v in
          let next :=
            if dr_isNew item then
              let newIndex := selected - (length (displayRows v) - length (newRows next)) in
              MkDraft (editedRows next) (delete newIndex (newRows next)) (deletedRowIndexes next)
            else
              let source := Z.to_nat (dr_sourceIndex item) in
              MkDraft (delete source (editedRows next)) (newRows next)
                (if bool_decide (source ∈ deletedRowIndexes next) then deletedRowIndexes next
                 else deletedRowIndexes next ++ [source])
          in set_selected None (set_draft (Some next) v)
      end
  end.

(** ** applyDraft *)

Inductive Mutation := MDelete (key : record) | MUpdate (key values : record) | MInsert (values : record).

(** The requests of [applyDraft] in the order it makes them.  A deleted index outside
  the rows would throw in [buildRowKey]; [row_at] reads the empty row there. *)
Definition row_at (v : View) (index : nat) : row := default [] (v_rows v !! index).

Definition update_mutation (v : View) (entry : nat * record) : option Mutation :=
  match buildRowUpdate (v_columns v) (row_at v entry.1) entry.2 (v_uniqueKey v) with
  | None => None
  | Some (key, values) => Some (MUpdate key values)
  end.

Definition mutations (v : View) : list Mutation :=
  let d := draftState v in
  ((λ index, MDelete (buildRowKey (v_columns v) (row_at v index) (v_uniqueKey v))) <$> deletedRowIndexes d)
  ++ omap (update_mutation v) (index_entries (editedRows d))
  ++ ((λ newRow, MInsert (buildInsertValues (v_columns v) newRow)) <$> newRows d).

(** [await onMutate(...)] for each request, on a server [S] that may refuse one: the
  server reached and whether all were accepted. *)
Fixpoint send_all {S} (onMutate : Mutation → S → option S) (ms : list Mutation) (s : S) : S * bool :=
  match ms with
  | [] => (s, true)
  | m :: ms' => match onMutate m s with
                | None => (s, false)
                | Some s' => send_all onMutate ms' s'
                end
  end.

(** The server and the view that [applyDraft] leaves; [onApply] reloads the rows. *)
Definition applyDraft {S} (onMutate : Mutation → S → option S) (v : View) (s : S) : S * View :=
  if negb (editable v) || negb (dirty v) then (s, v)
  else match send_all onMutate (mutations v) s with
       | (s', true) => (s', set_draft None v)
       | (s', false) => (s', v)
       end.
End view.

(** ** The displayed rows by index *)

(** The result rows that are shown: those not marked as deleted. *)
Definition visible (n : nat) (deleted : list nat) : list nat :=
  filterb (λ i, negb (bool_decide (i ∈ deleted))) (seq 0 n).

Lemma elem_of_visible n deleted i : i ∈ visible n deleted ↔ i < n ∧ i ∉ deleted.
Proof.
  unfold visible. rewrite elem_of_filterb, elem_of_seq, negb_true_iff, bool_decide_eq_false.
  naive_solver lia.
Qed.

Lemma NoDup_visible n deleted : NoDup (visible n deleted).
Proof. apply NoDup_filterb, NoDup_ListNoDup, List.seq_NoDup. Qed.

(** Removing the [k]-th item of a list without duplicates. *)
Lemma filterb_delete `{EqDecision A} (l : list A) k x :
  NoDup l → l !! k = Some x → filterb (λ y, negb (bool_decide (y = x))) l = delete k l.
Proof.
  revert k. induction l as [|y l IH]; intros k Hnd Hk; [done|].
  apply list.NoDup_cons in Hnd as [Hy Hnd]. rewrite filterb_cons. destruct k as [|k]; simpl in Hk |- *.
  - simplify_eq. rewrite bool_decide_eq_true_2 by done. simpl. apply filterb_id.
    intros z Hz. rewrite bool_decide_eq_false_2; [done|]. by intros ->.
  - assert (y ≠ x) by (intros ->; apply Hy; by eapply list_elem_of_lookup_2).
    rewrite bool_decide_eq_false_2 by done. simpl. f_equal. by apply IH.
Qed.

Lemma visible_delete n deleted k x :
  visible n deleted !! k = Some x → visible n (deleted ++ [x]) = delete k (visible n deleted).
Proof.
  intros Hk. rewrite <- (filterb_delete _ k x) by (done || apply NoDup_visible).
  unfold visible. rewrite filterb_filterb. apply filterb_ext. intros i _.
  rewrite <- negb_orb. f_equal. apply eq_true_iff_eq.
  rewrite orb_true_iff, !bool_decide_eq_true, elem_of_app, list_elem_of_singleton. done.
Qed.

Section display_lemmas.
Context `{Unicode}.

(** The rows displayed are the visible ones, then the new ones. *)
Lemma display_eq columns rows d :
  display columns rows d =
    ((λ i, display_source columns d i (default [] (rows !! i))) <$> visible (length rows) (deletedRowIndexes d))
    ++ (display_new columns <$> newRows d).
Proof.
  unfold display. f_equal. unfold visible.
  assert (G : ∀ (rs : list row) (off : nat) (f : nat → row → option DisplayRow),
    (∀ j r, rs !! j = Some r → rows !! (off + j) = Some r) →
    (∀ i r, f i r = if bool_decide (i ∈ deletedRowIndexes d) then None else Some (display_source columns d i r)) →
    omap id (imap (λ j r, f (off + j) r) rs) =
    (λ i, display_source columns d i (default [] (rows !! i))) <$>
      filterb (λ i, negb (bool_decide (i ∈ deletedRowIndexes d))) (seq off (length rs))).
  { induction rs as [|r rs IH]; intros off f Hr Hf; [done|].
    rewrite imap_cons. cbn [omap list_omap length seq]. rewrite filterb_cons.
    rewrite Nat.add_0_r. assert (H0 := Hr 0 r eq_refl). rewrite Nat.add_0_r in H0.
    assert (imap ((λ j r0, f (off + j) r0) ∘ S) rs = imap (λ j r0, f (S off + j) r0) rs) as ->.
    { apply imap_ext. intros j x _. simpl. f_equal. lia. }
    rewrite Hf. case_bool_decide; cbn [id negb].
    - apply (IH (S off)); [|done]. intros j x Hj. rewrite <- (Hr (S j) x Hj). f_equal. lia.
    - cbn [fmap list_fmap]. rewrite H0. cbn [from_option id]. f_equal.
      apply (IH (S off)); [|done]. intros j x Hj. rewrite <- (Hr (S j) x Hj). f_equal. lia. }
  pose (f := λ (i : nat) (r : row), if bool_decide (i ∈ deletedRowIndexes d) then None
                                    else Some (display_source columns d i r)).
  by apply (G rows 0 f).
Qed.

Lemma length_display columns rows d :
  length (display columns rows d) =
    length (visible (length rows) (deletedRowIndexes d)) + length (newRows d).
Proof. rewrite display_eq, length_app, !length_fmap. done. Qed.

(** A displayed row is a visible result row or a new row. *)
Lemma display_lookup columns rows d k item :
  display columns rows d !! k = Some item →
  (∃ i r, visible (length rows) (deletedRowIndexes d) !! k = Some i ∧ rows !! i = Some r
          ∧ item = display_source columns d i r
          ∧ dr_isNew item = false ∧ Z.to_nat (dr_sourceIndex item) = i)
  ∨ (∃ nr, length (visible (length rows) (deletedRowIndexes d)) ≤ k
           ∧ newRows d !! (k - length (visible (length rows) (deletedRowIndexes d))) = Some nr
           ∧ item = display_new columns nr ∧ dr_isNew item = true).
Proof.
  rewrite display_eq, lookup_app_Some, length_fmap, !list_lookup_fmap, !fmap_Some.
  intros [(i & Hi & ->)|(Hk & nr & Hnr & ->)].
  - left. assert (i < length rows) as [r Hr]%lookup_lt_is_Some.
    { by apply list_elem_of_lookup_2, elem_of_visible in Hi as [? _]. }
    exists i, r. rewrite Hr. cbn [default]. unfold display_source.
    destruct (editedRows d !! i); split_and!; try done; cbn; lia.
  - right. by exists nr.
Qed.
(** The row [addRow] appends shows a NULL in every column. *)
Lemma from_entries_const {A} (f : A → jstr) (l : list A) (x : value) n :
  get (from_entries ((λ c, (f c, x)) <$> l)) n = x ∨ get (from_entries ((λ c, (f c, x)) <$> l)) n = VUndefined.
Proof.
  induction l as [|c l IH] using rev_ind; [by right|].
  rewrite fmap_app. cbn [fmap list_fmap]. rewrite from_entries_snoc. unfold get. cbn [fst snd].
  destruct (decide (f c = n)) as [->|]; [rewrite lookup_insert_eq; by left|]. by rewrite lookup_insert_ne.
Qed.

Lemma display_blank columns :
  display_new columns (from_entries ((λ column, (col_name column, VNull)) <$> columns)) =
    MkDisplay (-1) true (replicate (length columns) VNull).
Proof.
  unfold display_new. f_equal. apply list_eq. intros j. rewrite list_lookup_fmap.
  destruct (columns !! j) as [c|] eqn:Ec; cbn.
  - rewrite lookup_replicate_2 by by eapply lookup_lt_Some.
    by destruct (from_entries_const col_name columns VNull (col_name c)) as [-> | ->].
  - symmetry. apply lookup_ge_None_2. rewrite length_replicate. by apply lookup_ge_None_1.
Qed.
End display_lemmas.

(** ** The invariant of the draft

    Deleted indices are rows of the result, each once; an edited row is not deleted and
    its edits change it. *)
Section invariant.
Context `{Unicode}.

Definition wf_draft (columns : list TableColumn) (rows : list row) (d : TableDraft) : Prop :=
  NoDup (deletedRowIndexes d)
  ∧ (∀ i, i ∈ deletedRowIndexes d → i < length rows)
  ∧ ∀ i e, editedRows d !! i = Some e → (i ∉ deletedRowIndexes d) ∧ effective columns rows (i, e) = true.

Definition wf_view (v : View) : Prop := wf_draft (v_columns v) (v_rows v) (draftState v).

Lemma wf_empty columns rows : wf_draft columns rows emptyDraft.
Proof.
  split_and!; [apply NoDup_nil_2 | by intros i ?%elem_of_nil | intros i e; cbn; by rewrite lookup_empty].
Qed.

(** The draft after compaction, [null] being the empty draft. *)
Lemma compact_state columns rows d :
  default emptyDraft (compactDraft columns rows d) =
    MkDraft (filter (λ entry, effective columns rows entry = true) (editedRows d))
            (newRows d) (deletedRowIndexes d).
Proof.
  rewrite compactDraft_eq. cbv zeta. destruct (_ && _) eqn:E; [|done]. bool_to_prop.
  unfold emptyDraft. cbn [from_option id]. by f_equal.
Qed.

Lemma wf_compact columns rows d :
  NoDup (deletedRowIndexes d) → (∀ i, i ∈ deletedRowIndexes d → i < length rows) →
  (∀ i e, editedRows d !! i = Some e → i ∉ deletedRowIndexes d) →
  wf_draft columns rows (default emptyDraft (compactDraft columns rows d)).
Proof.
  intros Hnd Hb He. rewrite compact_state. split_and!; [done..|].
  cbn [editedRows deletedRowIndexes]. intros i e [Hi Heff]%map_lookup_filter_Some. by eauto.
Qed.

(** Any handler, or the parent selecting a row or discarding the draft. *)
Inductive view_step (v : View) : View → Prop :=
| step_edit rowIndex columnIndex text v' :
  updateCell v rowIndex columnIndex text = Some v' → view_step v v'
| step_add : view_step v (addRow v)
| step_delete : view_step v (deleteSelectedRow v)
| step_select s : view_step v (set_selected s v)
| step_discard : view_step v (set_selected None (set_draft None v)).

Lemma wf_update v rowIndex columnIndex text v' :
  wf_view v → updateCell v rowIndex columnIndex text = Some v' → wf_view v'.
Proof.
  intros Hwf. pose proof Hwf as (Hnd & Hb & He). unfold updateCell.
  destruct (displayRows v !! rowIndex) as [item|] eqn:Ed; [|by intros [= <-]].
  destruct (v_columns v !! columnIndex) as [column|]; [cbn [mbind option_bind]|done].
  apply display_lookup in Ed as [(i & r & Hi & Hr & -> & Hnew & Hsrc)|(nr & Hk & Hnr & -> & Hnew)];
    rewrite Hnew.
  - rewrite Hsrc, Hr. cbn [mbind option_bind].
    assert (Hni : i ∉ deletedRowIndexes (draftState v)) by (by apply list_elem_of_lookup_2, elem_of_visible in Hi as [_ ?]).
    assert (Hins : ∀ e j e', <[i := e]> (editedRows (draftState v)) !! j = Some e' → j ∉ deletedRowIndexes (draftState v)).
    { intros e j e' [[<- _]|[_ Hj]]%lookup_insert_Some; [done | by eapply He]. }
    destruct (valuesEqual _ _).
    + destruct (editedRows (draftState v) !! i) as [edits|]; [|by intros [= <-]].
      intros [= <-]. apply wf_compact; [done..|]. cbn [editedRows deletedRowIndexes].
      intros j e. destruct (buildRowUpdate _ _ _ _); [apply Hins|].
      intros [_ Hj]%lookup_delete_Some. by eapply He.
    + intros [= <-]. apply wf_compact; [done..|]. cbn [editedRows deletedRowIndexes].
      intros j e. apply Hins.
  - intros [= <-]. apply wf_compact; [done..|]. cbn [editedRows deletedRowIndexes].
    intros j e Hj. by eapply He.
Qed.

Lemma wf_delete v : wf_view v → wf_view (deleteSelectedRow v).
Proof.
  intros Hwf. pose proof Hwf as (Hnd & Hb & He). unfold deleteSelectedRow.
  destruct (v_selectedRow v) as [k|]; [|done].
  destruct (displayRows v !! k) as [item|] eqn:Ed; [|done].
  apply display_lookup in Ed as [(i & r & Hi & Hr & -> & Hnew & Hsrc)|(nr & Hk & Hnr & -> & Hnew)];
    rewrite Hnew; [|done]. rewrite Hsrc.
  assert (Hni : i ∉ deletedRowIndexes (draftState v)) by (by apply list_elem_of_lookup_2, elem_of_visible in Hi as [_ ?]).
  rewrite bool_decide_eq_false_2 by done. split_and!; cbn [deletedRowIndexes editedRows].
  - by apply NoDup_app_singleton.
  - intros j [Hj| ->%list_elem_of_singleton]%elem_of_app; [by apply Hb | by eapply lookup_lt_Some].
  - intros j e Hj. cbn in Hj. apply lookup_delete_Some in Hj as [Hne Hj]. destruct (He j e Hj) as [Hd Heff]. split; [|done].
    intros [?|?%list_elem_of_singleton]%elem_of_app; by subst.
Qed.

Lemma wf_step v v' : wf_view v → view_step v v' → wf_view v'.
Proof.
  intros Hwf. destruct 1; [by eapply wf_update|done|by apply wf_delete|done|apply wf_empty].
Qed.

Lemma step_frame v v' :
  view_step v v' → v_columns v' = v_columns v ∧ v_rows v' = v_rows v ∧ v_uniqueKey v' = v_uniqueKey v.
Proof.
  destruct 1 as [ri ci text v' E| | | |]; try done.
  - unfold updateCell in E. repeat (case_match; simplify_option_eq; try done).
  - unfold deleteSelectedRow. by repeat case_match.
Qed.
End invariant.

(** ** What a cell edit shows *)
Section edit_lemmas.
Context `{Unicode}.

Lemma coerce_defined v t : coerceCellValue v t ≠ VUndefined.
Proof. unfold coerceCellValue. repeat case_match; try done. Qed.

Lemma cell_of_index columns r i c :
  NoDup (col_name <$> columns) → columns !! i = Some c → cell_of columns r (col_name c) = cell r i.
Proof.
  intros Hnd Hi. unfold cell_of.
  destruct (list_find_elem_of (λ item, col_name item = col_name c) columns c) as [[j c'] Hf];
    [by eapply list_elem_of_lookup_2|done|].
  rewrite Hf. apply list_find_Some in Hf as (Hj & Hn & _).
  assert (j = i) as ->; [|done]. eapply NoDup_lookup; [exact Hnd| |].
  - rewrite list_lookup_fmap, Hj. cbn. by rewrite Hn.
  - by rewrite list_lookup_fmap, Hi.
Qed.

Lemma rowToRecord_get columns r i c :
  NoDup (col_name <$> columns) → columns !! i = Some c →
  get (rowToRecord columns r) (col_name c) = cell r i.
Proof.
  intros Hnd Hi. unfold get, rowToRecord.
  rewrite (from_entries_lookup _ (col_name c) (cell r i)); [done| |].
  - assert ((imap (λ index column, (col_name column, cell r index)) columns).*1 = col_name <$> columns) as ->; [|done].
    rewrite fmap_imap. clear. revert columns. intros cs.
    apply list_eq. intros j. rewrite list_lookup_imap, list_lookup_fmap. by destruct (cs !! j).
  - apply list_elem_of_lookup. exists i. by rewrite list_lookup_imap, Hi.
Qed.

(** The value a result row shows in a column, under edits [oe]. *)
Definition shown (r : row) (oe : option record) (i : nat) (c : TableColumn) : value :=
  match oe with None => cell r i | Some e => edited_cell e r i c end.

Lemma display_source_cell columns d i r j c :
  columns !! j = Some c →
  cell (dr_values (display_source columns d i r)) j = shown r (editedRows d !! i) j c.
Proof.
  intros Hj. unfold display_source, shown. destruct (editedRows d !! i) as [e|]; [|done].
  cbn [dr_values]. unfold cell at 1. by rewrite list_lookup_imap, Hj.
Qed.

(** [y] replaces [x] up to what an update compares. *)
Definition same_shown (t : option jstr) (x y : value) : Prop :=
  y = x ∨ valuesEqual (coerceCellValue x t) y = true.

(** Dropping the edits of a row that they do not change. *)
Lemma dropped_shown columns r e j c :
  NoDup (col_name <$> columns) → columns !! j = Some c →
  buildRowUpdate columns r e [] = None → same_shown (col_dataType c) (edited_cell e r j c) (cell r j).
Proof.
  intros Hnd Hj HN. assert (Hc : c ∈ columns) by by eapply list_elem_of_lookup_2.
  apply buildRowUpdate_None with (c := c) in HN; [|done]. unfold changed, next_value in HN.
  rewrite bool_decide_eq_false_2 in HN by apply not_elem_of_nil. apply negb_false_iff in HN.
  rewrite (cell_of_index _ _ j) in HN by done. unfold edited_cell, same_shown.
  destruct (get e (col_name c)); by auto.
Qed.

Lemma edited_insert_same e name v r j c :
  col_name c = name → v ≠ VUndefined → edited_cell (<[name := v]> e) r j c = v.
Proof. intros <- Hv. unfold edited_cell, get. rewrite lookup_insert_eq. by destruct v. Qed.

Lemma edited_insert_other e name v r j c :
  col_name c ≠ name → edited_cell (<[name := v]> e) r j c = edited_cell e r j c.
Proof. intros Hn. unfold edited_cell, get. by rewrite lookup_insert_ne. Qed.

Lemma edited_fresh columns r j c :
  NoDup (col_name <$> columns) → columns !! j = Some c →
  edited_cell (rowToRecord columns r) r j c = cell r j.
Proof.
  intros Hnd Hj. unfold edited_cell. rewrite (rowToRecord_get _ _ j) by done. by destruct (cell r j).
Qed.

(** The outcome of a cell edit on the edits of its row. *)
Definition edit_outcome (columns : list TableColumn) (r : row) (e : option record) (c : TableColumn) (ci : nat) (coerced : value)
    (e' : option record) : Prop :=
  let current := <[col_name c := coerced]> (default (rowToRecord columns r) e) in
  (e' = Some current ∧ is_Some (buildRowUpdate columns r current []))
  ∨ (e' = None ∧ (e = None ∧ valuesEqual coerced (coerceCellValue (cell r ci) (col_dataType c)) = true
                  ∨ buildRowUpdate columns r current [] = None)).

Lemma edit_outcome_shown columns r e c ci coerced e' :
  NoDup (col_name <$> columns) → columns !! ci = Some c → coerced ≠ VUndefined →
  coerceCellValue coerced (col_dataType c) = coerced →
  edit_outcome columns r e c ci coerced e' →
  (∀ j c', columns !! j = Some c' → j ≠ ci →
     same_shown (col_dataType c') (shown r e j c') (shown r e' j c'))
  ∧ (valuesEqual coerced (shown r e' ci c) = true
     ∨ valuesEqual coerced (coerceCellValue (shown r e' ci c) (col_dataType c)) = true).
Proof.
  intros Hnd Hci Hdef Hidem.
  assert (Hne : ∀ j c', columns !! j = Some c' → j ≠ ci → col_name c' ≠ col_name c).
  { intros j c' Hj Hjc En. apply Hjc. eapply NoDup_lookup; [exact Hnd| |].
    - by rewrite list_lookup_fmap, Hj.
    - rewrite list_lookup_fmap, Hci. cbn. by rewrite En. }
  assert (Hother : ∀ j c', columns !! j = Some c' → j ≠ ci →
    edited_cell (<[col_name c := coerced]> (default (rowToRecord columns r) e)) r j c' = shown r e j c').
  { intros j c' Hj Hjc. rewrite edited_insert_other by by eapply Hne.
    destruct e; [done|]. by apply edited_fresh. }
  intros [[-> Hb]|[-> [[-> Hv]|HN]]]; (split; [intros j c' Hj Hjc|]); cbn [shown].
  - left. by apply Hother.
  - left. rewrite edited_insert_same by done. apply valuesEqual_refl.
  - by left.
  - by right.
  - rewrite <- Hother by done. by apply (dropped_shown columns).
  - left. eapply dropped_shown in HN as [E|E]; [| |exact Hnd|exact Hci].
    + rewrite edited_insert_same in E by done. rewrite E. apply valuesEqual_refl.
    + rewrite edited_insert_same, Hidem in E by done. done.
Qed.
End edit_lemmas.

Section update_lemmas.
Context `{Unicode}.

Definition typed (text : jstr) (c : TableColumn) : value :=
  coerceCellValue (if bool_decide (text = []) then VNull else VStr text) (col_dataType c).

Lemma filter_effective_outcome (v : View) (E : gmap nat record) i r e c ci coerced :
  wf_view v → v_rows v !! i = Some r → (∀ j, j ≠ i → E !! j = editedRows (draftState v) !! j) →
  (E !! i = Some (<[col_name c := coerced]> (default (rowToRecord (v_columns v) r) e))
   ∨ E !! i = None ∧ buildRowUpdate (v_columns v) r
                       (<[col_name c := coerced]> (default (rowToRecord (v_columns v) r) e)) [] = None) →
  let E' := filter (λ entry, effective (v_columns v) (v_rows v) entry = true) E in
  (∀ j, j ≠ i → E' !! j = editedRows (draftState v) !! j)
  ∧ edit_outcome (v_columns v) r e c ci coerced (E' !! i).
Proof.
  intros (_ & _ & He) Hr Hj Hi E'. split.
  - intros j Hne. unfold E'. rewrite map_lookup_filter, Hj by done.
    destruct (editedRows (draftState v) !! j) as [x|] eqn:Ex; [|done]. cbn.
    destruct (He j x Ex) as [_ Heff]. by rewrite option_guard_True.
  - unfold edit_outcome, E'. rewrite map_lookup_filter. destruct Hi as [->|[-> HN]]; [|by right; auto].
    cbn. unfold effective. cbn [fst snd]. rewrite Hr. case_guard as Hg; cbn.
    + apply bool_decide_eq_true in Hg. by left.
    + right. split; [done|]. right. apply not_true_iff_false, bool_decide_eq_false in Hg.
      by apply eq_None_not_Some.
Qed.

(** A view after an edit of row [i]. *)
Definition edited_at (v v' : View) (i : nat) (r : row) (c : TableColumn) (ci : nat) (text : jstr) : Prop :=
  v_columns v' = v_columns v ∧ v_rows v' = v_rows v
  ∧ newRows (draftState v') = newRows (draftState v)
  ∧ deletedRowIndexes (draftState v') = deletedRowIndexes (draftState v)
  ∧ (∀ j, j ≠ i → editedRows (draftState v') !! j = editedRows (draftState v) !! j)
  ∧ edit_outcome (v_columns v) r (editedRows (draftState v) !! i) c ci (typed text c)
                 (editedRows (draftState v') !! i).

Lemma edited_at_compact (v : View) (E : gmap nat record) i r c ci text :
  wf_view v → v_rows v !! i = Some r → (∀ j, j ≠ i → E !! j = editedRows (draftState v) !! j) →
  (let current := <[col_name c := typed text c]> (default (rowToRecord (v_columns v) r)
                                                    (editedRows (draftState v) !! i)) in
   E !! i = Some current ∨ E !! i = None ∧ buildRowUpdate (v_columns v) r current [] = None) →
  edited_at v (set_draft (compactDraft (v_columns v) (v_rows v)
                 (MkDraft E (newRows (draftState v)) (deletedRowIndexes (draftState v)))) v) i r c ci text.
Proof.
  intros Hwf Hr Hj Hi.
  destruct (filter_effective_outcome v E i r (editedRows (draftState v) !! i) c ci (typed text c))
    as [H1 H2]; [done..|].
  assert (Hst : draftState (set_draft (compactDraft (v_columns v) (v_rows v)
      (MkDraft E (newRows (draftState v)) (deletedRowIndexes (draftState v)))) v)
    = MkDraft (filter (λ entry, effective (v_columns v) (v_rows v) entry = true) E)
        (newRows (draftState v)) (deletedRowIndexes (draftState v)))
    by exact (compact_state _ _ (MkDraft E (newRows (draftState v)) (deletedRowIndexes (draftState v)))).
  unfold edited_at. rewrite Hst. by split_and!.
Qed.

Lemma update_source v ri ci text i r c :
  wf_view v → v_columns v !! ci = Some c →
  visible (length (v_rows v)) (deletedRowIndexes (draftState v)) !! ri = Some i →
  v_rows v !! i = Some r →
  ∃ v', updateCell v ri ci text = Some v' ∧ edited_at v v' i r c ci text.
Proof.
  intros Hwf Hc Hi Hr. unfold updateCell.
  assert (Hd : displayRows v !! ri = Some (display_source (v_columns v) (draftState v) i r)).
  { unfold displayRows. rewrite display_eq, lookup_app_l.
    - by rewrite list_lookup_fmap, Hi; cbn; rewrite Hr.
    - rewrite length_fmap. by eapply lookup_lt_Some. }
  rewrite Hd, Hc. cbn [mbind option_bind].
  assert (dr_isNew (display_source (v_columns v) (draftState v) i r) = false) as ->
    by (unfold display_source; by destruct (editedRows _ !! i)).
  assert (Z.to_nat (dr_sourceIndex (display_source (v_columns v) (draftState v) i r)) = i) as ->
    by (unfold display_source; destruct (editedRows _ !! i); cbn; lia).
  rewrite Hr. cbn [mbind option_bind]. fold (typed text c).
  assert (Hsame : ∀ e j, j ≠ i → <[i := e]> (editedRows (draftState v)) !! j = editedRows (draftState v) !! j)
    by (intros; by rewrite lookup_insert_ne).
  destruct (valuesEqual (typed text c) _) eqn:Ev.
  - destruct (editedRows (draftState v) !! i) as [e|] eqn:Ee.
    + eexists. split; [done|]. apply edited_at_compact; [done..| |].
      * intros j Hj. destruct (buildRowUpdate _ _ _ _); [by apply Hsame|by rewrite lookup_delete_ne].
      * cbv zeta. rewrite Ee. cbn [from_option id].
        destruct (buildRowUpdate (v_columns v) r _ []) eqn:Eb.
        -- left. by rewrite lookup_insert_eq.
        -- right. by rewrite lookup_delete_eq.
    + exists v. split; [done|]. unfold edited_at. split_and!; try done.
      unfold edit_outcome. rewrite Ee. right. by auto.
  - eexists. split; [done|]. apply edited_at_compact; [done..| |].
    + intros j Hj. by apply Hsame.
    + left. by rewrite lookup_insert_eq.
Qed.

(** The display after such an edit. *)
Lemma edited_at_display v v' ri ci text i r c :
  edited_at v v' i r c ci text →
  visible (length (v_rows v)) (deletedRowIndexes (draftState v)) !! ri = Some i →
  v_rows v !! i = Some r →
  length (displayRows v') = length (displayRows v)
  ∧ (∀ k, k ≠ ri → displayRows v' !! k = displayRows v !! k)
  ∧ displayRows v' !! ri = Some (display_source (v_columns v) (draftState v') i r).
Proof.
  intros (Hc & Hrows & Hn & Hdel & Hj & _) Hi Hr. unfold displayRows.
  rewrite !length_display, Hc, Hrows, Hn, Hdel. split_and!; [done| |].
  - intros k Hk. rewrite !display_eq, Hn, Hdel.
    destruct (decide (k < length (visible (length (v_rows v)) (deletedRowIndexes (draftState v))))) as [Hlt|Hge].
    + rewrite !lookup_app_l by by rewrite length_fmap. rewrite !list_lookup_fmap.
      destruct (visible _ _ !! k) as [j|] eqn:Ej; [|done]. cbn. f_equal.
      unfold display_source. rewrite Hj; [done|]. intros ->. apply Hk.
      eapply NoDup_lookup; [apply NoDup_visible| |]; done.
    + by rewrite !lookup_app_r by (rewrite length_fmap; lia); rewrite !length_fmap.
  - rewrite display_eq, Hdel, lookup_app_l by (rewrite length_fmap; by eapply lookup_lt_Some).
    by rewrite list_lookup_fmap, Hi; cbn; rewrite Hr.
Qed.
(** Editing a row of the draft that is not stored yet: [k] counts the new rows. *)
Definition edited_new (v v' : View) (ri : nat) (c : TableColumn) (ci : nat) (text : jstr) (old new : DisplayRow) : Prop :=
  displayRows v !! ri = Some old ∧ displayRows v' !! ri = Some new
  ∧ length (displayRows v') = length (displayRows v)
  ∧ (∀ k, k ≠ ri → displayRows v' !! k = displayRows v !! k)
  ∧ dr_isNew old = true ∧ dr_isNew new = true
  ∧ (∀ j, j ≠ ci → cell (dr_values new) j = cell (dr_values old) j)
  ∧ cell (dr_values new) ci = typed text c.

Lemma display_new_cell columns n j c :
  columns !! j = Some c →
  cell (dr_values (display_new columns n)) j =
    (if is_nullish (get n (col_name c)) then VNull else get n (col_name c)).
Proof. intros Hj. unfold display_new, cell. cbn [dr_values]. by rewrite list_lookup_fmap, Hj. Qed.

Lemma display_new_insert columns n c ci x j :
  NoDup (col_name <$> columns) → columns !! ci = Some c → x ≠ VUndefined →
  cell (dr_values (display_new columns (<[col_name c := x]> n))) j =
    if decide (j = ci) then x else cell (dr_values (display_new columns n)) j.
Proof.
  intros Hnd Hc Hx. destruct (columns !! j) as [c'|] eqn:Hj.
  - rewrite !(display_new_cell _ _ j c') by done. unfold get. destruct (decide (j = ci)) as [->|Hne].
    + simplify_eq. rewrite lookup_insert_eq. by destruct x.
    + rewrite lookup_insert_ne; [done|]. intros E. apply Hne.
      eapply NoDup_lookup; [exact Hnd| |]; rewrite list_lookup_fmap; [by rewrite Hj; cbn; rewrite <- E | by rewrite Hc].
  - unfold cell, display_new. cbn [dr_values]. rewrite !list_lookup_fmap, Hj.
    destruct (decide (j = ci)) as [->|]; [congruence | done].
Qed.

Lemma update_new v ri ci text k n c :
  wf_view v → NoDup (col_name <$> v_columns v) → v_columns v !! ci = Some c →
  newRows (draftState v) !! k = Some n →
  ri = length (visible (length (v_rows v)) (deletedRowIndexes (draftState v))) + k →
  ∃ v' old new, updateCell v ri ci text = Some v' ∧ edited_new v v' ri c ci text old new.
Proof.
  intros (_ & _ & Heff) Hnd Hc Hn ->. set (d := draftState v) in *.
  set (vis := visible (length (v_rows v)) (deletedRowIndexes d)).
  set (n' := <[col_name c := typed text c]> n).
  assert (Hd : ∀ m, display (v_columns v) (v_rows v) (MkDraft (editedRows d) m (deletedRowIndexes d))
      = ((λ i, display_source (v_columns v) d i (default [] (v_rows v !! i))) <$> vis) ++ (display_new (v_columns v) <$> m))
    by (intros; by rewrite display_eq).
  assert (Hold : displayRows v = ((λ i, display_source (v_columns v) d i (default [] (v_rows v !! i))) <$> vis)
      ++ (display_new (v_columns v) <$> newRows d)) by apply display_eq.
  assert (Hlook : displayRows v !! (length vis + k) = Some (display_new (v_columns v) n)).
  { rewrite Hold, lookup_app_r, length_fmap by (rewrite length_fmap; lia).
    by rewrite Nat.add_comm, Nat.add_sub, list_lookup_fmap, Hn. }
  set (v' := set_draft (Some (MkDraft (editedRows d) (alter (λ r, <[col_name c := typed text c]> r) k (newRows d))
                                (deletedRowIndexes d))) v).
  assert (Hnew : displayRows v' = alter (λ _, display_new (v_columns v) n') (length vis + k) (displayRows v)).
  { unfold displayRows at 1, v'. cbn [v_columns v_rows draftState v_draft set_draft from_option id].
    rewrite Hd, Hold, alter_app_r_alt by (rewrite length_fmap; lia). f_equal.
    rewrite length_fmap, Nat.add_comm, Nat.add_sub. apply list_eq. intros j.
    rewrite list_lookup_fmap, !list_lookup_alter.
    destruct (decide (k = j)) as [<-|]; rewrite !list_lookup_fmap; [by rewrite Hn | done]. }
  exists v', (display_new (v_columns v) n), (display_new (v_columns v) n'). split.
  - unfold updateCell. rewrite Hlook, Hc. cbn [mbind option_bind dr_isNew display_new].
    fold (typed text c). f_equal. unfold v', set_draft. f_equal.
    rewrite Hold, length_app, !length_fmap, Nat.add_sub, Nat.add_comm, Nat.add_sub.
    fold d. rewrite compactDraft_eq. cbv zeta. cbn [editedRows newRows deletedRowIndexes].
    rewrite (map_filter_id (λ entry, effective (v_columns v) (v_rows v) entry = true))
      by (intros i e He; by apply (Heff i e)).
    destruct (_ && _) eqn:E; [|done]. exfalso. bool_to_prop. apply lookup_lt_Some in Hn.
    rewrite <- (length_alter (λ r, <[col_name c := typed text c]> r) _ k) in Hn.
    match goal with E : alter _ _ _ = [] |- _ => rewrite E in Hn end. cbn in Hn. lia.
  - unfold edited_new. rewrite Hnew. split_and!; [done| | by rewrite length_alter | |done|done| |].
    + by rewrite list_lookup_alter, decide_True, Hlook by done.
    + intros j Hj. by rewrite list_lookup_alter_ne.
    + intros j Hj. unfold n'. rewrite (display_new_insert _ n c ci) by (done || apply coerce_defined).
      by rewrite decide_False.
    + unfold n'. rewrite (display_new_insert _ n c ci) by (done || apply coerce_defined). by rewrite decide_True.
Qed.
End update_lemmas.

(** ** Properties *)

(** The draft stays well formed: whatever sequence of cell edits, additions,
    deletions, selections and discards is made, deleted indices are distinct rows of the
    result, no deleted row is edited, and every edited row differs from its original. *)
Theorem draft_invariant `{Unicode} v v' :
  wf_view v → rtc view_step v v' → wf_view v' ∧ v_columns v' = v_columns v ∧ v_rows v' = v_rows v.
Proof.
  intros Hwf Hs. induction Hs as [v|v v1 v2 Hstep _ IH]; [done|].
  destruct (step_frame _ _ Hstep) as (<- & <- & _). apply IH. by eapply wf_step.
Qed.

Definition demo_view : View := MkView demo_columns [demo_row; demo_row] ["id"%js] (Some 1) None.

Lemma draft_invariant_witness :
  @wf_view ascii_unicode (deleteSelectedRow (addRow demo_view))
  ∧ v_columns (deleteSelectedRow (addRow demo_view)) = demo_columns
  ∧ v_rows (deleteSelectedRow (addRow demo_view)) = [demo_row; demo_row].
Proof.
  refine (@draft_invariant ascii_unicode demo_view _ (@wf_empty ascii_unicode _ _) _).
  eapply rtc_l; [apply step_add|]. eapply rtc_l; [apply step_delete|]. apply rtc_refl.
Defined.

(** C1. Editing a cell of any displayed row never fails and leaves every other displayed
    row as it was.  In a result row the edited cell shows a value the code considers equal
    to the coerced text and the other cells keep their values up to what an update
    compares; in a row added to the draft it shows the coerced text and the other cells
    are the same. *)
Theorem update_cell_spec `{Unicode} v ri ci text c old :
  wf_view v → NoDup (col_name <$> v_columns v) → v_columns v !! ci = Some c →
  displayRows v !! ri = Some old →
  ∃ v' new, updateCell v ri ci text = Some v' ∧ displayRows v' !! ri = Some new
    ∧ length (displayRows v') = length (displayRows v)
    ∧ (∀ k, k ≠ ri → displayRows v' !! k = displayRows v !! k)
    ∧ dr_isNew new = dr_isNew old
    ∧ if dr_isNew old
      then (∀ j, j ≠ ci → cell (dr_values new) j = cell (dr_values old) j)
           ∧ cell (dr_values new) ci = typed text c
      else (∀ j c', v_columns v !! j = Some c' → j ≠ ci →
              same_shown (col_dataType c') (cell (dr_values old) j) (cell (dr_values new) j))
           ∧ (valuesEqual (typed text c) (cell (dr_values new) ci) = true
              ∨ valuesEqual (typed text c) (coerceCellValue (cell (dr_values new) ci) (col_dataType c)) = true).
Proof.
  intros Hwf Hnd Hc Hri.
  destruct (display_lookup _ _ _ _ _ Hri) as [(i & r & Hi & Hr & Hold & -> & _)|(n & Hge & Hn & Hold & ->)].
  - destruct (update_source v ri ci text i r c Hwf Hc Hi Hr) as (v' & Hu & He).
    destruct (edited_at_display v v' ri ci text i r c He Hi Hr) as (Hlen & Hk & Hnew).
    exists v', (display_source (v_columns v) (draftState v') i r).
    destruct He as (_ & _ & _ & _ & _ & Hout).
    destruct (edit_outcome_shown (v_columns v) r _ c ci (typed text c) _ Hnd Hc
                (coerce_defined _ _) (coerce_idem _ _) Hout) as [Ho Hs].
    subst old. split_and!; try done.
    + unfold display_source. by case_match.
    + intros j c' Hj Hjc. rewrite !(display_source_cell _ _ _ _ j c') by done. by apply Ho.
    + by rewrite (display_source_cell _ _ _ _ ci c).
  - destruct (update_new v ri ci text _ n c Hwf Hnd Hc Hn) as (v' & old' & new & Hu & He); [lia|].
    destruct He as (Ho & Hnew & Hlen & Hk & Hold' & Hnew' & Hj & Hci). assert (old' = old) as -> by congruence.
    exists v', new. by split_and!.
Qed.

Lemma update_cell_spec_witness :
  ∃ v' new, @updateCell ascii_unicode (addRow demo_view) 2 1 "x"%js = Some v'
    ∧ displayRows v' !! 2 = Some new ∧ length (displayRows v') = 3
    ∧ (∀ k, k ≠ 2 → displayRows v' !! k = displayRows (addRow demo_view) !! k)
    ∧ dr_isNew new = true
    ∧ (∀ j, j ≠ 1 → cell (dr_values new) j = cell [VNull; VNull] j)
    ∧ cell (dr_values new) 1 = VStr "x"%js.
Proof.
  refine (@update_cell_spec ascii_unicode (addRow demo_view) 2 1 "x"%js
    (MkTableColumn "name"%js (Some "text"%js)) (MkDisplay (-1) true [VNull; VNull]) _ _ eq_refl eq_refl).
  - by apply (@wf_step ascii_unicode demo_view _ (@wf_empty ascii_unicode _ _)), step_add.
  - apply (bool_decide_unpack _). vm_compute. exact I.
Defined.

(** Deleting removes exactly the selected displayed row and clears the selection;
    adding appends one row of NULLs and selects it. *)
Theorem delete_add_row_spec v k item :
  v_selectedRow v = Some k → displayRows v !! k = Some item →
  displayRows (deleteSelectedRow v) = delete k (displayRows v)
  ∧ v_selectedRow (deleteSelectedRow v) = None
  ∧ displayRows (addRow v) =
      displayRows v ++ [MkDisplay (-1) true (replicate (length (v_columns v)) VNull)]
  ∧ v_selectedRow (addRow v) = Some (length (displayRows v)).
Proof.
  intros Hsel Hk. split_and!; [|unfold deleteSelectedRow; by rewrite Hsel, Hk| |done].
  - unfold deleteSelectedRow. rewrite Hsel, Hk. set (d := draftState v).
    assert (Hlen := length_display (v_columns v) (v_rows v) d).
    apply display_lookup in Hk as [(i & r & Hi & Hr & -> & Hnew & Hsrc)|(nr & Hvis & Hnr & -> & Hnew)];
      rewrite Hnew; unfold displayRows in *; cbn [v_columns v_rows draftState v_draft set_draft set_selected from_option id].
    + rewrite Hsrc. fold d in Hi |- *.
      assert (Hni : i ∉ deletedRowIndexes d) by (by apply list_elem_of_lookup_2, elem_of_visible in Hi as [_ ?]).
      rewrite bool_decide_eq_false_2 by done. rewrite !display_eq. cbn [editedRows newRows deletedRowIndexes].
      rewrite (visible_delete _ _ k i) by done.
      rewrite delete_app_l by (rewrite length_fmap; by eapply lookup_lt_Some).
      f_equal. rewrite <- list_fmap_delete. apply list_fmap_ext. intros j x Hx. 
      unfold display_source. cbn [editedRows]. rewrite lookup_delete_ne; [done|]. intros ->.
      rewrite <- (visible_delete _ _ k x Hi) in Hx. apply list_elem_of_lookup_2, elem_of_visible in Hx as [_ Hx].
      apply Hx. apply elem_of_app. right. by left.
    + fold d in Hvis, Hnr |- *. rewrite Hlen, Nat.add_sub. rewrite !display_eq. cbn [editedRows newRows deletedRowIndexes].
      rewrite delete_app_r by by rewrite length_fmap. by rewrite length_fmap, list_fmap_delete.
  - unfold displayRows, addRow. cbn [v_columns v_rows draftState v_draft set_draft set_selected from_option id].
    rewrite !display_eq. cbn [editedRows newRows deletedRowIndexes]. rewrite fmap_app, app_assoc. f_equal.
    cbn [fmap list_fmap]. by rewrite display_blank.
Qed.

Lemma delete_add_row_spec_witness :
  displayRows (deleteSelectedRow demo_view) = [MkDisplay 0 false demo_row]
  ∧ v_selectedRow (addRow demo_view) = Some 2.
Proof.
  destruct (delete_add_row_spec demo_view 1 (MkDisplay 1 false demo_row) eq_refl eq_refl)
    as (Hd & _ & _ & Ha).
  split; [exact Hd | exact Ha].
Defined.
