(* ===== verification/TableApply.v ===== *)
(** * Applying a draft to a table

    What [applyDraft] of the table view does to the table behind it.  The server is
    given by what its three mutations mean ([serve]): a key selects the rows whose key
    columns hold its values, an update replaces the columns it sends, an insert appends
    a row. *)
From S2P Require Import Prelude JsString JsNumber JsValue Api TableQuery TableMutations TableView.

Section serve.
Context (columns : list TableColumn) (uniqueKey : list jstr).

Definition row_key (r : row) : record := buildRowKey columns r uniqueKey.
Definition has_key (key : record) (r : row) : bool := bool_decide (row_key r = key).

Definition overlay (values : record) (r : row) : row :=
  imap (λ i c, default (cell r i) (values !! col_name c)) columns.

Definition serve (m : Mutation) (rows : list row) : list row :=
  match m with
  | MDelete key => filterb (λ r, negb (has_key key r)) rows
  | MUpdate key values => update_where (has_key key) (overlay values) rows
  | MInsert values => rows ++ [(λ c, get values (col_name c)) <$> columns]
  end.

Definition serve_all (ms : list Mutation) (rows : list row) : list row :=
  foldl (λ rs m, serve m rs) rows ms.

Lemma serve_all_app ms ms' rows : serve_all (ms ++ ms') rows = serve_all ms' (serve_all ms rows).
Proof. apply foldl_app. Qed.

Lemma send_all_total ms rows : send_all (λ m s, Some (serve m s)) ms rows = (serve_all ms rows, true).
Proof. revert rows. induction ms as [|m ms IH]; intros rows; [done|]. apply IH. Qed.

(** *** Deletes *)
Lemma serve_deletes keys rows :
  serve_all (MDelete <$> keys) rows = filterb (λ r, negb (bool_decide (row_key r ∈ keys))) rows.
Proof.
  revert rows. induction keys as [|k keys IH]; intros rows.
  - symmetry. by apply filterb_id.
  - cbn [fmap list_fmap]. unfold serve_all in *. cbn [foldl serve]. rewrite IH, filterb_filterb.
    apply filterb_ext. intros r _. unfold has_key. rewrite <- negb_orb. f_equal.
    apply eq_true_iff_eq. by rewrite orb_true_iff, !bool_decide_eq_true, elem_of_cons.
Qed.

Lemma rows_by_index (rows : list row) : (λ i, default [] (rows !! i)) <$> seq 0 (length rows) = rows.
Proof.
  apply list_eq. intros i. rewrite list_lookup_fmap.
  destruct (decide (i < length rows)) as [Hlt|Hge].
  - rewrite lookup_seq_lt by done. cbn. by destruct (lookup_lt_is_Some_2 rows i Hlt) as [r ->].
  - rewrite lookup_seq_ge by lia. symmetry. apply lookup_ge_None_2. lia.
Qed.

Definition row_of (rows : list row) (i : nat) : row := default [] (rows !! i).

Lemma key_inj rows i j :
  NoDup (row_key <$> rows) → i < length rows → j < length rows →
  row_key (row_of rows i) = row_key (row_of rows j) → i = j.
Proof.
  intros Hnd [r Hr]%lookup_lt_is_Some [r' Hr']%lookup_lt_is_Some. unfold row_of. rewrite Hr, Hr'.
  cbn. intros E. eapply NoDup_lookup; [exact Hnd|by rewrite list_lookup_fmap, Hr|].
  rewrite list_lookup_fmap, Hr'. cbn. by rewrite E.
Qed.

Lemma serve_deletes_visible rows deleted :
  NoDup (row_key <$> rows) → (∀ i, i ∈ deleted → i < length rows) →
  serve_all ((λ i, MDelete (row_key (row_of rows i))) <$> deleted) rows
    = row_of rows <$> visible (length rows) deleted.
Proof.
  intros Hnd Hd.
  rewrite (list_fmap_compose (λ i, row_key (row_of rows i)) MDelete), serve_deletes.
  rewrite <- (rows_by_index rows) at 1. fold (row_of rows). rewrite filterb_fmap. unfold visible.
  f_equal. apply filterb_ext. intros i Hi%elem_of_seq. f_equal.
  apply bool_decide_ext. rewrite list_elem_of_fmap. split.
  - intros (j & E & Hj). apply key_inj in E; [by subst|done|lia|by apply Hd].
  - intros Hi'. by exists i.
Qed.

(** *** Updates *)
Hypothesis names_distinct : NoDup (col_name <$> columns).

Lemma get_rowToRecord_absent r name :
  name ∉ col_name <$> columns → get (rowToRecord columns r) name = VUndefined.
Proof.
  intros Hn. unfold get, rowToRecord. rewrite from_entries_not_in; [done|].
  intros ([n v] & -> & Hin)%list_elem_of_fmap. apply Hn. apply list_elem_of_lookup in Hin as [i Hi].
  rewrite list_lookup_imap in Hi. destruct (columns !! i) as [c|] eqn:Ec; [|done]. cbn in Hi. simplify_eq.
  apply list_elem_of_fmap. exists c. split; [done|]. by eapply list_elem_of_lookup_2.
Qed.

Lemma overlay_key values r :
  (∀ name, name ∈ uniqueKey → values !! name = None) → row_key (overlay values r) = row_key r.
Proof.
  intros Hv. unfold row_key, buildRowKey. f_equal. apply list_fmap_ext. intros k name Hk.
  f_equal. apply list_elem_of_lookup_2 in Hk.
  destruct (decide (name ∈ col_name <$> columns)) as [(c & -> & Hc)%list_elem_of_fmap|Hn].
  - apply list_elem_of_lookup in Hc as [i Hi]. rewrite !(rowToRecord_get _ _ i) by done.
    unfold overlay, cell at 1. rewrite list_lookup_imap, Hi. cbn. by rewrite Hv.
  - by rewrite !get_rowToRecord_absent.
Qed.
End serve.

Section apply.
Context `{Unicode} (v : View).
#[local] Abbreviation columns := (v_columns v).
#[local] Abbreviation rows := (v_rows v).
#[local] Abbreviation uk := (v_uniqueKey v).

(** A row after the update its edits give. *)
Definition applied_row (i : nat) (e : record) : row :=
  match buildRowUpdate columns (row_at v i) e uk with
  | None => row_at v i
  | Some (_, values) => overlay columns values (row_at v i)
  end.

Hypothesis names_distinct : NoDup (col_name <$> columns).
Hypothesis keys_distinct : NoDup (row_key columns uk <$> rows).

Lemma applied_row_key i e : row_key columns uk (applied_row i e) = row_key columns uk (row_at v i).
Proof.
  unfold applied_row. destruct (buildRowUpdate _ _ _ _) as [[key values]|] eqn:E; [|done].
  apply overlay_key; [done|]. intros name Hn. unfold buildRowUpdate in E. case_bool_decide; [done|].
  simplify_eq. apply eq_None_not_Some. intros [x Hx].
  apply update_values_origin in Hx as (c & _ & <- & Hch & _). unfold changed in Hch.
  by rewrite bool_decide_eq_true_2 in Hch.
Qed.

(** One update on a table whose rows keep their keys. *)
Lemma serve_update (g : nat → row) (l : list nat) i e :
  (∀ j, j ∈ i :: l → j < length rows) → (∀ j, j ∈ l → row_key columns uk (g j) = row_key columns uk (row_at v j)) →
  g i = row_at v i →
  serve_all columns uk (option_list (update_mutation v (i, e))) (g <$> l)
    = (λ j, if decide (j = i) then applied_row i e else g j) <$> l.
Proof.
  intros Hl Hg Hi. unfold update_mutation, applied_row. cbn [fst snd].
  destruct (buildRowUpdate columns (row_at v i) e uk) as [[key values]|] eqn:E; cbn.
  - assert (key = row_key columns uk (row_at v i)) as ->.
    { unfold buildRowUpdate in E. case_bool_decide; [done|]. by simplify_eq. }
    unfold update_where. rewrite <- list_fmap_compose. apply list_fmap_ext. intros n j Hj.
    apply list_elem_of_lookup_2 in Hj. cbn. unfold has_key. rewrite Hg by done.
    destruct (decide (j = i)) as [->|Hne].
    + rewrite bool_decide_eq_true_2 by done. by rewrite Hi.
    + rewrite bool_decide_eq_false_2; [done|]. intros Ek. apply Hne.
      apply (key_inj columns uk rows); [done|apply Hl; by right|apply Hl; by left|done].
  - apply list_fmap_ext. intros n j _. destruct (decide (j = i)) as [->|]; done.
Qed.

Lemma serve_updates (g : nat → row) (l : list nat) (es : list (nat * record)) :
  NoDup es.*1 → (∀ j, j ∈ es.*1 ∨ j ∈ l → j < length rows) →
  (∀ j, j ∈ l → row_key columns uk (g j) = row_key columns uk (row_at v j)) →
  (∀ j, j ∈ es.*1 → g j = row_at v j) →
  serve_all columns uk (omap (update_mutation v) es) (g <$> l)
    = (λ j, match list_to_map (M := gmap nat record) es !! j with
            | Some e => applied_row j e | None => g j end) <$> l.
Proof.
  revert g. induction es as [|[i e] es IH]; intros g Hnd Hl Hk Hg; [done|].
  cbn in Hnd. apply list.NoDup_cons in Hnd as [Hi Hnd].
  assert (omap (update_mutation v) ((i, e) :: es) =
          option_list (update_mutation v (i, e)) ++ omap (update_mutation v) es) as ->.
  { cbn. by destruct (update_mutation v (i, e)). }
  rewrite serve_all_app, serve_update; [|intros j [->|Hj]%elem_of_cons; apply Hl; [left; by left|by right]|done|apply Hg; by left].
  rewrite IH; [|done| | |].
  - apply list_fmap_ext. intros n j _. cbn [list_to_map foldr uncurry fst snd].
    fold (list_to_map (M := gmap nat record) es). destruct (decide (j = i)) as [->|Hne].
    + by rewrite lookup_insert_eq, (not_elem_of_list_to_map_1 es i).
    + by rewrite lookup_insert_ne.
  - intros j [Hj|Hj]; apply Hl; [left; by right|by right].
  - intros j Hj. destruct (decide (j = i)) as [->|]; [apply applied_row_key|by apply Hk].
  - intros j Hj. destruct (decide (j = i)) as [->|]; [done|]. apply Hg. by right.
Qed.
End apply.

Lemma buildInsertValues_get `{Unicode} columns nr c :
  NoDup (col_name <$> columns) → c ∈ columns →
  get (buildInsertValues columns nr) (col_name c) = coerceCellValue (get nr (col_name c)) (col_dataType c).
Proof.
  intros Hnd Hc. unfold get at 1, buildInsertValues. erewrite from_entries_lookup; [done| |].
  - by rewrite <- list_fmap_compose.
  - apply list_elem_of_fmap. by exists c.
Qed.

Lemma serve_inserts columns uk vs rows :
  serve_all columns uk (MInsert <$> vs) rows = rows ++ ((λ v, (λ c, get v (col_name c)) <$> columns) <$> vs).
Proof.
  revert rows. induction vs as [|v vs IH]; intros rows; [by rewrite app_nil_r|].
  cbn [fmap list_fmap]. unfold serve_all in *. cbn [foldl serve]. by rewrite IH, <- app_assoc.
Qed.

(** ** Properties *)


(** Two rows with keys 1 and 2; row 0 is deleted, row 1 renamed, a row is new. *)
Definition apply_demo : View :=
  MkView demo_columns [[VNum (num 1); VStr "a"%js]; [VNum (num 2); VStr "b"%js]] ["id"%js] None
    (Some (MkDraft {[1 := <["name"%js := VStr "c"%js]> (<["id"%js := VNum (num 2)]> ∅)]}
             [<["id"%js := VStr "3"%js]> ∅] [0])).


(** C22. A refused request leaves the table half changed and the draft whole: the
    requests before it have been executed, none after it, and applying again sends the
    same requests from the first. *)
Theorem apply_partial_failure `{Unicode} {S} (onMutate : Mutation → S → option S) v s s' :
  editable v = true → dirty v = true → send_all onMutate (mutations v) s = (s', false) →
  applyDraft onMutate v s = (s', v)
  ∧ (∃ sent refused rest, mutations v = sent ++ refused :: rest
       ∧ send_all onMutate sent s = (s', true) ∧ onMutate refused s' = None)
  ∧ applyDraft onMutate (applyDraft onMutate v s).2 s' =
      (let '(s'', ok) := send_all onMutate (mutations v) s' in (s'', if ok then set_draft None v else v)).
Proof.
  intros Hed Hd Hs.
  assert (Happ : ∀ t, applyDraft onMutate v t =
    (let '(s'', ok) := send_all onMutate (mutations v) t in (s'', if ok then set_draft None v else v))).
  { intros t. unfold applyDraft. rewrite Hed, Hd. cbn [negb orb].
    by destruct (send_all onMutate (mutations v) t) as [? []]. }
  split_and!.
  - by rewrite Happ, Hs.
  - clear Happ. revert s Hs. generalize (mutations v) as ms. intros ms.
    induction ms as [|m ms IH]; intros s Hs; [done|]. cbn [send_all] in Hs.
    destruct (onMutate m s) as [t|] eqn:Em.
    + apply IH in Hs as (sent & refused & rest & -> & Hsent & Href).
      exists (m :: sent), refused, rest. split_and!; [done| |done]. cbn [send_all]. by rewrite Em.
    + simplify_eq. by exists [], m, ms.
  - rewrite (Happ s), Hs. cbn [snd]. apply Happ.
Qed.

(** A server that takes one more insert, then refuses, and recovers afterwards: the
    first new row is inserted twice. *)
Definition two_inserts : View :=
  MkView demo_columns [] ["id"%js] None
    (Some (MkDraft ∅ [<["id"%js := VStr "1"%js]> ∅; <["id"%js := VStr "2"%js]> ∅] [])).
Definition flaky (m : Mutation) (s : nat * list row) : option (nat * list row) :=
  match s.1 with
  | O => None
  | S k => Some (k, serve demo_columns ["id"%js] m s.2)
  end.

Lemma apply_partial_failure_witness :
  @applyDraft ascii_unicode _ flaky two_inserts (1, []) = ((0, [[VNum (num 1); VNull]]), two_inserts)
  ∧ (@applyDraft ascii_unicode _ flaky (@applyDraft ascii_unicode _ flaky two_inserts (1, [])).2
       (2, [[VNum (num 1); VNull]])).1.2
    = [[VNum (num 1); VNull]; [VNum (num 1); VNull]; [VNum (num 2); VNull]].
Proof.
  split; [|vm_compute; reflexivity].
  exact (proj1 (@apply_partial_failure ascii_unicode _ flaky two_inserts (1, []) (0, [[VNum (num 1); VNull]])
    ltac:(vm_compute; reflexivity) ltac:(vm_compute; reflexivity) ltac:(vm_compute; reflexivity))).
Defined.
