(* ===== verification/Id.v ===== *)
(** * Identifiers

    [src/web/src/lib/id.ts]: [createId].  When the host has [crypto.randomUUID] its
    answer is the identifier; otherwise sixteen random bytes are formatted as a version 4
    UUID, which is what the definitions below compute.  A component takes its identifiers
    from a supply. *)
From S2P Require Import Prelude JsString JsNumber.

#[local] Open Scope N_scope.

Definition hex_char (d : N) : N := if d <? 10 then 48 + d else 87 + d.

(** [byte.toString(16)] of a byte. *)
Definition byte_hex (b : N) : jstr :=
  if b <? 16 then [hex_char b] else [hex_char (b / 16); hex_char (b mod 16)].

(** [bytes[i] = f(bytes[i])]. *)
Definition set_version (bytes : list N) : list N :=
  alter (λ b, N.lor (N.land b 63) 128) 8%nat (alter (λ b, N.lor (N.land b 15) 64) 6%nat bytes).

Definition uuid_layout (hex : jstr) : jstr :=
  take 8 hex ++ "-"%js ++ take 4 (drop 8 hex) ++ "-"%js ++ take 4 (drop 12 hex)
    ++ "-"%js ++ take 4 (drop 16 hex) ++ "-"%js ++ drop 20 hex.

Definition format_uuid (bytes : list N) : jstr :=
  uuid_layout (join [] ((λ b, pad_start 2 48 (byte_hex b)) <$> set_version bytes)).

(** The three sources of an identifier: [randomUUID], [getRandomValues], [Math.random]. *)
Definition createId (randomUUID : option jstr) (random_bytes : list N) : jstr :=
  match randomUUID with
  | Some id => id
  | None => format_uuid random_bytes
  end.

Definition is_hex (c : N) : bool := is_digit c || ((97 <=? c) && (c <=? 102)).

(** The shape of a version 4 UUID (RFC 4122): 36 characters, hyphens at 8, 13, 18, 23,
    the version digit 4, a variant digit from 8 to b, hexadecimal elsewhere. *)
Definition uuid_char_ok (i : nat) (c : N) : bool :=
  if bool_decide (i ∈ [8; 13; 18; 23]%nat) then c =? 45
  else if bool_decide (i = 14%nat) then c =? 52
  else if bool_decide (i = 19%nat) then bool_decide (c ∈ [56; 57; 97; 98])
  else is_hex c.
Definition is_uuid_v4 (s : jstr) : bool :=
  bool_decide (length s = 36%nat) && forallb id (imap uuid_char_ok s).

(** ** Lemmas *)

Lemma hex_char_ok d : d < 16 → is_hex (hex_char d) = true.
Proof.
  intros Hd. unfold hex_char, is_hex, is_digit. destruct (N.ltb_spec d 10); apply orb_true_iff;
    rewrite !andb_true_iff, !N.leb_le; lia.
Qed.

Lemma hex_char_inj d e : d < 16 → e < 16 → hex_char d = hex_char e → d = e.
Proof. unfold hex_char. destruct (N.ltb_spec d 10), (N.ltb_spec e 10); lia. Qed.

(** Every byte takes exactly its two hexadecimal digits. *)
Lemma byte_hex_pad b : b < 256 → pad_start 2 48 (byte_hex b) = [hex_char (b / 16); hex_char (b mod 16)].
Proof.
  intros Hb. unfold byte_hex, pad_start. destruct (N.ltb_spec b 16).
  - rewrite N.div_small, N.mod_small by done. done.
  - done.
Qed.

Definition hex_digits (bytes : list N) : jstr := bytes ≫= λ b, [hex_char (b / 16); hex_char (b mod 16)].

Lemma join_nil (l : list jstr) : join [] l = mjoin l.
Proof.
  induction l as [|x l IH]; [done|]. destruct l as [|y l]; [by cbn; rewrite app_nil_r|].
  rewrite join_cons by done. by rewrite IH.
Qed.

Lemma hex_text bytes : Forall (λ b, b < 256) bytes →
  join [] ((λ b, pad_start 2 48 (byte_hex b)) <$> bytes) = hex_digits bytes.
Proof.
  intros Hb. unfold hex_digits. induction Hb as [|b bs Hb Hbs IH]; [done|].
  rewrite join_nil in *. cbn [fmap list_fmap mbind list_bind] in *.
  change (pad_start 2 48 (byte_hex b) ++ mjoin ((λ b, pad_start 2 48 (byte_hex b)) <$> bs)
    = [hex_char (b / 16); hex_char (b mod 16)] ++ (bs ≫= λ b, [hex_char (b / 16); hex_char (b mod 16)])).
  by rewrite byte_hex_pad, IH.
Qed.

(** Facts about one byte, by enumeration. *)
Lemma byte_cases (P : N → bool) :
  forallb P (N.of_nat <$> seq 0 256) = true → ∀ b, b < 256 → P b = true.
Proof.
  intros H b Hb. rewrite forallb_elem in H. apply H. apply list_elem_of_fmap.
  exists (N.to_nat b). rewrite N2Nat.id, elem_of_seq. split; [done|]. lia.
Qed.

Lemma version_byte b : b < 256 →
  N.lor (N.land b 15) 64 < 256 ∧ hex_char (N.lor (N.land b 15) 64 / 16) = 52.
Proof.
  intros Hb. apply (byte_cases (λ b, (N.lor (N.land b 15) 64 <? 256)
    && (hex_char (N.lor (N.land b 15) 64 / 16) =? 52))) in Hb; [|vm_compute; reflexivity].
  by bool_to_prop.
Qed.

Lemma variant_byte b : b < 256 →
  N.lor (N.land b 63) 128 < 256
  ∧ bool_decide (hex_char (N.lor (N.land b 63) 128 / 16) ∈ [56; 57; 97; 98]) = true.
Proof.
  intros Hb. apply (byte_cases (λ b, (N.lor (N.land b 63) 128 <? 256)
    && bool_decide (hex_char (N.lor (N.land b 63) 128 / 16) ∈ [56; 57; 97; 98]))) in Hb;
    [|vm_compute; reflexivity].
  apply andb_true_iff in Hb as [Hb ?]. split; [by apply N.ltb_lt|done].
Qed.

Lemma high_digit b : b < 256 → is_hex (hex_char (b / 16)) = true.
Proof. intros Hb. apply hex_char_ok. apply N.Div0.div_lt_upper_bound; lia. Qed.
Lemma low_digit b : is_hex (hex_char (b mod 16)) = true.
Proof. apply hex_char_ok. by apply N.mod_lt. Qed.

Lemma set_version_bytes bytes : length bytes = 16%nat → Forall (λ b, b < 256) bytes →
  Forall (λ b, b < 256) (set_version bytes) ∧ length (set_version bytes) = 16%nat.
Proof.
  intros Hl Hb. split; [|unfold set_version; by rewrite !length_alter].
  unfold set_version. apply Forall_alter; [apply Forall_alter; [done|]|].
  - intros b _ Hb'. exact (proj1 (version_byte b Hb')).
  - intros b _ Hb'. exact (proj1 (variant_byte b Hb')).
Qed.

Lemma uuid_char_hex i c :
  bool_decide (i ∈ [8; 13; 14; 18; 19; 23]%nat) = false → is_hex c = true → uuid_char_ok i c = true.
Proof.
  intros Hi Hc. apply bool_decide_eq_false in Hi. rewrite !not_elem_of_cons in Hi.
  unfold uuid_char_ok. destruct Hi as (? & ? & ? & ? & ? & ? & _).
  rewrite !bool_decide_eq_false_2; [done..|]. rewrite !not_elem_of_cons.
  split_and!; [done..|apply not_elem_of_nil].
Qed.

Lemma uuid_layout_inj h h' :
  length h = 32%nat → length h' = 32%nat → uuid_layout h = uuid_layout h' → h = h'.
Proof.
  intros Hl Hl' E.
  assert (∀ k, length k = 32%nat →
    k = take 8 (uuid_layout k) ++ take 4 (drop 9 (uuid_layout k)) ++ take 4 (drop 14 (uuid_layout k))
        ++ take 4 (drop 19 (uuid_layout k)) ++ drop 24 (uuid_layout k)) as G.
  { intros k Hk. do 32 (destruct k as [|? k]; [done|]). by destruct k. }
  by rewrite (G h Hl), (G h' Hl'), E.
Qed.

Lemma length_hex_digits bytes : length (hex_digits bytes) = (2 * length bytes)%nat.
Proof.
  induction bytes as [|b bytes IH]; [done|]. unfold hex_digits in *. cbn [mbind list_bind length app].
  rewrite IH. lia.
Qed.

Lemma hex_digits_inj bytes bytes' :
  Forall (λ b, b < 256) bytes → Forall (λ b, b < 256) bytes' →
  hex_digits bytes = hex_digits bytes' → bytes = bytes'.
Proof.
  intros Hb. revert bytes'. induction Hb as [|b bs Hb Hbs IH]; intros bytes' Hb' E.
  - by destruct bytes'.
  - destruct Hb' as [|b' bs' Hb' Hbs']; [done|]. unfold hex_digits in E. cbn in E.
    injection E as E1 E2 E. fold (hex_digits bs) (hex_digits bs') in E. f_equal; [|by apply IH].
    apply hex_char_inj in E1, E2; try (apply N.Div0.div_lt_upper_bound; lia); try (by apply N.mod_lt).
    rewrite (N.div_mod b 16), (N.div_mod b' 16) by done. by rewrite E1, E2.
Qed.

(** ** Properties *)

(** C21. Without [randomUUID] the identifier is a version 4 UUID of 36 characters, and
    its text determines the bytes after the version bits are set: two identifiers are
    equal only when their 122 random bits are. *)
Theorem createId_uuid bytes bytes' :
  length bytes = 16%nat → Forall (λ b, b < 256) bytes →
  length bytes' = 16%nat → Forall (λ b, b < 256) bytes' →
  is_uuid_v4 (createId None bytes) = true
  ∧ (createId None bytes = createId None bytes' → set_version bytes = set_version bytes').
Proof.
  intros Hl Hb Hl' Hb'. split.
  - unfold createId, format_uuid. rewrite hex_text by by apply set_version_bytes.
    unfold hex_digits, set_version.
    do 16 (destruct bytes as [|? bytes]; [done|]). destruct bytes; [|done].
    decompose_Forall_hyps. cbn -[N.div N.modulo hex_char N.land N.lor is_uuid_v4].
    unfold is_uuid_v4. apply andb_true_iff. split; [done|].
    cbn -[N.div N.modulo hex_char N.land N.lor uuid_char_ok].
    repeat (apply andb_true_iff; split); try done;
      try (apply uuid_char_hex; [vm_compute; reflexivity|apply low_digit || by apply high_digit]).
    + apply N.eqb_eq. by apply version_byte.
    + by apply variant_byte.
  - unfold createId, format_uuid. destruct (set_version_bytes bytes) as [Hv Hvl]; [done..|].
    destruct (set_version_bytes bytes') as [Hv' Hvl']; [done..|].
    rewrite !hex_text by done. intros E. apply hex_digits_inj; [done..|].
    apply uuid_layout_inj; [by rewrite length_hex_digits, ?Hvl, ?Hvl'..|done].
Qed.

Lemma createId_uuid_witness :
  is_uuid_v4 (createId None (replicate 16 255)) = true
  ∧ (createId None (replicate 16 255) = createId None (replicate 16 0) →
     set_version (replicate 16 255) = set_version (replicate 16 0)).
Proof.
  refine (createId_uuid (replicate 16 255) (replicate 16 0) eq_refl _ eq_refl _);
    apply (bool_decide_unpack _); vm_compute; exact I.
Defined.

(** ** A supply

    [issued n] is the [n]-th identifier that [createId] gives a component, and [issued_at n]
    the time that [Date.now] gives with it. *)
#[local] Close Scope N_scope.
Class IdSupply := {
    issued : nat → jstr;
    issued_at : nat → number;
    issued_inj : ∀ m n, issued m = issued n → m = n;
  }.

(** A supply that numbers its identifiers, for the witnesses. *)
Definition counting_ids : IdSupply.
Proof.
  refine {| issued n := dec_Z (Z.of_nat n); issued_at n := num (Z.of_nat n) |}.
  intros m n E. apply dec_Z_inj in E; lia.
Defined.
