(* ===== verification/Schema.v ===== *)
(** * Drafts of a table structure

    [src/web/src/features/schema/]: [schemaDraft.ts] (the operations between the stored
    columns and the edited ones), [indexOps.ts] (pending index changes) and
    [columnTypes.ts] (the types offered).  The meaning of an operation on a table is the
    specification they are proved against. *)
From S2P Require Import Prelude JsString JsNumber Api.

(** ** schemaDraft.ts *)

Record DraftColumn := MkDraftColumn {
  dc_column : SchemaColumn;
  dc_originalName : option jstr;
  dc_isNew : bool;
}.

Definition columnPayload (column : DraftColumn) : SchemaColumn := dc_column column.
Definition dc_name (column : DraftColumn) : jstr := sc_name (dc_column column).

(** [item.originalName || item.name]. *)
Definition original_name (item : DraftColumn) : jstr :=
  match dc_originalName item with Some n => or_else n (dc_name item) | None => dc_name item end.

Definition is_primary (column : SchemaColumn) : bool := default false (sc_primary column).

Section diff.
Context `{Unicode}.

(** One turn of the loop over the edited columns. *)
Definition column_ops (before : list SchemaColumn) (current : DraftColumn) : list SchemaOperation :=
  if dc_isNew current then [add_column (columnPayload current)]
  else
    let originalName := original_name current in
    match find_first (λ item, bool_decide (sc_name item = originalName)) before with
    | None => []
    | Some original =>
        (if bool_decide (originalName ≠ dc_name current)
         then [rename_column originalName (dc_name current)] else [])
        ++ (if bool_decide (toLowerCase (sc_type original) ≠ toLowerCase (sc_type (dc_column current)))
               || bool_decide (sc_nullable original ≠ sc_nullable (dc_column current))
               || bool_decide (sc_default original ≠ sc_default (dc_column current))
            then [alter_column (columnPayload current)] else [])
        ++ (if bool_decide (default [] (sc_comment original) ≠ default [] (sc_comment (dc_column current)))
            then [set_column_comment (columnPayload current)] else [])
    end.

Definition primary_ops (before : list SchemaColumn) (after : list DraftColumn) : list SchemaOperation :=
  let beforePrimary := sc_name <$> find_first is_primary before in
  let afterPrimary := dc_name <$> find_first (λ item, is_primary (dc_column item)) after in
  if bool_decide (beforePrimary ≠ afterPrimary) then
    match afterPrimary, beforePrimary with
    | Some ((_ :: _) as name), _ => [set_primary name]
    | _, Some (_ :: _) => [drop_primary]
    | _, _ => []
    end
  else [].

(** The filter of the result. *)
Definition keeps_operation (after : list DraftColumn) (op : SchemaOperation) : bool :=
  match op with
  | drop_column name => negb (existsb (λ item, bool_decide (original_name item = name)) after)
  | _ => true
  end.

Definition diffColumns (before : list SchemaColumn) (after : list DraftColumn) : list SchemaOperation :=
  let retained := original_name <$> filterb (λ item, negb (dc_isNew item)) after in
  let dropped := filterb (λ original, negb (bool_decide (sc_name original ∈ retained))) before in
  let out := ((λ original, drop_column (sc_name original)) <$> dropped)
             ++ (after ≫= column_ops before) ++ primary_ops before after in
  filterb (keeps_operation after) out.

(** ** indexOps.ts *)

Definition same_index_name (name : jstr) (item : SchemaIndex) : bool := bool_decide (si_name item = name).

Definition resolve_step (list_ : list SchemaIndex) (op : SchemaOperation) : list SchemaIndex :=
  match op with
  | drop_index ((_ :: _) as name) => filterb (λ item, negb (same_index_name name item)) list_
  | add_index index => filterb (λ item, negb (same_index_name (si_name index) item)) list_ ++ [index]
  | _ => list_
  end.

Definition resolveIndexes (base : list SchemaIndex) (extra : list SchemaOperation) : list SchemaIndex :=
  sort_by (λ a b, localeCompare (si_name a) (si_name b)) (foldl resolve_step base extra).
End diff.

(** [op.kind === 'add_index' && op.index?.name === name] and the same of [drop_index]. *)
Definition adds_index (name : jstr) (op : SchemaOperation) : bool :=
  match op with add_index index => same_index_name name index | _ => false end.
Definition drops_index (name : jstr) (op : SchemaOperation) : bool :=
  match op with drop_index n => bool_decide (n = name) | _ => false end.

Definition appendAddIndex (extra : list SchemaOperation) (index : SchemaIndex) : list SchemaOperation :=
  filterb (λ op, negb (adds_index (si_name index) op)) extra ++ [add_index index].

Definition replaceIndex (extra : list SchemaOperation) (base : list SchemaIndex) (originalName : jstr)
    (index : SchemaIndex) : list SchemaOperation :=
  let next := filterb (λ op, negb (drops_index originalName op) && negb (adds_index originalName op)
                             && negb (adds_index (si_name index) op)) extra in
  let next := if existsb (same_index_name originalName) base then next ++ [drop_index originalName] else next in
  next ++ [add_index index].

Definition dropIndexOps (extra : list SchemaOperation) (base : list SchemaIndex) (name : jstr) : list SchemaOperation :=
  let next := filterb (λ op, negb (adds_index name op) && negb (drops_index name op)) extra in
  if existsb (same_index_name name) base then next ++ [drop_index name] else next.

(** ** columnTypes.ts *)

Definition POSTGRES_COLUMN_TYPES : list jstr :=
  ["smallint"; "integer"; "bigint"; "numeric"; "numeric(10,2)"; "real"; "double precision";
   "smallserial"; "serial"; "bigserial"; "character varying"; "character varying(255)";
   "varchar"; "varchar(255)"; "character"; "character(1)"; "char"; "text"; "boolean"; "date";
   "time"; "time without time zone"; "timestamp"; "timestamp without time zone";
   "timestamp with time zone"; "timestamptz"; "json"; "jsonb"; "uuid"; "bytea"; "inet"; "cidr"]%js.

Definition MYSQL_COLUMN_TYPES : list jstr :=
  ["tinyint"; "smallint"; "mediumint"; "int"; "bigint"; "decimal"; "decimal(10,2)"; "float";
   "double"; "char"; "char(1)"; "varchar"; "varchar(255)"; "text"; "mediumtext"; "longtext";
   "binary"; "varbinary"; "blob"; "mediumblob"; "longblob"; "date"; "datetime"; "timestamp";
   "time"; "year"; "json"; "boolean"; "bool"; "uuid"]%js.

Record SelectOption := MkOption { so_value : jstr; so_label : jstr }.

Definition buildColumnTypeOptions (driver : SqlDriver) (existingTypes : list jstr) : list SelectOption :=
  let preset := match driver with MySQL => MYSQL_COLUMN_TYPES | PostgreSQL => POSTGRES_COLUMN_TYPES end in
  let merged := unique (filterb truthy existingTypes ++ preset) in
  (λ type, MkOption type type) <$> merged.

Definition defaultColumnType (driver : SqlDriver) : jstr :=
  match driver with MySQL => "varchar(255)" | PostgreSQL => "character varying(255)" end%js.

(** ** The edits of [SchemaWorkspace.tsx] on the columns *)

(** The patches the inputs of a row make. *)
Inductive Patch :=
| PName (name : jstr)
| PType (type : jstr)
| PNullable (nullable : bool)
| PPrimary (primary : bool)
| PDefault (value : option jstr)
| PComment (comment : jstr).

Definition patch_column (patch : Patch) (x : SchemaColumn) : SchemaColumn :=
  match patch with
  | PName n => MkSchemaColumn n (sc_type x) (sc_nullable x) (sc_default x) (sc_comment x) (sc_primary x)
  | PType t => MkSchemaColumn (sc_name x) t (sc_nullable x) (sc_default x) (sc_comment x) (sc_primary x)
  | PNullable b => MkSchemaColumn (sc_name x) (sc_type x) b (sc_default x) (sc_comment x) (sc_primary x)
  | PPrimary p => MkSchemaColumn (sc_name x) (sc_type x) (sc_nullable x) (sc_default x) (sc_comment x) (Some p)
  | PDefault d => MkSchemaColumn (sc_name x) (sc_type x) (sc_nullable x) d (sc_comment x) (sc_primary x)
  | PComment c => MkSchemaColumn (sc_name x) (sc_type x) (sc_nullable x) (sc_default x) (Some c) (sc_primary x)
  end.

Definition patch_draft (patch : Patch) (x : DraftColumn) : DraftColumn :=
  MkDraftColumn (patch_column patch (dc_column x)) (dc_originalName x) (dc_isNew x).

Definition sets_primary (patch : Patch) : bool := match patch with PPrimary true => true | _ => false end.

Definition change (i : nat) (patch : Patch) (v : list DraftColumn) : list DraftColumn :=
  imap (λ n x, if bool_decide (n = i) then patch_draft patch x
               else if sets_primary patch then patch_draft (PPrimary false) x else x) v.

Definition new_column (driver : SqlDriver) (v : list DraftColumn) : DraftColumn :=
  MkDraftColumn (MkSchemaColumn ("new_column_"%js ++ dec_Z (Z.of_nat (length v) + 1)) (defaultColumnType driver)
                   true None None None) None true.

Definition addColumn (driver : SqlDriver) (v : list DraftColumn) : list DraftColumn := v ++ [new_column driver v].
Definition removeColumn (i : nat) (v : list DraftColumn) : list DraftColumn := delete i v.

(** [d.table.columns.map((x) => ({...x, originalName: x.name}))]. *)
Definition draft_of (before : list SchemaColumn) : list DraftColumn :=
  (λ x, MkDraftColumn x (Some (sc_name x)) false) <$> before.

(** One edit of the columns. *)
Inductive draft_step (driver : SqlDriver) : list DraftColumn → list DraftColumn → Prop :=
| step_change i patch v : draft_step driver v (change i patch v)
| step_add_column v : draft_step driver v (addColumn driver v)
| step_remove_column i v : draft_step driver v (removeColumn i v).
