(* ===== verification/Controls.v ===== *)
(** * Lists that are walked with the keyboard

    [src/web/src/features/ui/]: the combobox ([ComboboxControl.tsx]), the select
    ([SelectControl.tsx]), the columns of an index ([ColumnMultiSelect.tsx]), the tabs of a
    workspace ([WorkspaceTabs.tsx]) and the context menu ([ContextMenu.tsx]).  A control is
    shown by a parent that stores the value it reports; [settled] is the state after the
    effects that follow an event.  Focus and positions are not modelled. *)
From S2P Require Import Prelude JsString Schema.

(** ** Walking a list *)

Inductive Key := ArrowDown | ArrowUp | ArrowLeft | ArrowRight | Home | End_ | Enter | Space | Escape | OtherKey.
#[export] Instance Key_eq_dec : EqDecision Key.
Proof. solve_decision. Defined.

(** [(current + direction + n) % n]; [current] is -1 for nothing. *)
Definition cycle (current direction n : Z) : Z := Z.rem (current + direction + n) n.

(** [list[i]] for an integer. *)
Definition at_ {A} (l : list A) (i : Z) : option A := if (i <? 0)%Z then None else l !! Z.to_nat i.

(** The item that a key leads to from the item at [current]. *)
Definition walk {A} (back forth : Key) (l : list A) (current : Z) (key : Key) : option A :=
  match l with
  | [] => None
  | _ =>
      if bool_decide (key = Home) then head l
      else if bool_decide (key = End_) then last l
      else at_ l (cycle current (if bool_decide (key = forth) then 1 else -1) (Z.of_nat (length l)))
  end.

(** ** WorkspaceTabs *)

Record WorkspaceTab := MkWorkspaceTab { wt_value : jstr; wt_label : jstr; wt_disabled : bool }.

(** The tabs that are enabled, with their places. *)
Definition enabled_tabs (tabs : list WorkspaceTab) : list (nat * WorkspaceTab) :=
  filterb (λ x, negb (wt_disabled x.2)) (imap pair tabs).
Fixpoint find_index {A} (p : A → bool) (l : list A) : Z :=
  match l with
  | [] => -1
  | x :: l => if p x then 0 else match find_index p l with Zneg _ => -1 | n => Z.succ n end
  end.

(** The tab that a key of the tab [index] focuses and selects. *)
Definition move (tabs : list WorkspaceTab) (key : Key) (index : nat) : option (nat * WorkspaceTab) :=
  if bool_decide (key ∈ [ArrowLeft; ArrowRight; Home; End_])
  then walk ArrowLeft ArrowRight (enabled_tabs tabs) (find_index (λ x, (x.1 =? index)%nat) (enabled_tabs tabs)) key
  else None.

(** ** ContextMenu *)

Record ContextMenuItem := MkMenuItem { mi_label : jstr; mi_disabled : bool; mi_separator : bool }.
(** The places of the items that can be focused. *)
Definition enabledItems (items : list ContextMenuItem) : list nat :=
  fst <$> filterb (λ x, negb (mi_separator x.2) && negb (mi_disabled x.2)) (imap pair items).
(** The item that a key focuses from the one that has the focus, if one has. *)
Definition navigate (items : list ContextMenuItem) (key : Key) (focused : option nat) : option nat :=
  if bool_decide (key ∈ [ArrowDown; ArrowUp; Home; End_])
  then walk ArrowUp ArrowDown (enabledItems items)
         (match focused with Some i => find_index (λ n, (n =? i)%nat) (enabledItems items) | None => -1 end) key
  else None.

(** ** ColumnMultiSelect *)

Definition toggle (value : list jstr) (column : jstr) : list jstr :=
  if bool_decide (column ∈ value) then filterb (λ item, negb (bool_decide (item = column))) value else value ++ [column].

(** ** SelectControl *)

Record Select := MkSelect { s_value : jstr; s_open : bool; s_active : nat }.
Section select.
Context (options : list SelectOption) (disabled : bool).

Definition selectedIndex (value : jstr) : nat := Z.to_nat (Z.max 0 (find_index (λ o, bool_decide (so_value o = value)) options)).
Definition close_select (w : Select) : Select := MkSelect (s_value w) false (s_active w).
Definition open_select (w : Select) : Select :=
  if disabled || bool_decide (options = []) then w else MkSelect (s_value w) true (selectedIndex (s_value w)).
Definition choose_option (i : nat) (w : Select) : Select :=
  match options !! i with Some o => MkSelect (so_value o) false (s_active w) | None => w end.
Definition select_key (key : Key) (w : Select) : Select :=
  if disabled then w
  else if bool_decide (key = Escape) && s_open w then close_select w
  else if bool_decide (key ∈ [ArrowDown; ArrowUp]) then
    if negb (s_open w) then open_select w
    else MkSelect (s_value w) true
           (Z.to_nat (cycle (Z.of_nat (s_active w)) (if bool_decide (key = ArrowDown) then 1 else -1) (Z.of_nat (length options))))
  else if s_open w && bool_decide (key ∈ [Home; End_]) then
    MkSelect (s_value w) true (if bool_decide (key = Home) then 0 else length options - 1)%nat
  else if s_open w && bool_decide (key ∈ [Enter; Space]) then choose_option (s_active w) w
  else w.
Definition select_point (i : nat) (w : Select) : Select := MkSelect (s_value w) (s_open w) i.
Definition select_trigger (w : Select) : Select := if s_open w then close_select w else open_select w.
End select.

(** ** ComboboxControl *)

Record Combobox := MkCombobox {
  cb_value : jstr;
  cb_open : bool;
  cb_query : jstr;
  cb_browseAll : bool;
  cb_active : nat;
}.
Definition initial_combobox (value : jstr) : Combobox := MkCombobox value false value false 0.

Section combobox.
Context `{Unicode} (options : list SelectOption) (disabled : bool).

Definition filtered (query : jstr) : list SelectOption :=
  let needle := toLowerCase (trim query) in
  if truthy needle
  then filterb (λ o, includes needle (toLowerCase (so_label o)) || includes needle (toLowerCase (so_value o))) options
  else options.
Definition visibleOptions (w : Combobox) : list SelectOption := if cb_browseAll w then options else filtered (cb_query w).

(** The effects: a new value is the query; a new query, or opening or closing the list,
    makes the first option active. *)
Definition settled (before w : Combobox) : Combobox :=
  let query := if bool_decide (cb_value w = cb_value before) then cb_query w else cb_value w in
  MkCombobox (cb_value w) (cb_open w) query (cb_browseAll w)
    (if bool_decide (cb_query before = query) && eqb (cb_open before) (cb_open w) && eqb (cb_browseAll before) (cb_browseAll w)
     then cb_active w else 0).

Definition close_list (w : Combobox) : Combobox := MkCombobox (cb_value w) false (cb_query w) false (cb_active w).
Definition openList (all : bool) (w : Combobox) : Combobox :=
  if disabled then w else MkCombobox (cb_value w) true (cb_query w) all (cb_active w).
Definition choose (o : SelectOption) (w : Combobox) : Combobox :=
  close_list (MkCombobox (so_value o) (cb_open w) (so_value o) (cb_browseAll w) (cb_active w)).
Definition onInputChange (next : jstr) (w : Combobox) : Combobox := MkCombobox next true next false (cb_active w).
Definition onKeyDown (key : Key) (w : Combobox) : Combobox :=
  if disabled then w
  else if bool_decide (key = Escape) then
    if cb_open w then close_list (MkCombobox (cb_value w) true (cb_value w) (cb_browseAll w) (cb_active w)) else w
  else if bool_decide (key ∈ [ArrowDown; ArrowUp]) then
    if negb (cb_open w) then openList false w
    else if bool_decide (visibleOptions w = []) then w
    else MkCombobox (cb_value w) (cb_open w) (cb_query w) (cb_browseAll w)
           (Z.to_nat (cycle (Z.of_nat (cb_active w)) (if bool_decide (key = ArrowDown) then 1 else -1)
                        (Z.of_nat (length (visibleOptions w)))))
  else if cb_open w && bool_decide (key = Enter) then
    match visibleOptions w !! cb_active w with Some o => choose o w | None => w end
  else w.
Definition toggle_list (w : Combobox) : Combobox := if cb_open w && cb_browseAll w then close_list w else openList true w.
Definition point_at (i : nat) (w : Combobox) : Combobox := MkCombobox (cb_value w) (cb_open w) (cb_query w) (cb_browseAll w) i.

(** The place that [aria-activedescendant] names. *)
Definition active_descendant (w : Combobox) : option nat :=
  if cb_open w && bool_decide (is_Some (filtered (cb_query w) !! cb_active w)) then Some (cb_active w) else None.

(** What happens to the control; options can be pointed at and chosen while they are shown. *)
Inductive combobox_event : Combobox → Combobox → Prop :=
| cb_type text w : combobox_event w (onInputChange text w)
| cb_key key w : combobox_event w (onKeyDown key w)
| cb_focus w : combobox_event w (openList false w)
| cb_toggle w : combobox_event w (toggle_list w)
| cb_outside w : combobox_event w (close_list w)
| cb_point i w : cb_open w = true → i < length (visibleOptions w) → combobox_event w (point_at i w)
| cb_choose o w : cb_open w = true → o ∈ visibleOptions w → combobox_event w (choose o w).
Definition combobox_step (w w' : Combobox) : Prop := ∃ x, combobox_event w x ∧ w' = settled w x.
End combobox.

(** ** Properties *)

Lemma cycle_range current direction n :
  (0 < n → (direction = 1 ∨ direction = -1) → -1 <= current → (0 < n - 1 ∨ -1 < current + direction ∨ n = 1) → 0 <= cycle current direction n < n)%Z.
Proof.
  intros Hn Hd Hc Hx. unfold cycle. destruct (decide (current + direction + n < 0)%Z) as [Hneg|Hpos].
  - assert (n = 1)%Z as -> by lia. rewrite Z.rem_1_r. lia.
  - rewrite Z.rem_mod_nonneg by lia. apply Z.mod_pos_bound. lia.
Qed.

Lemma cycle_mod current direction n : (0 <= current < n → (direction = 1 ∨ direction = -1) →
  cycle current direction n = (current + direction) mod n)%Z.
Proof.
  intros Hc Hd. unfold cycle. rewrite Z.rem_mod_nonneg by lia. rewrite <- (Z.mul_1_l n) at 1. by rewrite Z.mod_add by lia.
Qed.

Lemma find_index_nth {A} (p : A → bool) (l : list A) j x :
  l !! j = Some x → p x = true → (∀ k y, l !! k = Some y → p y = true → k = j) → find_index p l = Z.of_nat j.
Proof.
  revert j. induction l as [|y l IH]; intros j Hj Hp Hu; [done|]. cbn. destruct j as [|j].
  - injection Hj as ->. by rewrite Hp.
  - destruct (p y) eqn:E; [by specialize (Hu 0 y eq_refl E)|].
    rewrite (IH j Hj Hp) by (intros k z Hk Hz; specialize (Hu (S k) z Hk Hz); lia). destruct (Z.of_nat j) eqn:Ez; lia.
Qed.

(** Walking from the item at [j]. *)
Lemma walk_from {A} back forth (l : list A) j key : j < length l → back ≠ forth → key = back ∨ key = forth →
  back ∉ [Home; End_] → forth ∉ [Home; End_] →
  walk back forth l (Z.of_nat j) key = l !! (if bool_decide (key = forth) then (j + 1) mod length l else (j + (length l - 1)) mod length l).
Proof.
  intros Hj Hbf Hkey Hb Hf. unfold walk. destruct l as [|x l]; [cbn in Hj; lia|]. set (k := x :: l) in *.
  assert (Hh : key ≠ Home ∧ key ≠ End_) by set_solver. destruct Hh as [Hh He].
  rewrite (bool_decide_eq_false_2 (key = Home)), (bool_decide_eq_false_2 (key = End_)) by done.
  rewrite cycle_mod by (destruct (bool_decide (key = forth)); lia).
  assert (E : ((Z.of_nat j + (if bool_decide (key = forth) then 1 else -1)) mod Z.of_nat (length k)
    = Z.of_nat (if bool_decide (key = forth) then (j + 1) mod length k else (j + (length k - 1)) mod length k))%Z).
  { destruct (bool_decide (key = forth)); rewrite Nat2Z.inj_mod; [by rewrite Nat2Z.inj_add|].
    rewrite Nat2Z.inj_add, Nat2Z.inj_sub by lia. cbn [Z.of_nat].
    replace (Z.of_nat j + (Z.of_nat (length k) - Z.of_nat 1))%Z with (Z.of_nat j + -1 + 1 * Z.of_nat (length k))%Z by lia.
    by rewrite Z.mod_add by lia. }
  rewrite E. unfold at_. rewrite (proj2 (Z.ltb_ge _ _)) by lia. by rewrite Nat2Z.id.
Qed.

Lemma elem_of_imap_pair {A} (l : list A) i x : (i, x) ∈ imap pair l ↔ l !! i = Some x.
Proof.
  rewrite list_elem_of_lookup. split.
  - intros [k Hk]. rewrite list_lookup_imap in Hk. destruct (l !! k) eqn:E; [|done]. by simplify_eq/=.
  - intros Hi. exists i. by rewrite list_lookup_imap, Hi.
Qed.

Lemma NoDup_imap_pair {A} (l : list A) : NoDup (imap pair l).*1.
Proof.
  assert (H : (imap pair l).*1 = seq 0 (length l)) by (rewrite fmap_imap, <- (list_fmap_id (seq 0 (length l))); apply (imap_seq_0 l id)). rewrite H. apply NoDup_seq.
Qed.

Lemma place_of {A} (p : nat * A → bool) (l : list A) j i x :
  filterb p (imap pair l) !! j = Some (i, x) → find_index (λ y, (y.1 =? i)%nat) (filterb p (imap pair l)) = Z.of_nat j.
Proof.
  intros Hj. eapply find_index_nth; [exact Hj|apply Nat.eqb_refl|]. intros k [i' y] Hk E%Nat.eqb_eq. cbn in E. subst i'.
  pose proof (filterb_NoDup_fmap p fst (imap pair l) (NoDup_imap_pair l)) as Hnd.
  eapply (NoDup_lookup _ k j i Hnd); rewrite list_lookup_fmap; [by rewrite Hk|by rewrite Hj].
Qed.

(** The arrow keys of the tabs.  From the [j]-th of the enabled tabs they select the
    next one and the one before, around the ends, and Home and End the first and the last:
    a tab that is disabled is never selected, and every enabled one is reached. *)
Theorem tabs_move_spec tabs j i tab :
  enabled_tabs tabs !! j = Some (i, tab) →
  let n := length (enabled_tabs tabs) in
  move tabs ArrowRight i = enabled_tabs tabs !! ((j + 1) mod n)
  ∧ move tabs ArrowLeft i = enabled_tabs tabs !! ((j + (n - 1)) mod n)
  ∧ move tabs Home i = head (enabled_tabs tabs)
  ∧ move tabs End_ i = last (enabled_tabs tabs)
  ∧ ∀ k t, (k, t) ∈ enabled_tabs tabs ↔ tabs !! k = Some t ∧ wt_disabled t = false.
Proof.
  intros Hj n. assert (Hn : j < n) by (by eapply lookup_lt_Some). pose proof (place_of _ tabs j i tab Hj) as Hp.
  assert (Hw : ∀ key, key ∈ [ArrowLeft; ArrowRight; Home; End_] →
    move tabs key i = walk ArrowLeft ArrowRight (enabled_tabs tabs) (Z.of_nat j) key).
  { intros key Hk. unfold move. rewrite bool_decide_eq_true_2 by done. unfold enabled_tabs at 2. by rewrite Hp. }
  split_and!.
  - rewrite Hw, walk_from by (try done; set_solver). done.
  - rewrite Hw, walk_from by (try done; set_solver). done.
  - rewrite Hw by set_solver. by destruct (enabled_tabs tabs).
  - rewrite Hw by set_solver. by destruct (enabled_tabs tabs).
  - intros k t. unfold enabled_tabs. rewrite elem_of_filterb, elem_of_imap_pair. cbn. by rewrite negb_true_iff.
Qed.

Lemma tabs_move_spec_witness :
  move [MkWorkspaceTab "a"%js "A"%js false; MkWorkspaceTab "b"%js "B"%js true; MkWorkspaceTab "c"%js "C"%js false] ArrowRight 2
  = Some (0, MkWorkspaceTab "a"%js "A"%js false).
Proof.
  apply (tabs_move_spec [MkWorkspaceTab "a"%js "A"%js false; MkWorkspaceTab "b"%js "B"%js true; MkWorkspaceTab "c"%js "C"%js false]
           1 2 (MkWorkspaceTab "c"%js "C"%js false)). reflexivity.
Defined.

Section combobox_spec.
Context `{Unicode} (options : list SelectOption).

Definition combobox_ok (w : Combobox) : Prop :=
  cb_query w = cb_value w ∧ (cb_active w = 0 ∨ cb_active w < length (visibleOptions options w)).

Lemma settled_ok w x : (cb_value x = cb_value w → cb_query x = cb_value x) →
  (cb_active x = 0 ∨ cb_active x < length (visibleOptions options w)) → combobox_ok (settled w x).
Proof.
  intros Hq Ha. unfold combobox_ok, settled. cbn. set (query := if bool_decide _ then _ else _).
  assert (Eq : query = cb_value x) by (unfold query; case_bool_decide; auto). split; [done|].
  destruct (bool_decide (cb_query w = query) && eqb (cb_open w) (cb_open x) && eqb (cb_browseAll w) (cb_browseAll x)) eqn:E; [|by left].
  bool_to_prop. unfold visibleOptions in *. cbn. apply eqb_prop in H1. by rewrite <- H0, <- H1.
Qed.

Lemma combobox_step_ok disabled w w' : combobox_step options disabled w w' → combobox_ok w → combobox_ok w'.
Proof.
  intros (x & Hx & ->) [Hq Ha]. destruct Hx as [text w|key w|w|w|w|i w Ho Hi|o w Ho Hin].
  - by apply settled_ok.
  - unfold onKeyDown. destruct disabled; [by apply settled_ok|].
    case_bool_decide; [destruct (cb_open w); by apply settled_ok|]. case_bool_decide as Hk.
    + destruct (cb_open w) eqn:Ho; cbn [negb]; [|by apply settled_ok]. case_bool_decide as Hv; [by apply settled_ok|].
      apply settled_ok; [done|]. cbn [cb_active].
      assert (Hl : 0 < length (visibleOptions options w)) by (by destruct (visibleOptions options w); [|cbn; lia]).
      right. assert (Hr : cb_active w < length (visibleOptions options w)) by lia.
      rewrite cycle_mod by (destruct (bool_decide (key = ArrowDown)); lia). apply Nat2Z.inj_lt. rewrite Z2Nat.id by (apply Z.mod_pos_bound; lia).
      apply Z.mod_pos_bound. lia.
    + destruct (cb_open w && bool_decide (key = Enter)); [|by apply settled_ok].
      destruct (visibleOptions options w !! cb_active w); by apply settled_ok.
  - unfold openList. destruct disabled; by apply settled_ok.
  - unfold toggle_list, openList. destruct (cb_open w && cb_browseAll w), disabled; by apply settled_ok.
  - by apply settled_ok.
  - apply settled_ok; [done|]. by right.
  - by apply settled_ok.
Qed.

(** The combobox.  Whatever happens to it, the text is the value, which typing changes
    at once; the list shows the options that contain the text, or all of them while it is
    browsed; and the active option is one of the list, so that Enter chooses it.  While the
    list is browsed the active option may be one that does not contain the text, and
    assistive technology is then told of none. *)
Theorem combobox_spec value w : rtc (combobox_step options false) (initial_combobox value) w →
  cb_query w = cb_value w
  ∧ (∀ text, let w' := settled w (onInputChange text w) in
       cb_value w' = text ∧ cb_open w' = true ∧ visibleOptions options w' = filtered options text)
  ∧ (∀ o, o ∈ filtered options (cb_query w) ↔ o ∈ options ∧
       (toLowerCase (trim (cb_query w)) = []
        ∨ includes (toLowerCase (trim (cb_query w))) (toLowerCase (so_label o)) = true
        ∨ includes (toLowerCase (trim (cb_query w))) (toLowerCase (so_value o)) = true))
  ∧ (visibleOptions options w ≠ [] → ∃ o, visibleOptions options w !! cb_active w = Some o
       ∧ (cb_open w = true →
            settled w (onKeyDown options false Enter w) = MkCombobox (so_value o) false (so_value o) false 0))
  ∧ (length (filtered options (cb_query w)) ≤ cb_active w → active_descendant options w = None).
Proof.
  intros Hr. assert (Hok : combobox_ok w).
  { assert (H0 : combobox_ok (initial_combobox value)) by (by split; [|left]).
    induction Hr as [w|w1 w2 w3 Hs _ IH]; [done|]. apply IH. by eapply combobox_step_ok. }
  destruct Hok as [Hq Ha]. split_and!.
  - done.
  - intros text. cbn. split_and!; [done|done|]. unfold visibleOptions. cbn. by case_bool_decide.
  - intros o. unfold filtered. set (needle := toLowerCase _). destruct (truthy needle) eqn:E.
    + rewrite elem_of_filterb, orb_true_iff. destruct needle; naive_solver.
    + destruct needle; naive_solver.
  - intros Hv. assert (Hl : cb_active w < length (visibleOptions options w)).
    { destruct Ha as [->|]; [|done]. by destruct (visibleOptions options w); [|cbn; lia]. }
    destruct (lookup_lt_is_Some_2 _ _ Hl) as [o Ho]. exists o. split; [done|]. intros Hopen.
    assert (E : onKeyDown options false Enter w = choose o w).
    { unfold onKeyDown. cbv iota. rewrite !bool_decide_eq_false_2 by (done || set_solver).
      rewrite Hopen, bool_decide_eq_true_2 by done. cbn [andb]. by rewrite Ho. }
    rewrite E. unfold settled, choose, close_list. cbn. rewrite Hopen. cbn. rewrite andb_false_r. by case_bool_decide.
  - intros Hl. unfold active_descendant. rewrite bool_decide_eq_false_2; [by rewrite andb_false_r|].
    intros Hs%lookup_lt_is_Some_1. lia.
Qed.
End combobox_spec.

Lemma combobox_spec_witness :
  let options := [MkOption "int"%js "int"%js; MkOption "text"%js "text"%js] in
  visibleOptions (H := ascii_unicode) options
    (settled (initial_combobox []) (onInputChange "in"%js (initial_combobox []))) = [MkOption "int"%js "int"%js].
Proof.
  cbv zeta. destruct (combobox_spec (H := ascii_unicode) [MkOption "int"%js "int"%js; MkOption "text"%js "text"%js] [] (initial_combobox []))
    as (_ & H & _); [apply rtc_refl|]. destruct (H "in"%js) as (_ & _ & ->). by vm_compute.
Defined.
