(* ===== verification/ControlViews.v ===== *)
(** * What the lists show

    The elements of the controls of [Controls]: [SelectControl.tsx], [ComboboxControl.tsx],
    [ColumnMultiSelect.tsx], [WorkspaceTabs.tsx] and [ContextMenu.tsx].  The events of a
    control are its new states; those of the tabs and the menu are the events of the page
    that shows them. *)
From S2P Require Import Prelude JsString JsNumber Schema Controls View Elements.

(** The keys that a control may act on. *)
Definition keys : list (jstr * Key) :=
  [("ArrowDown", ArrowDown); ("ArrowUp", ArrowUp); ("ArrowLeft", ArrowLeft); ("ArrowRight", ArrowRight); ("Home", Home);
   ("End", End_); ("Enter", Enter); (" ", Space); ("Escape", Escape)]%js.
Definition on_keys {E} (handler : Key → E) (v : view E) : view E :=
  foldr (λ k v, On (Typed k.1) (handler k.2) v) v keys.
Lemma every_keys {E} (P : E → Prop) handler v : (∀ k, P (handler k)) → every P v → every P (on_keys handler v).
Proof. intros Hk Hv. cbn. by split_and!. Qed.

(** ** SelectControl.tsx *)

Section select.
Context (ariaLabel : jstr) (options : list SelectOption) (disabled : bool).

Definition select_option (w : Select) (i : nat) (o : SelectOption) : view Select :=
  On Hover (select_point i w) (Button (so_label o) false (choose_option options i w)).
Definition SelectView (w : Select) : view Select :=
  Group
    ([on_keys (λ k, select_key options disabled k w)
        (Group [Words (from_option so_label [] (options !! selectedIndex options (s_value w)));
                Button ariaLabel disabled (select_trigger options disabled w)])]
     ++ (if s_open w
         then [On OutsideClick (close_select w) (On EscapeKey (close_select w)
                 (Region "listbox"%js ariaLabel (imap (select_option w) options)))]
         else [])).

Definition select_next (w w' : Select) : Prop := offers (SelectView w) w'.
End select.

(** ** ComboboxControl.tsx *)

Section combobox.
Context `{Unicode} (ariaLabel : jstr) (options : list SelectOption) (disabled : bool).

Definition combobox_option (w : Combobox) (i : nat) (o : SelectOption) : view Combobox :=
  On Hover (point_at i w) (Button (so_label o) false (choose o w)).
Definition ComboboxView (w : Combobox) : view Combobox :=
  let list := if cb_open w then visibleOptions options w else [] in
  Group
    ([on_keys (λ k, onKeyDown options disabled k w)
        (On FocusIn (openList disabled false w) (Field ariaLabel (cb_query w) disabled (λ text, onInputChange text w)));
      Button (ariaLabel ++ " 选项"%js) disabled (toggle_list disabled w)]
     ++ only_if (cb_open w) (On OutsideClick (close_list w) (Group []))
     ++ only_if (negb (bool_decide (list = []))) (Region "listbox"%js ariaLabel (imap (combobox_option w) list))).
End combobox.

(** ** ColumnMultiSelect.tsx *)

Record Columns := MkColumns { cs_value : list jstr; cs_open : bool }.
Section columns.
Context (ariaLabel : jstr) (options : list jstr) (placeholder : jstr).

Definition column_order (value : list jstr) (column : jstr) : Z := find_index (λ c, bool_decide (c = column)) value + 1.
Definition column_option (w : Columns) (column : jstr) : view Columns :=
  Group (Tick column (bool_decide (column ∈ cs_value w)) false (λ _, MkColumns (toggle (cs_value w) column) (cs_open w))
         :: only_if (bool_decide (column ∈ cs_value w)) (Words (dec_Z (column_order (cs_value w) column)))).
Definition ColumnMultiSelect (w : Columns) : view Columns :=
  Group
    ([Words (match cs_value w with [] => placeholder | l => join ", "%js l end);
      Button ariaLabel false (MkColumns (cs_value w) (negb (cs_open w)))]
     ++ (if cs_open w
         then [On OutsideClick (MkColumns (cs_value w) false)
                 (Region "listbox"%js ariaLabel
                    (only_if (bool_decide (options = [])) (Words "暂无可用字段"%js) ++ (column_option w <$> options)))]
         else [])).
End columns.

(** ** WorkspaceTabs.tsx *)

Definition workspace_tab {E} (tabs : list WorkspaceTab) (onChange : jstr → E) (idle : E) (i : nat) (tab : WorkspaceTab) : view E :=
  on_keys (λ k, from_option (λ next, onChange (wt_value next.2)) idle (move tabs k i))
    (Button (wt_label tab) (wt_disabled tab) (onChange (wt_value tab))).
(** [idle] is what a key that leads nowhere does. *)
Definition WorkspaceTabs {E} (ariaLabel : jstr) (tabs : list WorkspaceTab) (onChange : jstr → E) (idle : E) : view E :=
  Region "tablist"%js ariaLabel (imap (workspace_tab tabs onChange idle) tabs).

(** ** ContextMenu.tsx *)

(** An item that is no separator has an action, or none; the menu closes after it.  An
    action may ask with a dialog of the browser, and gets the answer. *)
Definition ContextMenu {E} (ariaLabel : jstr) (items : list (ContextMenuItem * option (option jstr → E))) (onClose : E)
    (andClose : E → E) : view E :=
  On EscapeKey onClose (On OutsideClick onClose
    (Region "menu"%js ariaLabel
      ((λ x, if mi_separator x.1 then Region "separator"%js [] []
             else Ask (mi_label x.1) (mi_disabled x.1) (λ answer, from_option (λ action, andClose (action answer)) onClose x.2)) <$> items))).

(** ** Properties *)

Lemma every_imap {A E} (P : E → Prop) (f : nat → A → view E) l :
  every_of P (imap f l) ↔ ∀ i a, l !! i = Some a → every P (f i a).
Proof.
  unfold every_of. rewrite Forall_lookup. split; intros H i a Hi.
  - apply (H i). by rewrite list_lookup_imap, Hi.
  - rewrite list_lookup_imap in Hi. apply fmap_Some in Hi as (b & Hb & ->). by apply H.
Qed.

Lemma elem_imap {A B} (f : nat → A → B) l i a : l !! i = Some a → f i a ∈ imap f l.
Proof. intros Hi. apply list_elem_of_lookup. exists i. by rewrite list_lookup_imap, Hi. Qed.

Section select_spec.
Context (ariaLabel : jstr) (options : list SelectOption) (disabled : bool).
#[local] Abbreviation next := (select_next ariaLabel options disabled).

(** While the list is open an option is active. *)
Definition select_ok (v : jstr) (w : Select) : Prop :=
  (s_value w = v ∨ disabled = false ∧ s_value w ∈ so_value <$> options)
  ∧ (s_open w = true → disabled = false ∧ s_active w < length options).

Lemma find_index_bound {A} (p : A → bool) (l : list A) : (find_index p l < Z.of_nat (length l))%Z ∨ l = [].
Proof.
  induction l as [|x l IH]; [by right|]. left. cbn. destruct (p x); [lia|].
  destruct IH as [IH| ->]; [|cbn; lia]. destruct (find_index p l); lia.
Qed.
Lemma open_ok v w : select_ok v w → select_ok v (open_select options disabled w).
Proof.
  intros Hw. unfold open_select. destruct disabled eqn:Ed; [done|]. cbn [orb]. case_bool_decide as Hne; [done|].
  destruct Hw as [Hv _]. split; [done|]. intros _. split; [done|]. cbn. unfold selectedIndex.
  destruct (find_index_bound (λ o, bool_decide (so_value o = s_value w)) options) as [Hi|]; [|done].
  assert (0 < length options) by (by destruct options; [|cbn; lia]). lia.
Qed.
Lemma close_ok v w : select_ok v w → select_ok v (close_select w).
Proof. by intros [Hv _]. Qed.
Lemma choose_ok v w i : disabled = false → select_ok v w → select_ok v (choose_option options i w).
Proof.
  intros Hd Hw. unfold choose_option. destruct (options !! i) as [o|] eqn:Eo; [|done]. split; [|done]. right. split; [done|].
  cbn. eapply list_elem_of_fmap_2. by eapply list_elem_of_lookup_2.
Qed.
Lemma key_ok v w k : select_ok v w → select_ok v (select_key options disabled k w).
Proof.
  intros Hw. unfold select_key. destruct disabled eqn:Ed; [done|]. rewrite <- Ed in *.
  destruct (_ && s_open w); [by apply close_ok|]. case_bool_decide as Hk.
  { destruct (s_open w) eqn:Ho; cbn [negb]; [|by apply open_ok]. destruct Hw as [Hv Ha]. split; [done|]. intros _.
    destruct (Ha Ho) as [Hd Hl]. split; [done|]. cbn. rewrite cycle_mod by (destruct (bool_decide (k = ArrowDown)); lia).
    apply Nat2Z.inj_lt. rewrite Z2Nat.id by (apply Z.mod_pos_bound; lia). apply Z.mod_pos_bound. lia. }
  destruct (s_open w && bool_decide (k ∈ [Home; End_])) eqn:Eh.
  { apply andb_true_iff in Eh as [Ho _]. destruct Hw as [Hv Ha]. destruct (Ha Ho) as [Hd Hl].
    split; [done|]. intros _. split; [done|]. cbn. destruct (bool_decide (k = Home)); lia. }
  by destruct (s_open w && bool_decide (k ∈ [Enter; Space])); [apply choose_ok|].
Qed.

Lemma next_ok v w w' : next w w' → select_ok v w → select_ok v w'.
Proof.
  intros Hn Hw. revert w' Hn. unfold select_next. apply every_offers. unfold SelectView. elements. split_and!; [|done|].
  - apply every_keys; [intros k; by apply key_ok|]. elements. split_and!; try done. intros Hd. unfold select_trigger.
    destruct (s_open w); [by apply close_ok|by apply open_ok].
  - destruct (s_open w) eqn:Ho; [|constructor]. elements. split_and!; try done; try by apply close_ok.
    apply every_imap. intros i o Hi. unfold select_option. cbn.
    destruct Hw as [Hv Ha]. destruct (Ha Ho) as [Hd Hl]. split; [|intros _; by apply choose_ok].
    split; [done|]. intros _. split; [done|]. by eapply lookup_lt_Some.
Qed.

Lemma trigger_offered w : disabled = false → next w (select_trigger options disabled w).
Proof.
  intros ->. eapply offers_region; [by left|]. unfold on_keys. cbn. repeat apply offers_on.
  eapply offers_region; [by right; left|]. constructor.
Qed.
Lemma option_offered w i o : s_open w = true → options !! i = Some o → next w (MkSelect (so_value o) false (s_active w)).
Proof.
  intros Ho Hi. eapply (offers_region _ _ _ (On OutsideClick _ _)).
  { apply elem_of_app. right. rewrite Ho. by left. }
  apply offers_on, offers_on. eapply offers_region; [by eapply elem_imap|]. apply offers_on.
  replace (MkSelect _ _ _) with (choose_option options i w); [constructor|]. unfold choose_option. by rewrite Hi.
Qed.

(** C10. The select.  Whatever is clicked, pointed at and typed, the value is the one it had
    or that of an option, and every option can be chosen from every state: the values that
    can be reached are exactly those that the plain choice offers, and none while it is
    disabled.  While its list is open, an option is active, so that Enter chooses one. *)
Theorem select_is_choice v x :
  (x = v ∨ offers (SelectControl ariaLabel v ((λ o, (so_value o, so_label o)) <$> options) disabled id) x
     ↔ ∃ w, rtc next (MkSelect v false 0) w ∧ s_value w = x ∧ s_open w = false)
  ∧ ∀ w, rtc next (MkSelect v false 0) w → s_open w = true →
      disabled = false ∧ ∃ o, options !! s_active w = Some o ∧ s_value (select_key options disabled Enter w) = so_value o.
Proof.
  assert (Hinv : ∀ w, rtc next (MkSelect v false 0) w → select_ok v w).
  { intros w. assert (H0 : select_ok v (MkSelect v false 0)) by (split; [by left|done]). revert H0. generalize (MkSelect v false 0).
    induction 2 as [w|w1 w2 w3 Hs _ IH]; [done|]. apply IH. by eapply next_ok. }
  split.
  - split.
    + intros [->|Ho]; [by exists (MkSelect v false 0); split_and!; [apply rtc_refl|..]|].
      apply offers_choice_inv in Ho as (Hd & ? & (o & -> & [i Hi]%list_elem_of_lookup)%list_elem_of_fmap & ->). cbn.
      exists (MkSelect (so_value o) false (selectedIndex options v)). split_and!; [|done..].
      apply (rtc_l _ _ (select_trigger options disabled (MkSelect v false 0))); [by apply trigger_offered|].
      assert (Et : select_trigger options disabled (MkSelect v false 0) = MkSelect v true (selectedIndex options v)).
      { unfold select_trigger, open_select. rewrite Hd. cbn. by rewrite bool_decide_eq_false_2 by (by intros ->). }
      rewrite Et. by apply rtc_once, (option_offered (MkSelect v true _) i o).
    + intros (w & Hr & <- & _). destruct (Hinv w Hr) as [[->|[Hd Hin]] _]; [by left|]. right.
      apply list_elem_of_fmap in Hin as (o & -> & Hin). rewrite Hd. apply (offers_choice _ _ _ id (so_value o, so_label o)).
      by eapply (list_elem_of_fmap_2 (λ o, (so_value o, so_label o))).
  - intros w Hr Ho. destruct (Hinv w Hr) as [_ Ha]. destruct (Ha Ho) as [Hd Hl]. split; [done|].
    destruct (lookup_lt_is_Some_2 _ _ Hl) as [o Eo]. exists o. split; [done|].
    unfold select_key. rewrite Hd, Ho. rewrite !bool_decide_eq_false_2 by (done || set_solver). rewrite bool_decide_eq_true_2 by set_solver.
    cbn [andb]. unfold choose_option. by rewrite Eo.
Qed.
End select_spec.

(** What the combobox offers are its events. *)
Lemma combobox_offers `{Unicode} ariaLabel options disabled w x :
  offers (ComboboxView ariaLabel options disabled w) x → combobox_event options disabled w x.
Proof.
  revert x. apply every_offers. unfold ComboboxView. elements. split_and!.
  - apply every_keys; [intros k; apply cb_key|]. cbn. split; [|intros _ text; apply cb_type].
    unfold openList. destruct disabled; [|apply cb_focus]. exact (cb_key options true OtherKey w).
  - intros _. apply cb_toggle.
  - done.
  - intros Ho. elements. split; [apply cb_outside|done].
  - intros _. elements. destruct (cb_open w) eqn:Ho; [|constructor].
    apply every_imap. intros i o Hi. unfold combobox_option. cbn. split; [apply cb_point|intros _; apply cb_choose]; try done.
    + by eapply lookup_lt_Some.
    + by eapply list_elem_of_lookup_2.
Qed.

(** What the tabs offer, and what a menu offers. *)
Lemma walk_elem {A} back forth (l : list A) current key a : walk back forth l current key = Some a → a ∈ l.
Proof.
  unfold walk. destruct l as [|x l]; [done|]. case_bool_decide; [intros [= ->]; by left|].
  case_bool_decide; [apply last_Some_elem_of|]. unfold at_. destruct (_ <? 0)%Z; [done|]. apply list_elem_of_lookup_2.
Qed.
Lemma every_tabs {E} (P : E → Prop) ariaLabel tabs onChange idle :
  P idle → (∀ tab, tab ∈ tabs → wt_disabled tab = false → P (onChange (wt_value tab))) →
  every P (WorkspaceTabs ariaLabel tabs onChange idle).
Proof.
  intros Hi Ht. unfold WorkspaceTabs. apply every_region, every_imap. intros i tab Htab. unfold workspace_tab.
  apply every_keys; [|cbn; intros Hd; apply Ht; [by eapply list_elem_of_lookup_2|done]].
  intros k. destruct (move tabs k i) as [[j next]|] eqn:Em; [|done]. cbn. unfold move in Em. case_bool_decide; [|done].
  apply walk_elem, elem_of_filterb in Em as [Hin%elem_of_imap_pair Hd%negb_true_iff]. apply Ht; [by eapply list_elem_of_lookup_2|done].
Qed.
Lemma every_menu {E} (P : E → Prop) ariaLabel items onClose andClose :
  P onClose → (∀ item a answer, (item, Some a) ∈ items → mi_disabled item = false → P (andClose (a answer))) →
  every P (ContextMenu ariaLabel items onClose andClose).
Proof.
  intros Hc Hi. unfold ContextMenu. cbn [every]. split_and!; [done..|]. apply every_foldr, every_fmap. intros [item a] Hin. cbn.
  destruct (mi_separator item); [done|]. cbn. intros Hd answer. destruct a as [a|]; [by eapply Hi|done].
Qed.
