(* ===== verification/CreateTable.v ===== *)
(** * The dialog that creates a table

    [src/web/src/features/workspace/CreateTableDialog.tsx]: its draft of a table, the edits
    of the draft, their validation and what a submission creates. *)
From S2P Require Import Prelude JsString JsNumber JsRegex Api Ddl Schema.

Record CreateTableColumnDraft := MkColumnDraft {
  cd_name : jstr;
  cd_type : jstr;
  cd_comment : jstr;
  cd_primary : bool;
}.

Definition defaultColumns (driver : SqlDriver) : list CreateTableColumnDraft :=
  [MkColumnDraft "id"%js "bigint"%js [] true].

Record CreateDialog := MkCreateDialog {
  tableName : jstr;
  columns : list CreateTableColumnDraft;
  dialog_error : jstr;
}.
Definition initial_dialog (driver : SqlDriver) : CreateDialog := MkCreateDialog [] (defaultColumns driver) [].

(** ** Edits *)

(** The patches of the inputs of a row. *)
Inductive ColumnPatch :=
| SetName (name : jstr)
| SetType (type : jstr)
| SetComment (comment : jstr)
| SetPrimary (primary : bool).

Definition patch_draft (p : ColumnPatch) (c : CreateTableColumnDraft) : CreateTableColumnDraft :=
  match p with
  | SetName n => MkColumnDraft n (cd_type c) (cd_comment c) (cd_primary c)
  | SetType t => MkColumnDraft (cd_name c) t (cd_comment c) (cd_primary c)
  | SetComment t => MkColumnDraft (cd_name c) (cd_type c) t (cd_primary c)
  | SetPrimary b => MkColumnDraft (cd_name c) (cd_type c) (cd_comment c) b
  end.
Definition takes_primary (p : ColumnPatch) : bool := match p with SetPrimary b => b | _ => false end.

Definition change_row (i : nat) (p : ColumnPatch) (row : nat) (c : CreateTableColumnDraft) : CreateTableColumnDraft :=
  if negb (row =? i)%nat then (if takes_primary p then patch_draft (SetPrimary false) c else c) else patch_draft p c.

Definition setColumns f (w : CreateDialog) := MkCreateDialog (tableName w) (f (columns w)) (dialog_error w).
Definition setError x (w : CreateDialog) := MkCreateDialog (tableName w) (columns w) x.

Definition type_table_name (text : jstr) (w : CreateDialog) : CreateDialog := MkCreateDialog text (columns w) [].
Definition changeColumn (i : nat) (p : ColumnPatch) (w : CreateDialog) : CreateDialog :=
  setError [] (setColumns (imap (change_row i p)) w).
Definition addColumn (driver : SqlDriver) (w : CreateDialog) : CreateDialog :=
  setError [] (setColumns (λ current,
    current ++ [MkColumnDraft ("column_"%js ++ dec_Z (Z.of_nat (length current) + 1)) (defaultColumnType driver) [] false]) w).
Definition removeColumn (i : nat) (w : CreateDialog) : CreateDialog :=
  setError [] (setColumns (λ current, if (length current <=? 1)%nat then current else delete i current) w).

(** ** Submission *)

Section submit.
Context `{Unicode}.

(** The first problem of the rows from [row] on, with the names seen before. *)
Fixpoint validate_columns (row : nat) (seen : gset jstr) (cs : list CreateTableColumnDraft) : jstr :=
  match cs with
  | [] => []
  | c :: cs =>
      let fieldName := trim (cd_name c) in
      if negb (truthy fieldName) then "第 "%js ++ dec_Z (Z.of_nat row + 1) ++ " 行字段名不能为空"%js
      else if negb (isValidSqlIdent fieldName) then "字段「"%js ++ fieldName ++ "」名称不合法"%js
      else if bool_decide (toLowerCase fieldName ∈ seen) then "字段名「"%js ++ fieldName ++ "」重复"%js
      else if negb (truthy (trim (cd_type c))) then "字段「"%js ++ fieldName ++ "」类型不能为空"%js
      else validate_columns (S row) (seen ∪ {[toLowerCase fieldName]}) cs
  end.
Definition validateDraft (tableName : jstr) (columns : list CreateTableColumnDraft) : jstr :=
  let name := trim tableName in
  if negb (truthy name) then "请输入表名"%js
  else if negb (isValidSqlIdent name) then "表名仅支持字母、数字和下划线，且不能以数字开头"%js
  else if bool_decide (columns = []) then "请至少添加一个字段"%js
  else validate_columns 0 ∅ columns.

Definition created_column (c : CreateTableColumnDraft) : CreateTableColumn :=
  MkCreateColumn (trim (cd_name c)) (trim (cd_type c))
    (if truthy (trim (cd_comment c)) then Some (trim (cd_comment c)) else None)
    (if cd_primary c then Some true else None).

(** The state that a submission leaves, with the arguments of [onCreate] if it is called. *)
Definition submit (w : CreateDialog) : CreateDialog * option (jstr * list CreateTableColumn) :=
  let message := validateDraft (tableName w) (columns w) in
  if truthy message then (setError message w, None)
  else (w, Some (trim (tableName w), created_column <$> columns w)).
End submit.

(** The buttons that are disabled. *)
Definition can_submit (w : CreateDialog) : bool := truthy (trim (tableName w)) && negb (bool_decide (columns w = [])).
Definition can_remove (w : CreateDialog) : bool := negb (length (columns w) <=? 1)%nat.

(** ** Reachable dialogs *)

Inductive dialog_step `{Unicode} (driver : SqlDriver) : CreateDialog → CreateDialog → Prop :=
| step_table_name text w : dialog_step driver w (type_table_name text w)
| step_change i p w : dialog_step driver w (changeColumn i p w)
| step_add w : dialog_step driver w (addColumn driver w)
| step_remove i w : dialog_step driver w (removeColumn i w)
| step_submit w : dialog_step driver w (submit w).1.

Definition reachable_dialog `{Unicode} (driver : SqlDriver) (w : CreateDialog) : Prop :=
  rtc (dialog_step driver) (initial_dialog driver) w.

(** The columns that are marked as the key. *)
Definition primaries (cs : list CreateTableColumnDraft) : list CreateTableColumnDraft := filterb cd_primary cs.

(** What the dialog keeps: a column, and at most one key. *)
Definition dialog_ok (w : CreateDialog) : Prop := columns w ≠ [] ∧ length (primaries (columns w)) ≤ 1.

Lemma primaries_cons c cs : primaries (c :: cs) = if cd_primary c then c :: primaries cs else primaries cs.
Proof. done. Qed.

(** The rows of a change counted from [k]. *)
Definition changed (i : nat) (p : ColumnPatch) (k : nat) (cs : list CreateTableColumnDraft) := imap (λ n, change_row i p (k + n)) cs.
Lemma changed_cons i p k c cs : changed i p k (c :: cs) = change_row i p k c :: changed i p (S k) cs.
Proof. unfold changed. cbn. rewrite Nat.add_0_r. f_equal. apply imap_ext. intros n x _. cbn. by rewrite Nat.add_succ_r. Qed.

Lemma primaries_cleared p i k cs : (∀ j, j < length cs → k + j ≠ i) → takes_primary p = true → primaries (changed i p k cs) = [].
Proof.
  revert k. induction cs as [|c cs IH]; intros k Hk Hp; [done|]. rewrite changed_cons, primaries_cons. unfold change_row at 1.
  rewrite (proj2 (Nat.eqb_neq k i)) by (rewrite <- (Nat.add_0_r k); apply Hk; cbn; lia). rewrite Hp. cbn.
  apply IH; [|done]. intros j Hj. specialize (Hk (S j)). cbn in Hk. lia.
Qed.

Lemma primaries_change i p k cs : length (primaries cs) ≤ 1 → length (primaries (changed i p k cs)) ≤ 1.
Proof.
  destruct (takes_primary p) eqn:Ep.
  - intros _. revert k. induction cs as [|c cs IH]; intros k; [cbn; lia|]. rewrite changed_cons, primaries_cons. unfold change_row at 1.
    destruct (Nat.eqb_spec k i) as [E|E]; cbn [negb].
    + rewrite primaries_cleared by (try done; intros; lia). by destruct (cd_primary _); cbn; lia.
    + rewrite Ep. cbn. apply IH.
  - intros Hl. etrans; [|exact Hl]. clear Hl. revert k. induction cs as [|c cs IH]; intros k; [done|].
    rewrite changed_cons, !primaries_cons. specialize (IH (S k)). unfold change_row at 1. rewrite Ep.
    assert (Hc : cd_primary (if negb (k =? i)%nat then c else patch_draft p c) = true → cd_primary c = true).
    { destruct (negb _); [done|]. by destruct p as [| | |[]]. }
    destruct (cd_primary (if negb _ then c else _)); [rewrite Hc by done; cbn; lia|]. destruct (cd_primary c); cbn; lia.
Qed.

Lemma primaries_delete i cs : length (primaries (delete i cs)) ≤ length (primaries cs).
Proof.
  revert i. induction cs as [|c cs IH]; intros i; [done|]. destruct i as [|i].
  - change (delete 0 (c :: cs)) with cs. rewrite primaries_cons. destruct (cd_primary c); cbn; lia.
  - change (delete (S i) (c :: cs)) with (c :: delete i cs). rewrite !primaries_cons. specialize (IH i). destruct (cd_primary c); cbn; lia.
Qed.

Lemma dialog_step_ok `{Unicode} driver w w' : dialog_step driver w w' → dialog_ok w → dialog_ok w'.
Proof.
  intros Hs [Hne Hp]. destruct Hs as [text w|i p w|w|i w|w]; unfold dialog_ok in *; cbn.
  - done.
  - split; [|exact (primaries_change i p 0 (columns w) Hp)]. intros E%(f_equal length). rewrite length_imap in E. by destruct (columns w).
  - split; [by destruct (columns w)|]. unfold primaries. by rewrite filterb_app, app_nil_r.
  - destruct (Nat.leb_spec (length (columns w)) 1); [done|]. split.
    + intros E%(f_equal length). rewrite delete_take_drop, length_app, length_take, length_drop in E. cbn in E. lia.
    + etrans; [apply primaries_delete|done].
  - unfold submit. by destruct (truthy _).
Qed.

Lemma reachable_ok `{Unicode} driver w : reachable_dialog driver w → dialog_ok w.
Proof.
  intros Hr. unfold reachable_dialog in Hr. assert (H0 : dialog_ok (initial_dialog driver)) by (by split; [|cbn; lia]).
  induction Hr as [w|w1 w2 w3 Hs _ IH]; [done|]. apply IH. by eapply dialog_step_ok.
Qed.

(** ** What is created *)

Section created.
Context `{Unicode}.

(** The rules for one column. *)
Definition column_ok (c : CreateTableColumnDraft) : Prop :=
  isValidSqlIdent (trim (cd_name c)) = true ∧ trim (cd_type c) ≠ [].
Definition field_key (c : CreateTableColumnDraft) : jstr := toLowerCase (trim (cd_name c)).

Lemma validate_columns_spec row seen cs :
  validate_columns row seen cs = [] ↔ Forall column_ok cs ∧ NoDup (field_key <$> cs) ∧ ∀ k, k ∈ field_key <$> cs → k ∉ seen.
Proof.
  revert row seen. induction cs as [|c cs IH]; intros row seen; cbn [validate_columns fmap list_fmap].
  { split; [|done]. intros _. split_and!; [constructor|constructor|by intros k ?%not_elem_of_nil]. }
  fold (field_key c). split.
  - intros Hv. destruct (truthy (trim (cd_name c))) eqn:Et; [|done]. cbn in Hv.
    destruct (isValidSqlIdent (trim (cd_name c))) eqn:Ei; [|done]. cbn in Hv.
    case_bool_decide as Es; [done|]. destruct (truthy (trim (cd_type c))) eqn:Ety; [|done]. cbn in Hv.
    apply IH in Hv as (Hf & Hnd & Hs). split_and!.
    + constructor; [|done]. split; [done|]. by destruct (trim (cd_type c)).
    + apply NoDup_cons. split; [|done]. intros Hin. apply (Hs _ Hin). set_solver.
    + intros k [->|Hk]%elem_of_cons; [done|]. intros Hk'. apply (Hs k Hk). set_solver.
  - intros (Hf & Hnd & Hs). apply Forall_cons in Hf as [[Hi Hty] Hf]. apply NoDup_cons in Hnd as [Hn Hnd].
    assert (Et : truthy (trim (cd_name c)) = true) by (by destruct (trim (cd_name c))).
    assert (Ety : truthy (trim (cd_type c)) = true) by (by destruct (trim (cd_type c))).
    rewrite Et, Hi, Ety, bool_decide_eq_false_2 by (apply Hs; by left). cbn. apply IH. split_and!; [done|done|].
    intros k Hk. specialize (Hs k). set_solver.
Qed.

(** C28. Creating a table.  However the dialog was edited it has a column and at most one
    key.  A submission creates nothing and shows a problem exactly when the table has no
    valid name, or a column no valid name, a name of another column up to case, or no type.
    Otherwise it creates the table with the columns as they are shown, trimmed; the
    statement then defines each column once, the key with its column, and nothing else. *)
Theorem create_table_spec driver schema w : reachable_dialog driver w →
  columns w ≠ [] ∧ length (primaries (columns w)) ≤ 1
  ∧ let valid := isValidSqlIdent (trim (tableName w)) = true ∧ Forall column_ok (columns w) ∧ NoDup (field_key <$> columns w) in
    (¬ valid → (submit w).2 = None ∧ dialog_error (submit w).1 ≠ [])
    ∧ (valid → let cs := created_column <$> columns w in
         submit w = (w, Some (trim (tableName w), cs))
         ∧ columnDefs driver cs
           = (λ c, buildColumnDef driver c true) <$> cs
         ∧ Forall (λ c, isValidSqlIdent (ct_name c) = true ∧ trim (ct_name c) = ct_name c ∧ trim (ct_type c) = ct_type c) cs
         ∧ buildCreateTableSQL driver schema (trim (tableName w)) cs
           = join [c_nl] (("CREATE TABLE "%js ++ tableRef driver schema (trim (tableName w)) ++ " (
  "%js ++ join ",
  "%js ((λ c, buildColumnDef driver c true) <$> cs) ++ "
);"%js) :: commentStatements driver (tableRef driver schema (trim (tableName w))) cs)).
Proof.
  intros Hr. destruct (reachable_ok driver w Hr) as [Hne Hp]. split_and!; [done|done|]. cbv zeta.
  assert (Hv : validateDraft (tableName w) (columns w) = [] ↔
    isValidSqlIdent (trim (tableName w)) = true ∧ Forall column_ok (columns w) ∧ NoDup (field_key <$> columns w)).
  { unfold validateDraft. rewrite bool_decide_eq_false_2 by done.
    destruct (truthy (trim (tableName w))) eqn:Et; cbn [negb].
    - destruct (isValidSqlIdent (trim (tableName w))) eqn:Ei; cbn [negb]; [|naive_solver]. rewrite validate_columns_spec. set_solver.
    - split; [done|]. intros [Hi _]. by destruct (trim (tableName w)). }
  assert (Hdefs : columnDefs driver (created_column <$> columns w) = (λ c, buildColumnDef driver c true) <$> (created_column <$> columns w)).
  { set (cs := created_column <$> columns w).
    assert (Hpk : length (pkColumns driver cs) = length (primaries (columns w))).
    { unfold pkColumns, cs, primaries. rewrite length_fmap. clear. induction (columns w) as [|c l IH]; [done|].
      rewrite fmap_cons, !filterb_cons. unfold Ddl.is_primary at 1. cbn. destruct (cd_primary c); cbn; [by f_equal|done]. }
    unfold columnDefs. rewrite Hpk, bool_decide_eq_false_2 by lia.
    destruct (primaries (columns w)) as [|c0 [|c1 l]] eqn:Epr; cbn [length] in *; [|by rewrite bool_decide_eq_true_2|lia].
    rewrite bool_decide_eq_false_2 by lia. apply list_fmap_ext. intros i c Hc. unfold buildColumnDef.
    assert (Hcp : Ddl.is_primary c = false).
    { apply list_elem_of_lookup_2 in Hc. apply list_elem_of_fmap in Hc as (d & -> & Hd).
      destruct (cd_primary d) eqn:E; [|unfold Ddl.is_primary; cbn; by rewrite E].
      assert (Hin : d ∈ primaries (columns w)) by (by apply elem_of_filterb). rewrite Epr in Hin. by apply not_elem_of_nil in Hin. }
    by rewrite Hcp, !andb_false_r. }
  split.
  - intros Hnv. unfold submit. destruct (truthy (validateDraft (tableName w) (columns w))) eqn:Et.
    + split; [done|]. cbn. by destruct (validateDraft _ _).
    + destruct Hnv. apply Hv. by destruct (validateDraft _ _).
  - intros Hvalid. pose proof (proj2 Hv Hvalid) as He. destruct Hvalid as (Hi & Hf & Hnd). split_and!.
    + unfold submit. by rewrite He.
    + done.
    + apply Forall_forall. intros c (d & -> & Hd)%list_elem_of_fmap. cbn. rewrite Forall_forall in Hf.
      split_and!; [by apply Hf|apply trim_idemp|apply trim_idemp].
    + unfold buildCreateTableSQL. by rewrite Hdefs.
Qed.
End created.

(** A table with a column that is added and named. *)
Definition example_dialog : CreateDialog :=
  type_table_name "users"%js (changeColumn 1 (SetName "name"%js) (addColumn PostgreSQL (initial_dialog PostgreSQL))).

Lemma create_table_spec_witness :
  submit (H := ascii_unicode) example_dialog
  = (example_dialog, Some ("users"%js, created_column <$> columns example_dialog)).
Proof.
  apply (create_table_spec (H := ascii_unicode) PostgreSQL "public"%js example_dialog).
  - eapply rtc_l; [apply step_add|]. eapply rtc_l; [apply (step_change _ 1 (SetName "name"%js))|].
    eapply rtc_l; [apply (step_table_name _ "users"%js)|]. apply rtc_refl.
  - split_and!; [by vm_compute| |apply (bool_decide_unpack _); by vm_compute].
    repeat constructor; by vm_compute.
Defined.
