(* ===== verification/FilterBuilder.v ===== *)
(** * The panel that edits filters

    [src/web/src/features/table/TableFilterBuilder.tsx]: the draft of the conditions of a
    table, its edits and what is applied.  [next_rule] counts the identifiers issued. *)
From S2P Require Import Prelude JsString JsNumber TableQuery Id.

Record Builder := MkBuilder {
  defaultColumn : jstr;
  draft : list TableFilterRule;
  next_rule : nat;
}.
Definition setDraft f (w : Builder) := MkBuilder (defaultColumn w) (f (draft w)) (next_rule w).

Inductive RulePatch :=
| RuleEnabled (b : bool)
| RuleColumn (column : jstr)
| RuleOperator (o : FilterOperator)
| RuleValue (text : jstr).
Definition patch_rule (p : RulePatch) (r : TableFilterRule) : TableFilterRule :=
  match p with
  | RuleEnabled b => MkRule (fr_id r) b (fr_column r) (fr_operator r) (fr_value r) (fr_join r)
  | RuleColumn c => MkRule (fr_id r) (fr_enabled r) c (fr_operator r) (fr_value r) (fr_join r)
  | RuleOperator o => MkRule (fr_id r) (fr_enabled r) (fr_column r) o (fr_value r) (fr_join r)
  | RuleValue v => MkRule (fr_id r) (fr_enabled r) (fr_column r) (fr_operator r) v (fr_join r)
  end.
Definition toggle_rule_join (r : TableFilterRule) : TableFilterRule :=
  MkRule (fr_id r) (fr_enabled r) (fr_column r) (fr_operator r) (fr_value r)
    (match fr_join r with JAnd => JOr | JOr => JAnd end).
Definition has_id (id : jstr) (r : TableFilterRule) : bool := bool_decide (fr_id r = id).

Section builder.
Context `{IdSupply}.

(** Setting the draft to a list that is normalized, which may take an identifier. *)
Definition normalized (rules : list TableFilterRule) (column : jstr) (w : Builder) : Builder :=
  MkBuilder column (normalizeFilterRules (issued (next_rule w)) rules column)
    (if bool_decide (0 < length rules) then next_rule w else S (next_rule w)).

(** The first render, and the effect on new rules or another first column. *)
Definition open_builder (rules : list TableFilterRule) (column : jstr) (next : nat) : Builder :=
  normalized rules column (MkBuilder column [] next).
Definition show_rules (rules : list TableFilterRule) (column : jstr) (w : Builder) : Builder := normalized rules column w.

Definition patchRule (id : jstr) (p : RulePatch) : Builder → Builder :=
  setDraft (update_where (has_id id) (patch_rule p)).
Definition addRule (w : Builder) : Builder :=
  MkBuilder (defaultColumn w) (draft w ++ [createEmptyFilterRule (issued (next_rule w)) (defaultColumn w) JAnd]) (S (next_rule w)).
Definition removeRule (id : jstr) (w : Builder) : Builder :=
  normalized (filterb (λ r, negb (has_id id r)) (draft w)) (defaultColumn w) w.
Definition toggleJoin (id : jstr) : Builder → Builder := setDraft (update_where (has_id id) toggle_rule_join).
(** The rules given to [onApply]. *)
Definition applied_rules (w : Builder) : list TableFilterRule :=
  normalizeFilterRules (issued (next_rule w)) (draft w) (defaultColumn w).
Definition clearDraft (w : Builder) : Builder :=
  MkBuilder (defaultColumn w) [createEmptyFilterRule (issued (next_rule w)) (defaultColumn w) JAnd] (S (next_rule w)).

(** The rules have distinct identifiers, all issued before [next]. *)
Definition rules_issued (next : nat) (rules : list TableFilterRule) : Prop :=
  NoDup (fr_id <$> rules) ∧ ∀ r, r ∈ rules → ∃ k, k < next ∧ fr_id r = issued k.

Inductive builder_step : Builder → Builder → Prop :=
| builder_show rules column w : rules_issued (next_rule w) rules → builder_step w (show_rules rules column w)
| builder_patch id p w : builder_step w (patchRule id p w)
| builder_add w : builder_step w (addRule w)
| builder_remove id w : builder_step w (removeRule id w)
| builder_toggle id w : builder_step w (toggleJoin id w)
| builder_clear w : builder_step w (clearDraft w).

Definition builder_ok (w : Builder) : Prop := draft w ≠ [] ∧ rules_issued (next_rule w) (draft w).

Lemma issued_later next next' rules : next ≤ next' → rules_issued next rules → rules_issued next' rules.
Proof. intros Hn [Hnd Hr]. split; [done|]. intros r Hin. destruct (Hr r Hin) as (k & Hk & E). exists k. split; [lia|done]. Qed.

Lemma issued_fresh next column join : rules_issued (S next) [createEmptyFilterRule (issued next) column join].
Proof. split; [apply NoDup_singleton|]. intros r ->%list_elem_of_singleton. exists next. split; [lia|done]. Qed.

Lemma normalized_ok rules column w : rules_issued (next_rule w) rules → builder_ok (normalized rules column w).
Proof.
  intros Hr. unfold builder_ok, normalized, normalizeFilterRules. cbn. case_bool_decide as E.
  - split; [by destruct rules; [cbn in E; lia|]|done].
  - split; [done|]. apply issued_fresh.
Qed.

Lemma update_rules_issued next p (f : TableFilterRule → TableFilterRule) rules : (∀ r, fr_id (f r) = fr_id r) →
  rules_issued next rules → rules_issued next (update_where p f rules).
Proof.
  intros Hf [Hnd Hr]. split.
  - by rewrite update_where_fmap.
  - intros r (r0 & -> & Hin)%list_elem_of_fmap. destruct (Hr r0 Hin) as (k & Hk & E). exists k. split; [done|].
    by destruct (p r0); rewrite ?Hf.
Qed.

Lemma builder_step_ok w w' : builder_step w w' → builder_ok w → builder_ok w'.
Proof.
  intros Hs [Hne Hi]. destruct Hs as [rules column w Hr|id p w|w|id w|id w|w].
  - by apply normalized_ok.
  - split; [|by apply update_rules_issued; [by destruct p|]]. cbn. intros E%(f_equal length).
    rewrite length_update_where in E. by destruct (draft w).
  - split; [by cbn; destruct (draft w)|]. destruct Hi as [Hnd Hr]. cbn. split.
    + rewrite fmap_app. apply NoDup_app_singleton; [done|]. intros (r & Er & Hin)%list_elem_of_fmap. cbn in Er.
      destruct (Hr r Hin) as (k & Hk & E). rewrite E in Er. apply issued_inj in Er. lia.
    + intros r [Hin| ->%list_elem_of_singleton]%elem_of_app; [|exists (next_rule w); split; [lia|done]].
      destruct (Hr r Hin) as (k & Hk & E). exists k. split; [lia|done].
  - apply normalized_ok. destruct Hi as [Hnd Hr]. split; [by apply filterb_NoDup_fmap|].
    intros r [Hin _]%elem_of_filterb. by apply Hr.
  - split; [|by apply update_rules_issued]. cbn. intros E%(f_equal length).
    rewrite length_update_where in E. by destruct (draft w).
  - split; [done|]. apply issued_fresh.
Qed.

(** C29. The conditions of the panel.  However they were edited there is one, and their
    identifiers are distinct, so that an edit changes the condition it was made on and no
    other.  Applying them gives the conditions that are shown, in their order, and showing
    what was applied again changes nothing. *)
Theorem filter_builder_spec rules column next w :
  rules_issued next rules → rtc builder_step (open_builder rules column next) w →
  draft w ≠ [] ∧ NoDup (fr_id <$> draft w)
  ∧ applied_rules w = draft w
  ∧ show_rules (applied_rules w) (defaultColumn w) w = w
  ∧ (∀ i r p, draft w !! i = Some r → draft (patchRule (fr_id r) p w) = <[i := patch_rule p r]> (draft w))
  ∧ (∀ i r, draft w !! i = Some r → draft (toggleJoin (fr_id r) w) = <[i := toggle_rule_join r]> (draft w))
  ∧ (∀ i r, draft w !! i = Some r → 1 < length (draft w) → draft (removeRule (fr_id r) w) = delete i (draft w)).
Proof.
  intros Hr Hs. assert (Hok : builder_ok w).
  { assert (H0 : builder_ok (open_builder rules column next)) by (by apply normalized_ok).
    induction Hs as [w|w1 w2 w3 Hst _ IH]; [done|]. apply IH. by eapply builder_step_ok. }
  destruct Hok as [Hne [Hnd Hi]].
  assert (Hl : 0 < length (draft w)) by (by destruct (draft w); [|cbn; lia]).
  assert (Ha : applied_rules w = draft w) by (unfold applied_rules, normalizeFilterRules; by rewrite bool_decide_eq_true_2).
  assert (Hone : ∀ i r k r', draft w !! i = Some r → draft w !! k = Some r' → has_id (fr_id r) r' = bool_decide (k = i)).
  { intros i r k r' Hir Hkr. unfold has_id. apply bool_decide_ext. split; [|by intros ->; simplify_eq].
    intros E. eapply (NoDup_lookup _ k i (fr_id r) Hnd); rewrite list_lookup_fmap; [by rewrite Hkr; cbn; rewrite E|by rewrite Hir]. }
  assert (Hupd : ∀ f i r, draft w !! i = Some r → update_where (has_id (fr_id r)) f (draft w) = <[i := f r]> (draft w)).
  { intros f i r Hir. apply list_eq. intros k. unfold update_where. rewrite list_lookup_fmap. destruct (decide (i = k)) as [<-|Hk].
    - rewrite list_lookup_insert_eq by (by eapply lookup_lt_Some). rewrite Hir. cbn. by rewrite (Hone i r i r Hir Hir), bool_decide_eq_true_2.
    - rewrite list_lookup_insert_ne by done. destruct (draft w !! k) as [r'|] eqn:Ek; [|done]. cbn.
      by rewrite (Hone i r k r' Hir Ek), bool_decide_eq_false_2. }
  split_and!; [done|done|done| |intros; by apply Hupd|intros; by apply Hupd|].
  - rewrite Ha. unfold show_rules, normalized, normalizeFilterRules. rewrite bool_decide_eq_true_2 by done. by destruct w.
  - intros i r Hir Hlen. unfold removeRule, normalized, normalizeFilterRules. cbn [draft].
    assert (Hf : filterb (λ r', negb (has_id (fr_id r) r')) (draft w) = delete i (draft w)).
    { rewrite delete_take_drop. rewrite <- (take_drop_middle (draft w) i r Hir) at 1. rewrite filterb_app, filterb_cons.
      rewrite (Hone i r i r Hir Hir), bool_decide_eq_true_2 by done. cbn [negb]. f_equal; apply filterb_id; intros r' [k Hk]%list_elem_of_lookup.
      - apply lookup_take_Some in Hk as [Hk Hki]. rewrite (Hone i r k r' Hir Hk), bool_decide_eq_false_2; [done|lia].
      - rewrite lookup_drop in Hk. rewrite (Hone i r _ r' Hir Hk), bool_decide_eq_false_2; [done|lia]. }
    rewrite Hf, bool_decide_eq_true_2; [done|]. rewrite delete_take_drop, length_app, length_take, length_drop. 
    apply lookup_lt_Some in Hir. lia.
Qed.
End builder.

Lemma filter_builder_spec_witness :
  let w := addRule (H := counting_ids) (open_builder (H := counting_ids) [] "id"%js 0) in
  applied_rules (H := counting_ids) w = draft w.
Proof.
  apply (filter_builder_spec (H := counting_ids) [] "id"%js 0).
  - split; [apply NoDup_nil_2|]. intros r Hr. by apply not_elem_of_nil in Hr.
  - eapply rtc_once, builder_add.
Defined.
