(* ===== verification/Tabs.v ===== *)
(** * Workspace tabs

    [src/web/src/features/workspace/types.ts] (the tabs and their constructors),
    [src/web/src/features/workspace/tableTabLoader.ts] (preparing a table tab for a
    reload) and [src/web/src/features/editor/sqlTemplate.ts].  Identifiers that come
    from [createId()] are arguments named [fresh]. *)
From S2P Require Import Prelude JsString JsNumber JsValue Api TableQuery.

(** ** types.ts *)

Inductive TabStatus := Idle | Running | Failed.
#[export] Instance TabStatus_eq_dec : EqDecision TabStatus.
Proof. solve_decision. Defined.

Record TableTab := MkTableTab {
  tt_id : jstr;
  tt_title : jstr;
  tt_table : DatabaseObject;
  tt_result : option QueryResult;
  tt_queryId : jstr;
  tt_status : TabStatus;
  tt_message : jstr;
  tt_sql : jstr;
  tt_page : number;
  tt_pageSize : number;
  tt_filterRules : list TableFilterRule;
  tt_sort : option TableSort;
  tt_showFilter : bool;
  tt_selectedRow : option nat;
  tt_draft : option TableDraft;
}.

Inductive ResultTab := ShowResult | ShowHistory.

Record QueryTab := MkQueryTab {
  qt_id : jstr;
  qt_title : jstr;
  qt_sql : jstr;
  qt_result : option QueryResult;
  qt_queryId : jstr;
  qt_status : TabStatus;
  qt_message : jstr;
  qt_resultTab : ResultTab;
}.

Inductive MongoSection := Documents | MongoQuery | MongoSchema.
Record MongoDocumentTab := MkMongoTab {
  mt_id : jstr; mt_title : jstr; mt_collection : DatabaseObject; mt_section : MongoSection }.
Record RedisKeyTab := MkRedisKeyTab { rt_id : jstr; rt_title : jstr; rt_key : jstr }.
Record RedisConsoleTab := MkConsoleTab { ct_id : jstr; ct_title : jstr }.
Record DriverHomeTab := MkHomeTab { ht_id : jstr; ht_title : jstr; ht_redis : bool }.

Inductive WorkspaceTab :=
| TTable (t : TableTab)
| TQuery (t : QueryTab)
| TMongo (t : MongoDocumentTab)
| TRedisKey (t : RedisKeyTab)
| TConsole (t : RedisConsoleTab)
| THome (t : DriverHomeTab).

Definition tab_id (t : WorkspaceTab) : jstr :=
  match t with
  | TTable t => tt_id t | TQuery t => qt_id t | TMongo t => mt_id t
  | TRedisKey t => rt_id t | TConsole t => ct_id t | THome t => ht_id t
  end.

Definition defaultSelectSQL (table : DatabaseObject) (driver : SqlDriver) : jstr :=
  buildTableSelectSQL table driver (MkOptions None None (Some (num 1)) (Some (num 200))).

(** [redis] is the driver of the two that have a home. *)
Definition createDriverHomeTab (redis : bool) : DriverHomeTab :=
  MkHomeTab ("home:"%js ++ if redis then "redis"%js else "mongodb"%js)
    (if redis then "Redis 工作区"%js else "MongoDB 工作区"%js) redis.

Definition default_query_sql : jstr := "SELECT *
FROM your_table
LIMIT 200;"%js.

Definition createQueryTab (fresh sql : jstr) (title : option jstr) : QueryTab :=
  MkQueryTab ("query:"%js ++ fresh) (default "query_01"%js title) sql None [] Idle
    "尚未执行查询"%js ShowResult.

Definition mongoTabId (collection : DatabaseObject) : jstr :=
  "mongo:"%js ++ default [] (o_schema collection) ++ "/"%js ++ o_name collection.

Definition createMongoDocumentTab (collection : DatabaseObject) : MongoDocumentTab :=
  MkMongoTab (mongoTabId collection) (o_name collection ++ " · 文档"%js) collection Documents.

Definition createRedisKeyTab (key : jstr) : RedisKeyTab :=
  MkRedisKeyTab ("redis-key:"%js ++ key) key key.

Definition createRedisConsoleTab (counter : number) : RedisConsoleTab :=
  MkConsoleTab ("redis-console:"%js ++ number_to_string counter)
    ("命令台 #"%js ++ number_to_string counter).

Definition createTableTab (table : DatabaseObject) (driver : SqlDriver) : TableTab :=
  MkTableTab (tableTabId table) (qualifiedTableName table) table None [] Idle "正在加载…"%js
    (defaultSelectSQL table driver) (num 1) (num 200) [] None false None None.

Definition createDefaultWorkspaceTab (fresh : jstr) (driver : option DriverId) (initialSQL : jstr)
    (redisConsoleCounter : number) : WorkspaceTab * number :=
  match driver with
  | Some redis => (TConsole (createRedisConsoleTab redisConsoleCounter), add redisConsoleCounter (num 1))
  | Some mongodb => (THome (createDriverHomeTab false), redisConsoleCounter)
  | _ => (TQuery (createQueryTab fresh initialSQL None), redisConsoleCounter)
  end.

(** ** sqlTemplate.ts *)

Definition SQL_GUIDE : jstr := "-- 从左侧选择一张表，或在这里输入 SQL"%js.
Definition isSqlGuide (sql : jstr) : bool := bool_decide (trim sql = SQL_GUIDE).
Definition sqlForSelectedTable (currentSql generatedSql : jstr) : jstr :=
  if isSqlGuide currentSql then generatedSql else currentSql.

(** ** tableTabLoader.ts *)

(** [Partial<Pick<TableTab, ...>>]: [Some] where the property is present. *)
Record Overrides := MkOverrides {
  ov_page : option number;
  ov_pageSize : option number;
  ov_filterRules : option (list TableFilterRule);
  ov_sort : option (option TableSort);
  ov_showFilter : option bool;
  ov_selectedRow : option (option nat);
  ov_draft : option (option TableDraft);
}.
Definition no_overrides : Overrides := MkOverrides None None None None None None None.

Record TableReloadOptions := MkReload {
  ro_table : option DatabaseObject;
  ro_overrides : Overrides;
  ro_resetDraft : bool;
}.

Definition find_table_tab (tabs : list WorkspaceTab) (id : jstr) : option TableTab :=
  match find_first (λ tab, match tab with TTable t => bool_decide (tt_id t = id) | _ => false end) tabs with
  | Some (TTable t) => Some t
  | _ => None
  end.

(** [{...base.result, rows: [], queryId: '', nextCursor: undefined, truncated: false}]. *)
Definition emptied_result (r : QueryResult) : QueryResult :=
  MkResult [] (r_columns r) (Some []) None (r_affectedRows r) (r_durationMs r) (Some false) (r_running r).

Definition reload_snapshot (base : TableTab) (driver : SqlDriver) (o : Overrides) (resetDraft : bool) : TableTab :=
  let page := default (tt_page base) (ov_page o) in
  let pageSize := default (tt_pageSize base) (ov_pageSize o) in
  let filterRules := default (tt_filterRules base) (ov_filterRules o) in
  let sort := default (tt_sort base) (ov_sort o) in
  MkTableTab (tt_id base) (tt_title base) (tt_table base)
    (match tt_result base with
     | Some r => if bool_decide (0 < length (default [] (r_columns r))) then Some (emptied_result r) else None
     | None => None
     end)
    [] Running ("正在加载 "%js ++ tt_title base ++ "…"%js)
    (buildTableSelectSQL (tt_table base) driver (MkOptions (Some filterRules) sort (Some page) (Some pageSize)))
    page pageSize filterRules sort
    (default (tt_showFilter base) (ov_showFilter o))
    (default (tt_selectedRow base) (ov_selectedRow o))
    (if resetDraft then None
     else match ov_draft o with Some (Some d) => Some d | _ => tt_draft base end).

Definition set_tab (id : jstr) (t : WorkspaceTab) (tabs : list WorkspaceTab) : list WorkspaceTab :=
  update_where (λ tab, bool_decide (tab_id tab = id)) (λ _, t) tabs.

Definition prepareTableTabReload (current : list WorkspaceTab) (id : jstr) (driver : SqlDriver)
    (options : TableReloadOptions) : option (list WorkspaceTab * TableTab) :=
  let finish base nextTabs :=
    let snapshot := reload_snapshot base driver (ro_overrides options) (ro_resetDraft options) in
    Some (set_tab id (TTable snapshot) nextTabs, snapshot) in
  match find_table_tab current id with
  | Some base => finish base current
  | None =>
      match ro_table options with
      | None => None
      | Some table =>
          let base := createTableTab table driver in finish base (current ++ [TTable base])
      end
  end.

Definition tableObject (schema : option jstr) (name : jstr) : DatabaseObject := obj KTable schema name.
Definition tableIdFor (schema : option jstr) (name : jstr) : jstr := tableTabId (tableObject schema name).
Definition tableTitle (schema : option jstr) (name : jstr) : jstr := qualifiedTableName (tableObject schema name).

(** ** Well-formed tabs *)

(** The identifier of a tab is the one its constructor gives. *)
Definition wf_tab (t : WorkspaceTab) : Prop :=
  match t with
  | TTable t => tt_id t = tableTabId (tt_table t)
  | TQuery t => ∃ fresh, qt_id t = "query:"%js ++ fresh
  | TMongo t => mt_id t = mongoTabId (mt_collection t)
  | TRedisKey t => rt_id t = "redis-key:"%js ++ rt_key t
  | TConsole t => ∃ n, ct_id t = "redis-console:"%js ++ number_to_string n
  | THome t => ht_id t = "home:"%js ++ if ht_redis t then "redis"%js else "mongodb"%js
  end.

(** The prefix up to the colon tells the kind. *)
Definition tab_kind (t : WorkspaceTab) : nat :=
  match t with TTable _ => 0 | TQuery _ => 1 | TMongo _ => 2 | TRedisKey _ => 3 | TConsole _ => 4 | THome _ => 5 end.

Lemma wf_tab_kind t t' : wf_tab t → wf_tab t' → tab_id t = tab_id t' → tab_kind t = tab_kind t'.
Proof.
  destruct t, t'; try done; cbn; intros H H' E;
    repeat match goal with H : ∃ _, _ |- _ => destruct H as [? H] end;
    rewrite ?H, ?H' in E; unfold tableTabId, mongoTabId in E; done.
Qed.

Lemma wf_table_tab table driver : wf_tab (TTable (createTableTab table driver)).
Proof. done. Qed.

Lemma wf_snapshot base driver o b : wf_tab (TTable base) → wf_tab (TTable (reload_snapshot base driver o b)).
Proof. done. Qed.

Lemma wf_default_tab fresh driver sql n : wf_tab (createDefaultWorkspaceTab fresh driver sql n).1.
Proof. destruct driver as [[]|]; cbn; eauto. Qed.

(** ** Lists of tabs *)

Definition tab_ids (tabs : list WorkspaceTab) : list jstr := tab_id <$> tabs.

Lemma set_tab_ids id t tabs : tab_id t = id → tab_ids (set_tab id t tabs) = tab_ids tabs.
Proof. intros Ht. apply update_where_fmap. intros x Hx. bool_to_prop. by rewrite Ht, Hx. Qed.

Lemma set_tab_lookup id t tabs k x :
  tabs !! k = Some x → set_tab id t tabs !! k = Some (if bool_decide (tab_id x = id) then t else x).
Proof. intros Hk. unfold set_tab, update_where. by rewrite list_lookup_fmap, Hk. Qed.

Lemma find_table_tab_Some tabs id t :
  find_table_tab tabs id = Some t → TTable t ∈ tabs ∧ tt_id t = id.
Proof.
  unfold find_table_tab. destruct (find_first _ tabs) as [x|] eqn:E; [|done].
  apply find_first_Some in E as [Hin Hx]. destruct x; try done. intros [= <-]. by bool_to_prop.
Qed.

Lemma find_table_tab_None tabs id :
  find_table_tab tabs id = None → ∀ t, TTable t ∈ tabs → tt_id t ≠ id.
Proof.
  unfold find_table_tab. destruct (find_first _ tabs) as [x|] eqn:E.
  - apply find_first_Some in E as [_ Hx]. by destruct x.
  - intros _ t Ht. rewrite find_first_None in E. specialize (E _ Ht). cbn in E. by bool_to_prop.
Qed.

Lemma find_table_tab_unique tabs id t :
  NoDup (tab_ids tabs) → TTable t ∈ tabs → tt_id t = id → find_table_tab tabs id = Some t.
Proof.
  intros Hnd Hin Hid. destruct (find_table_tab tabs id) as [t'|] eqn:E.
  - apply find_table_tab_Some in E as [Hin' Hid'].
    apply list_elem_of_lookup in Hin as [i Hi]. apply list_elem_of_lookup in Hin' as [j Hj].
    assert (i = j) as ->; [|by simplify_eq].
    eapply NoDup_lookup; [exact Hnd| |]; unfold tab_ids; rewrite list_lookup_fmap, ?Hi, ?Hj; cbn; by rewrite ?Hid, ?Hid'.
  - by destruct (find_table_tab_None _ _ E t Hin).
Qed.

(** ** Properties *)

(** Tab identifiers separate: tabs of different kinds never share one, and two
    tables do only when catalog, schema and name agree, provided catalogs and schemas
    hold no slash. *)
Theorem tab_id_separates t t' :
  wf_tab t → wf_tab t' → tab_id t = tab_id t' →
  tab_kind t = tab_kind t'
  ∧ match t, t' with
    | TTable a, TTable b =>
        let part f (x : TableTab) := default [] (f (tt_table x)) in
        47%N ∉ part o_catalog a → 47%N ∉ part o_catalog b →
        47%N ∉ part o_schema a → 47%N ∉ part o_schema b →
        part o_catalog a = part o_catalog b ∧ part o_schema a = part o_schema b
        ∧ o_name (tt_table a) = o_name (tt_table b)
    | TRedisKey a, TRedisKey b => rt_key a = rt_key b
    | _, _ => True
    end.
Proof.
  intros Hw Hw' E. split; [by apply wf_tab_kind|].
  destruct t as [a| | |a| |], t' as [b| | |b| |]; try done; cbn in *.
  - intros Hca Hcb Hsa Hsb. rewrite Hw, Hw' in E. injection E as E.
    apply cut_unique in E as [-> E]; [|done..]. by apply cut_unique in E as [-> ->].
  - rewrite Hw, Hw' in E. by injection E.
Qed.

Lemma tab_id_separates_witness :
  tab_kind (TRedisKey (createRedisKeyTab "a"%js)) = tab_kind (TRedisKey (createRedisKeyTab "a"%js)) ∧ "a"%js = "a"%js.
Proof.
  exact (tab_id_separates (TRedisKey (createRedisKeyTab "a"%js)) (TRedisKey (createRedisKeyTab "a"%js))
           eq_refl eq_refl eq_refl).
Defined.

(** Without that condition two different tables share a tab. *)
Example tab_id_collision :
  tableIdFor (Some "a/b"%js) "c"%js = tableIdFor (Some "a"%js) "b/c"%js.
Proof. reflexivity. Qed.

(** Replacing the tab of a reload by its snapshot. *)
Lemma reload_replaced id driver options base nextTabs :
  TTable base ∈ nextTabs → tt_id base = id → NoDup (tab_ids nextTabs) → (∀ t, t ∈ nextTabs → wf_tab t) →
  let snapshot := reload_snapshot base driver (ro_overrides options) (ro_resetDraft options) in
  let tabs := set_tab id (TTable snapshot) nextTabs in
  NoDup (tab_ids tabs) ∧ (∀ t, t ∈ tabs → wf_tab t) ∧ find_table_tab tabs id = Some snapshot
  ∧ tab_ids tabs = tab_ids nextTabs ∧ (∀ t, t ∈ nextTabs → tab_id t ≠ id → t ∈ tabs)
  ∧ tt_status snapshot = Running
  ∧ (∀ r, tt_result snapshot = Some r → r_rows r = Some [])
  ∧ tt_sql snapshot = buildTableSelectSQL (tt_table snapshot) driver
        (MkOptions (Some (tt_filterRules snapshot)) (tt_sort snapshot)
           (Some (tt_page snapshot)) (Some (tt_pageSize snapshot))).
Proof.
  intros Hin Hb Hnd Hwf snapshot tabs.
  assert (Hids : tab_ids tabs = tab_ids nextTabs) by by apply set_tab_ids.
  assert (Hmem : ∀ t, t ∈ nextTabs → (if bool_decide (tab_id t = id) then TTable snapshot else t) ∈ tabs).
  { intros t Ht. apply list_elem_of_fmap. by exists t. }
  split_and!; try done.
  - by rewrite Hids.
  - intros t (t0 & -> & Ht0)%list_elem_of_fmap. case_bool_decide; [|by apply Hwf].
    by apply wf_snapshot, Hwf.
  - apply find_table_tab_unique; [by rewrite Hids| |done].
    specialize (Hmem _ Hin). cbn in Hmem. by rewrite bool_decide_eq_true_2 in Hmem.
  - intros t Ht Hne. specialize (Hmem t Ht). by rewrite bool_decide_eq_false_2 in Hmem.
  - unfold snapshot, reload_snapshot. cbn. destruct (tt_result base) as [r|]; [|done].
    case_bool_decide; [|done]. by intros ? [= <-].
Qed.

(** Preparing a reload.  It fails exactly when the tab is missing and no table is
    given.  Otherwise, on well-formed tabs with distinct identifiers, the tab is there
    afterwards (appended if it was missing), holds the snapshot, is running with no rows
    and with the SELECT of its own page, sort and filters, and every other tab is as it
    was. *)
Theorem reload_spec current id driver options :
  NoDup (tab_ids current) → (∀ t, t ∈ current → wf_tab t) →
  (∀ table, ro_table options = Some table → id = tableTabId table) →
  match prepareTableTabReload current id driver options with
  | None => find_table_tab current id = None ∧ ro_table options = None
  | Some (tabs, snapshot) =>
      NoDup (tab_ids tabs) ∧ (∀ t, t ∈ tabs → wf_tab t)
      ∧ find_table_tab tabs id = Some snapshot
      ∧ tab_ids tabs = tab_ids current ++ (if bool_decide (id ∈ tab_ids current) then [] else [id])
      ∧ (∀ t, t ∈ current → tab_id t ≠ id → t ∈ tabs)
      ∧ tt_status snapshot = Running
      ∧ (∀ r, tt_result snapshot = Some r → r_rows r = Some [])
      ∧ tt_sql snapshot = buildTableSelectSQL (tt_table snapshot) driver
          (MkOptions (Some (tt_filterRules snapshot)) (tt_sort snapshot)
             (Some (tt_page snapshot)) (Some (tt_pageSize snapshot)))
  end.
Proof.
  intros Hnd Hwf Hid.
  unfold prepareTableTabReload. destruct (find_table_tab current id) as [base|] eqn:Ef.
  - apply find_table_tab_Some in Ef as [Hin Hb].
    assert (id ∈ tab_ids current) as Hmem by (apply list_elem_of_fmap; by exists (TTable base)).
    rewrite (bool_decide_eq_true_2 _ Hmem), app_nil_r. by apply reload_replaced.
  - destruct (ro_table options) as [table|]; [|done]. specialize (Hid table eq_refl) as ->.
    assert (tableTabId table ∉ tab_ids current) as Hmem.
    { intros (t & Et & Ht)%list_elem_of_fmap.
      assert (tab_kind t = 0) as Hk.
      { symmetry. eapply (wf_tab_kind (TTable (createTableTab table driver))); [done|by apply Hwf|done]. }
      destruct t as [t| | | | |]; try done. by destruct (find_table_tab_None _ _ Ef t Ht). }
    rewrite (bool_decide_eq_false_2 _ Hmem).
    assert (Hids : tab_ids (current ++ [TTable (createTableTab table driver)]) = tab_ids current ++ [tableTabId table])
      by (unfold tab_ids; by rewrite fmap_app).
    destruct (reload_replaced (tableTabId table) driver options (createTableTab table driver) (current ++ [TTable (createTableTab table driver)]))
      as (H1 & H2 & H3 & H4 & H5 & H6).
    + apply elem_of_app. right. by left.
    + done.
    + rewrite Hids. by apply NoDup_app_singleton.
    + intros t [Ht| ->%list_elem_of_singleton]%elem_of_app; [by apply Hwf|done].
    + split_and!; try done; [by rewrite H4, Hids|]. intros t Ht. apply H5. apply elem_of_app. by left.
Qed.

Lemma reload_spec_witness :
  match prepareTableTabReload [] (tableIdFor (Some "public"%js) "channel"%js) PostgreSQL
          (MkReload (Some (tableObject (Some "public"%js) "channel"%js)) no_overrides true) with
  | None => False
  | Some (tabs, snapshot) =>
      tab_ids tabs = [tableIdFor (Some "public"%js) "channel"%js] ∧ tt_status snapshot = Running
  end.
Proof.
  pose proof (reload_spec [] (tableIdFor (Some "public"%js) "channel"%js) PostgreSQL
    (MkReload (Some (tableObject (Some "public"%js) "channel"%js)) no_overrides true)) as Hs.
  cbv zeta in Hs. specialize (Hs (NoDup_nil_2 (A := jstr))).
  destruct Hs as (_ & _ & _ & Hids & _ & Hst & _).
  - by intros t ?%elem_of_nil.
  - by intros table [= <-].
  - split; [exact Hids | exact Hst].
Defined.
