(* ===== verification/TableGrid.v ===== *)
(** * What the table view shows

    The elements of [src/web/src/features/table/TableView.tsx] and of its filter panel
    [src/web/src/features/table/TableFilterBuilder.tsx], the state the two keep besides the
    draft, and what their events do to the view.  An event is the callbacks that a control
    calls, in order. *)
From S2P Require Import Prelude JsString JsNumber JsValue Api TableQuery TableMutations TableView Id Tabs FilterBuilder Controls ControlViews View Elements.

(** ** State and events *)

(** The [useState] variables of the view. *)
Record Grid := MkGrid {
  headerMenu : option TableColumn;
  editingCell : option (nat * nat);
  dense : bool;
  showColumns : bool;
  hiddenColumns : gset jstr;
}.
Definition initial_grid : Grid := MkGrid None None false false ∅.
Definition setHeaderMenu x (g : Grid) := MkGrid x (editingCell g) (dense g) (showColumns g) (hiddenColumns g).
Definition setEditingCell x (g : Grid) := MkGrid (headerMenu g) x (dense g) (showColumns g) (hiddenColumns g).
Definition setDense f (g : Grid) := MkGrid (headerMenu g) (editingCell g) (f (dense g)) (showColumns g) (hiddenColumns g).
Definition setShowColumns f (g : Grid) := MkGrid (headerMenu g) (editingCell g) (dense g) (f (showColumns g)) (hiddenColumns g).
Definition setHiddenColumns f (g : Grid) := MkGrid (headerMenu g) (editingCell g) (dense g) (showColumns g) (f (hiddenColumns g)).
Definition toggle_hidden (name : jstr) (hidden : gset jstr) : gset jstr :=
  if bool_decide (name ∈ hidden) then hidden ∖ {[name]} else hidden ∪ {[name]}.

(** The properties beside those of [View]. *)
Record Frame := MkFrame {
  fm_sql : jstr;
  fm_status : TabStatus;
  fm_message : jstr;
  fm_page : number;
  fm_pageSize : number;
  fm_filterRules : list TableFilterRule;
  fm_sort : option TableSort;
  fm_showFilter : bool;
  fm_truncated : bool;
}.

Inductive TableEvent :=
(** Of the view itself. *)
| SetHeaderMenu (column : option TableColumn)
| SetEditingCell (cell : option (nat * nat))
| ToggleDense
| ToggleColumns
| ToggleColumn (name : jstr)
| CommitCell (row column : nat) (text : jstr)
| AddRow
| DeleteRow
| Apply
(** Of the filter panel. *)
| PatchRule (id : jstr) (p : RulePatch)
| AddRule
| RemoveRule (id : jstr)
| ToggleJoin (id : jstr)
| ClearRules
(** Callbacks of the parent. *)
| SelectRow (row : nat)
| PageChange (page : number)
| PageSizeChange (size : number)
| FiltersApply (rules : list TableFilterRule)
| FiltersClear
| SortChange (sort : option TableSort)
| ToggleFilter
| Refresh
| Stop
| Discard
| Export.

Abbreviation elements_of_table := (view (list TableEvent)).

(** ** TableFilterBuilder.tsx *)

Definition operator_label (o : FilterOperator) : jstr :=
  match o with OpLike => "LIKE"%js | OpNull => "IS NULL"%js | OpNotNull => "IS NOT NULL"%js | _ => operator_text o end.
Definition FILTER_OPERATORS : list FilterOperator := [OpEq; OpNe; OpGt; OpLt; OpGe; OpLe; OpLike; OpNull; OpNotNull].
(** The cast of the value of an option. *)
Definition operator_value (value : jstr) : option FilterOperator :=
  find_first (λ o, bool_decide (operator_text o = value)) FILTER_OPERATORS.
Definition needsValue (r : TableFilterRule) : bool := match fr_operator r with OpNull | OpNotNull => false | _ => true end.
Definition join_text (j : FilterJoin) : jstr := match j with JAnd => "and"%js | JOr => "or"%js end.
Definition place (n : nat) : jstr := dec_Z (Z.of_nat n + 1).

Section filter.
Context `{IdSupply} (columns : list TableColumn) (b : Builder).

Definition filter_row (index : nat) (rule : TableFilterRule) : elements_of_table :=
  let patch p := [PatchRule (fr_id rule) p] in
  Group
    [Tick "启用此条件"%js (fr_enabled rule) false (λ on, patch (RuleEnabled on));
     SelectControl ("字段 "%js ++ place index) (fr_column rule) ((λ c, (col_name c, col_name c)) <$> columns) false
       (λ value, patch (RuleColumn value));
     SelectControl ("运算符 "%js ++ place index) (operator_text (fr_operator rule))
       ((λ o, (operator_text o, operator_label o)) <$> FILTER_OPERATORS) false
       (λ value, from_option (λ o, patch (RuleOperator o)) [] (operator_value value));
     (if needsValue rule then Field "输入筛选值"%js (fr_value rule) false (λ text, patch (RuleValue text)) else Words "—"%js);
     (if (index <? length (draft b) - 1)%nat
      then Button ("Join with next: "%js ++ join_text (fr_join rule)) false [ToggleJoin (fr_id rule)] else Words "—"%js);
     Button "删除条件"%js (length (draft b) <=? 1)%nat [RemoveRule (fr_id rule)]].

Definition TableFilterBuilder : elements_of_table :=
  Group
    (imap filter_row (draft b)
     ++ [Button "添加条件"%js false [AddRule];
         Button "清空条件"%js false [ClearRules; FiltersClear];
         Button "应用筛选"%js false [FiltersApply (applied_rules b)]]).
End filter.

(** ** TableView.tsx *)

Definition page_sizes : list (jstr * jstr) :=
  ((λ size, (dec_Z size, dec_Z size)) <$> [50; 100; 200; 500; 1000]%Z) ++ [("0"%js, "所有"%js)].
(** [value === '0' ? 0 : Number(value)]. *)
Definition page_size_value (value : jstr) : number := if bool_decide (value = "0"%js) then num 0 else to_number value.
(** [Math.max(1, Number(event.target.value) || 1)]. *)
Definition page_typed (text : jstr) : number :=
  let n := to_number text in num_max (num 1) (if num_truthy n then n else num 1).

Definition arrow (d : SortDirection) : jstr := match d with Asc => "↑"%js | Desc => "↓"%js end.
Definition shown_cell (v : value) : jstr := match v with VNull => "NULL"%js | v => to_str v end.

Section table.
Context `{Unicode, IdSupply} (v : View) (fm : Frame) (g : Grid) (b : Builder).

Definition running : bool := bool_decide (fm_status fm = Running).
Definition canGoNext : bool :=
  num_lt (num 0) (fm_pageSize fm) && (num_le (fm_pageSize fm) (num (Z.of_nat (length (v_rows v)))) || fm_truncated fm).
Definition rowOffset : number := mul (sub (fm_page fm) (num 1)) (fm_pageSize fm).
Definition activeFilterCount : nat := length (filterb isFilterRuleReady (fm_filterRules fm)).
Definition sorted_by (column : TableColumn) : option TableSort :=
  match fm_sort fm with Some s => if bool_decide (ts_column s = col_name column) then Some s else None | None => None end.

(** The columns that are shown, with their index. *)
Definition visibleColumns : list (nat * TableColumn) :=
  filterb (λ x, negb (bool_decide (col_name x.2 ∈ hiddenColumns g))) (imap pair (v_columns v)).

Definition headerMenuItems : list (ContextMenuItem * option (option jstr → list TableEvent)) :=
  match headerMenu g with
  | Some column =>
      [(MkMenuItem "升序排序"%js false false, Some (λ _, [SortChange (Some (MkSort (col_name column) Asc))]));
       (MkMenuItem "降序排序"%js false false, Some (λ _, [SortChange (Some (MkSort (col_name column) Desc))]));
       (MkMenuItem [] false true, None);
       (MkMenuItem "移除排序"%js (negb (bool_decide (is_Some (sorted_by column)))) false, Some (λ _, [SortChange None]))]
  | None => []
  end.

Definition column_toggle (column : TableColumn) : elements_of_table :=
  Tick (col_name column) (negb (bool_decide (col_name column ∈ hiddenColumns g))) false (λ _, [ToggleColumn (col_name column)]).
Definition table_toolbar : elements_of_table :=
  Group
    ([Button "筛选"%js false [ToggleFilter]]
     ++ only_if (0 <? activeFilterCount)%nat (Words (dec_Z (Z.of_nat activeFilterCount) ++ " 条筛选"%js))
     ++ only_some (fm_sort fm) (λ s, Words (ts_column s ++ " "%js ++ arrow (ts_direction s)))
     ++ [Button "显示列"%js false [ToggleColumns]]
     ++ (if showColumns g then column_toggle <$> v_columns v else [])
     ++ [Button ("密度："%js ++ (if dense g then "紧凑"%js else "标准"%js)) false [ToggleDense];
         Button "导出 CSV"%js (bool_decide (v_rows v = [])) [Export]]).

Definition header_cell (x : nat * TableColumn) : elements_of_table :=
  On RightClick [SetHeaderMenu (Some x.2)]
    (Region "columnheader"%js (col_name x.2)
      ([Words (col_name x.2)] ++ only_some (col_dataType x.2) Words
       ++ only_some (sorted_by x.2) (λ s, Words (arrow (ts_direction s))))).

(** The editor of a cell: leaving it commits what was typed. *)
Definition cell_editor (rowIndex columnIndex : nat) (value : value) : elements_of_table :=
  On EscapeKey [SetEditingCell None]
    (Field [] (match value with VNull => [] | x => to_str x end) false
       (λ text, [CommitCell rowIndex columnIndex text; SetEditingCell None])).
Definition body_cell (rowIndex : nat) (item : DisplayRow) (x : nat * TableColumn) : elements_of_table :=
  let value := cell (dr_values item) x.1 in
  On DoubleClick (if editable v then [SetEditingCell (Some (rowIndex, x.1))] else [])
    (Region "cell"%js []
      [if bool_decide (editingCell g = Some (rowIndex, x.1)) then cell_editor rowIndex x.1 value else Words (shown_cell value)]).
Definition body_row (rowIndex : nat) (item : DisplayRow) : elements_of_table :=
  On Click [SelectRow rowIndex]
    (Region "row"%js []
      (Words (number_to_string (add (add rowOffset (num (Z.of_nat rowIndex))) (num 1))) :: (body_cell rowIndex item <$> visibleColumns))).

Definition table_grid : elements_of_table :=
  Region "table"%js []
    ((header_cell <$> visibleColumns)
     ++ only_if (bool_decide (displayRows v = []) && negb (bool_decide (v_columns v = [])) && negb running) (Words "无匹配数据"%js)
     ++ imap body_row (displayRows v)).

Definition row_tools : elements_of_table :=
  Group
    [Button "新增行"%js (negb (editable v)) [AddRow];
     Button "删除行"%js (negb (editable v) || bool_decide (v_selectedRow v = None)) [DeleteRow];
     Button "应用修改"%js (negb (editable v) || negb (dirty v)) [Apply];
     Button "放弃修改"%js (negb (dirty v)) [Discard];
     Button "刷新"%js running [Refresh];
     Button "停止"%js (negb running) [Stop]].

(** [pageSize <= 0 || page <= 1 || status === 'running']. *)
Definition no_earlier : bool := num_le (fm_pageSize fm) (num 0) || num_le (fm_page fm) (num 1) || running.
Definition pagination : elements_of_table :=
  Group
    [Button "首页"%js no_earlier [PageChange (num 1)];
     Button "上一页"%js no_earlier [PageChange (sub (fm_page fm) (num 1))];
     Field [] (number_to_string (fm_page fm)) (num_le (fm_pageSize fm) (num 0) || running) (λ text, [PageChange (page_typed text)]);
     Button "下一页"%js (num_le (fm_pageSize fm) (num 0) || negb canGoNext || running) [PageChange (add (fm_page fm) (num 1))];
     SelectControl "每页行数"%js (number_to_string (fm_pageSize fm)) page_sizes running (λ value, [PageSizeChange (page_size_value value)])].

Definition TableView : elements_of_table :=
  Group
    (only_if (negb (editable v)) (Words "此表没有主键或唯一键，仅支持只读浏览与筛选排序"%js)
     ++ only_if running (Words "正在加载数据…"%js)
     ++ [table_toolbar]
     ++ only_if (fm_showFilter fm) (TableFilterBuilder (v_columns v) b)
     ++ [table_grid; row_tools; Words (trim (collapse_ws (fm_sql fm))); pagination;
         Words (fm_message fm ++ (if fm_truncated fm then " · 已达到结果上限"%js else []))]
     ++ only_if (bool_decide (is_Some (headerMenu g))) (ContextMenu [] headerMenuItems [SetHeaderMenu None] (λ es, es ++ [SetHeaderMenu None]))).
End table.
