(* ===== verification/TableGridProps.v ===== *)
(** * What the table view lets one do *)
From S2P Require Import Prelude JsString JsNumber JsValue Api TableQuery TableMutations TableView Id Tabs FilterBuilder Controls ControlViews View Elements TableGrid.

Section edits.
Context `{Unicode, IdSupply}.
#[local] Abbreviation state := (TableView.View * Grid)%type.

(** What an event does to the draft, the selection and the state of the view.  Requests and
    what the parent loads are not among it. *)
Definition perform (e : TableEvent) (x : state) : option state :=
  let '(v, g) := x in
  match e with
  | SetHeaderMenu c => Some (v, setHeaderMenu c g)
  | SetEditingCell c => Some (v, setEditingCell c g)
  | ToggleDense => Some (v, setDense negb g)
  | ToggleColumns => Some (v, setShowColumns negb g)
  | ToggleColumn name => Some (v, setHiddenColumns (toggle_hidden name) g)
  | CommitCell r c text => (λ v, (v, g)) <$> updateCell v r c text
  | AddRow => Some (addRow v, g)
  | DeleteRow => Some (deleteSelectedRow v, g)
  | SelectRow r => Some (set_selected (Some r) v, g)
  | Discard => Some (set_selected None (set_draft None v), g)
  | _ => Some x
  end.
Definition perform_all (es : list TableEvent) (x : state) : option state := foldl (λ x e, x ≫= perform e) (Some x) es.

Definition grid_next (x y : state) : Prop := ∃ fm b es, offers (TableView x.1 fm x.2 b) es ∧ perform_all es x = Some y.

(** A table without a key has no draft, and no cell of it is edited. *)
Definition grid_ok (x : state) : Prop :=
  wf_view x.1 ∧ (editable x.1 = false → v_draft x.1 = None ∧ editingCell x.2 = None).

(** When an event may happen. *)
Definition enabled (v : TableView.View) (fm : Frame) (g : Grid) (b : Builder) (e : TableEvent) : Prop :=
  match e with
  | CommitCell r c _ =>
      editingCell g = Some (r, c) ∧ r < length (displayRows v)
      ∧ ∃ column, v_columns v !! c = Some column ∧ col_name column ∉ hiddenColumns g
  | SetEditingCell (Some (r, c)) =>
      editable v = true ∧ r < length (displayRows v) ∧ ∃ column, v_columns v !! c = Some column ∧ col_name column ∉ hiddenColumns g
  | AddRow => editable v = true
  | DeleteRow => editable v = true ∧ is_Some (v_selectedRow v)
  | Apply => editable v = true ∧ dirty v = true
  | Discard => dirty v = true
  | SelectRow r => r < length (displayRows v)
  | PatchRule id _ | ToggleJoin id => id ∈ fr_id <$> draft b
  | RemoveRule id => id ∈ fr_id <$> draft b ∧ 1 < length (draft b)
  | PageChange p =>
      fm_status fm ≠ Running ∧ num_le (fm_pageSize fm) (num 0) = false
      ∧ ∀ z, fm_page fm = num z → (1 <= z < max_safe)%Z → num_le (num 1) p = true
  | PageSizeChange _ | Refresh => fm_status fm ≠ Running
  | Stop => fm_status fm = Running
  | Export => v_rows v ≠ []
  | _ => True
  end.

Lemma update_total v r c text old column :
  displayRows v !! r = Some old → v_columns v !! c = Some column → is_Some (updateCell v r c text).
Proof.
  intros Hr Hc. unfold updateCell. rewrite Hr, Hc. cbn [mbind option_bind].
  apply display_lookup in Hr as [(i & row & Hi & Hrow & -> & Hnew & Hsrc)|(nr & _ & _ & -> & Hnew)]; rewrite Hnew; [|done].
  rewrite Hsrc, Hrow. cbn [mbind option_bind]. destruct (valuesEqual _ _); [|done]. by destruct (editedRows _ !! i).
Qed.
Lemma page_typed_positive text : num_le (num 1) (page_typed text) = true.
Proof.
  unfold page_typed. set (n := if num_truthy _ then _ else _).
  assert (Hn : n ≠ NaN) by (unfold n; destruct (to_number text); cbn; try done; by case_match).
  unfold num_max, num_le. destruct (num_compare (num 1) n) as [[]|] eqn:E; [done|by rewrite E|done|].
  by destruct n.
Qed.

Lemma visible_column v g i column : (i, column) ∈ visibleColumns v g →
  v_columns v !! i = Some column ∧ col_name column ∉ hiddenColumns g.
Proof.
  intros [Hin Hh]%elem_of_filterb. split; [by apply elem_of_imap_pair in Hin|]. by bool_to_prop.
Qed.

(** Everything that is offered is enabled. *)
Section offered.
Context (v : TableView.View) (fm : Frame) (g : Grid) (b : Builder).

(** The callbacks after the first need nothing. *)
Definition harmless (e : TableEvent) : bool :=
  match e with SetEditingCell None | SetHeaderMenu _ | FiltersClear => true | _ => false end.
Definition may_happen (es : list TableEvent) : Prop := Forall (enabled v fm g b) es ∧ forallb harmless (tail es) = true.
Lemma one e : enabled v fm g b e → may_happen [e].
Proof. intros He. split; [by apply Forall_singleton|done]. Qed.
#[local] Abbreviation all_enabled := (every may_happen).

Lemma toolbar_enabled : all_enabled (table_toolbar v fm g).
Proof.
  unfold table_toolbar. elements. split_and!; try done; try (intros _; by apply one).
  - destruct (showColumns g); elements; [|done]. intros c _. unfold column_toggle. elements. intros _. by apply one.
  - intros Hr. apply one. cbn. by bool_to_prop.
Qed.
Lemma filter_enabled : all_enabled (TableFilterBuilder (v_columns v) b).
Proof.
  unfold TableFilterBuilder. elements. split_and!; try done; try (intros _; split; [by repeat constructor|done]).
  apply every_imap. intros i rule Hi. assert (Hid : fr_id rule ∈ fr_id <$> draft b) by (eapply list_elem_of_fmap_2, list_elem_of_lookup_2; done).
  unfold filter_row. elements. split_and!; try done.
  - intros _. by apply one.
  - intros _ o _. by apply one.
  - intros _ o _. destruct (operator_value o.1); [by apply one|done].
  - destruct (needsValue rule); elements; [|done]. intros _ x. by apply one.
  - destruct (_ <? _)%nat; elements; [|done]. intros _. by apply one.
  - intros Hl%Nat.leb_gt. by apply one.
Qed.
Lemma grid_enabled : all_enabled (table_grid v fm g).
Proof.
  unfold table_grid. elements. split_and!; try done.
  - intros [i c] _. unfold header_cell. elements. split_and!; try done. by apply one.
  - apply every_imap. intros r item Hr%lookup_lt_Some. unfold body_row. elements. split_and!; [by apply one|done|].
    intros [i column] Hc. apply visible_column in Hc as [Hc Hh]. unfold body_cell. elements. split_and!; [| |done].
    + destruct (editable v) eqn:He; [|done]. apply one. cbn. split_and!; [done..|by exists column].
    + case_bool_decide as Hed; [|done]. unfold cell_editor. elements. split; [by apply one|].
      intros _ text. split; [|done]. repeat constructor; [done..|by exists column].
Qed.
Lemma tools_enabled : all_enabled (row_tools v fm).
Proof.
  unfold row_tools, running. elements. split_and!; try done; intros Hd; apply one; cbn; bool_to_prop; try tauto.
  split; [done|]. by apply not_eq_None_Some.
Qed.
Lemma pagination_enabled : all_enabled (pagination v fm).
Proof.
  unfold pagination, no_earlier, running. elements.
  split_and!; try done; [intros Hd|intros Hd|intros Hd text|intros Hd|intros Hd o _]; apply one; cbn;
    repeat (apply orb_false_iff in Hd as [Hd ?]); bool_to_prop; try done; split_and!; try done; intros z Hz Hb.
  - rewrite Hz, num_le_int in *. rewrite sub_safe by (done || unfold max_safe in *; lia). rewrite num_le_int. lia.
  - apply page_typed_positive.
  - rewrite Hz, add_safe by (unfold max_safe in *; lia). rewrite num_le_int. lia.
Qed.
Lemma offered_enabled : all_enabled (TableView v fm g b).
Proof.
  unfold TableView. elements. split_and!; try done.
  - apply toolbar_enabled.
  - intros _. apply filter_enabled.
  - apply grid_enabled.
  - apply tools_enabled.
  - apply pagination_enabled.
  - intros _. apply every_menu; [by apply one|]. intros item a answer Hin _.
    unfold headerMenuItems in Hin. destruct (headerMenu g); [|by apply not_elem_of_nil in Hin].
    rewrite !elem_of_cons, elem_of_nil in Hin. destruct_or! Hin; try done; injection Hin as -> ->; (split; [by repeat constructor|done]).
Qed.
End offered.

(** A table without a key has no draft, and no cell of it is edited. *)
Lemma perform_ok v g fm b e : grid_ok (v, g) → enabled v fm g b e →
  ∃ y, perform e (v, g) = Some y ∧ grid_ok y ∧ editable y.1 = editable v ∧ v_columns y.1 = v_columns v ∧ v_rows y.1 = v_rows v.
Proof.
  intros [Hwf He] Hen. cbn in Hwf, He.
  assert (Hsame : ∀ v' g', view_step v v' ∨ v' = v → (editable v = false → v_draft v' = None ∧ editingCell g' = None) →
    grid_ok (v', g') ∧ editable v' = editable v ∧ v_columns v' = v_columns v ∧ v_rows v' = v_rows v).
  { intros v' g' [Hs| ->] Hn; [|done]. destruct (step_frame _ _ Hs) as (E1 & E2 & E3).
    assert (Ee : editable v' = editable v) by (unfold editable; by rewrite E1, E3).
    split_and!; [split; [by eapply wf_step|]|done..]. cbn. by rewrite Ee. }
  destruct e; cbn in *; try (eexists; split; [reflexivity|]; apply Hsame; [by right|]; cbn; tauto).
  - eexists. split; [reflexivity|]. apply Hsame; [by right|]. intros Hn. cbn. destruct cell as [[r c]|]; [|split; [by apply He|done]].
    destruct Hen as [Hy _]. congruence.
  - destruct Hen as (Hcell & [old Hr]%lookup_lt_is_Some & c & Hc & _). destruct (update_total v row column text old c Hr Hc) as [v' Hv].
    rewrite Hv. eexists. split; [reflexivity|]. apply Hsame; [left; by eapply step_edit|]. intros Hn. destruct (He Hn). congruence.
  - eexists. split; [reflexivity|]. apply Hsame; [left; apply step_add|]. congruence.
  - eexists. split; [reflexivity|]. apply Hsame; [left; apply step_delete|]. destruct Hen. congruence.
  - eexists. split; [reflexivity|]. apply Hsame; [left; apply step_select|]. exact He.
  - eexists. split; [reflexivity|]. apply Hsame; [left; apply step_discard|]. intros Hn. split; [done|]. by apply He.
Qed.

Lemma harmless_enabled v fm g b e : harmless e = true → enabled v fm g b e.
Proof. by destruct e as [| [[]|] | | | | | | | | | | | | | | | | | | | | | | |]. Qed.
Lemma harmless_ok es x : forallb harmless es = true → grid_ok x →
  ∃ y, perform_all es x = Some y ∧ grid_ok y ∧ editable y.1 = editable x.1 ∧ v_columns y.1 = v_columns x.1 ∧ v_rows y.1 = v_rows x.1.
Proof.
  unfold perform_all. revert x. induction es as [|e es IH]; intros [v g]; [by exists (v, g)|]. cbn [forallb foldl].
  intros [Hh Hes]%andb_true_iff Hx.
  destruct (perform_ok v g (MkFrame [] Idle [] (num 1) (num 1) [] None false false) (MkBuilder [] [] 0) e Hx) as (y & Hy & Hok & E1 & E2 & E3);
    [by apply harmless_enabled|].
  cbn [mbind option_bind]. rewrite Hy. destruct (IH y Hes Hok) as (z & Hz & Hzok & F1 & F2 & F3). exists z. cbn [fst] in *. split_and!; [done|done|congruence..].
Qed.
Lemma events_ok es fm b x : grid_ok x → may_happen x.1 fm x.2 b es →
  ∃ y, perform_all es x = Some y ∧ grid_ok y ∧ editable y.1 = editable x.1 ∧ v_columns y.1 = v_columns x.1 ∧ v_rows y.1 = v_rows x.1.
Proof.
  destruct x as [v g]. intros Hx [Hen Hh]. destruct es as [|e es]; [by exists (v, g)|]. cbn in Hen, Hh.
  apply Forall_cons in Hen as [He _]. destruct (perform_ok v g fm b e Hx He) as (y & Hy & Hok & E1 & E2 & E3).
  destruct (harmless_ok es y Hh Hok) as (z & Hz & Hzok & F1 & F2 & F3). exists z.
  unfold perform_all. cbn [foldl mbind option_bind]. rewrite Hy. cbn [fst] in *. split_and!; [done|done|congruence..].
Qed.

(** C4. The table view keeps to what its table allows.  Whatever sequence of its controls is
    used, on whatever page and with whatever filters, the draft stays well formed; what is
    offered then is possible: only cells that are displayed are edited, rows are added and
    deleted and a draft applied only in a table with a key, a page is asked for only while
    none is loading and is at least the first, and no callback throws; and the draft of a
    table without a key stays empty. *)
Theorem table_view_safe x y fm b es :
  grid_ok x → rtc grid_next x y → offers (TableView y.1 fm y.2 b) es →
  wf_view y.1 ∧ v_columns y.1 = v_columns x.1 ∧ v_rows y.1 = v_rows x.1
  ∧ (∀ e, e ∈ es → enabled y.1 fm y.2 b e) ∧ is_Some (perform_all es y)
  ∧ (editable x.1 = false → v_draft y.1 = None).
Proof.
  intros Hx Hr. assert (Hmay : ∀ v fm g b es, offers (TableView v fm g b) es → may_happen v fm g b es).
  { intros v fm' g b' es'. revert es'. apply every_offers, offered_enabled. }
  assert (Hy : grid_ok y ∧ editable y.1 = editable x.1 ∧ v_columns y.1 = v_columns x.1 ∧ v_rows y.1 = v_rows x.1).
  { induction Hr as [x|x z y (fm' & b' & es' & Hoff & Hp) _ IH]; [done|].
    destruct (events_ok es' fm' b' x Hx (Hmay _ _ _ _ _ Hoff)) as (z' & Hz & Hok & E1 & E2 & E3).
    assert (z' = z) as -> by congruence. rewrite <- E1, <- E2, <- E3. by apply IH. }
  destruct Hy as ((Hwf & Hro) & Ee & Ec & Er). intros Hoff. pose proof (Hmay _ _ _ _ _ Hoff) as Hm. split_and!; try done.
  - destruct Hm as [Hm _]. by apply Forall_forall.
  - destruct (events_ok es fm b y) as (z & Hz & _); [by split|done|by exists z].
  - rewrite <- Ee. intros Hn. by apply Hro.
Qed.
End edits.

(** ** A table *)

#[local] Existing Instances ascii_unicode counting_ids.

Definition demo_frame : Frame := MkFrame "SELECT 1"%js Idle [] (num 1) (num 200) [] None false false.
Definition no_rules : Builder := MkBuilder [] [] 0.

(** The rows and the key of the table; its first cell is edited. *)
Lemma table_view_safe_witness :
  let y := (demo_view, setEditingCell (Some (0, 1)) initial_grid) in
  is_Some (perform_all [CommitCell 0 1 "x"%js; SetEditingCell None] y).
Proof.
  intros y. assert (Hy : grid_ok y) by (split; [apply wf_empty|by vm_compute]).
  assert (Ho : offers (TableView y.1 demo_frame y.2 no_rules) [CommitCell 0 1 "x"%js; SetEditingCell None]).
  { apply fill_offered with (label := []) (x := "x"%js). by vm_compute. }
  by apply (table_view_safe y y demo_frame no_rules _ Hy (rtc_refl _ _) Ho).
Defined.
