(* ===== verification/Async.v ===== *)
(** * Asynchronous handlers

    The [async] functions of the source, which alternate between updates of the
    component's state and awaited calls, as programs in a monad.  A program stops at each
    [await] with the call it makes and a continuation; between a call and its reply other
    handlers may run, so a world is a state with the list of programs that wait.
    [throw], [try] and [finally] follow the language: an exception leaves the rest of the
    [try] body, and code after the [try] is not protected by it. *)
From S2P Require Import Prelude JsString.

(** A rejected promise: the message of the [Error], or nothing when it is no [Error].  A
    client whose errors carry more has a type [E] of its own. *)
Abbreviation error := (option jstr).

Section async.
Context {S Call Reply E : Type}.

Inductive task :=
| Finished
| Unhandled (e : E)
| Await (c : Call) (k : Reply + E → S → S * task).

Definition awaited (t : task) : option Call := match t with Await c _ => Some c | _ => None end.

(** What remains to do, on the state it finds. *)
Definition cont := S → S * task.

Definition async (A : Type) := (A → cont) → (E → cont) → cont.

Definition ret {A} (a : A) : async A := λ k h, k a.
Definition bind {A B} (m : async A) (f : A → async B) : async B := λ k h, m (λ a, f a k h) h.
Definition throw {A} (e : E) : async A := λ k h, h e.
Definition catch {A} (m : async A) (handler : E → async A) : async A :=
  λ k h, m k (λ e, handler e k h).
(** [try { m } finally { f }]. *)
Definition finally {A} (m : async A) (f : async unit) : async A :=
  λ k h, m (λ a, f (λ _, k a) h) (λ e, f (λ _, h e) h).
Definition await (c : Call) : async Reply :=
  λ k h w, (w, Await c (λ r, match r with inl x => k x | inr e => h e end)).
Definition state : async S := λ k h w, k w w.
Definition modify (f : S → S) : async unit := λ k h w, k tt (f w).

(** Calling a handler from the event loop. *)
Definition run (m : async unit) : cont := m (λ _ w, (w, Finished)) (λ e w, (w, Unhandled e)).

(** Answering the calls of one program in turn, with nothing in between. *)
Fixpoint drive (replies : list (Reply + E)) (x : S * task) : S * task :=
  match replies, x with
  | r :: rs, (w, Await _ k) => drive rs (k r w)
  | _, _ => x
  end.

(** The calls that such answers lead to. *)
Fixpoint calls (replies : list (Reply + E)) (x : S * task) : list Call :=
  match x with
  | (w, Await c k) => c :: match replies with r :: rs => calls rs (k r w) | [] => [] end
  | _ => []
  end.

Lemma drive_app rs rs' x : drive (rs ++ rs') x = drive rs' (drive rs x).
Proof.
  revert x. induction rs as [|r rs IH]; intros [w t]; [done|]. destruct t; cbn; [..|apply IH];
    by destruct rs'.
Qed.

(** ** Worlds *)

Definition world := (S * list task)%type.

(** An event starts one of the handlers; a reply resumes a waiting program. *)
Inductive world_step (handlers : async unit → Prop) : world → world → Prop :=
| step_event m s ts s' t :
  handlers m → run m s = (s', t) → world_step handlers (s, ts) (s', ts ++ [t])
| step_reply s ts i c k r s' t :
  ts !! i = Some (Await c k) → k r s = (s', t) →
  world_step handlers (s, ts) (s', <[i := t]> ts).

(** Executing a given order of events and replies. *)
Inductive action :=
| Start (m : async unit)
| Answer (i : nat) (r : Reply + E).

Definition perform (x : world) (a : action) : world :=
  match a with
  | Start m => let '(s', t) := run m x.1 in (s', x.2 ++ [t])
  | Answer i r =>
      match x.2 !! i with
      | Some (Await c k) => let '(s', t) := k r x.1 in (s', <[i := t]> x.2)
      | _ => x
      end
  end.
Definition schedule (actions : list action) (x : world) : world := foldl perform x actions.

Lemma schedule_reachable (handlers : async unit → Prop) actions x :
  Forall (λ a, match a with Start m => handlers m | Answer _ _ => True end) actions →
  rtc (world_step handlers) x (schedule actions x).
Proof.
  intros Ha. revert x. induction Ha as [|a actions Ha _ IH]; intros [s ts]; [apply rtc_refl|].
  unfold schedule. cbn [foldl]. etrans; [|apply IH]. destruct a as [m|i r]; cbn.
  - destruct (run m s) as [s' t] eqn:Er. apply rtc_once. by econstructor.
  - destruct (ts !! i) as [[| |c k]|] eqn:Ei; try apply rtc_refl.
    destruct (k r s) as [s' t] eqn:Er. apply rtc_once. by econstructor.
Qed.

(** ** Invariants *)

Section invariant.
Context (I : S → Prop).

(** A program that keeps [I] whenever it runs. *)
Inductive keeps : task → Prop :=
| keeps_finished : keeps Finished
| keeps_unhandled e : keeps (Unhandled e)
| keeps_await c k :
(∀ r w, I w → I (k r w).1) → (∀ r w, I w → keeps (k r w).2) → keeps (Await c k).

Definition cont_keeps (k : cont) : Prop := ∀ w, I w → I (k w).1 ∧ keeps (k w).2.

Definition preserves {A} (m : async A) : Prop :=
  ∀ k h, (∀ a, cont_keeps (k a)) → (∀ e, cont_keeps (h e)) → cont_keeps (m k h).

Lemma preserves_ret {A} (a : A) : preserves (ret a).
Proof. intros k h Hk Hh. apply Hk. Qed.

Lemma preserves_throw {A} e : preserves (throw (A := A) e).
Proof. intros k h Hk Hh. apply Hh. Qed.

Lemma preserves_bind {A B} (m : async A) (f : A → async B) :
  preserves m → (∀ a, preserves (f a)) → preserves (bind m f).
Proof. intros Hm Hf k h Hk Hh. apply Hm; [|done]. intros a. by apply Hf. Qed.

Lemma preserves_catch {A} (m : async A) handler :
  preserves m → (∀ e, preserves (handler e)) → preserves (catch m handler).
Proof. intros Hm Hf k h Hk Hh. apply Hm; [done|]. intros e. by apply Hf. Qed.

Lemma preserves_finally {A} (m : async A) f :
  preserves m → preserves f → preserves (finally m f).
Proof. intros Hm Hf k h Hk Hh. apply Hm; intros x; apply Hf; intros; by auto. Qed.

Lemma preserves_await c : preserves (await c).
Proof.
  intros k h Hk Hh w Hw. split; [done|]. constructor; intros [a|e] w' Hw'; by (apply Hk || apply Hh).
Qed.

Lemma preserves_state : preserves state.
Proof. intros k h Hk Hh w Hw. by apply Hk. Qed.

Lemma preserves_modify f : (∀ w, I w → I (f w)) → preserves (modify f).
Proof. intros Hf k h Hk Hh w Hw. apply Hk. by apply Hf. Qed.

(** Reading the state: what follows may use that the invariant holds of it. *)
Lemma preserves_state_bind {A} (f : S → async A) :
  (∀ w, I w → preserves (f w)) → preserves (bind state f).
Proof. intros Hf k h Hk Hh w Hw. by apply (Hf w Hw). Qed.

(** The same from a given state, which need not satisfy [I] between two awaits. *)
Definition keeps_at {A} (w : S) (m : async A) : Prop :=
  ∀ k h, (∀ a, cont_keeps (k a)) → (∀ e, cont_keeps (h e)) → I (m k h w).1 ∧ keeps (m k h w).2.

Lemma preserves_at {A} (m : async A) : (∀ w, I w → keeps_at w m) → preserves m.
Proof. intros Hm k h Hk Hh w Hw. by apply Hm. Qed.

Lemma at_preserves {A} w (m : async A) : I w → preserves m → keeps_at w m.
Proof. intros Hw Hm k h Hk Hh. by apply Hm. Qed.

Lemma at_ret {A} w (a : A) : I w → keeps_at w (ret a).
Proof. intros Hw k h Hk Hh. by apply Hk. Qed.

Lemma at_throw {A} w e : I w → keeps_at w (throw (A := A) e).
Proof. intros Hw k h Hk Hh. by apply Hh. Qed.

Lemma at_modify w f : I (f w) → keeps_at w (modify f).
Proof. intros Hw k h Hk Hh. by apply Hk. Qed.

Lemma at_modify_bind {A} w f (g : unit → async A) : keeps_at (f w) (g tt) → keeps_at w (bind (modify f) g).
Proof. done. Qed.

Lemma at_state_bind {A} w (g : S → async A) : keeps_at w (g w) → keeps_at w (bind state g).
Proof. done. Qed.

Lemma at_ret_bind {A B} w (a : A) (g : A → async B) : keeps_at w (g a) → keeps_at w (bind (ret a) g).
Proof. done. Qed.

Lemma at_assoc {A B C} w (m : async A) (f : A → async B) (g : B → async C) :
  keeps_at w (bind m (λ a, bind (f a) g)) → keeps_at w (bind (bind m f) g).
Proof. done. Qed.

Lemma at_catch {A} w (m : async A) handler :
  keeps_at w m → (∀ e, preserves (handler e)) → keeps_at w (catch m handler).
Proof. intros Hm Hf k h Hk Hh. apply Hm; [done|]. intros e. by apply Hf. Qed.

Lemma at_finally {A} w (m : async A) f :
  keeps_at w m → preserves f → keeps_at w (finally m f).
Proof. intros Hm Hf k h Hk Hh. apply Hm; intros x; apply Hf; intros; by auto. Qed.

Lemma at_bind {A B} w (m : async A) (g : A → async B) :
  keeps_at w m → (∀ a, preserves (g a)) → keeps_at w (bind m g).
Proof. intros Hm Hg k h Hk Hh. apply Hm; [|done]. intros a. by apply Hg. Qed.

Definition world_keeps (x : world) : Prop := I x.1 ∧ Forall keeps x.2.

Lemma world_keeps_step handlers x y :
  (∀ m, handlers m → preserves m) → world_keeps x → world_step handlers x y → world_keeps y.
Proof.
  intros Hh [Hi Ht] Hs. destruct Hs as [m s ts s' t Hm Er|s ts i c k r s' t Hk Er]; cbn in *.
  - specialize (Hh m Hm (λ _ w, (w, Finished)) (λ e w, (w, Unhandled e))).
  assert (Hr : I (run m s).1 ∧ keeps (run m s).2).
  { apply Hh; [| |done]; intros ? w Hw; split; by try constructor. }
  rewrite Er in Hr. destruct Hr. split; [done|]. apply Forall_app. split; [done|]. by constructor.
  - rewrite Forall_lookup in Ht. specialize (Ht i _ Hk) as Hkeep. inversion Hkeep as [| |c' k' H1 H2]; subst.
  specialize (H1 r s Hi). specialize (H2 r s Hi). rewrite Er in H1, H2. split; [done|].
  apply Forall_insert; [by apply Forall_lookup|done].
Qed.

(** Every interleaving of handlers and replies keeps the invariant. *)
Lemma world_invariant handlers x y :
  (∀ m, handlers m → preserves m) → world_keeps x → rtc (world_step handlers) x y → world_keeps y.
Proof. intros Hh Hx Hs. induction Hs; [done|]. by eauto using world_keeps_step. Qed.
End invariant.
End async.

Arguments task : clear implicits.
Arguments async : clear implicits.
Arguments world : clear implicits.
Arguments action : clear implicits.

Declare Scope async_scope.
Delimit Scope async_scope with async.
Notation "'let*' x := m 'in' f" := (bind m (λ x, f%async))
  (at level 10, x name, m at level 100, f at level 200) : async_scope.
Notation "'do*' m 'in' f" := (bind m (λ _, f%async))
  (at level 10, m at level 100, f at level 200) : async_scope.

Create HintDb async.
#[export] Hint Resolve preserves_ret preserves_throw preserves_bind preserves_catch preserves_finally
  preserves_await preserves_state : async.

(** The structural part of a proof that a program keeps an invariant. *)
Ltac preserves_step :=
  lazymatch goal with
  | |- preserves _ (bind state _) => apply preserves_state_bind; intros ? ?
  | |- preserves _ (bind _ _) => apply preserves_bind; [|intros ?]
  | |- preserves _ (catch _ _) => apply preserves_catch; [|intros ?]
  | |- preserves _ (finally _ _) => apply preserves_finally
  | |- preserves _ (ret _) => apply preserves_ret
  | |- preserves _ (throw _) => apply preserves_throw
  | |- preserves _ (await _) => apply preserves_await
  | |- preserves _ state => apply preserves_state
  | |- preserves _ (modify _) => apply preserves_modify; intros ? ?
  | |- preserves _ (match ?x with _ => _ end) => destruct x eqn:?
  end.
