(* ===== verification/Ui.v ===== *)
(** * Interfaces

    A page shows elements whose events are its programs.  The elements that it gives the
    shell (its sidebar, its details) may be those of an earlier rendering; the state of the
    components in them is the current one.  [after] is what
    React does after an update: it mounts and unmounts dialogs and runs effects.  [answers]
    restricts the replies to a call.  The rules show an invariant of the state together with
    a property of every call, in the state in which the call is made. *)
From S2P Require Import Prelude JsString Async View.

Section ui.
Context {S Call Reply E : Type}.
Abbreviation program := (async S Call Reply E unit).
Context (shown : S → view program) (slots : S → S → view program) (after : S → S) (answers : Call → Reply + E → Prop).

(** The state, the renderings the shell may still show, the programs that wait. *)
Record ui := MkUi { ui_state : S; ui_rendered : list S; ui_tasks : list (task S Call Reply E) }.

(** An update ends with a rendering. *)
Definition commit_at (x : ui) (s : S) (ts : list (task S Call Reply E)) : ui :=
  MkUi (after s) (after s :: ui_rendered x) ts.

(** A step, and the state and call at which its program stops. *)
Inductive ui_step (x : ui) : ui → S → option Call → Prop :=
| ui_page m s t :
  offers (shown (ui_state x)) m → run m (ui_state x) = (s, t) →
  ui_step x (commit_at x s (ui_tasks x ++ [t])) s (awaited t)
| ui_slot r m s t :
  r ∈ ui_rendered x → offers (slots r (ui_state x)) m → run m (ui_state x) = (s, t) →
  ui_step x (commit_at x s (ui_tasks x ++ [t])) s (awaited t)
| ui_reply i c k r s t :
  ui_tasks x !! i = Some (Await c k) → answers c r → k r (ui_state x) = (s, t) →
  ui_step x (commit_at x s (<[i := t]> (ui_tasks x))) s (awaited t).
Definition ui_next (x y : ui) : Prop := ∃ s c, ui_step x y s c.

(** ** Scripts *)

Inductive move :=
| Press (label : jstr)
| PressSlot (label : jstr)
| Do (g : Gesture)
| Fill (label text : jstr)
| AnswerSlot (label : jstr) (answer : option jstr)
| SubmitForm
| Answer (i : nat) (r : Reply + E).

Definition start (m : program) (x : ui) : ui :=
  let '(s, t) := run m (ui_state x) in commit_at x s (ui_tasks x ++ [t]).
Definition play_one (x : ui) (m : move) : option ui :=
  match m with
  | Press label => p ← press label (shown (ui_state x)); Some (start p x)
  | PressSlot label => r ← head (ui_rendered x); p ← press label (slots r (ui_state x)); Some (start p x)
  | Do g => p ← gesture g (shown (ui_state x)); Some (start p x)
  | AnswerSlot label a => r ← head (ui_rendered x); p ← answer_to label a (slots r (ui_state x)); Some (start p x)
  | Fill label text => p ← fill label text (shown (ui_state x)); Some (start p x)
  | SubmitForm => p ← submission (shown (ui_state x)); Some (start p x)
  | Answer i r =>
      match ui_tasks x !! i with
      | Some (Await c k) => let '(s, t) := k r (ui_state x) in Some (commit_at x s (<[i := t]> (ui_tasks x)))
      | _ => None
      end
  end.
Definition play (ms : list move) (x : ui) : option ui := foldl (λ x m, x ≫= λ x, play_one x m) (Some x) ms.

(** A script whose replies are expected is an interleaving. *)
Definition expected_move (m : move) : Prop := match m with Answer _ r => ∀ c, answers c r | _ => True end.
Lemma play_one_expected m x y : expected_move m → play_one x m = Some y → ui_next x y.
Proof.
  intros Ha. assert (Hs : ∀ p, offers (shown (ui_state x)) p → ui_next x (start p x)).
  { intros p Hp. unfold start. destruct (run p _) as [s t] eqn:Er. eexists _, _. by econstructor. }
  assert (Hl : ∀ r p, head (ui_rendered x) = Some r → offers (slots r (ui_state x)) p → ui_next x (start p x)).
  { intros r p Hr Hp. unfold start. destruct (run p _) as [s t] eqn:Er. eexists _, _. apply (ui_slot x r p); [|done..].
    destruct (ui_rendered x); [done|]. injection Hr as ->. by left. }
  destruct m as [l|l|g|l text|l a| |i r]; cbn in *.
  - intros (p & Hp%press_offered & [= <-])%bind_Some. by apply Hs.
  - intros (r & Hr & (p & Hp%press_offered & [= <-])%bind_Some)%bind_Some. by eapply Hl.
  - intros (p & Hp%gesture_offered & [= <-])%bind_Some. by apply Hs.
  - intros (p & Hp%fill_offered & [= <-])%bind_Some. by apply Hs.
  - intros (r & Hr & (p & Hp%answer_offered & [= <-])%bind_Some)%bind_Some. by eapply Hl.
  - intros (p & Hp%submission_offered & [= <-])%bind_Some. by apply Hs.
  - destruct (ui_tasks x !! i) as [[| |c k]|] eqn:Ei; try done. destruct (k r _) as [s t] eqn:Ek. intros [= <-].
    eexists _, _. by eapply ui_reply.
Qed.
Lemma play_expected ms x y : Forall expected_move ms → play ms x = Some y → rtc ui_next x y.
Proof.
  intros Ha. revert x. unfold play. induction Ha as [|m ms Hm _ IH]; intros x; cbn; [intros [= ->]; apply rtc_refl|].
  destruct (play_one x m) as [z|] eqn:Em; [|clear; induction ms; done].
  intros Hy. eapply rtc_l; [by eapply play_one_expected|by apply IH].
Qed.
Lemma play_reachable ms x y : (∀ c r, answers c r) → play ms x = Some y → rtc ui_next x y.
Proof. intros Ha. apply play_expected, Forall_forall. intros [] _; cbn; auto. Qed.

Section rules.
Context (I : S → Prop) (C : S → Call → Prop).

Definition asked (x : S * task S Call Reply E) : Prop := ∀ c, awaited x.2 = Some c → C x.1 c.
(** A program that keeps [I] and makes calls with [C]. *)
Inductive asks : task S Call Reply E → Prop :=
| asks_finished : asks Finished
| asks_unhandled e : asks (Unhandled e)
| asks_await c k :
  (∀ r w, answers c r → I w → I (k r w).1 ∧ asked (k r w)) → (∀ r w, answers c r → I w → asks (k r w).2) → asks (Await c k).
Definition good (x : S * task S Call Reply E) : Prop := I x.1 ∧ asked x ∧ asks x.2.
Definition cont_good (k : cont) : Prop := ∀ w, I w → good (k w).
(** The part of a program that starts at [w]; [I] may be broken there. *)
Definition proper {A} (w : S) (m : async S Call Reply E A) : Prop :=
  ∀ k h, (∀ a, cont_good (k a)) → (∀ e, cont_good (h e)) → good (m k h w).
Definition proper_always {A} (m : async S Call Reply E A) : Prop := ∀ w, I w → proper w m.

Lemma proper_ret {A} w (a : A) : I w → proper w (ret a).
Proof. intros Hw k h Hk _. by apply Hk. Qed.
Lemma proper_throw {A} w e : I w → proper w (throw (A := A) e).
Proof. intros Hw k h _ Hh. by apply Hh. Qed.
Lemma proper_modify w f : I (f w) → proper w (modify f).
Proof. intros Hw k h Hk _. by apply Hk. Qed.
Lemma proper_state w : I w → proper w state.
Proof. intros Hw k h Hk _. by apply Hk. Qed.
(** An awaited call, with what its replies may be. *)
Lemma proper_await_bind {B} w c (f : Reply → async S Call Reply E B) :
  I w → C w c → (∀ r, answers c (inl r) → proper_always (f r)) → proper w (bind (await c) f).
Proof.
  intros Hw Hc Hf k h Hk Hh. split_and!; [done|by intros c' [= <-]|]. constructor; intros [a|e] w' Hr Hw'.
  - destruct (Hf a Hr w' Hw' k h Hk Hh) as (? & ? & ?). by split.
  - destruct (Hh e w' Hw') as (? & ? & ?). by split.
  - by destruct (Hf a Hr w' Hw' k h Hk Hh) as (? & ? & ?).
  - by destruct (Hh e w' Hw') as (? & ? & ?).
Qed.
Lemma proper_await w c : I w → C w c → proper w (await c).
Proof.
  intros Hw Hc k h Hk Hh. split_and!; [done|by intros c' [= <-]|].
  constructor; intros [a|e] w' _ Hw'; (destruct (Hk a w' Hw') as (? & ? & ?) || destruct (Hh e w' Hw') as (? & ? & ?)); by try split.
Qed.
Lemma proper_bind {A B} w (m : async S Call Reply E A) (f : A → async S Call Reply E B) :
  proper w m → (∀ a, proper_always (f a)) → proper w (bind m f).
Proof. intros Hm Hf k h Hk Hh. apply Hm; [|done]. intros a w' Hw'. by apply Hf. Qed.
Lemma proper_modify_bind {B} w f (g : unit → async S Call Reply E B) : proper (f w) (g tt) → proper w (bind (modify f) g).
Proof. done. Qed.
Lemma proper_state_bind {B} w (g : S → async S Call Reply E B) : proper w (g w) → proper w (bind state g).
Proof. done. Qed.
Lemma proper_ret_bind {A B} w (a : A) (g : A → async S Call Reply E B) : proper w (g a) → proper w (bind (ret a) g).
Proof. done. Qed.
Lemma proper_throw_bind {A B} w e (g : A → async S Call Reply E B) : I w → proper w (bind (throw e) g).
Proof. intros Hw k h _ Hh. by apply Hh. Qed.
Lemma proper_assoc {A B D} w (m : async S Call Reply E A) (f : A → async S Call Reply E B) (g : B → async S Call Reply E D) :
  proper w (bind m (λ a, bind (f a) g)) → proper w (bind (bind m f) g).
Proof. done. Qed.
Lemma proper_catch {A} w (m : async S Call Reply E A) f : proper w m → (∀ e, proper_always (f e)) → proper w (catch m f).
Proof. intros Hm Hf k h Hk Hh. apply Hm; [done|]. intros e w' Hw'. by apply Hf. Qed.
Lemma proper_finally {A} w (m : async S Call Reply E A) f : proper w m → proper_always f → proper w (finally m f).
Proof. intros Hm Hf k h Hk Hh. apply Hm; intros x w' Hw'; apply Hf; intros; by auto. Qed.

(** Every interleaving of what is offered, and of replies, keeps [I], and calls have [C].
    A rendered state has [J] as well. *)
Context (J : S → Prop) (HJ : ∀ w, J w → I w).
Definition ui_good (x : ui) : Prop := J (ui_state x) ∧ Forall J (ui_rendered x) ∧ Forall asks (ui_tasks x).

Context (Hafter : ∀ w, I w → J (after w)).
Context (Hshown : ∀ w, J w → every (proper w) (shown w)).
Context (Hslots : ∀ r w, J r → J w → every (proper w) (slots r w)).

(** A program that keeps [I] when every reply is expected and nothing is asked of the calls. *)
Lemma preserves_proper {A} (m : async S Call Reply E A) :
  (∀ c r, answers c r) → (∀ w c, C w c) → preserves I m → proper_always m.
Proof.
  intros Ha Hc Hm w Hw k h Hk Hh.
  assert (Hkeeps : ∀ t, asks t → keeps I t).
  { clear -Ha. intros t Ht. induction Ht as [|e|c k H1 H2 IH]; constructor; intros r w' Hw'; [by apply H1|by apply IH]. }
  assert (Hasks : ∀ t, keeps I t → asks t).
  { clear -Hc. intros t Ht. induction Ht as [|e|c k H1 H2 IH]; constructor; intros r w' Hr Hw'; [|by apply IH].
    split; [by apply H1|]. by intros c' _. }
  destruct (Hm k h) with (w := w) as [H1 H2]; [..|done|].
  - intros a w' Hw'. destruct (Hk a w' Hw') as (? & _ & ?). split; [done|by apply Hkeeps].
  - intros e w' Hw'. destruct (Hh e w' Hw') as (? & _ & ?). split; [done|by apply Hkeeps].
  - split_and!; [done|by intros c _|by apply Hasks].
Qed.

Lemma run_good m w : I w → proper w m → good (run m w).
Proof. intros Hw Hm. apply Hm; intros x w' Hw'; (split_and!; [done|by intros c|constructor]). Qed.

Lemma ui_step_good x y s c : ui_good x → ui_step x y s c → ui_good y ∧ (∀ c', c = Some c' → C s c').
Proof.
  intros (Hs & Hr & Ht) Hstep.
  assert (Hend : ∀ s t ts, good (s, t) → Forall asks ts → ui_good (commit_at x s ts) ∧ (∀ c', awaited t = Some c' → C s c')).
  { intros s' t' ts (Hi & Hc & _) Hts. split; [|done]. split_and!; [by apply Hafter| |done]. constructor; [by apply Hafter|done]. }
  destruct Hstep as [m s t Hm Er|r m s t Hin Hm Er|i c k r s t Hi Hans Er].
  - pose proof (run_good m _ (HJ _ Hs) (proj1 (every_offers _ _) (Hshown _ Hs) m Hm)) as Hg. rewrite Er in Hg. apply (Hend s t); [done|].
    apply Forall_app. split; [done|]. destruct Hg as (_ & _ & Ha). by constructor.
  - assert (Ir : J r) by (by eapply Forall_forall in Hr).
    pose proof (run_good m _ (HJ _ Hs) (proj1 (every_offers _ _) (Hslots _ _ Ir Hs) m Hm)) as Hg. rewrite Er in Hg. apply (Hend s t); [done|].
    apply Forall_app. split; [done|]. destruct Hg as (_ & _ & Ha). by constructor.
  - rewrite Forall_lookup in Ht. pose proof (Ht _ _ Hi) as Ha. inversion Ha as [| |c' k' H1 H2]; subst.
    specialize (H1 r _ Hans (HJ _ Hs)). specialize (H2 r _ Hans (HJ _ Hs)). rewrite Er in H1, H2. destruct H1.
    apply (Hend s t); [done|]. apply Forall_insert; [by apply Forall_lookup|done].
Qed.

Lemma ui_invariant x y : ui_good x → rtc ui_next x y → ui_good y.
Proof. intros Hx Hr. induction Hr as [|x y z (s & c & Hs) _ IH]; [done|]. apply IH. by eapply ui_step_good. Qed.
Lemma ui_calls x y z s c : ui_good x → rtc ui_next x y → ui_step y z s (Some c) → C s c.
Proof. intros Hx Hr Hs. eapply (ui_step_good y); [by eapply ui_invariant|done|done]. Qed.
Lemma ui_start s : J s → ui_good (MkUi s [s] []).
Proof. intros Hs. split_and!; [done|by constructor|constructor]. Qed.
End rules.
End ui.
Arguments ui : clear implicits.

(** What is reached when replies are restricted is reached when they are not. *)
Lemma ui_unrestricted {S Call Reply E} shown slots after answers (x y : ui S Call Reply E) :
  rtc (ui_next shown slots after answers) x y → rtc (ui_next shown slots after (λ _ _, True)) x y.
Proof.
  induction 1 as [|x y z (s & c & Hs) _ IH]; [done|]. eapply rtc_l; [|exact IH]. exists s, c. inversion Hs; subst; by econstructor.
Qed.
Arguments move : clear implicits.

(** The structural part of a proof that a program is proper. *)
Ltac proper_step :=
  lazymatch goal with
  | |- proper_always _ _ _ _ => intros ? ?
  | |- proper _ _ _ _ (bind (bind _ _) _) => apply proper_assoc
  | |- proper _ _ _ _ (bind (modify _) _) => apply proper_modify_bind
  | |- proper _ _ _ _ (bind state _) => apply proper_state_bind
  | |- proper _ _ _ _ (bind (ret _) _) => apply proper_ret_bind
  | |- proper _ _ _ _ (bind (throw _) _) => apply proper_throw_bind
  | |- proper _ _ _ _ (bind (match ?x with _ => _ end) _) => destruct x eqn:?
  | |- proper _ _ _ _ (bind (await _) _) => apply proper_await_bind; [| |intros ? ?]
  | |- proper _ _ _ _ (bind _ _) => apply proper_bind; [|intros ?]
  | |- proper _ _ _ _ (catch _ _) => apply proper_catch; [|intros ?]
  | |- proper _ _ _ _ (finally _ _) => apply proper_finally
  | |- proper _ _ _ _ (ret _) => apply proper_ret
  | |- proper _ _ _ _ (throw _) => apply proper_throw
  | |- proper _ _ _ _ (await _) => apply proper_await
  | |- proper _ _ _ _ (modify _) => apply proper_modify
  | |- proper _ _ _ _ (match ?x with _ => _ end) => destruct x eqn:?
  end.
