(* ===== verification/History.v ===== *)
(** * Query history

    [src/web/src/features/history/store.ts]: the entries kept in local storage.  The
    storage holds either what the module wrote, kept here as the list of entries, or
    something that does not parse ([None]); identifiers and times come from the host. *)
From S2P Require Import Prelude JsString JsNumber.

Inductive HistoryStatus := Succeeded | Errored.
#[export] Instance HistoryStatus_eq_dec : EqDecision HistoryStatus.
Proof. solve_decision. Defined.

Record NewHistoryEntry := MkNewEntry {
  ne_sql : jstr;
  ne_connectionName : jstr;
  ne_durationMs : option number;
  ne_status : HistoryStatus;
  ne_affectedRows : option number;
}.

Record HistoryEntry := MkEntry {
  he_id : jstr;
  he_timestamp : number;
  he_entry : NewHistoryEntry;
  he_favorite : bool;
}.

(** The parsed content of the key; absent or unreadable storage is [None]. *)
Abbreviation storage := (option (list HistoryEntry)).

Definition listHistory (s : storage) : list HistoryEntry := default [] s.

Definition addHistory (id : jstr) (now : number) (entry : NewHistoryEntry) (s : storage)
    : storage * HistoryEntry :=
  let record := MkEntry id now entry false in
  (Some (take 500 (record :: listHistory s)), record).

Definition toggleFavorite (id : jstr) (s : storage) : storage :=
  Some (update_where (λ entry, bool_decide (he_id entry = id))
          (λ entry, MkEntry (he_id entry) (he_timestamp entry) (he_entry entry) (negb (he_favorite entry)))
          (listHistory s)).

Definition clearHistory (s : storage) : storage := None.

(** ** Properties *)

Lemma toggle_ids id s : he_id <$> listHistory (toggleFavorite id s) = he_id <$> listHistory s.
Proof. by apply update_where_fmap. Qed.

Lemma addHistory_ids id now e s :
  NoDup (he_id <$> listHistory s) → id ∉ he_id <$> listHistory s →
  NoDup (he_id <$> listHistory (addHistory id now e s).1).
Proof.
  intros Hnd Hid. unfold addHistory. cbn [fst listHistory from_option Datatypes.id].
  rewrite fmap_take. apply sublist_NoDup with (he_id <$> (MkEntry id now e false :: listHistory s)).
  - cbn. by apply list.NoDup_cons.
  - apply sublist_take.
Qed.

(** The history keeps the newest 500 entries, newest first: an addition puts its
    entry in front, drops at most the oldest and keeps identifiers distinct; marking a
    favourite twice changes nothing, keeps order and identifiers, and touches one entry. *)
Theorem history_spec id now e s :
  NoDup (he_id <$> listHistory s) → id ∉ he_id <$> listHistory s → length (listHistory s) ≤ 500 →
  let '(s', entry) := addHistory id now e s in
  length (listHistory s') = Nat.min 500 (S (length (listHistory s)))
  ∧ listHistory s' !! 0 = Some entry
  ∧ (∀ k, k < 499 → listHistory s' !! (S k) = listHistory s !! k)
  ∧ NoDup (he_id <$> listHistory s')
  ∧ (∀ f, listHistory (toggleFavorite f (toggleFavorite f s')) = listHistory s')
  ∧ (∀ f k x, listHistory s' !! k = Some x → he_id x ≠ f → listHistory (toggleFavorite f s') !! k = Some x).
Proof.
  intros Hnd Hid Hlen. unfold addHistory. split_and!.
  - cbn [listHistory from_option Datatypes.id]. rewrite length_take. done.
  - done.
  - intros k Hk. cbn [listHistory from_option Datatypes.id]. by rewrite lookup_take_lt by lia.
  - by apply addHistory_ids.
  - intros f. generalize (take 500 (MkEntry id now e false :: listHistory s)) as l. intros l.
    unfold toggleFavorite, update_where. cbn [listHistory from_option Datatypes.id].
    rewrite <- list_fmap_compose. rewrite <- (list_fmap_id l) at 2. apply list_fmap_ext.
    intros i [xid t x fav] _. cbn. destruct (decide (xid = f)).
    + rewrite !bool_decide_eq_true_2; cbn; rewrite ?bool_decide_eq_true_2 by done; by rewrite ?negb_involutive.
    + by rewrite !bool_decide_eq_false_2; cbn; rewrite ?bool_decide_eq_false_2.
  - intros f k x. generalize (take 500 (MkEntry id now e false :: listHistory s)) as l. intros l Hx Hne.
    unfold toggleFavorite, update_where. cbn [listHistory from_option Datatypes.id] in *.
    rewrite list_lookup_fmap, Hx. cbn. by rewrite bool_decide_eq_false_2.
Qed.

Lemma history_spec_witness :
  let e := MkNewEntry "select 1"%js "local"%js None Errored None in
  let '(s', entry) := addHistory "id"%js (num 5) e None in
  length (listHistory s') = 1 ∧ listHistory s' !! 0 = Some entry.
Proof.
  destruct (history_spec "id"%js (num 5) (MkNewEntry "select 1"%js "local"%js None Errored None) None)
    as (Hl & H0 & _); [apply NoDup_nil_2 | apply not_elem_of_nil | vm_compute; lia |].
  split; [exact Hl | exact H0].
Defined.
