(* ===== verification/Workbench.v ===== *)
(** * The database workbench

    The state and handlers of [src/web/src/app/DatabaseWorkbench.tsx].  The component's
    [useState] variables are the fields of [WB]; [tabsRef.current], which the source
    keeps equal to the latest tabs, is read from the state.  A handler has as
    its first argument the rendering it closes over, whose values it uses after its awaits
    too, as the source's closures do; what goes through [tabsRef] or an updater is read
    from the state. *)
From S2P Require Import Prelude JsString JsNumber JsValue Api Ddl Risk TableQuery TableMutations TableView Id Controls CreateTable FilterBuilder Tabs TableGrid Async History.

(** ** State *)

Record WorkbenchTarget := MkTarget { target_id : jstr; target_name : jstr; target_driver : option DriverId }.

Inductive NoticeTone := Info | Error.
Inductive SessionState := SessionLoading | SessionReady | SessionError.
#[export] Instance SessionState_eq_dec : EqDecision SessionState.
Proof. solve_decision. Defined.

Record Conn := MkConn {
  connectionId : jstr;
  activeSavedId : jstr;
  connectingId : jstr;
  sessionState : SessionState;
  connectionNotice : option (NoticeTone * jstr);
}.

Record Db := MkDb {
  activeDatabase : jstr;
  databases : list jstr;
  objects : list DatabaseObject;
  switchingDatabase : bool;
}.

Record Ws := MkWs {
  tabs : list WorkspaceTab;
  activeTabId : jstr;
  queryTabCounter : number;
  redisConsoleCounter : number;
  structureTabId : jstr;
  dirtySchemaTabs : gset jstr;
  selectedRedisKey : jstr;
  querySchema : jstr;
  queryTable : jstr;
}.

(** What the components inside keep while they are shown: the table view, its filter panel
    (with the rules and the first column it was last given), the typed target of the risk
    dialog, the dialog of a new table, the list of databases (the current one it was last
    given, whether it is expanded, its menu), the menu of the object tree and the search of
    the resource rail. *)
Record Views := MkViews {
  vw_grid : Grid;
  vw_filter : option (list TableFilterRule * jstr * Builder);
  vw_target : jstr;
  vw_create : option CreateDialog;
  vw_switcher : option (jstr * bool * option jstr);
  vw_tree : option DatabaseObject;
  vw_rail : jstr;
}.
Definition initial_views : Views := MkViews initial_grid None [] None None None [].

Record WB := MkWB {
  conn : Conn;
  db : Db;
  ws : Ws;
  risk : option QueryRisk;
  transactionId : jstr;
  createTableDialog : option jstr;
  history : storage;
  next_id : nat;
  views : Views;
}.

(** The setters of the [useState] variables. *)
Definition set_conn f (w : WB) := MkWB (f (conn w)) (db w) (ws w) (risk w) (transactionId w) (createTableDialog w) (history w) (next_id w) (views w).
Definition set_db f (w : WB) := MkWB (conn w) (f (db w)) (ws w) (risk w) (transactionId w) (createTableDialog w) (history w) (next_id w) (views w).
Definition set_ws f (w : WB) := MkWB (conn w) (db w) (f (ws w)) (risk w) (transactionId w) (createTableDialog w) (history w) (next_id w) (views w).
Definition setRisk r (w : WB) := MkWB (conn w) (db w) (ws w) r (transactionId w) (createTableDialog w) (history w) (next_id w) (views w).
Definition set_transaction t (w : WB) := MkWB (conn w) (db w) (ws w) (risk w) t (createTableDialog w) (history w) (next_id w) (views w).
Definition setCreateTableDialog d (w : WB) := MkWB (conn w) (db w) (ws w) (risk w) (transactionId w) d (history w) (next_id w) (views w).
Definition set_history f (w : WB) := MkWB (conn w) (db w) (ws w) (risk w) (transactionId w) (createTableDialog w) (f (history w)) (next_id w) (views w).
Definition take_id (w : WB) := MkWB (conn w) (db w) (ws w) (risk w) (transactionId w) (createTableDialog w) (history w) (S (next_id w)) (views w).
Definition set_views f (w : WB) := MkWB (conn w) (db w) (ws w) (risk w) (transactionId w) (createTableDialog w) (history w) (next_id w) (f (views w)).
(** Taking identifiers up to [n]. *)
Definition take_ids (n : nat) (w : WB) := MkWB (conn w) (db w) (ws w) (risk w) (transactionId w) (createTableDialog w) (history w) n (views w).

Definition set_grid f := set_views (λ s, MkViews (f (vw_grid s)) (vw_filter s) (vw_target s) (vw_create s) (vw_switcher s) (vw_tree s) (vw_rail s)).
Definition set_filter x := set_views (λ s, MkViews (vw_grid s) x (vw_target s) (vw_create s) (vw_switcher s) (vw_tree s) (vw_rail s)).
Definition set_target x := set_views (λ s, MkViews (vw_grid s) (vw_filter s) x (vw_create s) (vw_switcher s) (vw_tree s) (vw_rail s)).
Definition set_create f := set_views (λ s, MkViews (vw_grid s) (vw_filter s) (vw_target s) (f (vw_create s)) (vw_switcher s) (vw_tree s) (vw_rail s)).
Definition set_switcher f := set_views (λ s, MkViews (vw_grid s) (vw_filter s) (vw_target s) (vw_create s) (f (vw_switcher s)) (vw_tree s) (vw_rail s)).
Definition set_tree x := set_views (λ s, MkViews (vw_grid s) (vw_filter s) (vw_target s) (vw_create s) (vw_switcher s) x (vw_rail s)).
Definition set_rail x := set_views (λ s, MkViews (vw_grid s) (vw_filter s) (vw_target s) (vw_create s) (vw_switcher s) (vw_tree s) x).

Definition setConnectionId x := set_conn (λ c, MkConn x (activeSavedId c) (connectingId c) (sessionState c) (connectionNotice c)).
Definition setActiveSavedId x := set_conn (λ c, MkConn (connectionId c) x (connectingId c) (sessionState c) (connectionNotice c)).
Definition setConnectingId x := set_conn (λ c, MkConn (connectionId c) (activeSavedId c) x (sessionState c) (connectionNotice c)).
Definition setSessionState x := set_conn (λ c, MkConn (connectionId c) (activeSavedId c) (connectingId c) x (connectionNotice c)).
Definition setConnectionNotice x := set_conn (λ c, MkConn (connectionId c) (activeSavedId c) (connectingId c) (sessionState c) x).

Definition setActiveDatabase x := set_db (λ d, MkDb x (databases d) (objects d) (switchingDatabase d)).
Definition setDatabases x := set_db (λ d, MkDb (activeDatabase d) x (objects d) (switchingDatabase d)).
Definition setObjects x := set_db (λ d, MkDb (activeDatabase d) (databases d) x (switchingDatabase d)).
Definition setSwitchingDatabase x := set_db (λ d, MkDb (activeDatabase d) (databases d) (objects d) x).

Definition setTabs f := set_ws (λ s, MkWs (f (tabs s)) (activeTabId s) (queryTabCounter s) (redisConsoleCounter s) (structureTabId s) (dirtySchemaTabs s) (selectedRedisKey s) (querySchema s) (queryTable s)).
Definition setActiveTabId x := set_ws (λ s, MkWs (tabs s) x (queryTabCounter s) (redisConsoleCounter s) (structureTabId s) (dirtySchemaTabs s) (selectedRedisKey s) (querySchema s) (queryTable s)).
Definition setQueryTabCounter f := set_ws (λ s, MkWs (tabs s) (activeTabId s) (f (queryTabCounter s)) (redisConsoleCounter s) (structureTabId s) (dirtySchemaTabs s) (selectedRedisKey s) (querySchema s) (queryTable s)).
Definition setRedisConsoleCounter f := set_ws (λ s, MkWs (tabs s) (activeTabId s) (queryTabCounter s) (f (redisConsoleCounter s)) (structureTabId s) (dirtySchemaTabs s) (selectedRedisKey s) (querySchema s) (queryTable s)).
Definition setStructureTabId x := set_ws (λ s, MkWs (tabs s) (activeTabId s) (queryTabCounter s) (redisConsoleCounter s) x (dirtySchemaTabs s) (selectedRedisKey s) (querySchema s) (queryTable s)).
Definition setDirtySchemaTabs f := set_ws (λ s, MkWs (tabs s) (activeTabId s) (queryTabCounter s) (redisConsoleCounter s) (structureTabId s) (f (dirtySchemaTabs s)) (selectedRedisKey s) (querySchema s) (queryTable s)).
Definition setSelectedRedisKey x := set_ws (λ s, MkWs (tabs s) (activeTabId s) (queryTabCounter s) (redisConsoleCounter s) (structureTabId s) (dirtySchemaTabs s) x (querySchema s) (queryTable s)).
Definition setQuerySchema x := set_ws (λ s, MkWs (tabs s) (activeTabId s) (queryTabCounter s) (redisConsoleCounter s) (structureTabId s) (dirtySchemaTabs s) (selectedRedisKey s) x (queryTable s)).
Definition setQueryTable x := set_ws (λ s, MkWs (tabs s) (activeTabId s) (queryTabCounter s) (redisConsoleCounter s) (structureTabId s) (dirtySchemaTabs s) (selectedRedisKey s) (querySchema s) x).

(** ** Calls of the API client *)

Record QueryOptions := MkQueryOptions {
  confirmed : option bool;
  confirmationTarget : option jstr;
  qo_transactionId : option jstr;
}.

Inductive Call :=
| listDatabases (connection : jstr)
| switchDatabase_ (connection database : jstr)
| metadata (connection : jstr)
| startQuery (connection sql : jstr) (options : QueryOptions)
| queryResult (connection queryId : jstr)
| disconnect (connection : jstr)
| connectSaved (id : jstr)
| createSession
| cancelQuery (connection queryId : jstr)
| beginTransaction (connection : jstr)
| finishTransaction (connection transaction : jstr) (commit : bool)
| mutate (connection : jstr) (schema : option jstr) (table : jstr) (m : Mutation) (transaction : option jstr)
| exportCSV (connection queryId : jstr)
| sleep (ms : Z).

Inductive Reply :=
| RDatabases (names : list jstr) (current : jstr)
| RName (name : jstr)
| RObjects (objects : list DatabaseObject)
| RPage (page : QueryResult)
| RConnected (connection database : jstr)
| RVoid.

Abbreviation handler := (async WB Call Reply error).
#[local] Open Scope async_scope.

(** [error instanceof Error ? error.message : fallback]. *)
Definition message_of (e : error) (fallback : jstr) : jstr := default fallback e.

(** Each method of the client decodes its own kind of answer. *)
Definition call_databases (c : Call) : handler (list jstr * jstr) :=
  let* r := await c in match r with RDatabases l x => ret (l, x) | _ => throw None end.
Definition call_name (c : Call) : handler jstr :=
  let* r := await c in match r with RName x => ret x | _ => throw None end.
Definition call_objects (c : Call) : handler (list DatabaseObject) :=
  let* r := await c in match r with RObjects x => ret x | _ => throw None end.
Definition call_page (c : Call) : handler QueryResult :=
  let* r := await c in match r with RPage x => ret x | _ => throw None end.
Definition call_connected (c : Call) : handler (jstr * jstr) :=
  let* r := await c in match r with RConnected x y => ret (x, y) | _ => throw None end.
Definition call_void (c : Call) : handler unit := let* r := await c in ret tt.

(** ** Tabs *)

(** [Partial<WorkspaceTab>] as the workbench uses it. *)
Record TabPatch := MkPatch {
  p_result : option (option QueryResult);
  p_queryId : option jstr;
  p_status : option TabStatus;
  p_message : option jstr;
  p_resultTab : option ResultTab;
}.

Definition patch_tab (p : TabPatch) (tab : WorkspaceTab) : WorkspaceTab :=
  match tab with
  | TTable t =>
      TTable (MkTableTab (tt_id t) (tt_title t) (tt_table t) (default (tt_result t) (p_result p))
        (default (tt_queryId t) (p_queryId p)) (default (tt_status t) (p_status p))
        (default (tt_message t) (p_message p)) (tt_sql t) (tt_page t) (tt_pageSize t) (tt_filterRules t)
        (tt_sort t) (tt_showFilter t) (tt_selectedRow t) (tt_draft t))
  | TQuery t =>
      TQuery (MkQueryTab (qt_id t) (qt_title t) (qt_sql t) (default (qt_result t) (p_result p))
        (default (qt_queryId t) (p_queryId p)) (default (qt_status t) (p_status p))
        (default (qt_message t) (p_message p)) (default (qt_resultTab t) (p_resultTab p)))
  | _ => tab
  end.

Definition updateTab (id : jstr) (p : TabPatch) : WB → WB :=
  setTabs (update_where (λ tab, bool_decide (tab_id tab = id)) (patch_tab p)).

Definition status_message (s : TabStatus) (m : jstr) : TabPatch := MkPatch None None (Some s) (Some m) None.
Definition message_only (m : jstr) : TabPatch := MkPatch None None None (Some m) None.

(** The edits of the query toolbar and the table view on the active tab. *)
Definition edit_sql (id sql : jstr) : WB → WB :=
  setTabs (update_where (λ tab, bool_decide (tab_id tab = id)) (λ tab,
    match tab with
    | TQuery t => TQuery (MkQueryTab (qt_id t) (qt_title t) sql (qt_result t) (qt_queryId t)
                            (qt_status t) (qt_message t) (qt_resultTab t))
    | _ => tab
    end)).
Definition update_table (id : jstr) (f : TableTab → TableTab) : WB → WB :=
  setTabs (update_where (λ tab, bool_decide (tab_id tab = id)) (λ tab, match tab with TTable t => TTable (f t) | _ => tab end)).
Definition table_view_state (showFilter : bool) (selectedRow : option nat) (draft : option TableDraft) (t : TableTab) : TableTab :=
  MkTableTab (tt_id t) (tt_title t) (tt_table t) (tt_result t) (tt_queryId t) (tt_status t) (tt_message t) (tt_sql t)
    (tt_page t) (tt_pageSize t) (tt_filterRules t) (tt_sort t) showFilter selectedRow draft.
Definition set_tab_filter b (t : TableTab) := table_view_state b (tt_selectedRow t) (tt_draft t) t.
Definition set_tab_row r (t : TableTab) := table_view_state (tt_showFilter t) r (tt_draft t) t.
Definition set_tab_draft d (t : TableTab) := table_view_state (tt_showFilter t) (tt_selectedRow t) d t.

Definition activeTab (w : WB) : option WorkspaceTab :=
  match find_first (λ tab, bool_decide (tab_id tab = activeTabId (ws w))) (tabs (ws w)) with
  | Some tab => Some tab
  | None => head (tabs (ws w))
  end.

Definition activeQueryTab (w : WB) : option QueryTab :=
  match activeTab w with Some (TQuery t) => Some t | _ => None end.

(** The first query tab, where administrative statements report. *)
Definition first_query_tab (w : WB) : option jstr :=
  tab_id <$> find_first (λ tab, match tab with TQuery _ => true | _ => false end) (tabs (ws w)).
Definition report_query_tab (p : TabPatch) (w : WB) : WB :=
  match first_query_tab w with Some id => updateTab id p w | None => w end.

(** ** Handlers

    [connections] and [initialSQL] are the component's properties, and [poll_rounds] bounds
    the rounds of [pollQuery] before its deadline.  The answers of [window.confirm] and
    [window.prompt] are arguments of the handlers that ask. *)
Section handlers.
Context `{Unicode, IdSupply} (connections : list WorkbenchTarget) (initialSQL : jstr) (poll_rounds : nat).

Definition fresh : handler jstr :=
  let* w := state in
  do* modify take_id in
  ret (issued (next_id w)).

Definition activeConnection (w : WB) : option WorkbenchTarget :=
  find_first (λ item, bool_decide (target_id item = activeSavedId (conn w))) connections.
Definition activeDriver (w : WB) : option DriverId :=
  match activeConnection w with Some t => target_driver t | None => None end.

Definition reportConnectionFeedback (message : jstr) (tone : NoticeTone) : handler unit :=
  do* modify (setConnectionNotice (Some (tone, message))) in
  modify (report_query_tab (status_message (match tone with Error => Failed | Info => Idle end) message)).

(** The effect that opens the session. *)
Definition openSession : handler unit :=
  do* modify (setSessionState SessionLoading) in
  catch (do* call_void createSession in modify (setSessionState SessionReady))
        (λ _, modify (setSessionState SessionError)).

Definition refreshDatabases (id : jstr) : handler unit :=
  let* page := call_databases (listDatabases id) in
  do* modify (setDatabases page.1) in
  modify (setActiveDatabase page.2).

(** The effect on a change of [connectionId]: its two requests, one program each. *)
Definition connectionEffect_databases : handler unit :=
  let* w := state in
  if negb (truthy (connectionId (conn w)))
  then do* modify (setDatabases []) in modify (setActiveDatabase [])
  else catch (refreshDatabases (connectionId (conn w))) (λ _, modify (setDatabases [])).
Definition connectionEffect_objects : handler unit :=
  let* w := state in
  if negb (truthy (connectionId (conn w))) then ret tt
  else catch (let* os := call_objects (metadata (connectionId (conn w))) in modify (setObjects os))
             (λ _, modify (setObjects [])).

Definition resetWorkspace (w : WB) (driver : option DriverId) : handler jstr :=
  let* id := fresh in
  let '(tab, nextRedisConsoleCounter) :=
    createDefaultWorkspaceTab id driver initialSQL (redisConsoleCounter (ws w)) in
  do* modify (setObjects []) in
  do* modify (setTabs (λ _, [tab])) in
  do* modify (setActiveTabId (tab_id tab)) in
  do* modify (setQueryTabCounter (λ _, num 2)) in
  do* modify (setStructureTabId []) in
  do* modify (setSelectedRedisKey []) in
  do* modify (setRedisConsoleCounter (λ _, nextRedisConsoleCounter)) in
  do* modify (set_transaction []) in
  ret (tab_id tab).

Fixpoint poll_loop (rounds : nat) (connection id : jstr) : handler QueryResult :=
  match rounds with
  | O => throw (Some "查询超时，请点击停止后重试"%js)
  | S n =>
      let* page := call_page (queryResult connection id) in
      if r_running page
      then do* call_void (sleep 150) in poll_loop n connection id
      else ret page
  end.
Definition pollQuery : jstr → jstr → handler QueryResult := poll_loop poll_rounds.

Definition transaction_option (w : WB) : option jstr :=
  if truthy (transactionId w) then Some (transactionId w) else None.

Definition send_query (w : WB) (sql : jstr) (c : option bool) (t : option jstr) : handler jstr :=
  call_name (startQuery (connectionId (conn w)) sql (MkQueryOptions c t (transaction_option w))).

Definition count_rows (r : QueryResult) : jstr := dec_Z (Z.of_nat (length (default [] (r_rows r)))).

Definition reloadTableTab (w : WB) (id : jstr) (options : TableReloadOptions) : handler unit :=
  if negb (truthy (connectionId (conn w))) then ret tt
  else
    let driver := sqlDriverOrDefault (activeDriver w) in
    let* now := state in
    match prepareTableTabReload (tabs (ws now)) id driver options with
    | None => modify (updateTab id (status_message Failed "无法打开表标签，请重试"%js))
    | Some (nextTabs, snapshot) =>
        do* modify (setTabs (λ _, nextTabs)) in
        catch
          (let* query := send_query w (tt_sql snapshot) None None in
           do* modify (updateTab id (MkPatch None (Some query) None None None)) in
           let* page := pollQuery (connectionId (conn w)) query in
           let* later := state in
           let previous := find_table_tab (tabs (ws later)) id in
           let merged := preserveResultColumns (match previous with Some t => tt_result t | None => None end) page in
           modify (updateTab id (MkPatch (Some (Some merged)) None (Some Idle)
             (Some ("表 "%js ++ tt_title snapshot ++ " · "%js ++ count_rows merged
                    ++ " 行 · 第 "%js ++ number_to_string (tt_page snapshot) ++ " 页"%js)) None)))
          (λ e, modify (updateTab id (status_message Failed (message_of e "加载表数据失败"%js))))
    end.

(** [current.some((tab) => tab.id === id) ? current : [...current, tab]]. *)
Definition append_missing (tab : WorkspaceTab) (current : list WorkspaceTab) : list WorkspaceTab :=
  if existsb (λ t, bool_decide (tab_id t = tab_id tab)) current then current else current ++ [tab].

Definition loadTableData (w : WB) (table : DatabaseObject) : handler unit :=
  if negb (truthy (connectionId (conn w))) then ret tt
  else if isMongoDriver (activeDriver w) then
    do* modify (setTabs (append_missing (TMongo (createMongoDocumentTab table)))) in
    modify (setActiveTabId (mongoTabId table))
  else
    do* modify (setActiveTabId (tableTabId table)) in
    reloadTableTab w (tableTabId table) (MkReload (Some table) no_overrides true).

(** A click on a table tab that holds no result and is not loading reloads it. *)
Definition selectTab (w : WB) (tab : WorkspaceTab) : handler unit :=
  do* modify (setActiveTabId (tab_id tab)) in
  match tab with
  | TTable t =>
      if bool_decide (tt_status t = Running) || bool_decide (is_Some (tt_result t)) then ret tt
      else reloadTableTab w (tt_id t) (MkReload (Some (tt_table t)) no_overrides false)
  | _ => ret tt
  end.

Definition query_title (counter : number) : jstr := "query_"%js ++ pad_start 2 48 (number_to_string counter).

Definition openQueryTab (w : WB) (nextSQL : jstr) (title : option jstr) : handler unit :=
  let* id := fresh in
  let tab := createQueryTab id nextSQL
               (Some (default (query_title (queryTabCounter (ws w))) title)) in
  do* modify (setQueryTabCounter (λ count, add count (num 1))) in
  do* modify (setTabs (λ current, current ++ [TQuery tab])) in
  modify (setActiveTabId (qt_id tab)).

(** Show a collection in one of its sections, adding its tab when missing. *)
Definition show_mongo (table : DatabaseObject) (section : MongoSection) (current : list WorkspaceTab)
    : list WorkspaceTab :=
  let id := mongoTabId table in
  if existsb (λ t, match t with TMongo m => bool_decide (mt_id m = id) | _ => false end) current
  then update_where (λ t, bool_decide (tab_id t = id))
         (λ t, match t with
               | TMongo m => TMongo (MkMongoTab (mt_id m) (mt_title m) (mt_collection m) section)
               | _ => t
               end) current
  else current ++ [TMongo (MkMongoTab id (o_name table ++ " · 文档"%js) table section)].

Definition openQueryForTable (w : WB) (table : DatabaseObject) : handler unit :=
  if isMongoDriver (activeDriver w) then
    do* modify (setTabs (show_mongo table MongoQuery)) in
    modify (setActiveTabId (mongoTabId table))
  else
    do* modify (setQuerySchema (default [] (o_schema table))) in
    do* modify (setQueryTable (qualifiedTableName table)) in
    openQueryTab w (defaultSelectSQL table (sqlDriverOrDefault (activeDriver w))) None.

Definition refreshMetadata (w : WB) : handler unit :=
  if negb (truthy (connectionId (conn w))) then ret tt
  else let* os := call_objects (metadata (connectionId (conn w))) in modify (setObjects os).

(** The options of an administrative statement: no transaction, and the confirmation
  when there is a target. *)
Definition admin_options (sql : jstr) : QueryOptions :=
  match extractDropConfirmationTarget sql with
  | Some t => if truthy t then MkQueryOptions (Some true) (Some t) None else MkQueryOptions None None None
  | None => MkQueryOptions None None None
  end.

Definition executeAdminSql (w : WB) (sql successMessage : jstr) : handler bool :=
  if negb (truthy (connectionId (conn w))) then ret false
  else
    catch
      (let* id := call_name (startQuery (connectionId (conn w)) sql (admin_options sql)) in
       let* page := pollQuery (connectionId (conn w)) id in
       do* modify (report_query_tab (status_message Idle successMessage)) in
       ret true)
      (λ e, do* modify (report_query_tab (status_message Failed (message_of e "SQL 执行失败"%js))) in
            ret false).

Definition switchDatabase (w : WB) (database : jstr) : handler unit :=
  if negb (truthy (connectionId (conn w))) || bool_decide (database = activeDatabase (db w)) then ret tt
  else
    do* modify (setSwitchingDatabase true) in
    let* workspaceTabId := resetWorkspace w (match activeConnection w with Some t => target_driver t | None => Some mysql end) in
    finally
      (catch
        (let* name := call_name (switchDatabase_ (connectionId (conn w)) database) in
         do* modify (setActiveDatabase name) in
         let* os := call_objects (metadata (connectionId (conn w))) in
         do* modify (setObjects os) in
         do* refreshDatabases (connectionId (conn w)) in
         modify (updateTab workspaceTabId (message_only ("已切换到数据库 "%js ++ name))))
        (λ e, modify (updateTab workspaceTabId (status_message Failed (message_of e "切换数据库失败"%js)))))
      (modify (setSwitchingDatabase false)).

Definition fallback_database (w : WB) (database : jstr) : jstr :=
  match find_first (λ name, negb (bool_decide (name = database))) (databases (db w)) with
  | Some name => name
  | None => match sqlDriverOrDefault (activeDriver w) with PostgreSQL => "postgres"%js | MySQL => [] end
  end.

Definition is_connected (w : WB) : bool := truthy (connectionId (conn w)).

(** [prompt] is the answer of [window.prompt], [None] when it is cancelled. *)
Definition handleCreateDatabase (w : WB) (prompt : option jstr) : handler unit :=
  let dbName := trim (default [] prompt) in
  if negb (is_connected w) || negb (truthy dbName) then ret tt
  else if negb (isValidSqlIdent dbName) then
    modify (updateTab (activeTabId (ws w))
              (status_message Failed "名称仅支持字母、数字和下划线，且不能以数字开头"%js))
  else
    let* ok := executeAdminSql w (buildCreateDatabaseSQL (sqlDriverOrDefault (activeDriver w)) dbName)
                 ("已创建数据库 "%js ++ dbName) in
    if ok then refreshDatabases (connectionId (conn w)) else ret tt.

Definition handleCreateTable (w : WB) (database : jstr) : handler unit :=
  if negb (is_connected w) then ret tt else modify (setCreateTableDialog (Some database)).

Definition handleCreateTableSubmit (w : WB) (database tableName : jstr) (columns : list CreateTableColumn) : handler unit :=
  if negb (is_connected w) then ret tt
  else
    let driver := sqlDriverOrDefault (activeDriver w) in
    do* modify (setCreateTableDialog None) in
    do* (if bool_decide (database = activeDatabase (db w)) then ret tt else switchDatabase w database) in
    let schema := match driver with PostgreSQL => "public"%js | MySQL => database end in
    let* ok := executeAdminSql w (buildCreateTableSQL driver schema tableName columns)
                 ("已在 "%js ++ database ++ " 创建表 "%js ++ tableName) in
    if ok then refreshMetadata w else ret tt.

(** [sure] is the answer of [window.confirm]. *)
Definition handleDeleteDatabase (w : WB) (sure : bool) (database : jstr) : handler unit :=
  if negb (is_connected w) || negb sure then ret tt
  else
    let drop :=
      let* ok := executeAdminSql w (buildDropDatabaseSQL (sqlDriverOrDefault (activeDriver w)) database)
                   ("已删除数据库 "%js ++ database) in
      if ok then refreshDatabases (connectionId (conn w)) else ret tt in
    if bool_decide (database = activeDatabase (db w)) then
      let fallback := fallback_database w database in
      if negb (truthy fallback)
      then modify (updateTab (activeTabId (ws w)) (status_message Failed "无法删除当前唯一的数据库"%js))
      else do* switchDatabase w fallback in drop
    else drop.

Definition remove_tab (id : jstr) (current : list WorkspaceTab) : list WorkspaceTab :=
  filterb (λ tab, negb (bool_decide (tab_id tab = id))) current.

Definition handleDeleteTable (w : WB) (sure : bool) (table : DatabaseObject) : handler unit :=
  if negb (is_connected w) || negb sure then ret tt
  else
    let driver := sqlDriverOrDefault (activeDriver w) in
    let label := qualifiedTableName table in
    let schema := or_else (default [] (o_schema table))
                    (match driver with PostgreSQL => "public"%js | MySQL => activeDatabase (db w) end) in
    let* ok := executeAdminSql w (buildDropTableSQL driver schema (o_name table)) ("已删除表 "%js ++ label) in
    if negb ok then ret tt
    else
      let tabId := tableTabId table in
      do* modify (setTabs (remove_tab tabId)) in
      do* (if bool_decide (activeTabId (ws w) = tabId)
           then let* now := state in
                modify (setActiveTabId (match remove_tab tabId (tabs (ws now)) with
                                        | t :: _ => tab_id t
                                        | [] => activeTabId (ws w)
                                        end))
           else ret tt) in
      do* (if bool_decide (structureTabId (ws w) = tabId) then modify (setStructureTabId []) else ret tt) in
      refreshMetadata w.

Definition openTableStructure (w : WB) (table : DatabaseObject) : handler unit :=
  if isMongoDriver (activeDriver w) then
    do* modify (setTabs (show_mongo table MongoSchema)) in
    modify (setActiveTabId (mongoTabId table))
  else
    do* modify (setTabs (append_missing (TTable (createTableTab table (sqlDriverOrDefault (activeDriver w)))))) in
    do* modify (setActiveTabId (tableTabId table)) in
    modify (setStructureTabId (tableTabId table)).

Definition openRedisKey (key : jstr) : handler unit :=
  let tab := createRedisKeyTab key in
  do* modify (setSelectedRedisKey key) in
  do* modify (setTabs (append_missing (TRedisKey tab))) in
  modify (setActiveTabId (rt_id tab)).

Definition openRedisConsole (w : WB) : handler unit :=
  let tab := createRedisConsoleTab (redisConsoleCounter (ws w)) in
  do* modify (setRedisConsoleCounter (λ count, add count (num 1))) in
  do* modify (setTabs (λ current, current ++ [TConsole tab])) in
  modify (setActiveTabId (ct_id tab)).

Definition selectWorkbenchConnection (w : WB) (target : WorkbenchTarget) : handler unit :=
  if bool_decide (target_id target = activeSavedId (conn w)) && is_connected w then
    reportConnectionFeedback ("已连接 "%js ++ target_name target) Info
  else if negb (bool_decide (sessionState (conn w) = SessionReady)) then ret tt
  else
    do* modify (setConnectingId (target_id target)) in
    do* modify (setActiveSavedId (target_id target)) in
    finally
      (catch
        (do* (if is_connected w then call_void (disconnect (connectionId (conn w))) else ret tt) in
         let* result := call_connected (connectSaved (target_id target)) in
         let* workspaceTabId := resetWorkspace w (target_driver target) in
         do* modify (setConnectionId result.1) in
         do* modify (setActiveDatabase result.2) in
         do* refreshDatabases result.1 in
         let* os := call_objects (metadata result.1) in
         do* modify (setObjects os) in
         let message := "已连接到 "%js ++ target_name target ++ " / "%js ++ result.2 in
         do* modify (setConnectionNotice (Some (Info, message))) in
         modify (updateTab workspaceTabId (message_only message)))
        (λ e, do* modify (setConnectionId []) in
              reportConnectionFeedback (message_of e "连接失败"%js) Error))
      (modify (setConnectingId [])).

(** The effect that connects to the selected connection: the target it would select. *)
Definition autoConnect_target (selectedConnectionId : jstr) (w : WB) : option WorkbenchTarget :=
  if negb (truthy selectedConnectionId) || negb (bool_decide (sessionState (conn w) = SessionReady))
     || truthy (connectingId (conn w)) then None
  else match find_first (λ c, bool_decide (target_id c = selectedConnectionId)) connections with
       | None => None
       | Some target =>
           if bool_decide (activeSavedId (conn w) = target_id target) && is_connected w then None
           else Some target
       end.
Definition autoConnect (w : WB) (selectedConnectionId : jstr) : handler unit :=
  match autoConnect_target selectedConnectionId w with
  | Some target => selectWorkbenchConnection w target
  | None => ret tt
  end.

(** *** Running the statement of the editor *)

Definition record_history (entry : NewHistoryEntry) : handler unit :=
  let* w := state in
  do* modify take_id in
  modify (set_history (λ s, (addHistory (issued (next_id w)) (issued_at (next_id w)) entry s).1)).

Definition run_query (w : WB) (confirmation : option bool) (target : option jstr) : handler unit :=
  match activeQueryTab w with
  | None => ret tt
  | Some tab =>
      let sql := qt_sql tab in
      let tabId := qt_id tab in
      let connectionName := match activeConnection w with Some t => target_name t | None => "当前连接"%js end in
      if negb (is_connected w) || negb (truthy (trim sql)) then ret tt
      else
        do* modify (setRisk None) in
        do* modify (updateTab tabId (MkPatch (Some None) (Some []) (Some Running) (Some "正在执行…"%js) None)) in
        catch
          (let* id := send_query w sql confirmation target in
           do* modify (updateTab tabId (MkPatch None (Some id) None None None)) in
           let* page := pollQuery (connectionId (conn w)) id in
           do* modify (updateTab tabId (MkPatch (Some (Some page)) None (Some Idle)
                 (Some ("完成 · "%js ++ count_rows page ++ " 行 · "%js
                        ++ number_to_string (r_durationMs page) ++ " ms"%js)) (Some ShowResult))) in
           record_history (MkNewEntry sql connectionName (Some (r_durationMs page)) Succeeded (r_affectedRows page)))
          (λ e,
           do* modify (updateTab tabId (status_message Failed (message_of e "查询执行失败"%js))) in
           record_history (MkNewEntry sql connectionName None Errored None))
  end.

Definition current_sql (w : WB) : jstr := match activeQueryTab w with Some t => qt_sql t | None => [] end.

Definition execute (w : WB) : handler unit :=
  let detected := classifyClientRisk (current_sql w) in
  if negb (bool_decide (level detected = Safe)) then modify (setRisk (Some detected))
  else run_query w None None.

(** The dialog's button, enabled when the typed text is the target of a risk that asks
  for one. *)
Definition confirmRisk (w : WB) (typed : jstr) : handler unit :=
  match risk w with
  | None => ret tt
  | Some r =>
      if bool_decide (level r = TypeTarget) && negb (bool_decide (Some typed = target r)) then ret tt
      else run_query w (Some true) (Some typed)
  end.
Definition cancelRisk : handler unit := modify (setRisk None).

(** *** Closing tabs and transactions *)

(** [fallback.id] of the source throws when no tab is left; with more than one tab
  (distinct identifiers) there is one. *)
Definition close_fallback (id : jstr) (current : list WorkspaceTab) : option jstr :=
  let next := remove_tab id current in
  let index := match list_find (λ tab, tab_id tab = id) current with Some (i, _) => i | None => 0 end in
  tab_id <$> (match next !! Nat.pred index with Some t => Some t | None => head next end).

Definition closeTab (w : WB) (sure : bool) (tabId : jstr) : handler unit :=
  if bool_decide (tabId ∈ dirtySchemaTabs (ws w)) && negb sure then ret tt
  else if bool_decide (length (tabs (ws w)) = 1) then ret tt
  else
    do* (if bool_decide (activeTabId (ws w) = tabId)
         then let* now := state in
              match close_fallback tabId (tabs (ws now)) with
              | Some id => modify (setActiveTabId id)
              | None => throw None
              end
         else ret tt) in
    modify (setTabs (remove_tab tabId)).

Definition openTransaction (w : WB) : handler unit :=
  let* id := call_name (beginTransaction (connectionId (conn w))) in
  modify (set_transaction id).
Definition closeTransaction (w : WB) (commit : bool) : handler unit :=
  do* call_void (finishTransaction (connectionId (conn w)) (transactionId w) commit) in
  modify (set_transaction []).

(** *** The table view *)

Definition unique_key (w : WB) (t : TableTab) : list jstr :=
  o_name <$> filterb (λ o, bool_decide (o_kind o = KKey) && bool_decide (o_schema o = o_schema (tt_table t))
                           && bool_decide (o_parent o = Some (o_name (tt_table t)))) (objects (db w)).
(** The properties of the view of a tab. *)
Definition table_view (w : WB) (t : TableTab) : View :=
  MkView (resolveTableColumns (tt_table t) (tt_result t) (objects (db w))) (default [] (tt_result t ≫= r_rows))
    (unique_key w t) (tt_selectedRow t) (tt_draft t).
Definition table_frame (t : TableTab) : Frame :=
  MkFrame (tt_sql t) (tt_status t) (tt_message t) (tt_page t) (tt_pageSize t) (tt_filterRules t) (tt_sort t) (tt_showFilter t)
    (default false (tt_result t ≫= r_truncated)).

(** The filter panel takes its identifiers from the supply of the page. *)
Definition filter_builder (w : WB) : Builder :=
  match vw_filter (views w) with
  | Some (_, _, b) => MkBuilder (defaultColumn b) (draft b) (next_id w)
  | None => MkBuilder [] [] (next_id w)
  end.
Definition show_builder (rules : list TableFilterRule) (column : jstr) (b : Builder) (w : WB) : WB :=
  set_filter (Some (rules, column, b)) (take_ids (next_rule b) w).
Definition on_builder (f : Builder → Builder) (w : WB) : WB :=
  match vw_filter (views w) with
  | Some (rules, column, _) => show_builder rules column (f (filter_builder w)) w
  | None => w
  end.

Fixpoint send_mutations (w : WB) (t : TableTab) (ms : list Mutation) : handler unit :=
  match ms with
  | [] => ret tt
  | m :: ms =>
      do* call_void (mutate (connectionId (conn w)) (o_schema (tt_table t)) (o_name (tt_table t)) m (transaction_option w)) in
      send_mutations w t ms
  end.
Definition row_cleared : Overrides := MkOverrides None None None None None (Some None) None.
Definition apply_draft (w : WB) (t : TableTab) : handler unit :=
  let v := table_view w t in
  if negb (editable v) || negb (dirty v) then ret tt
  else
    catch
      (do* send_mutations w t (mutations v) in
       do* modify (update_table (tt_id t) (set_tab_draft None)) in
       reloadTableTab w (tt_id t) (MkReload None row_cleared true))
      (λ e, modify (updateTab (tt_id t) (status_message Failed (message_of e "保存失败"%js)))).

(** [result] of the rendering, and its download. *)
Definition active_result (w : WB) : option QueryResult :=
  match activeTab w with Some (TTable t) => tt_result t | Some (TQuery t) => qt_result t | _ => None end.
Definition exportResult (w : WB) : handler unit :=
  match active_result w with
  | Some r => call_void (exportCSV (connectionId (conn w)) (r_queryId r))
  | None => ret tt
  end.
Definition stop_query (w : WB) (queryId : jstr) : handler unit := call_void (cancelQuery (connectionId (conn w)) queryId).

Definition table_event (w : WB) (t : TableTab) (e : TableEvent) : handler unit :=
  let id := tt_id t in
  let v := table_view w t in
  let reload o := reloadTableTab w id (MkReload None o true) in
  match e with
  | SetHeaderMenu c => modify (set_grid (setHeaderMenu c))
  | SetEditingCell c => modify (set_grid (setEditingCell c))
  | ToggleDense => modify (set_grid (setDense negb))
  | ToggleColumns => modify (set_grid (setShowColumns negb))
  | ToggleColumn name => modify (set_grid (setHiddenColumns (toggle_hidden name)))
  | CommitCell r c text =>
      match updateCell v r c text with
      | Some v' => modify (update_table id (set_tab_draft (v_draft v')))
      | None => throw None
      end
  | AddRow => modify (update_table id (λ t, set_tab_row (v_selectedRow (addRow v)) (set_tab_draft (v_draft (addRow v)) t)))
  | DeleteRow =>
      modify (update_table id (λ t, set_tab_row (v_selectedRow (deleteSelectedRow v)) (set_tab_draft (v_draft (deleteSelectedRow v)) t)))
  | Apply => apply_draft w t
  | PatchRule rule p => modify (on_builder (patchRule rule p))
  | AddRule => modify (on_builder addRule)
  | RemoveRule rule => modify (on_builder (removeRule rule))
  | ToggleJoin rule => modify (on_builder (toggleJoin rule))
  | ClearRules => modify (on_builder clearDraft)
  | SelectRow r => modify (update_table id (set_tab_row (Some r)))
  | PageChange page => reload (MkOverrides (Some page) None None None None (Some None) None)
  | PageSizeChange size => reload (MkOverrides (Some (num 1)) (Some size) None None None (Some None) None)
  | FiltersApply rules => reload (MkOverrides (Some (num 1)) None (Some rules) None None (Some None) None)
  | FiltersClear => reload (MkOverrides (Some (num 1)) None (Some []) None None (Some None) None)
  | SortChange sort => reload (MkOverrides (Some (num 1)) None None (Some sort) None (Some None) None)
  | ToggleFilter => modify (update_table id (set_tab_filter (negb (tt_showFilter t))))
  | Refresh => reload row_cleared
  | Stop => if truthy (tt_queryId t) then stop_query w (tt_queryId t) else ret tt
  | Discard => modify (update_table id (λ t, set_tab_row None (set_tab_draft None t)))
  | Export => exportResult w
  end.
(** The callbacks of an event run up to their first await, so what a request in the middle
    leaves to do comes after the setters that follow it. *)
Definition is_request (e : TableEvent) : bool :=
  match e with
  | Apply | PageChange _ | PageSizeChange _ | FiltersApply _ | FiltersClear | SortChange _ | Refresh | Stop | Export => true
  | _ => false
  end.
Fixpoint each_event (w : WB) (t : TableTab) (es : list TableEvent) : handler unit :=
  match es with [] => ret tt | e :: es => do* table_event w t e in each_event w t es end.
Definition table_events (w : WB) (t : TableTab) (es : list TableEvent) : handler unit :=
  do* each_event w t (filterb (λ e, negb (is_request e)) es) in each_event w t (filterb is_request es).
(** An event of the table view that is shown. *)
Definition on_table (es : list TableEvent) (w : WB) : handler unit :=
  match activeTab w with Some (TTable t) => table_events w t es | _ => ret tt end.

(** *** The other controls *)

Definition show_section (id : jstr) (section : MongoSection) : WB → WB :=
  setTabs (update_where (λ tab, bool_decide (tab_id tab = id)) (λ tab,
    match tab with TMongo m => TMongo (MkMongoTab (mt_id m) (mt_title m) (mt_collection m) section) | _ => tab end)).
Definition show_result_tab (id : jstr) (r : ResultTab) : WB → WB := updateTab id (MkPatch None None None None (Some r)).
Definition choose_history (id sql : jstr) : handler unit :=
  do* modify (edit_sql id sql) in modify (show_result_tab id ShowResult).
Definition favorite (id : jstr) : handler unit := modify (set_history (toggleFavorite id)).

(** The table chosen in the toolbar replaces the guide in the editor. *)
Definition chooseTable (w : WB) (t : QueryTab) (value : jstr) : handler unit :=
  do* modify (setQueryTable value) in
  match find_first (λ o, bool_decide (o_kind o = KTable) && bool_decide (qualifiedTableName o = value)) (objects (db w)) with
  | Some table =>
      modify (edit_sql (qt_id t) (sqlForSelectedTable (qt_sql t) (defaultSelectSQL table (sqlDriverOrDefault (activeDriver w)))))
  | None => ret tt
  end.
Definition on_query_tab (f : WB → QueryTab → handler unit) (w : WB) : handler unit :=
  match activeQueryTab w with Some t => f w t | None => ret tt end.

Definition in_quotes (s : jstr) : jstr := [c_dquote] ++ s ++ [c_dquote].
Definition mongo_template : jstr :=
  "[
  { "%js ++ in_quotes "$match"%js ++ ": {} },
  { "%js ++ in_quotes "$limit"%js ++ ": 50 }
]"%js.
Definition openNewTab (w : WB) : handler unit :=
  match activeDriver w with
  | Some redis => openRedisConsole w
  | Some mongodb => openQueryTab w mongo_template None
  | _ => openQueryTab w initialSQL None
  end.

(** The tab that a key of the tab list leads to. *)
Definition tab_target (w : WB) (id : jstr) (k : Key) : option WorkspaceTab :=
  let l := tabs (ws w) in
  let index := Z.to_nat (find_index (λ tab, bool_decide (tab_id tab = id)) l) in
  match k with
  | ArrowRight | ArrowDown => l !! ((index + 1) mod length l)
  | ArrowLeft | ArrowUp => l !! ((index + length l - 1) mod length l)
  | Home => l !! 0
  | End_ => l !! (length l - 1)
  | _ => None
  end.
Definition on_tab_key (w : WB) (id : jstr) (k : Key) : handler unit :=
  match tab_target w id k with Some tab => modify (setActiveTabId (tab_id tab)) | None => ret tt end.

(** [sure] is the answer of [window.confirm]. *)
Definition showPreview (w : WB) (sure : bool) (id : jstr) : handler unit :=
  if bool_decide (id ∈ dirtySchemaTabs (ws w)) && negb sure then ret tt else modify (setStructureTabId []).
Definition onDirtyChange (id : jstr) (b : bool) : WB → WB :=
  setDirtySchemaTabs (λ current, if b then current ∪ {[id]} else current ∖ {[id]}).

Definition submitCreateDialog (w : WB) : handler unit :=
  match vw_create (views w), createTableDialog w with
  | Some c, Some database =>
      let '(c', created) := submit c in
      do* modify (set_create (λ _, Some c')) in
      match created with
      | Some (name, columns) => handleCreateTableSubmit w database name columns
      | None => ret tt
      end
  | _, _ => ret tt
  end.

(** *** Mounting *)

(** The tab whose table view is shown. *)
Definition shown_table (w : WB) : option TableTab :=
  match activeTab w with
  | Some (TTable t) => if bool_decide (structureTabId (ws w) = tt_id t) then None else Some t
  | _ => None
  end.
Definition first_column (w : WB) (t : TableTab) : jstr := from_option col_name [] (head (v_columns (table_view w t))).
(** The table view has no key of its own: it keeps its state when another table is shown.
    The filter panel follows the rules and the first column. *)
Definition mount_table (w : WB) : WB :=
  match shown_table w with
  | None => set_filter None (set_grid (λ _, initial_grid) w)
  | Some t =>
      if tt_showFilter t then
        let rules := tt_filterRules t in
        let column := first_column w t in
        match vw_filter (views w) with
        | None => show_builder rules column (open_builder rules column (next_id w)) w
        | Some (rules', column', _) =>
            if bool_decide (rules' = rules) && bool_decide (column' = column) then w
            else show_builder rules column (show_rules rules column (filter_builder w)) w
        end
      else set_filter None w
  end.
Definition mount_dialogs (w : WB) : WB :=
  set_target (match risk w with Some _ => vw_target (views w) | None => [] end)
    (set_create (λ c, match createTableDialog w with
                      | Some _ => Some (default (initial_dialog (sqlDriverOrDefault (activeDriver w))) c)
                      | None => None
                      end) w).
(** [resourceCatalog] is shown. *)
Definition has_catalog (w : WB) : bool := is_connected w && bool_decide (is_Some (activeConnection w)).
Definition mount_catalog (w : WB) : WB :=
  if has_catalog w then
    set_switcher (λ s, match s with
                       | None => Some (activeDatabase (db w), true, None)
                       | Some (current, expanded, menu) =>
                           Some (activeDatabase (db w),
                                 (if bool_decide (current = activeDatabase (db w)) then expanded
                                  else expanded || truthy (activeDatabase (db w))), menu)
                       end)
      (if isRedisDriver (activeDriver w) then set_tree None w else w)
  else set_switcher (λ _, None) (set_tree None w).
Definition mount_views (w : WB) : WB := mount_catalog (mount_dialogs (mount_table w)).

(** *** Where handlers are started *)

(** A handler of the rendering that is on the screen. *)
Definition rendered (h : WB → handler unit) : handler unit :=
  let* w := state in h w.

(** What starts in the main area, in its dialogs and in the effects: they are rendered
  with every change of the state. *)
Inductive event : handler unit → Prop :=
| ev_session : event openSession
| ev_databases : event connectionEffect_databases
| ev_objects : event connectionEffect_objects
| ev_reload id options : (∀ table, ro_table options = Some table → id = tableTabId table) →
    event (rendered (λ w, reloadTableTab w id options))
| ev_select tab : wf_tab tab → event (rendered (λ w, selectTab w tab))
| ev_query sql title : event (rendered (λ w, openQueryTab w sql title))
| ev_console : event (rendered openRedisConsole)
| ev_refresh : event (rendered refreshMetadata)
| ev_switch database : event (rendered (λ w, switchDatabase w database))
| ev_create_submit database name columns : event (rendered (λ w, handleCreateTableSubmit w database name columns))
| ev_auto id : event (rendered (λ w, autoConnect w id))
| ev_execute : event (rendered execute)
| ev_confirm typed : event (rendered (λ w, confirmRisk w typed))
| ev_cancel : event cancelRisk
| ev_close sure id : event (rendered (λ w, closeTab w sure id))
| ev_begin : event (rendered openTransaction)
| ev_finish commit : event (rendered (λ w, closeTransaction w commit))
| ev_edit_sql id sql : event (modify (edit_sql id sql))
| ev_table es : event (rendered (on_table es))
| ev_active id : event (modify (setActiveTabId id))
| ev_tab_key id k : event (rendered (λ w, on_tab_key w id k))
| ev_section id s : event (modify (show_section id s))
| ev_structure id : event (modify (setStructureTabId id))
| ev_preview sure id : event (rendered (λ w, showPreview w sure id))
| ev_dirty id b : event (modify (onDirtyChange id b))
| ev_schema x : event (modify (setQuerySchema x))
| ev_choose_table value : event (rendered (on_query_tab (λ w t, chooseTable w t value)))
| ev_stop : event (rendered (on_query_tab (λ w t, stop_query w (qt_queryId t))))
| ev_new_tab : event (rendered openNewTab)
| ev_result_tab id r : event (modify (show_result_tab id r))
| ev_history id sql : event (choose_history id sql)
| ev_favorite id : event (favorite id)
| ev_export : event (rendered exportResult)
(** The shortcut of the editor keeps the handler of the rendering in which it was mounted. *)
| ev_shortcut seen : event (execute seen)
| ev_close_create : event (modify (setCreateTableDialog None))
| ev_create_edit f : event (modify (set_create f))
| ev_create : event (rendered submitCreateDialog)
| ev_target x : event (modify (set_target x))
| ev_mount : event (modify mount_views).

(** What starts in the sidebar, beside the console button.  The sidebar is an element given
  to the shell ([useUnifiedSidebar]), so its handlers close over the rendering [seen] in
  which it was given. *)
Inductive sidebar_event (seen : WB) : handler unit → Prop :=
| sb_switch database : sidebar_event seen (switchDatabase seen database)
| sb_create_database prompt : sidebar_event seen (handleCreateDatabase seen prompt)
| sb_create_table database : sidebar_event seen (handleCreateTable seen database)
| sb_delete_database sure database : sidebar_event seen (handleDeleteDatabase seen sure database)
| sb_load table : sidebar_event seen (loadTableData seen table)
| sb_structure table : sidebar_event seen (openTableStructure seen table)
| sb_query table : sidebar_event seen (openQueryForTable seen table)
| sb_delete_table sure table : sidebar_event seen (handleDeleteTable seen sure table)
| sb_redis_key key : sidebar_event seen (openRedisKey key)
| sb_connect target : sidebar_event seen (selectWorkbenchConnection seen target)
| sb_switcher f : sidebar_event seen (modify (set_switcher f))
| sb_tree x : sidebar_event seen (modify (set_tree x))
| sb_rail x : sidebar_event seen (modify (set_rail x)).

(** What the effect that gives the sidebar depends on, beside the component's properties. *)
Definition selectedTableKey (w : WB) : jstr :=
  match activeTab w with Some (TTable t) => tableKey (tt_table t) | _ => [] end.
Definition sidebar_deps (w : WB) :=
  ((activeSavedId (conn w), is_connected w, connectingId (conn w), target_driver <$> activeConnection w),
   (activeDatabase (db w), databases (db w), switchingDatabase (db w), objects (db w)),
   (connectionId (conn w), selectedTableKey w, selectedRedisKey (ws w))).

(** The page: its world, and the rendering whose sidebar is shown.  The effect runs before
  the next event when one of its dependencies has changed.  [stale] tells whether the
  console button may be used when the counter has moved since. *)
Inductive page_step (stale : bool) : WB * world WB Call Reply error → WB * world WB Call Reply error → Prop :=
| page_main seen x y : world_step event x y → page_step stale (seen, x) (seen, y)
| page_publish seen x : page_step stale (seen, x) (x.1, x)
| page_sidebar seen x y : sidebar_deps seen = sidebar_deps x.1 → world_step (sidebar_event seen) x y →
    page_step stale (seen, x) (seen, y)
| page_console seen s ts s' t : sidebar_deps seen = sidebar_deps s →
    stale = true ∨ redisConsoleCounter (ws seen) = redisConsoleCounter (ws s) →
    run (openRedisConsole seen) s = (s', t) → page_step stale (seen, (s, ts)) (seen, (s', ts ++ [t])).
End handlers.

(** The state of the first render, when no history is stored. *)
Definition initialWB `{IdSupply} (initialSQL : jstr) : WB :=
  MkWB (MkConn [] [] [] SessionLoading None) (MkDb [] [] [] false)
    (MkWs [TQuery (createQueryTab (issued 0) initialSQL None)] ("query:"%js ++ issued 0)
       (num 2) (num 2) [] ∅ [] [] [])
    None [] None None 1 initial_views.
