(* ===== verification/WorkbenchInvariant.v ===== *)
(** * Tabs of the workbench under any interleaving

    The identifiers of the open tabs stay distinct and well formed whatever events are
    handled and in whatever order the replies of the server arrive. *)
From S2P Require Import Prelude JsString JsNumber JsValue Api Ddl Risk TableQuery TableMutations TableView Id CreateTable FilterBuilder Tabs TableGrid Async History Workbench.

Create HintDb keep.

Section invariant.
Context `{Unicode, IdSupply} (connections : list WorkbenchTarget) (initialSQL : jstr) (poll_rounds : nat).

(** When the console button of the sidebar may hold an old counter ([stale]), consoles are
    left out of what is said about identifiers. *)
Context (stale : bool).

Definition is_console (t : WorkspaceTab) : bool := match t with TConsole _ => true | _ => false end.
Definition counted (t : WorkspaceTab) : bool := negb (stale && is_console t).

(** Where an identifier comes from: [n] identifiers were issued, consoles count up to [c]. *)
Definition from_supply (n : nat) (c : Z) (t : WorkspaceTab) : Prop :=
  match t with
  | TQuery q => ∃ i, i < n ∧ qt_id q = "query:"%js ++ issued i
  | TConsole q => wf_tab t ∧ (stale = false → ∃ i, (0 <= i < c)%Z ∧ ct_id q = "redis-console:"%js ++ dec_Z i)
  | _ => wf_tab t
  end.

Definition tidy (n : nat) (c : Z) (ts : list WorkspaceTab) : Prop :=
  NoDup (tab_ids (filterb counted ts)) ∧ ∀ t, t ∈ ts → from_supply n c t.

(** The console counter is a double: once it reaches 2^53 it no longer moves and its
  identifiers repeat, so what is said of consoles is about the numbers below. *)
Definition small (c : Z) : Prop := stale = false → (c <= max_safe)%Z.
Lemma small_le c c' : (c <= c')%Z → small c' → small c.
Proof. intros Hc Hs Hf. specialize (Hs Hf). lia. Qed.
Definition tabs_ok (w : WB) : Prop :=
  ∃ c, redisConsoleCounter (ws w) = num c ∧ (0 <= c <= max_safe + 1)%Z
       ∧ (small c → tidy (next_id w) c (tabs (ws w))).

(** What is needed of the rendering that a handler closes over. *)
Definition counter_ok (w : WB) : Prop :=
  ∃ c, redisConsoleCounter (ws w) = num c ∧ (0 <= c <= max_safe + 1)%Z.

Lemma tabs_ok_counter w : tabs_ok w → counter_ok w.
Proof. intros (c & ? & ? & _). by exists c. Qed.

Lemma from_supply_wf n c t : from_supply n c t → wf_tab t.
Proof. destruct t; try done; cbn; [|naive_solver]. intros (i & _ & ->). by eexists. Qed.

Lemma from_supply_mono n n' c c' t : n ≤ n' → (c <= c')%Z → from_supply n c t → from_supply n' c' t.
Proof.
  intros Hn Hc. destruct t; try done; cbn.
  - intros (i & ? & ?). exists i. split; [lia|done].
  - intros [Hw Hi]. split; [done|]. intros Hs. destruct (Hi Hs) as (i & ? & ?). exists i. split; [lia|done].
Qed.

Lemma tidy_mono n n' c c' ts : n ≤ n' → (c <= c')%Z → tidy n c ts → tidy n' c' ts.
Proof. intros Hn Hc [Hnd Ht]. split; [done|]. intros t Hin. eapply from_supply_mono; [done..|by apply Ht]. Qed.

(** *** Changes of the tabs *)

Lemma tabs_ok_frame w w' :
  tabs (ws w') = tabs (ws w) → redisConsoleCounter (ws w') = redisConsoleCounter (ws w) →
  next_id w ≤ next_id w' → tabs_ok w → tabs_ok w'.
Proof.
  intros Ht Hc Hn (c & E & Hb & Hok). exists c. rewrite Hc, Ht. split_and!; [done|lia|lia|].
  intros Hs. by eapply tidy_mono; [| |apply Hok].
Qed.

Lemma tabs_ok_tabs w f :
  tabs_ok w → (∀ c, redisConsoleCounter (ws w) = num c → small c → tidy (next_id w) c (tabs (ws w)) →
               tidy (next_id w) c (f (tabs (ws w)))) →
  tabs_ok (setTabs f w).
Proof. intros (c & E & Hb & Hok) Hf. exists c. split_and!; [done|lia|lia|]. intros Hs. apply Hf; [done..|by apply Hok]. Qed.

(** An update of tabs in place that keeps what the identifiers come from. *)
Lemma tidy_map n c (g : WorkspaceTab → WorkspaceTab) ts :
  (∀ t, t ∈ ts → tab_id (g t) = tab_id t ∧ is_console (g t) = is_console t) →
  (∀ t, t ∈ ts → from_supply n c t → from_supply n c (g t)) →
  tidy n c ts → tidy n c (g <$> ts).
Proof.
  intros Hid Hf [Hnd Ht]. split.
  - rewrite filterb_fmap, (filterb_ext _ counted).
    + assert (E : tab_ids (g <$> filterb counted ts) = tab_ids (filterb counted ts)); [|by rewrite E].
      unfold tab_ids. rewrite <- list_fmap_compose. apply list_fmap_ext. intros i t Hi%list_elem_of_lookup_2.
      apply elem_of_filterb in Hi as [Hi _]. by apply Hid.
    + intros t Hin. unfold counted. by destruct (Hid t Hin) as [_ ->].
  - intros t (x & -> & Hx)%list_elem_of_fmap. by apply Hf, Ht.
Qed.

Lemma tidy_update n c p f ts :
  (∀ t, tab_id (f t) = tab_id t ∧ is_console (f t) = is_console t) → (∀ t, from_supply n c t → from_supply n c (f t)) →
  tidy n c ts → tidy n c (update_where p f ts).
Proof. intros Hid Hf. apply tidy_map; intros t _; destruct (p t); by auto. Qed.

Lemma tidy_append n c t ts :
  (counted t = true → ∀ x, x ∈ ts → tab_id x ≠ tab_id t) → from_supply n c t → tidy n c ts → tidy n c (ts ++ [t]).
Proof.
  intros Hne Ht [Hnd Hs]. split.
  - rewrite filterb_app, filterb_cons. destruct (counted t); [|by rewrite app_nil_r].
    unfold tab_ids. rewrite fmap_app. apply NoDup_app_singleton; [done|].
    intros (x & E & [Hx _]%elem_of_filterb)%list_elem_of_fmap. by apply (Hne eq_refl x Hx).
  - intros x [Hx| ->%list_elem_of_singleton]%elem_of_app; [by apply Hs|done].
Qed.

Lemma tidy_filter n c p ts : tidy n c ts → tidy n c (filterb p ts).
Proof.
  intros [Hnd Hs]. split; [|intros t [Ht _]%elem_of_filterb; by apply Hs].
  rewrite filterb_filterb, (filterb_ext _ (λ x, counted x && p x)), <- filterb_filterb
    by (intros x _; apply andb_comm).
  by apply filterb_NoDup_fmap.
Qed.

Lemma tidy_singleton n c t : from_supply n c t → tidy n c [t].
Proof.
  intros Ht. split; [|by intros x ->%list_elem_of_singleton].
  rewrite filterb_cons. destruct (counted t); [apply NoDup_singleton|constructor].
Qed.

Lemma tidy_append_missing n c t ts :
  from_supply n c t → tidy n c ts → tidy n c (append_missing t ts).
Proof.
  intros Ht Hs. unfold append_missing. destruct (existsb _ ts) eqn:E; [done|].
  apply tidy_append; [|done|done]. intros _ x Hx. rewrite existsb_not in E. specialize (E x Hx). by bool_to_prop.
Qed.

Lemma patch_id p t : tab_id (patch_tab p t) = tab_id t ∧ is_console (patch_tab p t) = is_console t.
Proof. by destruct t. Qed.
Lemma patch_supply n c p t : from_supply n c t → from_supply n c (patch_tab p t).
Proof. by destruct t. Qed.

Lemma tidy_show_mongo n c table section ts :
  tidy n c ts → tidy n c (show_mongo table section ts).
Proof.
  intros Hs. unfold show_mongo. destruct (existsb _ ts) eqn:E.
  - apply tidy_update; [by intros []|by intros []|done].
  - apply tidy_append; [|done|done]. intros _ x Hx Ex. rewrite existsb_not in E.
    specialize (E x Hx). destruct Hs as [_ Hs]. specialize (Hs x Hx).
    apply from_supply_wf in Hs.
    assert (tab_kind x = 2) as Hk by by apply (wf_tab_kind _ (TMongo (createMongoDocumentTab table)) Hs eq_refl).
    destruct x; try done. cbn in *. by rewrite bool_decide_eq_true_2 in E.
Qed.

Lemma tidy_reload n c driver current id options tabs' snapshot :
  (∀ table, ro_table options = Some table → id = tableTabId table) →
  prepareTableTabReload current id driver options = Some (tabs', snapshot) →
  tidy n c current → tidy n c tabs'.
Proof.
  intros Hid E Hs.
  assert (G : ∀ base next, TTable base ∈ next → tt_id base = id → tidy n c next →
    tidy n c (set_tab id (TTable (reload_snapshot base driver (ro_overrides options) (ro_resetDraft options))) next)).
  { intros base next Hin Hb Hn. assert (Hbase : wf_tab (TTable base)) by (eapply from_supply_wf, Hn, Hin).
    apply tidy_map; [intros x Hx|intros x Hx Hs'|done]; cbv beta; case_bool_decide as Ex; [|done|by apply wf_snapshot|done].
    rewrite Ex. split; [done|].
    assert (tab_kind x = 0) as Hk by (apply (wf_tab_kind x (TTable base)); [by eapply from_supply_wf, Hn|done|by rewrite Ex; symmetry]).
    by destruct x. }
  unfold prepareTableTabReload in E. destruct (find_table_tab current id) as [base|] eqn:Ef.
  - apply find_table_tab_Some in Ef as [Hin Hb]. injection E as <- _. by apply G.
  - destruct (ro_table options) as [table|] eqn:Et; [|done]. injection E as <- _.
    specialize (Hid table eq_refl) as ->. apply G; [apply elem_of_app; right; by left|done|].
    apply tidy_append; [|done|done]. intros _ x Hx Ex. destruct Hs as [_ Hs]. specialize (Hs x Hx).
    apply from_supply_wf in Hs.
    assert (tab_kind x = 0) as Hk by by apply (wf_tab_kind _ (TTable (createTableTab table driver)) Hs eq_refl).
    destruct x as [x| | | | |]; try done. by destruct (find_table_tab_None _ _ Ef x Hx).
Qed.

(** *** Handlers *)

#[local] Abbreviation keeps_tabs := (preserves tabs_ok).
#[local] Abbreviation at_tabs := (keeps_at tabs_ok).

Lemma tabs_ok_update_in_place w p f :
  (∀ t, tab_id (f t) = tab_id t ∧ is_console (f t) = is_console t) → (∀ n c t, from_supply n c t → from_supply n c (f t)) →
  tabs_ok w → tabs_ok (setTabs (update_where p f) w).
Proof. intros Hid Hf Hw. apply tabs_ok_tabs; [done|]. intros c _ _. apply tidy_update; by auto. Qed.

Lemma tabs_ok_updateTab id p w : tabs_ok w → tabs_ok (updateTab id p w).
Proof. apply tabs_ok_update_in_place; [apply patch_id|intros n c t; apply patch_supply]. Qed.

Lemma tabs_ok_report p w : tabs_ok w → tabs_ok (report_query_tab p w).
Proof. unfold report_query_tab. destruct (first_query_tab w); [apply tabs_ok_updateTab|done]. Qed.

Lemma tabs_ok_filter p w : tabs_ok w → tabs_ok (setTabs (filterb p) w).
Proof. intros Hw. apply tabs_ok_tabs; [done|]. intros c _ _. apply tidy_filter. Qed.

Lemma tabs_ok_append_missing t w :
  (∀ n c, from_supply n c t) → tabs_ok w → tabs_ok (setTabs (append_missing t) w).
Proof. intros Ht Hw. apply tabs_ok_tabs; [done|]. intros c _ _. by apply tidy_append_missing. Qed.

Lemma tabs_ok_show_mongo table section w : tabs_ok w → tabs_ok (setTabs (show_mongo table section) w).
Proof. intros Hw. apply tabs_ok_tabs; [done|]. intros c _ _. apply tidy_show_mongo. Qed.

Hint Resolve tabs_ok_updateTab tabs_ok_report tabs_ok_filter tabs_ok_show_mongo : keep.
Hint Extern 1 (tabs_ok (setTabs (append_missing _) _)) => apply tabs_ok_append_missing; [done|] : keep.
Hint Extern 2 (tabs_ok _) => eapply tabs_ok_frame; [| | |eassumption]; [done|done|cbn; lia] : keep.

(** Walk through a handler whose updates each keep the tabs. *)
Ltac keep_step :=
  match goal with
  | |- preserves _ (bind _ _) => apply preserves_bind; [|intros ?]
  | |- preserves _ (catch _ _) => apply preserves_catch; [|intros ?]
  | |- preserves _ (finally _ _) => apply preserves_finally
  | |- preserves _ (ret _) => apply preserves_ret
  | |- preserves _ (throw _) => apply preserves_throw
  | |- preserves _ (await _) => apply preserves_await
  | |- preserves _ state => apply preserves_state
  | |- preserves _ (modify _) => apply preserves_modify; intros ? ?; solve [auto with keep]
  | |- preserves _ (if ?b then _ else _) => destruct b
  | |- preserves _ (match ?x with _ => _ end) => destruct x
  | |- preserves _ _ => solve [auto with keep]
  end.
Ltac keep := repeat keep_step.

Lemma keep_call_databases c : keeps_tabs (call_databases c). Proof. unfold call_databases. keep. Qed.
Lemma keep_call_name c : keeps_tabs (call_name c). Proof. unfold call_name. keep. Qed.
Lemma keep_call_objects c : keeps_tabs (call_objects c). Proof. unfold call_objects. keep. Qed.
Lemma keep_call_page c : keeps_tabs (call_page c). Proof. unfold call_page. keep. Qed.
Lemma keep_call_connected c : keeps_tabs (call_connected c). Proof. unfold call_connected. keep. Qed.
Lemma keep_call_void c : keeps_tabs (call_void c). Proof. unfold call_void. keep. Qed.
Hint Resolve keep_call_databases keep_call_name keep_call_objects keep_call_page keep_call_connected keep_call_void : keep.

Lemma keep_feedback m t : keeps_tabs (reportConnectionFeedback m t).
Proof. unfold reportConnectionFeedback. keep. Qed.
Lemma keep_session : keeps_tabs openSession.
Proof. unfold openSession. keep. Qed.
Lemma keep_refreshDatabases id : keeps_tabs (refreshDatabases id).
Proof. unfold refreshDatabases. keep. Qed.
Hint Resolve keep_feedback keep_refreshDatabases : keep.

Lemma keep_poll n c id : keeps_tabs (poll_loop n c id).
Proof. induction n as [|n IH]; cbn [poll_loop]; keep. Qed.
Lemma keep_pollQuery c id : keeps_tabs (pollQuery poll_rounds c id).
Proof. apply keep_poll. Qed.
Lemma keep_send w sql c t : keeps_tabs (send_query w sql c t).
Proof. unfold send_query. keep. Qed.
Hint Resolve keep_pollQuery keep_send : keep.

Lemma keep_metadata w : keeps_tabs (refreshMetadata w).
Proof. unfold refreshMetadata. keep. Qed.
Lemma keep_admin w sql m : keeps_tabs (executeAdminSql poll_rounds w sql m).
Proof. unfold executeAdminSql. keep. Qed.
Hint Resolve keep_metadata keep_admin : keep.

(** Run the synchronous beginning of a handler from a state. *)
Ltac at_sync := repeat first [apply at_state_bind | apply at_assoc | apply at_modify_bind | apply at_ret_bind].
Ltac at_if := match goal with |- keeps_at _ _ (if ?b then _ else _) => destruct b end.

Lemma add_one c : (0 <= c <= max_safe + 1)%Z →
  ∃ c', add (num c) (num 1) = num c' ∧ (c <= c' <= max_safe + 1)%Z ∧ ((c' <= max_safe)%Z → c' = (c + 1)%Z).
Proof.
  intros Hc. destruct (decide (c + 1 <= max_safe)%Z) as [Hs|Hs].
  - exists (c + 1)%Z. rewrite add_safe by lia. split_and!; [done|lia..].
  - assert (c = max_safe ∨ c = max_safe + 1)%Z as [-> | ->] by lia;
      exists (max_safe + 1)%Z; (split; [by vm_compute|]); unfold max_safe; split; lia.
Qed.

Lemma keep_reset w driver : counter_ok w → keeps_tabs (resetWorkspace initialSQL w driver).
Proof.
  intros (c & Hc & Hb). apply preserves_at. intros s _. unfold resetWorkspace, fresh. at_sync.
  rewrite Hc. destruct (add_one c Hb) as (c' & Ha & Hc' & Hs).
  destruct (createDefaultWorkspaceTab _ driver initialSQL (num c)) as [tab n'] eqn:E.
  at_sync. apply at_ret.
  assert (Hn : ∃ x, n' = num x ∧ (c <= x <= max_safe + 1)%Z
            ∧ (small x → from_supply (S (next_id s)) x tab)).
  { destruct driver as [[]|]; cbn in E; injection E as <- <-; cbn [from_supply].
    1,2,5: exists c; split_and!; [done|lia|lia|]; intros _; exists (next_id s); split; [lia|done].
    - by exists c; split_and!; [|lia|lia|].
    - exists c'. split_and!; [done|lia|lia|]. intros Hx. split; [by exists (num c)|]. intros Hf. specialize (Hx Hf). exists c. split; [lia|].
      cbn [ct_id createRedisConsoleTab]. rewrite number_to_string_safe; [done|]. lia. }
  destruct Hn as (x & -> & Hx & Hsup). exists x. split_and!; [done|lia|lia|].
  intros Hm. apply tidy_singleton. by apply Hsup.
Qed.
Hint Resolve keep_reset : keep.

Lemma keep_switch w database : counter_ok w → keeps_tabs (switchDatabase connections initialSQL w database).
Proof. intros Hw. unfold switchDatabase. keep. Qed.

Lemma keep_reload w id options :
  (∀ table, ro_table options = Some table → id = tableTabId table) →
  keeps_tabs (reloadTableTab connections poll_rounds w id options).
Proof.
  intros Hid. apply preserves_at. intros s Hs. unfold reloadTableTab. at_if; [by apply at_ret|].
  at_sync. destruct (prepareTableTabReload _ _ _ _) as [[next snapshot]|] eqn:E.
  - at_sync. apply at_preserves.
    + apply (tabs_ok_tabs s (λ _, next)); [done|]. intros c _ _. eapply tidy_reload; [done|exact E].
    + keep.
  - apply at_modify. by auto with keep.
Qed.
Hint Resolve keep_switch keep_reload : keep.

Lemma keep_load w table : keeps_tabs (loadTableData connections poll_rounds w table).
Proof. unfold loadTableData. keep. apply keep_reload. by intros ? [= <-]. Qed.

Lemma keep_select w tab : wf_tab tab → keeps_tabs (selectTab connections poll_rounds w tab).
Proof.
  intros Hwf. unfold selectTab. destruct tab as [t| | | | |]; keep.
  apply keep_reload. by intros ? [= <-].
Qed.

Lemma keep_open_query v sql title : keeps_tabs (openQueryTab v sql title).
Proof.
  apply preserves_at. intros w (c & Hc & Hb & Hok). unfold openQueryTab, fresh. at_sync.
  apply at_modify. exists c. split_and!; [done|lia|lia|]. intros Hs. specialize (Hok Hs).
  cbn [ws setActiveTabId setTabs set_ws tabs setQueryTabCounter take_id next_id].
  apply tidy_append; [|by exists (next_id w); split; [lia|]|by eapply tidy_mono; [| |apply Hok]; lia].
  intros _ x Hx Ex. destruct Hok as [_ Hok]. specialize (Hok x Hx).
  assert (tab_kind x = 1) as Hk.
  { eapply (wf_tab_kind x (TQuery (createQueryTab (issued (next_id w)) sql None)));
      [by eapply from_supply_wf|by eexists|done]. }
  destruct x as [|q| | | |]; try done. destruct Hok as (i & Hi & Eq). cbn in Ex.
  rewrite Eq in Ex. injection Ex as Ex. apply issued_inj in Ex. lia.
Qed.
Hint Resolve keep_open_query : keep.

Lemma keep_query_table w table : keeps_tabs (openQueryForTable connections w table).
Proof. unfold openQueryForTable. keep. Qed.

(** A console keeps the identifiers distinct when its counter is the current one. *)
Lemma keep_open_console seen w : counter_ok seen → tabs_ok w →
  stale = true ∨ redisConsoleCounter (ws seen) = redisConsoleCounter (ws w) → at_tabs w (openRedisConsole seen).
Proof.
  intros (d & Hd & Hdb) (c & Hc & Hb & Hok) Hs. unfold openRedisConsole. at_sync. apply at_modify.
  destruct (add_one c Hb) as (c' & Ha & Hc' & Hs'). exists c'.
  cbn [ws setActiveTabId setTabs set_ws tabs setRedisConsoleCounter redisConsoleCounter next_id].
  rewrite Hc, Hd. split_and!; [done|lia|lia|]. intros Hm. specialize (Hok (small_le _ _ (proj1 Hc') Hm)).
  assert (Hcd : stale = false → d = c).
  { intros Ef. destruct Hs as [Et|E]; [congruence|]. rewrite Hd, Hc in E. by injection E. }
  apply tidy_append; [| |by eapply tidy_mono; [| |apply Hok]; lia].
  - unfold counted. cbn [is_console]. rewrite andb_true_r. intros Ef%negb_true_iff x Hx Ex. specialize (Hm Ef). rewrite (Hcd Ef) in Ex.
    destruct Hok as [_ Hok]. specialize (Hok x Hx).
    assert (tab_kind x = 4) as Hk.
    { eapply (wf_tab_kind x (TConsole (createRedisConsoleTab (num c)))); [by eapply from_supply_wf|by eexists|done]. }
    destruct x as [| | | |q|]; try done. destruct Hok as [_ Hi]. destruct (Hi Ef) as (i & Hi' & Eq).
    change (ct_id q = "redis-console:"%js ++ number_to_string (num c)) in Ex.
    rewrite Eq, number_to_string_safe in Ex by lia. injection Ex as Ex. apply dec_Z_inj in Ex; lia.
  - split; [by exists (num d)|]. intros Ef. specialize (Hm Ef). rewrite (Hcd Ef). exists c. split; [lia|].
    cbn [ct_id createRedisConsoleTab]. by rewrite number_to_string_safe by lia.
Qed.

Lemma keep_delete_table w sure table : keeps_tabs (handleDeleteTable connections poll_rounds w sure table).
Proof. unfold handleDeleteTable, remove_tab. keep. Qed.
Lemma keep_delete_database w sure d : counter_ok w → keeps_tabs (handleDeleteDatabase connections initialSQL poll_rounds w sure d).
Proof. intros Hw. unfold handleDeleteDatabase. keep. Qed.
Lemma keep_create_database w p : keeps_tabs (handleCreateDatabase connections poll_rounds w p).
Proof. unfold handleCreateDatabase. keep. Qed.
Lemma keep_create_submit w d t cs : counter_ok w → keeps_tabs (handleCreateTableSubmit connections initialSQL poll_rounds w d t cs).
Proof. intros Hw. unfold handleCreateTableSubmit. keep. Qed.
Lemma keep_structure w table : keeps_tabs (openTableStructure connections w table).
Proof. unfold openTableStructure. keep. Qed.
Lemma keep_redis_key key : keeps_tabs (openRedisKey key).
Proof. unfold openRedisKey. keep. Qed.
Lemma keep_connect w target : counter_ok w → keeps_tabs (selectWorkbenchConnection initialSQL w target).
Proof. intros Hw. unfold selectWorkbenchConnection. keep. Qed.
Hint Resolve keep_connect : keep.
Lemma keep_auto w id : counter_ok w → keeps_tabs (autoConnect connections initialSQL w id).
Proof. intros Hw. unfold autoConnect. keep. Qed.

Lemma keep_record e : keeps_tabs (record_history e).
Proof. unfold record_history. keep. Qed.
Hint Resolve keep_record : keep.
Lemma keep_run w c t : keeps_tabs (run_query connections poll_rounds w c t).
Proof. unfold run_query. keep. Qed.
Hint Resolve keep_run : keep.
Lemma keep_execute w : keeps_tabs (execute connections poll_rounds w).
Proof. unfold execute. keep. Qed.
Lemma keep_confirm w typed : keeps_tabs (confirmRisk connections poll_rounds w typed).
Proof. unfold confirmRisk. keep. Qed.
Lemma keep_close w sure id : keeps_tabs (closeTab w sure id).
Proof. unfold closeTab, remove_tab. keep. Qed.

Lemma keep_rendered h : (∀ w, counter_ok w → keeps_tabs (h w)) → keeps_tabs (rendered h).
Proof. intros Hh. apply preserves_state_bind. intros w Hw. apply Hh. by apply tabs_ok_counter. Qed.

(** *** The table view and its filter panel *)

Lemma tabs_ok_update_table id f w :
  (∀ t, tt_id (f t) = tt_id t ∧ tt_table (f t) = tt_table t) → tabs_ok w → tabs_ok (update_table id f w).
Proof.
  intros Hf. apply tabs_ok_update_in_place.
  - intros [t| | | | |]; try done. split; [apply Hf|done].
  - intros n c [t| | | | |]; try done. cbn. destruct (Hf t) as [-> ->]. done.
Qed.
Hint Extern 1 (tabs_ok (update_table _ _ _)) => apply tabs_ok_update_table; [done|] : keep.

Lemma tabs_ok_show_builder rules column b w : next_id w ≤ next_rule b → tabs_ok w → tabs_ok (show_builder rules column b w).
Proof. intros Hn. by apply tabs_ok_frame. Qed.
Lemma normalized_later rules column (b : Builder) : next_rule b ≤ next_rule (normalized rules column b).
Proof. unfold normalized. case_bool_decide; cbn; lia. Qed.
Lemma tabs_ok_on_builder f w : (∀ b, next_rule b ≤ next_rule (f b)) → tabs_ok w → tabs_ok (on_builder f w).
Proof.
  intros Hf Hw. unfold on_builder. destruct (vw_filter (views w)) as [[[rules column] b]|] eqn:Ef; [|done].
  apply tabs_ok_show_builder; [|done]. etrans; [|apply Hf]. unfold filter_builder. by rewrite Ef.
Qed.
Hint Extern 1 (tabs_ok (on_builder _ _)) =>
  apply tabs_ok_on_builder; [intros ?; first [apply normalized_later|cbn; lia]|] : keep.

Lemma keep_send_mutations w t ms : keeps_tabs (send_mutations w t ms).
Proof. induction ms as [|m ms IH]; cbn [send_mutations]; keep. Qed.
Hint Resolve keep_send_mutations : keep.
Lemma keep_reload_none w id o : keeps_tabs (reloadTableTab connections poll_rounds w id (MkReload None o true)).
Proof. by apply keep_reload. Qed.
Hint Resolve keep_reload_none : keep.
Lemma keep_apply w t : keeps_tabs (apply_draft connections poll_rounds w t).
Proof. unfold apply_draft. keep. Qed.
Lemma keep_export w : keeps_tabs (exportResult w).
Proof. unfold exportResult. keep. Qed.
Lemma keep_stop w id : keeps_tabs (stop_query w id).
Proof. unfold stop_query. keep. Qed.
Hint Resolve keep_apply keep_export keep_stop : keep.
Lemma keep_table_event w t e : keeps_tabs (table_event connections poll_rounds w t e).
Proof. unfold table_event. destruct e; keep. Qed.
Lemma keep_each_event w t es : keeps_tabs (each_event connections poll_rounds w t es).
Proof. induction es; cbn [each_event]; [keep|]. apply preserves_bind; [apply keep_table_event|done]. Qed.
Lemma keep_table w es : keeps_tabs (on_table connections poll_rounds es w).
Proof. unfold on_table, table_events. keep; apply keep_each_event. Qed.

(** *** The other controls *)

Lemma keep_tab_key w id k : keeps_tabs (on_tab_key w id k).
Proof. unfold on_tab_key. keep. Qed.
Lemma keep_preview w sure id : keeps_tabs (showPreview w sure id).
Proof. unfold showPreview. keep. Qed.
Lemma tabs_ok_edit_sql id sql w : tabs_ok w → tabs_ok (edit_sql id sql w).
Proof. apply tabs_ok_update_in_place; [by intros []|by intros n c []]. Qed.
Hint Resolve tabs_ok_edit_sql : keep.
Lemma keep_choose_table w t v : keeps_tabs (chooseTable connections w t v).
Proof. unfold chooseTable. keep. Qed.
Lemma keep_query_tab f w : (∀ t, keeps_tabs (f w t)) → keeps_tabs (on_query_tab f w).
Proof. intros Hf. unfold on_query_tab. by destruct (activeQueryTab w); keep. Qed.
Lemma tabs_ok_section id s w : tabs_ok w → tabs_ok (show_section id s w).
Proof. apply tabs_ok_update_in_place; [by intros []|by intros n c []]. Qed.
Lemma keep_submit_create w : counter_ok w → keeps_tabs (submitCreateDialog connections initialSQL poll_rounds w).
Proof. intros Hw. unfold submitCreateDialog. keep. by apply keep_create_submit. Qed.

Lemma tabs_ok_mount w : tabs_ok w → tabs_ok (mount_views connections w).
Proof.
  intros Hw. assert (Ht : tabs_ok (mount_table w)).
  { unfold mount_table. destruct (shown_table w) as [t|]; [|by auto with keep]. destruct (tt_showFilter t); [|by auto with keep].
    destruct (vw_filter (views w)) as [[[rules column] b]|] eqn:Ef.
    - destruct (_ && _); [done|]. apply tabs_ok_show_builder; [|done]. etrans; [|apply normalized_later]. unfold filter_builder. by rewrite Ef.
    - apply tabs_ok_show_builder; [|done]. etrans; [|apply normalized_later]. done. }
  unfold mount_views, mount_catalog, mount_dialogs. repeat case_match; by auto with keep.
Qed.

Lemma keep_event m : event connections initialSQL poll_rounds m → keeps_tabs m.
Proof.
  destruct 1; try lazymatch goal with
    | |- preserves _ (rendered openRedisConsole) => idtac
    | |- preserves _ (rendered (openNewTab _ _)) => idtac
    | |- _ => apply keep_rendered; intros seen Hseen
    end;
    auto using keep_session, keep_reload, keep_select, keep_create_submit, keep_auto, keep_execute, keep_confirm,
      keep_close with keep.
  - unfold connectionEffect_databases. keep.
  - unfold connectionEffect_objects. keep.
  - apply preserves_at. intros s Hs. unfold rendered. apply at_state_bind.
    apply keep_open_console; [by apply tabs_ok_counter|done|by right].
  - unfold cancelRisk. keep.
  - unfold openTransaction. keep.
  - unfold closeTransaction. keep.
  - keep.
  - apply keep_table.
  - keep.
  - apply keep_tab_key.
  - apply preserves_modify. intros w. apply tabs_ok_section.
  - keep.
  - apply keep_preview.
  - keep.
  - keep.
  - apply keep_query_tab. intros t. apply keep_choose_table.
  - apply keep_query_tab. intros t. keep.
  - apply preserves_at. intros s Hs. unfold rendered, openNewTab. apply at_state_bind.
    assert (Hq : ∀ sql, at_tabs s (openQueryTab s sql None)) by (intros sql; apply at_preserves; [done|keep]).
    destruct (activeDriver connections s) as [[]|]; lazymatch goal with |- keeps_at _ _ (openQueryTab _ _ _) => apply Hq | _ => idtac end.
    apply keep_open_console; [by apply tabs_ok_counter|done|by right].
  - unfold show_result_tab. keep.
  - unfold choose_history, show_result_tab. keep.
  - unfold favorite. keep.
  - keep.
  - keep.
  - by apply keep_submit_create.
  - keep.
  - apply preserves_modify. intros w. apply tabs_ok_mount.
Qed.

Lemma keep_sidebar_event seen m : counter_ok seen →
  sidebar_event connections initialSQL poll_rounds seen m → keeps_tabs m.
Proof.
  intros Hw. destruct 1; auto using keep_load, keep_query_table, keep_delete_table, keep_delete_database,
    keep_create_database, keep_structure, keep_redis_key with keep.
  all: unfold handleCreateTable; keep.
Qed.

(** Every step of the page keeps the tabs, whatever rendering the sidebar shows. *)
Lemma page_keeps x y : counter_ok x.1 → world_keeps tabs_ok x.2 →
  page_step connections initialSQL poll_rounds stale x y → counter_ok y.1 ∧ world_keeps tabs_ok y.2.
Proof.
  intros Hseen Hx Hs. destruct Hs as [seen x y Hs|seen x|seen x y _ Hs|seen s ts s' t _ Hc Hr]; cbn [fst snd] in *.
  - split; [done|]. by eapply (world_keeps_step tabs_ok); [apply keep_event|exact Hx|exact Hs].
  - split; [|done]. apply tabs_ok_counter, Hx.
  - split; [done|]. eapply (world_keeps_step tabs_ok); [|exact Hx|exact Hs]. intros m. by apply keep_sidebar_event.
  - split; [done|]. destruct Hx as [Hi Ht].
    destruct (keep_open_console seen s Hseen Hi Hc (λ _ w, (w, Finished)) (λ e w, (w, Unhandled e))) as [H1 H2];
      [intros ? w Hw; split; by try constructor..|].
    unfold run in Hr. rewrite Hr in H1, H2. split; [done|]. apply Forall_app. split; [done|]. by constructor.
Qed.
End invariant.

Lemma initial_tabs_ok `{IdSupply} stale sql : tabs_ok stale (initialWB sql).
Proof.
  exists 2%Z. split_and!; [done|done|by vm_compute|]. intros _. apply tidy_singleton.
  exists 0. split; [cbn; lia|done].
Qed.
