(* ===== verification/WorkbenchProps.v ===== *)
(** * What the workbench guarantees

    Properties of the handlers of [Workbench]: the tabs under every interleaving, the
    guard on dangerous statements, polling, closing tabs; and behaviours that a run shows: the
    sidebar acts on an old state, a reply that arrives late replaces newer rows, a failed
    connection is retried without end, and deleting a table can close the last tab. *)
From S2P Require Import Prelude JsString JsNumber JsValue Api Ddl Risk TableQuery TableMutations Id Tabs Async History Workbench WorkbenchInvariant.

(** ** Lemmas *)

Lemma page_reachable `{Unicode, IdSupply} connections initialSQL poll_rounds stale w x :
  tabs_ok stale w → rtc (page_step connections initialSQL poll_rounds stale) (w, (w, [])) x → tabs_ok stale x.2.1.
Proof.
  intros Hw Hrun. cut (counter_ok x.1 ∧ world_keeps (tabs_ok stale) x.2); [intros [_ Hx]; apply Hx|].
  assert (Hfirst : counter_ok (w, (w, [] : list (task WB Call Reply error))).1
               ∧ world_keeps (tabs_ok stale) (w, (w, [] : list (task WB Call Reply error))).2).
  { split; [by eapply tabs_ok_counter|by split]. }
  revert Hfirst. induction Hrun as [|a b d Hs _ IH]; [done|]. intros [H1 H2]. apply IH. by eapply page_keeps.
Qed.

(** *** The sidebar of an earlier rendering *)

Section old_sidebar.
Context `{Unicode} (connections : list WorkbenchTarget) (poll_rounds : nat) (w : WB).
Let c := createRedisConsoleTab (redisConsoleCounter (ws w)).
Let w1 := (run (openRedisConsole w) w).1.
Let w2 := (run (openRedisConsole w) w1).1.

Lemma two_consoles : tabs (ws w2) = tabs (ws w) ++ [TConsole c; TConsole c].
Proof. unfold w2, w1. cbn. by rewrite <- app_assoc. Qed.

Lemma console_same_sidebar : (∀ t, t ∈ tabs (ws w) → wf_tab t) → ct_id c ∉ tab_ids (tabs (ws w)) →
  selectedTableKey w = [] → sidebar_deps connections w1 = sidebar_deps connections w.
Proof.
  intros Hwf Hfresh Hkey. unfold sidebar_deps. rewrite Hkey.
  assert (selectedTableKey w1 = []) as ->; [|done].
  unfold selectedTableKey, activeTab. destruct (find_first _ (tabs (ws w1))) as [t|] eqn:Ef.
  - apply find_first_Some in Ef as [Hin E]. bool_to_prop. apply elem_of_app in Hin as [Hin| ->%list_elem_of_singleton]; [|done].
    destruct Hfresh. unfold tab_ids. apply list_elem_of_fmap. by exists t.
  - exfalso. assert (Hc : TConsole c ∈ tabs (ws w1)) by (apply elem_of_app; right; by left).
    by eapply find_first_None in Ef; [|exact Hc]; bool_to_prop.
Qed.

Lemma close_both : tabs (ws w) ≠ [] → ct_id c ∉ tab_ids (tabs (ws w)) →
  tabs (ws (run (closeTab w2 true (ct_id c)) w2).1) = tabs (ws w).
Proof.
  intros Hne Hfresh. assert (Hr : remove_tab (ct_id c) (tabs (ws w2)) = tabs (ws w)).
  { rewrite two_consoles. unfold remove_tab. rewrite filterb_app, !filterb_cons. cbn [tab_id].
    rewrite bool_decide_eq_true_2 by done. cbn [negb]. rewrite app_nil_r. apply filterb_id.
    intros t Ht. apply negb_true_iff, bool_decide_eq_false_2. intros E. destruct Hfresh. unfold tab_ids.
    apply list_elem_of_fmap. by exists t. }
  unfold run, closeTab, bind, state, modify. rewrite andb_false_r.
  rewrite (bool_decide_eq_false_2 (length _ = 1)) by (rewrite two_consoles, length_app; cbn; lia).
  rewrite bool_decide_eq_true_2 by done. unfold close_fallback. rewrite Hr.
  destruct (tabs (ws w)) as [|t ts] eqn:Et; [done|].
  destruct ((t :: ts) !! _) as [x|]; cbn [fmap option_fmap option_map head]; cbn [fst ws setTabs set_ws tabs setActiveTabId]; done.
Qed.

Lemma reload_sends v s id options next snapshot : truthy (connectionId (conn v)) = true →
  prepareTableTabReload (tabs (ws s)) id (sqlDriverOrDefault (activeDriver connections v)) options = Some (next, snapshot) →
  awaited (run (reloadTableTab connections poll_rounds v id options) s).2
  = Some (startQuery (connectionId (conn v)) (tt_sql snapshot) (MkQueryOptions None None (transaction_option v))).
Proof. intros Hc E. unfold run, reloadTableTab, bind, state. rewrite Hc. cbn [negb]. cbv beta iota zeta. by rewrite E. Qed.

Lemma load_reloads v s table : is_connected v = true → isMongoDriver (activeDriver connections v) = false →
  run (loadTableData connections poll_rounds v table) s
  = run (reloadTableTab connections poll_rounds v (tableTabId table) (MkReload (Some table) no_overrides true))
      (setActiveTabId (tableTabId table) s).
Proof. intros Hc Hm. unfold run, loadTableData, bind, modify, is_connected in *. by rewrite Hc, Hm. Qed.

Lemma table_outside_transaction id table : is_connected w = true → transactionId w = [] → truthy id = true →
  isMongoDriver (activeDriver connections w) = false →
  let v := (drive [inl (RName id)] (run (openTransaction w) w)).1 in
  sidebar_deps connections v = sidebar_deps connections w
  ∧ ∃ sql, awaited (run (loadTableData connections poll_rounds w table) v).2
             = Some (startQuery (connectionId (conn w)) sql (MkQueryOptions None None None))
         ∧ awaited (run (loadTableData connections poll_rounds v table) v).2
             = Some (startQuery (connectionId (conn w)) sql (MkQueryOptions None None (Some id))).
Proof.
  intros Hc Ht Hid Hm v. split; [done|]. rewrite !load_reloads by done.
  set (s := setActiveTabId (tableTabId table) v).
  destruct (prepareTableTabReload (tabs (ws s)) (tableTabId table) (sqlDriverOrDefault (activeDriver connections w))
              (MkReload (Some table) no_overrides true)) as [[next snapshot]|] eqn:E.
  - exists (tt_sql snapshot). rewrite !(reload_sends _ _ _ _ next snapshot) by done.
    unfold transaction_option. change (transactionId v) with id. by rewrite Ht, Hid.
  - exfalso. revert E. unfold prepareTableTabReload. cbn [ro_table]. by destruct (find_table_tab _ _).
Qed.
End old_sidebar.

(** ** Properties *)

(** Under every interleaving of events and replies, from the first render on and
    whatever earlier rendering the sidebar shows, the open tabs have the identifiers their
    constructors give, and those that are no Redis consoles have distinct ones; consoles
    have too, as long as the sidebar's console button is not used after the counter of
    consoles has moved (while that counter is a safe integer). *)
Theorem tabs_distinct_always `{Unicode, IdSupply} connections initialSQL poll_rounds stale seen w ts :
  rtc (page_step connections initialSQL poll_rounds stale) (initialWB initialSQL, (initialWB initialSQL, [])) (seen, (w, ts)) →
  num_le (redisConsoleCounter (ws w)) (num max_safe) = true →
  (∀ t, t ∈ tabs (ws w) → wf_tab t)
  ∧ NoDup (tab_ids (filterb (λ t, negb (is_console t)) (tabs (ws w))))
  ∧ (stale = false → NoDup (tab_ids (tabs (ws w)))).
Proof.
  intros Hrun Hc. destruct (page_reachable _ _ _ _ _ _ (initial_tabs_ok stale initialSQL) Hrun) as (c & E & Hb & Hok).
  cbn in E, Hok. rewrite E, num_le_int in Hc. bool_to_prop. destruct (Hok (λ _, Hc)) as [Hnd Ht].
  split; [intros t Hin; by eapply from_supply_wf, Ht|]. unfold counted in Hnd. destruct stale; cbn [andb negb] in Hnd.
  - by split.
  - rewrite filterb_id in Hnd by done. split; [by apply filterb_NoDup_fmap|done].
Qed.

#[local] Existing Instances ascii_unicode counting_ids.

Lemma tabs_distinct_always_witness :
  let w' := (run (rendered openRedisConsole) (initialWB SQL_GUIDE)).1 in
  (∀ t, t ∈ tabs (ws w') → wf_tab t)
  ∧ NoDup (tab_ids (filterb (λ t, negb (is_console t)) (tabs (ws w'))))
  ∧ (false = false → NoDup (tab_ids (tabs (ws w')))).
Proof.
  refine (tabs_distinct_always [] SQL_GUIDE 301 false (initialWB SQL_GUIDE) _ [Finished] _ _); [|vm_compute; reflexivity].
  eapply rtc_once, page_main. apply (step_event _ (rendered openRedisConsole) _ [] _ Finished); [apply ev_console | reflexivity].
Defined.

(** C23. The sidebar acts on the rendering in which it was last given to the shell, which
    neither the counter of consoles nor the open transaction renews.  Pressing its console
    button twice opens two tabs with one identifier, which are closed together; and a table
    opened from it after a transaction was begun is read outside the transaction, while
    the same reload in the main area is part of it. *)
Theorem sidebar_acts_on_old_state `{Unicode} connections poll_rounds w :
  (∀ t, t ∈ tabs (ws w) → wf_tab t) → tabs (ws w) ≠ [] →
  (let c := createRedisConsoleTab (redisConsoleCounter (ws w)) in
   ct_id c ∉ tab_ids (tabs (ws w)) → selectedTableKey w = [] →
   let w1 := (run (openRedisConsole w) w).1 in
   let w2 := (run (openRedisConsole w) w1).1 in
   sidebar_deps connections w1 = sidebar_deps connections w
   ∧ tabs (ws w2) = tabs (ws w) ++ [TConsole c; TConsole c]
   ∧ tabs (ws (run (closeTab w2 true (ct_id c)) w2).1) = tabs (ws w))
  ∧ ∀ id table, is_connected w = true → transactionId w = [] → truthy id = true →
     isMongoDriver (activeDriver connections w) = false →
     let w1 := (drive [inl (RName id)] (run (openTransaction w) w)).1 in
     sidebar_deps connections w1 = sidebar_deps connections w
     ∧ ∃ sql, awaited (run (loadTableData connections poll_rounds w table) w1).2
                = Some (startQuery (connectionId (conn w)) sql (MkQueryOptions None None None))
            ∧ awaited (run (loadTableData connections poll_rounds w1 table) w1).2
                = Some (startQuery (connectionId (conn w)) sql (MkQueryOptions None None (Some id))).
Proof.
  intros Hwf Hne. split; [|intros id table Hc Ht Hid Hm; exact (table_outside_transaction connections poll_rounds w id table Hc Ht Hid Hm)].
  intros c Hfresh Hkey w1 w2. split_and!; [by apply console_same_sidebar|by apply two_consoles|].
  by apply close_both.
Qed.

(** C17. A dangerous statement is not sent by the run button: unless the client finds it
    safe, [execute] only opens the dialog and makes no call.  A safe one is sent as it
    stands, unconfirmed and in the open transaction; the dialog sends the statement the
    editor then holds, with the typed name, only if that name is the dialog's target. *)
Theorem run_guard `{Unicode, IdSupply} connections poll_rounds w typed :
  let detected := classifyClientRisk (current_sql w) in
  (level detected ≠ Safe →
     run (execute connections poll_rounds w) w = (setRisk (Some detected) w, Finished))
  ∧ (level detected = Safe → is_connected w = true → truthy (trim (current_sql w)) = true →
     ∃ w' k, run (execute connections poll_rounds w) w
       = (w', Await (startQuery (connectionId (conn w)) (current_sql w)
                       (MkQueryOptions None None (transaction_option w))) k))
  ∧ (∀ w' c k, run (confirmRisk connections poll_rounds w typed) w = (w', Await c k) →
     ∃ r, risk w = Some r ∧ (level r = TypeTarget → target r = Some typed)
          ∧ c = startQuery (connectionId (conn w)) (current_sql w)
                  (MkQueryOptions (Some true) (Some typed) (transaction_option w))).
Proof.
  intros detected. unfold run, execute, confirmRisk, run_query, current_sql, bind, state, modify, detected, current_sql.
  split_and!.
  - intros Hl. by rewrite bool_decide_eq_false_2.
  - intros Hl Hc Ht. rewrite bool_decide_eq_true_2 by done. cbn [negb].
    destruct (activeQueryTab w) as [tab|]; [|done]. rewrite Hc, Ht. cbn [negb orb]. by eexists _, _.
  - intros w' c k. destruct (risk w) as [r|]; [|done].
    destruct (bool_decide (level r = TypeTarget) && negb (bool_decide (Some typed = target r))) eqn:Eg; [done|].
    destruct (activeQueryTab w) as [tab|]; [|done].
    destruct (negb (is_connected w) || negb (truthy (trim (qt_sql tab)))); [done|].
    intros [= _ <- _]. exists r. split_and!; [done| |done]. intros Hl.
    rewrite bool_decide_eq_true_2 in Eg by done. apply negb_false_iff in Eg. by bool_to_prop.
Qed.


Definition running_page (r : bool) (cells : list (list value)) : QueryResult :=
  MkResult "q"%js (Some [MkColumn "id"%js None]) (Some cells) None None (num 3) None r.



Definition two_tabs : WB := (run (rendered openRedisConsole) (initialWB SQL_GUIDE)).1.

(** One turn of the connecting effect whose request is rejected with [e]. *)
Definition failed_attempt `{IdSupply} connections initialSQL selected (w : WB) (e : error) : WB :=
  (drive [inr e] (run (rendered (λ v, autoConnect connections initialSQL v selected)) w)).1.

(** C24. A connection that cannot be made is tried for ever: when the connecting effect
    fires without an open connection, its request is [connectSaved] of the selected
    connection, and after any number of rejections the state makes the effect fire for
    the same target again. *)
Theorem failed_connection_retried `{IdSupply} connections initialSQL selected w target errors :
  autoConnect_target connections selected w = Some target → is_connected w = false →
  let w' := foldl (failed_attempt connections initialSQL selected) w errors in
  autoConnect_target connections selected w' = Some target
  ∧ ∃ w'' k, run (rendered (λ v, autoConnect connections initialSQL v selected)) w' = (w'', Await (connectSaved (target_id target)) k).
Proof.
  intros Ht Hc.
  assert (Hrun : ∀ v, autoConnect_target connections selected v = Some target → is_connected v = false →
    (∃ v' k, run (rendered (λ v, autoConnect connections initialSQL v selected)) v = (v', Await (connectSaved (target_id target)) k))
    ∧ ∀ e, autoConnect_target connections selected (failed_attempt connections initialSQL selected v e) = Some target
           ∧ is_connected (failed_attempt connections initialSQL selected v e) = false).
  { intros v Hv Hvc.
    assert (Hready : sessionState (conn v) = SessionReady ∧ truthy selected = true
       ∧ find_first (λ c, bool_decide (target_id c = selected)) connections = Some target).
    { unfold autoConnect_target in Hv. destruct (truthy selected); [|done]. cbn [negb orb] in Hv.
      case_bool_decide; [|done]. cbn [negb orb] in Hv. destruct (truthy (connectingId (conn v))); [done|].
      destruct (find_first _ connections) as [t|]; [|done].
      destruct (bool_decide (activeSavedId (conn v) = target_id t) && is_connected v); [done|]. by simplify_eq. }
    destruct Hready as (Hready & Hsel & Hfind).
    unfold failed_attempt, run, rendered, autoConnect, bind, state. rewrite Hv.
    unfold selectWorkbenchConnection, bind, state. rewrite Hvc, andb_false_r, Hready.
    rewrite bool_decide_eq_true_2 by done. cbn [negb]. split; [by eexists _, _|]. intros e.
    unfold finally, catch, call_connected, bind, await, ret, modify, reportConnectionFeedback. cbn.
    unfold autoConnect_target, is_connected, report_query_tab.
    destruct (first_query_tab _); cbn; rewrite Hsel, Hready, Hfind, andb_false_r; cbn; done. }
  cbv zeta. revert w Ht Hc. induction errors as [|e errors IH]; intros w Ht Hc.
  - split; [done|]. by apply Hrun.
  - cbn [foldl]. destruct (Hrun w Ht Hc) as [_ Hf]. destruct (Hf e) as [H1 H2]. by apply IH.
Qed.

Definition unreachable : WorkbenchTarget := MkTarget "1"%js "prod"%js (Some postgres).
Definition ready_state : WB := setSessionState SessionReady (initialWB SQL_GUIDE).

Lemma failed_connection_retried_witness :
  autoConnect_target [unreachable] "1"%js
    (foldl (failed_attempt [unreachable] SQL_GUIDE "1"%js) ready_state [Some "timeout"%js; Some "timeout"%js])
  = Some unreachable.
Proof.
  exact (proj1 (failed_connection_retried [unreachable] SQL_GUIDE "1"%js ready_state unreachable
    [Some "timeout"%js; Some "timeout"%js] eq_refl eq_refl)).
Defined.

(** *** A late reply *)

Definition table_t : DatabaseObject := tableObject (Some "public"%js) "t"%js.
(** Two page changes of one table tab, the second before the first is answered, and
    their replies with the first query's page last. *)
Definition page_change (p : Z) : handler unit :=
  rendered (λ w, reloadTableTab [unreachable] 301 w (tableTabId table_t)
    (MkReload (Some table_t) (MkOverrides (Some (num p)) None None None None None None) true)).
Definition connected_state : WB := setConnectionId "c"%js ready_state.

Lemma sidebar_acts_on_old_state_witness :
  let w := connected_state in
  let w2 := (run (openRedisConsole w) (run (openRedisConsole w) w).1).1 in
  tab_ids (tabs (ws w2)) = tab_ids (tabs (ws w)) ++ ["redis-console:2"; "redis-console:2"]%js
  ∧ tabs (ws (run (closeTab w2 true "redis-console:2"%js) w2).1) = tabs (ws w)
  ∧ ∃ sql, awaited (run (loadTableData [unreachable] 301 w table_t)
                      (drive [inl (RName "tx"%js)] (run (openTransaction w) w)).1).2
           = Some (startQuery "c"%js sql (MkQueryOptions None None None)).
Proof.
  destruct (sidebar_acts_on_old_state [unreachable] 301 connected_state) as [H1 H2].
  { intros t ->%list_elem_of_singleton. by exists (issued 0). }
  { done. }
  destruct H1 as (_ & Ht & Hc); [apply (bool_decide_unpack _); vm_compute; exact I|done|].
  split_and!; [unfold tab_ids; rewrite Ht; reflexivity|exact Hc|].
  destruct (H2 "tx"%js table_t) as (_ & sql & Hs & _); [done..|]. by exists sql.
Defined.

Definition shown_table (w : WB) : option (number * TabStatus * option (list (list value))) :=
  t ← find_table_tab (tabs (ws w)) (tableTabId table_t);
  Some (tt_page t, tt_status t, match tt_result t with Some r => r_rows r | None => None end).

Definition late_reply : list (action WB Call Reply error) :=
  [ Start (page_change 2); Start (page_change 3);
    Answer 0 (inl (RName "q2"%js)); Answer 1 (inl (RName "q3"%js));
    Answer 1 (inl (RPage (running_page false [[VStr "row of page 3"%js]])));
    Answer 0 (inl (RPage (running_page false [[VStr "row of page 2"%js]]))) ].

Definition is_finished (t : task WB Call Reply error) : bool := match t with Finished => true | _ => false end.

(** Replies are not matched with the request they answer: there is a run in which a
    table tab ends idle on page 3 and shows the rows of page 2, because the answer to
    the earlier request came later. *)
Theorem stale_reply_wins :
  ∃ w ts, rtc (world_step (event [unreachable] SQL_GUIDE 301)) (connected_state, []) (w, ts)
    ∧ forallb is_finished ts = true
    ∧ shown_table w = Some (num 3, Idle, Some [[VStr "row of page 2"%js]]).
Proof.
  exists (schedule late_reply (connected_state, [])).1, (schedule late_reply (connected_state, [])).2.
  split; [|split; vm_compute; reflexivity].
  rewrite <- surjective_pairing. apply schedule_reachable.
  repeat constructor; by intros ? [= <-].
Qed.

(** Deleting a table can close the last tab: there is a run, with the tab of the
    table the only one open and the statement accepted by the server, that leaves no tab,
    which closing a tab never does (C19). *)
Theorem delete_table_closes_last_tab :
  ∃ seen w ts, rtc (page_step [unreachable] SQL_GUIDE 301 false) (connected_state, (connected_state, [])) (seen, (w, ts))
    ∧ forallb is_finished ts = true ∧ tabs (ws w) = [].
Proof.
  set (w1 := (run (openTableStructure [unreachable] connected_state table_t) connected_state).1).
  set (w2 := (run (rendered (λ w, closeTab w true (activeTabId (ws connected_state)))) w1).1).
  set (w3 := (run (handleDeleteTable [unreachable] 301 w2 true table_t) w2).1).
  set (t3 := (run (handleDeleteTable [unreachable] 301 w2 true table_t) w2).2).
  set (x := schedule [Answer 2 (inl (RName "q"%js)); Answer 2 (inl (RPage (running_page false [])));
                      Answer 2 (inl (RObjects []))] (w3, [Finished; Finished; t3])).
  exists w2, x.1, x.2. split; [|split; vm_compute; reflexivity].
  eapply rtc_l; [apply page_sidebar; [reflexivity|]; apply (step_event _ (openTableStructure [unreachable] connected_state table_t) _ [] w1 Finished); [apply sb_structure|reflexivity]|].
  eapply rtc_l; [apply page_main, (step_event _ (rendered (λ w, closeTab w true (activeTabId (ws connected_state)))) _ _ w2 Finished);
                 [apply ev_close|reflexivity]|].
  eapply rtc_l; [apply page_publish|].
  eapply rtc_l; [apply page_sidebar; [reflexivity|]; apply (step_event _ (handleDeleteTable [unreachable] 301 w2 true table_t) _ _ w3 t3);
                 [apply sb_delete_table|apply surjective_pairing]|].
  rewrite <- surjective_pairing. apply (rtc_congruence (R := world_step (event [unreachable] SQL_GUIDE 301)) (λ y, (w2, y)));
    [intros y z; apply page_main|].
  apply schedule_reachable. by repeat constructor.
Qed.
