(* ===== verification/RedisKeys.v ===== *)
(** * The tree of Redis keys

    [src/web/src/features/redis/redisKeyHierarchy.ts]: the keys of a scan arranged by
    their separators, and [RedisKeyTree.tsx]: the rows that are displayed, the folders
    that are expanded and the pages that are scanned.

    A [Map] is the list of its entries in insertion order.  [insertKey] mutates nodes that
    nothing else refers to, so its model returns the node it leaves. *)
From S2P Require Import Prelude JsString JsNumber Api Async.

(** ** Data *)

Inductive RedisKeyTreeNode :=
| RedisKeyFolderNode (name prefix : jstr) (count : nat) (children : list RedisKeyTreeNode)
| RedisKeyLeafNode (item : RedisKeySummary) (displayName : jstr).

Inductive InternalNode := MkInternal {
  in_name : jstr;
  in_prefix : jstr;
  in_folders : list (jstr * InternalNode);
  in_keys : list RedisKeySummary;
}.

(** [map.get(k)] and [map.set(k, x)] for the value [f] makes of the one found. *)
Fixpoint map_update {A} (k : jstr) (f : option A → A) (m : list (jstr * A)) : list (jstr * A) :=
  match m with
  | [] => [(k, f None)]
  | (k', x) :: m' => if decide (k = k') then (k', f (Some x)) :: m' else (k', x) :: map_update k f m'
  end.

(** ** Building the tree *)

Fixpoint countKeys (node : InternalNode) : nat :=
  match node with
  | MkInternal _ _ folders keys =>
      List.fold_left (λ total entry, total + countKeys entry.2) folders (length keys)
  end.

(** The parts of a split are never empty, so the first case is not reached. *)
Fixpoint insertKey (node : InternalNode) (item : RedisKeySummary) (parts prefixParts : list jstr)
    (separator : jstr) {struct parts} : InternalNode :=
  match parts with
  | [] => node
  | [_] => MkInternal (in_name node) (in_prefix node) (in_folders node) (in_keys node ++ [item])
  | head :: rest =>
      let childPrefix := join separator (prefixParts ++ [head]) in
      let fresh := MkInternal head childPrefix [] [] in
      MkInternal (in_name node) (in_prefix node)
        (map_update head (λ child, insertKey (default fresh child) item rest (prefixParts ++ [head]) separator)
           (in_folders node))
        (in_keys node)
  end.

Definition node_name (node : RedisKeyTreeNode) : jstr :=
  match node with RedisKeyFolderNode name _ _ _ => name | RedisKeyLeafNode item _ => rk_key item end.

Definition leaf (separator : jstr) (item : RedisKeySummary) : RedisKeyTreeNode :=
  RedisKeyLeafNode item
    (if includes separator (rk_key item)
     then slice_from (match lastIndexOf separator (rk_key item) with Some i => S i | None => 0 end) (rk_key item)
     else rk_key item).

Section tree.
Context `{Unicode}.

Definition by_name (left right : RedisKeyTreeNode) : Z := localeCompare (node_name left) (node_name right).

(** Sorting the folders by their names and building their nodes commute: the nodes keep
  the names ([toTreeNodes_eq] states the order of the code). *)
Fixpoint toTreeNodes (node : InternalNode) (separator : jstr) : list RedisKeyTreeNode :=
  match node with
  | MkInternal _ _ folders keys =>
      sort_by by_name
        (List.map (λ entry, RedisKeyFolderNode (in_name entry.2) (in_prefix entry.2) (countKeys entry.2)
                              (toTreeNodes entry.2 separator)) folders)
      ++ (leaf separator <$> sort_by (λ left right, localeCompare (rk_key left) (rk_key right)) keys)
  end.

Definition root : InternalNode := MkInternal [] [] [] [].

Definition insert_all (keys : list RedisKeySummary) (separator : jstr) : InternalNode :=
  foldl (λ node item, insertKey node item (split separator (rk_key item)) [] separator) root keys.

Definition buildRedisKeyTree (keys : list RedisKeySummary) (separator : jstr) : list RedisKeyTreeNode :=
  toTreeNodes (insert_all keys separator) separator.
End tree.

Definition folderPathForKey (key separator : jstr) : list jstr :=
  let parts := split separator key in
  if bool_decide (length parts ≤ 1) then []
  else (λ index, join separator (take (S index) parts)) <$> seq 0 (length parts - 1).

Definition colon : jstr := ":"%js.

(** ** The component *)

Record KeyTree := MkKeyTree {
  kt_match : jstr;
  kt_cursor : number;
  kt_keys : list RedisKeySummary;
  kt_loading : bool;
  kt_expanded : gset jstr;
}.

Definition initial_tree : KeyTree := MkKeyTree "*"%js (num 0) [] false ∅.

Definition setMatch m t := MkKeyTree m (kt_cursor t) (kt_keys t) (kt_loading t) (kt_expanded t).
Definition setCursor c t := MkKeyTree (kt_match t) c (kt_keys t) (kt_loading t) (kt_expanded t).
Definition setKeys (f : list RedisKeySummary → list RedisKeySummary) t :=
  MkKeyTree (kt_match t) (kt_cursor t) (f (kt_keys t)) (kt_loading t) (kt_expanded t).
Definition setLoading b t := MkKeyTree (kt_match t) (kt_cursor t) (kt_keys t) b (kt_expanded t).
Definition setExpanded (f : gset jstr → gset jstr) t :=
  MkKeyTree (kt_match t) (kt_cursor t) (kt_keys t) (kt_loading t) (f (kt_expanded t)).

(** The call [api.redisScanKeys(connectionId, match, cursor)]. *)
Record ScanCall := redisScanKeys { scan_connection : jstr; scan_match : jstr; scan_cursor : number }.

Local Open Scope async_scope.

Definition load (connectionId : jstr) (nextCursor : number) (append : bool)
    : async KeyTree ScanCall RedisKeysResult error unit :=
  let* t := state in
  do* modify (setLoading true) in
  finally
    (let* result := await (redisScanKeys connectionId (kt_match t) nextCursor) in
     do* modify (setKeys (λ current, if append then current ++ rks_keys result else rks_keys result)) in
     modify (setCursor (rks_cursor result)))
    (modify (setLoading false)).

(** The effect on the selected key. *)
Definition revealSelected (selectedKey : jstr) (t : KeyTree) : KeyTree :=
  if truthy selectedKey
  then setExpanded (λ current, current ∪ list_to_set (folderPathForKey selectedKey colon)) t
  else t.

Definition toggleFolder (prefix : jstr) : KeyTree → KeyTree :=
  setExpanded (λ current, if bool_decide (prefix ∈ current) then current ∖ {[prefix]} else current ∪ {[prefix]}).

(** The rows a node displays, each with its depth. *)
Fixpoint RedisKeyTreeNodeRow (expanded : gset jstr) (depth : nat) (node : RedisKeyTreeNode)
    : list (nat * RedisKeyTreeNode) :=
  (depth, node) ::
  match node with
  | RedisKeyLeafNode _ _ => []
  | RedisKeyFolderNode _ prefix _ children =>
      if bool_decide (prefix ∈ expanded)
      then List.flat_map (RedisKeyTreeNodeRow expanded (S depth)) children else []
  end.

Definition tree_rows `{Unicode} (t : KeyTree) : list (nat * RedisKeyTreeNode) :=
  List.flat_map (RedisKeyTreeNodeRow (kt_expanded t) 0) (buildRedisKeyTree (kt_keys t) colon).

(** ** Leaves and folders *)

Definition under (prefix : jstr) (l : list jstr * RedisKeySummary) : list jstr * RedisKeySummary :=
  (prefix :: l.1, l.2).

(** The keys below a node, each with the prefixes of the folders around it. *)
Fixpoint node_leaves (node : InternalNode) : list (list jstr * RedisKeySummary) :=
  match node with
  | MkInternal _ _ folders keys =>
      List.flat_map (λ entry, List.map (under (in_prefix entry.2)) (node_leaves entry.2)) folders
      ++ (pair [] <$> keys)
  end.

Fixpoint leaves_of (node : RedisKeyTreeNode) : list (list jstr * RedisKeySummary) :=
  match node with
  | RedisKeyLeafNode item _ => [([], item)]
  | RedisKeyFolderNode _ prefix _ children => List.map (under prefix) (List.flat_map leaves_of children)
  end.
Definition leaves (nodes : list RedisKeyTreeNode) := List.flat_map leaves_of nodes.

(** The prefixes of all folders, the keys under which they expand. *)
Fixpoint prefixes_of (node : RedisKeyTreeNode) : list jstr :=
  match node with
  | RedisKeyLeafNode _ _ => []
  | RedisKeyFolderNode _ prefix _ children => prefix :: List.flat_map prefixes_of children
  end.
Definition prefixes (nodes : list RedisKeyTreeNode) := List.flat_map prefixes_of nodes.

(** A node whose folders come before its keys, both in the order of their names, whose
    folders are not empty and count the keys below them, and whose keys show the last
    part of their name. *)
Inductive node_ok `{Unicode} (c : N) : RedisKeyTreeNode → Prop :=
| ok_leaf item name : last (split [c] (rk_key item)) = Some name → node_ok c (RedisKeyLeafNode item name)
| ok_folder name prefix children :
    level_ok c children → leaves children ≠ [] →
    node_ok c (RedisKeyFolderNode name prefix (length (leaves children)) children)
with level_ok `{Unicode} (c : N) : list RedisKeyTreeNode → Prop :=
| ok_level folders keys :
    StronglySorted (ordered by_name) folders → StronglySorted (ordered by_name) keys →
    (∀ t, t ∈ folders → node_ok c t ∧ ∃ n p k cs, t = RedisKeyFolderNode n p k cs) →
    (∀ t, t ∈ keys → node_ok c t ∧ ∃ item n, t = RedisKeyLeafNode item n) →
    level_ok c (folders ++ keys).

Section internal_ind.
Context (P : InternalNode → Prop).
Context (Hstep : ∀ name prefix folders keys,
  Forall (λ entry, P entry.2) folders → P (MkInternal name prefix folders keys)).

Fixpoint internal_nested_ind (node : InternalNode) : P node :=
  match node with
  | MkInternal name prefix folders keys =>
      Hstep name prefix folders keys
        ((fix go (l : list (jstr * InternalNode)) : Forall (λ entry, P entry.2) l :=
            match l with
            | [] => Forall_nil_2 _
            | entry :: l' => Forall_cons_2 _ entry l' (internal_nested_ind entry.2) (go l')
            end) folders)
  end.
End internal_ind.

Section tree_ind.
Context (P : RedisKeyTreeNode → Prop).
Context (Hleaf : ∀ item name, P (RedisKeyLeafNode item name)).
Context (Hfolder : ∀ name prefix count children, Forall P children → P (RedisKeyFolderNode name prefix count children)).

Fixpoint tree_nested_ind (node : RedisKeyTreeNode) : P node :=
  match node with
  | RedisKeyLeafNode item name => Hleaf item name
  | RedisKeyFolderNode name prefix count children =>
      Hfolder name prefix count children
        ((fix go (l : list RedisKeyTreeNode) : Forall P l :=
            match l with
            | [] => Forall_nil_2 _
            | t :: l' => Forall_cons_2 _ t l' (tree_nested_ind t) (go l')
            end) children)
  end.
End tree_ind.

(** ** [Map] *)

Lemma map_update_spec {A} k (f : option A → A) m :
  ((k ∉ m.*1) ∧ map_update k f m = m ++ [(k, f None)])
  ∨ (∃ m1 x m2, m = m1 ++ (k, x) :: m2 ∧ map_update k f m = m1 ++ (k, f (Some x)) :: m2).
Proof.
  induction m as [|[k' x] m IH]; simpl; [left; split; [apply not_elem_of_nil|done]|].
  destruct (decide (k = k')) as [<-|Hne]; [right; by exists [], x, m|].
  destruct IH as [[Hk ->]|(m1 & y & m2 & -> & ->)].
  - left. split; [|done]. by apply not_elem_of_cons.
  - right. by exists ((k', x) :: m1), y, m2.
Qed.

(** ** Counting *)

Lemma fold_left_lengths {A B} (f : A → nat) (g : A → list B) l n :
  Forall (λ x, f x = length (g x)) l →
  List.fold_left (λ total x, total + f x) l n = n + length (List.flat_map g l).
Proof.
  intros Hl. revert n. induction Hl as [|x l Hx _ IH]; intros n; simpl; [lia|].
  rewrite IH, length_app, Hx. lia.
Qed.

Lemma countKeys_leaves node : countKeys node = length (node_leaves node).
Proof.
  induction node as [name prefix folders keys IH] using internal_nested_ind. cbn [countKeys node_leaves].
  rewrite length_app, length_fmap, Nat.add_comm.
  rewrite (fold_left_lengths _ (λ entry, List.map (under (in_prefix entry.2)) (node_leaves entry.2))); [lia|].
  eapply Forall_impl; [exact IH|]. intros entry E. cbn. by rewrite List.length_map.
Qed.

Section tree_lemmas.
Context `{Unicode}.

Lemma leaf_leaves sep keys : leaves (leaf sep <$> keys) = pair [] <$> keys.
Proof. unfold leaves. induction keys as [|k keys IH]; [done|]. cbn. by f_equal. Qed.

Lemma flat_map_perm {A B} (f : A → list B) l k : l ≡ₚ k → List.flat_map f l ≡ₚ List.flat_map f k.
Proof. intros E. by rewrite E. Qed.

Lemma flat_map_map {A B C} (f : B → list C) (g : A → B) l :
  List.flat_map f (List.map g l) = List.flat_map (λ x, f (g x)) l.
Proof. induction l as [|x l IH]; [done|]. cbn. by rewrite IH. Qed.

Lemma fmap_flat_map {A B C} (g : B → C) (f : A → list B) l :
  g <$> List.flat_map f l = List.flat_map (λ x, g <$> f x) l.
Proof. induction l as [|x l IH]; [done|]. cbn [List.flat_map]. by rewrite fmap_app, IH. Qed.

Lemma flat_map_perm_ext {A B} (f g : A → list B) l :
  Forall (λ x, f x ≡ₚ g x) l → List.flat_map f l ≡ₚ List.flat_map g l.
Proof. induction 1 as [|x l Hx _ IH]; [done|]. cbn. by rewrite Hx, IH. Qed.

Lemma toTreeNodes_leaves sep node : leaves (toTreeNodes node sep) ≡ₚ node_leaves node.
Proof.
  induction node as [name prefix folders keys IH] using internal_nested_ind.
  cbn [toTreeNodes node_leaves]. unfold leaves. rewrite List.flat_map_app.
  fold (leaves (leaf sep <$> sort_by (λ l r, localeCompare (rk_key l) (rk_key r)) keys)).
  rewrite leaf_leaves. apply Permutation_app; [|by rewrite sort_by_perm].
  rewrite (flat_map_perm _ _ _ (sort_by_perm by_name _)), flat_map_map. apply flat_map_perm_ext.
  eapply Forall_impl; [exact IH|]. intros entry E. cbn. by apply Permutation_map.
Qed.
End tree_lemmas.

(** ** Inserting keys *)

Section insertion.
Context (c : N).

(** A node reached by [path]: its folders are kept under their own, distinct names, free
  of the separator, and carry the joined path as their prefix. *)
Inductive wf_node (path : list jstr) : InternalNode → Prop :=
| wf_node_intro name prefix folders keys :
  NoDup folders.*1 →
  (∀ k child, (k, child) ∈ folders →
     (c ∉ k) ∧ in_name child = k ∧ in_prefix child = join [c] (path ++ [k])
     ∧ node_leaves child ≠ [] ∧ wf_node (path ++ [k]) child) →
  wf_node path (MkInternal name prefix folders keys).

(** The prefixes of the folders between a node and a key. *)
Fixpoint path_prefixes (path parts : list jstr) : list jstr :=
  match parts with
  | [] | [_] => []
  | head :: rest => join [c] (path ++ [head]) :: path_prefixes (path ++ [head]) rest
  end.

Lemma wf_fresh path name : wf_node path (MkInternal name (join [c] path) [] []).
Proof. constructor; [apply NoDup_nil_2|]. by intros k child ?%elem_of_nil. Qed.

Lemma insertKey_name node item parts path sep :
  in_name (insertKey node item parts path sep) = in_name node
  ∧ in_prefix (insertKey node item parts path sep) = in_prefix node.
Proof. by destruct parts as [|h [|h' parts]]. Qed.

Lemma node_leaves_split name prefix l1 (e : jstr * InternalNode) l2 keys :
  node_leaves (MkInternal name prefix (l1 ++ e :: l2) keys) ≡ₚ
    List.map (under (in_prefix e.2)) (node_leaves e.2)
    ++ node_leaves (MkInternal name prefix (l1 ++ l2) keys).
Proof.
  cbn [node_leaves]. rewrite app_assoc. apply Permutation_app_tail.
  rewrite !List.flat_map_app. cbn [List.flat_map].
  rewrite (Permutation_app_comm (List.map _ _) (List.flat_map _ l1 ++ _)), <- app_assoc.
  by apply Permutation_app_head, Permutation_app_comm.
Qed.

Definition fresh (path : list jstr) (head : jstr) : InternalNode :=
  MkInternal head (join [c] (path ++ [head])) [] [].

(** What [insertKey] needs to know of a child and what it keeps. *)
Definition child_ok (path : list jstr) (k : jstr) (child : InternalNode) : Prop :=
  (c ∉ k) ∧ in_name child = k ∧ in_prefix child = join [c] (path ++ [k])
  ∧ node_leaves child ≠ [] ∧ wf_node (path ++ [k]) child.

Lemma wf_node_folders path node :
  wf_node path node → NoDup (in_folders node).*1 ∧ ∀ k child, (k, child) ∈ in_folders node → child_ok path k child.
Proof. by destruct 1. Qed.

(** Replacing or adding one child that holds one key more. *)
Lemma map_update_node path name prefix folders keys h (f : option InternalNode → InternalNode) l :
  wf_node path (MkInternal name prefix folders keys) →
  (∀ child, (∀ x, child = Some x → (h, x) ∈ folders) →
     child_ok path h (f child)
     ∧ node_leaves (f child) ≡ₚ l :: node_leaves (default (fresh path h) child)) →
  wf_node path (MkInternal name prefix (map_update h f folders) keys)
  ∧ node_leaves (MkInternal name prefix (map_update h f folders) keys) ≡ₚ
      under (join [c] (path ++ [h])) l :: node_leaves (MkInternal name prefix folders keys).
Proof.
  intros [Hnd Hch]%wf_node_folders Hf. cbn [in_folders] in *.
  destruct (map_update_spec h f folders) as [[Hh ->]|(m1 & x & m2 & -> & ->)].
  - destruct (Hf None) as [Hok Hl]; [done|]. split.
    + constructor; [rewrite fmap_app; by apply NoDup_app_singleton|].
      intros k child [?|E%list_elem_of_singleton]%elem_of_app; [by apply Hch|]. by simplify_eq.
    + rewrite node_leaves_split, app_nil_r. cbn [snd]. destruct Hok as (_ & _ & -> & _).
      by rewrite (Permutation_map _ Hl).
  - destruct (Hf (Some x)) as [Hok Hl]; [intros ? [= <-]; apply elem_of_app; right; by left|]. split.
    + constructor; [by rewrite fmap_app in *|].
      intros k child [?|[E|?]%elem_of_cons]%elem_of_app; [apply Hch, elem_of_app; by left| |].
      * by simplify_eq.
      * apply Hch, elem_of_app. right. by right.
    + rewrite !node_leaves_split. cbn [snd]. destruct Hok as (_ & _ & -> & _).
      assert (child_ok path h x) as (_ & _ & -> & _) by (apply Hch, elem_of_app; right; by left).
      by rewrite (Permutation_map _ Hl).
Qed.

Lemma insertKey_spec item parts path node :
  parts ≠ [] → Forall (λ p, c ∉ p) parts → wf_node path node →
  node_leaves (insertKey node item parts path [c]) ≡ₚ (path_prefixes path parts, item) :: node_leaves node
  ∧ wf_node path (insertKey node item parts path [c]).
Proof.
  revert path node. induction parts as [|h [|h' parts] IH]; intros path [name prefix folders keys] Hne Hc Hwf; [done| |].
  - apply wf_node_folders in Hwf as [Hnd Hch]. cbn. split; [|by constructor].
    rewrite fmap_app, app_assoc. cbn. by rewrite Permutation_app_comm.
  - apply Forall_cons in Hc as [Hh Hc]. pose proof (proj2 (wf_node_folders _ _ Hwf)) as Hch.
    destruct (map_update_node path name prefix folders keys h
      (λ child, insertKey (default (fresh path h) child) item (h' :: parts) (path ++ [h]) [c])
      (path_prefixes (path ++ [h]) (h' :: parts), item) Hwf) as [Hw Hl]; [|by split].
    intros child Hchild. set (x := default (fresh path h) child).
    assert (in_name x = h ∧ in_prefix x = join [c] (path ++ [h]) ∧ wf_node (path ++ [h]) x) as (N1 & N2 & W).
    { destruct child as [y|]; [|split_and!; [done|done|apply wf_fresh]].
      by destruct (Hch h y (Hchild y eq_refl)) as (_ & ? & ? & _ & ?). }
    destruct (IH (path ++ [h]) x ltac:(done) Hc W) as [Hl Hw].
    destruct (insertKey_name x item (h' :: parts) (path ++ [h]) [c]) as [E1 E2].
    split; [|done]. unfold child_ok. rewrite E1, E2. split_and!; try done.
    intros E. rewrite E in Hl. by apply Permutation_nil_cons in Hl.
Qed.

(** ** [folderPathForKey] *)

Lemma path_prefixes_eq path parts :
  path_prefixes path parts =
    (λ index, join [c] (path ++ take (S index) parts)) <$> seq 0 (length parts - 1).
Proof.
  revert path. induction parts as [|h [|h' parts] IH]; intros path; [done|done|].
  change (path_prefixes path (h :: h' :: parts))
    with (join [c] (path ++ [h]) :: path_prefixes (path ++ [h]) (h' :: parts)).
  rewrite IH. cbn [length Nat.sub]. rewrite Nat.sub_0_r. cbn [seq fmap list_fmap]. f_equal. rewrite <- fmap_S_seq, <- list_fmap_compose. apply list_fmap_ext. intros j x _. cbn [compose].
  rewrite <- app_assoc. done.
Qed.

Lemma folderPath_prefixes key : folderPathForKey key [c] = path_prefixes [] (split [c] key).
Proof.
  unfold folderPathForKey. rewrite path_prefixes_eq. case_bool_decide as Hl; [|done].
  by replace (length (split [c] key) - 1) with 0 by lia.
Qed.

Lemma insert_all_spec keys :
  node_leaves (insert_all keys [c]) ≡ₚ (λ item, (folderPathForKey (rk_key item) [c], item)) <$> keys
  ∧ wf_node [] (insert_all keys [c]).
Proof.
  induction keys as [|item keys [IH Hwf]] using rev_ind; [split; [done|apply (wf_fresh [] [])]|].
  unfold insert_all. rewrite foldl_app. cbn [foldl]. fold (insert_all keys [c]).
  destruct (insertKey_spec item (split [c] (rk_key item)) [] (insert_all keys [c])) as [Hl Hw]; [| |done|].
  - apply split_go_nonempty.
  - apply Forall_forall. intros p Hp. by eapply split_char_parts.
  - split; [|done]. rewrite Hl, IH, fmap_app. cbn [fmap list_fmap]. by rewrite folderPath_prefixes, Permutation_app_comm.
Qed.
End insertion.

(** ** The prefixes of the folders are distinct *)

Section distinct.
Context `{Unicode} (c : N).

Fixpoint node_paths (path : list jstr) (node : InternalNode) : list (list jstr) :=
  match node with
  | MkInternal _ _ folders _ =>
      List.flat_map (λ entry, (path ++ [entry.1]) :: node_paths (path ++ [entry.1]) entry.2) folders
  end.

(** Every folder lies below its parent and is named by parts without the separator. *)
Lemma node_paths_below node path q :
  wf_node c path node → q ∈ node_paths path node →
  ∃ k rest, (∃ child, (k, child) ∈ in_folders node) ∧ q = path ++ k :: rest ∧ Forall (λ p, c ∉ p) (k :: rest).
Proof.
  revert path q. induction node as [name prefix folders keys IH] using internal_nested_ind.
  intros path q [_ Hch]%wf_node_folders Hq. cbn [in_folders] in *. cbn [node_paths] in Hq.
  apply list_elem_of_In, List.in_flat_map in Hq as ([k child] & Hin%list_elem_of_In & Hq%list_elem_of_In).
  destruct (Hch k child Hin) as (Hk & _ & _ & _ & Hwf). rewrite Forall_forall in IH. cbn [fst snd] in Hq.
  apply elem_of_cons in Hq as [->|Hq].
  - exists k, []. split_and!; [by exists child|done|by constructor].
  - destruct (IH (k, child) Hin _ _ Hwf Hq) as (k' & rest & _ & -> & Hc). cbn in *.
    exists k, (k' :: rest). rewrite <- app_assoc. split_and!; [by exists child|done|by constructor].
Qed.

Lemma NoDup_flat_map_disjoint {A B} (f : A → list B) l :
  NoDup l → (∀ x, x ∈ l → NoDup (f x)) →
  (∀ x y b, x ∈ l → y ∈ l → b ∈ f x → b ∈ f y → x = y) → NoDup (List.flat_map f l).
Proof.
  induction l as [|x l IH]; intros Hnd Hf Hd; [apply NoDup_nil_2|]. cbn.
  apply list.NoDup_cons in Hnd as [Hx Hnd]. apply NoDup_app. split_and!.
  - apply Hf. by left.
  - intros b Hb Hb'. apply list_elem_of_In, List.in_flat_map in Hb' as (y & Hy%list_elem_of_In & Hb'%list_elem_of_In).
    apply Hx. rewrite (Hd x y b); [done|by left|by right|done|done].
  - apply IH; [done|intros; apply Hf; by right|]. intros y z b Hy Hz. apply Hd; by right.
Qed.

Lemma NoDup_node_paths node path : wf_node c path node → NoDup (node_paths path node).
Proof.
  revert path. induction node as [name prefix folders keys IH] using internal_nested_ind.
  intros path [Hnd Hch]%wf_node_folders. cbn [in_folders] in *. cbn [node_paths].
  rewrite Forall_forall in IH. apply NoDup_flat_map_disjoint; [by eapply NoDup_fmap_1| |].
  - intros [k child] Hin. destruct (Hch k child Hin) as (_ & _ & _ & _ & Hwf). cbn [fst snd].
    apply list.NoDup_cons. split; [|by apply (IH (k, child))].
    intros (k' & rest & _ & E & _)%node_paths_below; [|done].
    apply (f_equal length) in E. rewrite !length_app in E. simpl in E. lia.
  - assert (G : ∀ e b, e ∈ folders → b ∈ (path ++ [e.1]) :: node_paths (path ++ [e.1]) e.2 → ∃ rest, b = path ++ e.1 :: rest).
    { intros [k child] b Hin [->|Hb]%elem_of_cons; [by exists []|].
      destruct (Hch k child Hin) as (_ & _ & _ & _ & Hwf).
      destruct (node_paths_below _ _ _ Hwf Hb) as (k' & rest & _ & -> & _). exists (k' :: rest). by rewrite <- app_assoc. }
    intros [k1 n1] [k2 n2] b H1 H2 Hb1 Hb2. destruct (G _ _ H1 Hb1) as [r1 E1], (G _ _ H2 Hb2) as [r2 E2].
    cbn [fst] in *. rewrite E1 in E2. apply app_inv_head in E2. injection E2 as -> _.
    f_equal. apply list_elem_of_lookup in H1 as [i1 H1], H2 as [i2 H2].
    assert (i1 = i2) as -> by (eapply NoDup_lookup; [exact Hnd| |]; rewrite list_lookup_fmap; [by rewrite H1|by rewrite H2]).
    rewrite H1 in H2. by simplify_eq.
Qed.

Lemma node_prefixes node path :
  wf_node c path node → prefixes (toTreeNodes node [c]) ≡ₚ join [c] <$> node_paths path node.
Proof.
  revert path. induction node as [name prefix folders keys IH] using internal_nested_ind.
  intros path [_ Hch]%wf_node_folders. cbn [in_folders] in *. cbn [toTreeNodes node_paths].
  unfold prefixes. rewrite List.flat_map_app.
  assert (List.flat_map prefixes_of (leaf [c] <$> sort_by (λ l r, localeCompare (rk_key l) (rk_key r)) keys) = []) as ->.
  { by induction (sort_by _ keys). }
  rewrite app_nil_r, (flat_map_perm _ _ _ (sort_by_perm by_name _)), flat_map_map.
  rewrite fmap_flat_map. apply flat_map_perm_ext, Forall_forall. intros [k child] Hin.
  destruct (Hch k child Hin) as (_ & _ & E & _ & Hwf). cbn. rewrite E. constructor.
  rewrite Forall_forall in IH. by apply (IH (k, child) Hin).
Qed.

Lemma join_inj p q :
  Forall (λ x, c ∉ x) p → Forall (λ x, c ∉ x) q → p ≠ [] → q ≠ [] → join [c] p = join [c] q → p = q.
Proof.
  intros Hp Hq Np Nq E. rewrite <- (split_join c p), <- (split_join c q) by done. by rewrite E.
Qed.

Lemma NoDup_prefixes node : wf_node c [] node → NoDup (prefixes (toTreeNodes node [c])).
Proof.
  intros Hwf. rewrite (node_prefixes node []) by done.
  apply NoDup_fmap_2_strong; [|by apply NoDup_node_paths].
  intros p q Hp Hq. apply (node_paths_below _ [] _ Hwf) in Hp as (k & r & _ & -> & Hc).
  apply (node_paths_below _ [] _ Hwf) in Hq as (k' & r' & _ & -> & Hc'). by apply join_inj.
Qed.

(** ** Order and counts *)

Lemma sort_by_names_sorted (l : list RedisKeyTreeNode) : StronglySorted (ordered by_name) (sort_by by_name l).
Proof.
  apply sort_by_sorted; unfold by_name; intros; [apply compare_antisym | by eapply compare_trans].
Qed.

Lemma toTreeNodes_ok node path : wf_node c path node → level_ok c (toTreeNodes node [c]).
Proof.
  revert path. induction node as [name prefix folders keys IH] using internal_nested_ind.
  intros path [_ Hch]%wf_node_folders. cbn [in_folders] in *. cbn [toTreeNodes].
  rewrite Forall_forall in IH. constructor.
  - apply sort_by_names_sorted.
  - assert (G : StronglySorted (ordered (λ l r, localeCompare (rk_key l) (rk_key r)))
                  (sort_by (λ l r, localeCompare (rk_key l) (rk_key r)) keys)).
    { apply sort_by_sorted; intros; [apply compare_antisym | by eapply compare_trans]. }
    induction G as [|x l _ IHl Hx]; cbn; constructor; [done|]. by apply Forall_fmap.
  - intros t Ht. rewrite elem_of_sort_by in Ht. apply list_elem_of_fmap in Ht as ([k child] & -> & Hin). split; [|by eauto].
    destruct (Hch k child Hin) as (_ & _ & _ & Hne & Hwf). cbn [snd].
    rewrite countKeys_leaves, <- (Permutation_length (toTreeNodes_leaves [c] child)).
    constructor; [by apply (IH (k, child) Hin _ Hwf)|]. intros E. apply Hne. apply Permutation_nil_r.
    by rewrite <- (toTreeNodes_leaves [c] child), E.
  - intros t (item & -> & _)%list_elem_of_fmap. split; [|by eauto]. constructor. by rewrite last_part.
Qed.
End distinct.

(** ** Displayed rows *)

Section rows.
Implicit Types (node : RedisKeyTreeNode) (item : RedisKeySummary).

(** A key is displayed when every folder around it is expanded. *)
Lemma leaf_row E node depth item :
  (∃ d name, (d, RedisKeyLeafNode item name) ∈ RedisKeyTreeNodeRow E depth node) ↔
  ∃ path, (path, item) ∈ leaves_of node ∧ ∀ p, p ∈ path → p ∈ E.
Proof.
  revert depth. induction node as [item' name'|name prefix count children IH] using tree_nested_ind; intros depth.
  - cbn. setoid_rewrite list_elem_of_singleton. split.
    + intros (d & name & E1). simplify_eq. exists []. split; [done|]. by intros p ?%elem_of_nil.
    + intros (path & E1 & _). simplify_eq. by exists depth, name'.
  - rewrite Forall_forall in IH. split.
    + intros (d & n & [E1|Hin]%elem_of_cons); [by simplify_eq|]. case_bool_decide as Hp; [|by apply elem_of_nil in Hin].
      apply list_elem_of_In, List.in_flat_map in Hin as (t & Ht%list_elem_of_In & Hin%list_elem_of_In).
      destruct (proj1 (IH t Ht (S depth)) (ex_intro _ d (ex_intro _ n Hin))) as (path & Hl & Hall).
      exists (prefix :: path). split; [|by intros p [->|?]%elem_of_cons; auto].
      cbn. apply (list_elem_of_fmap_2 (under prefix) _ (path, item)).
      apply list_elem_of_In, List.in_flat_map. exists t. by rewrite <- !list_elem_of_In.
    + intros (path & Hl & Hall). cbn in Hl. apply list_elem_of_fmap in Hl as ([path' i] & E1 & Hl).
      unfold under in E1. cbn in E1. simplify_eq. apply list_elem_of_In, List.in_flat_map in Hl as (t & Ht%list_elem_of_In & Hl%list_elem_of_In).
      destruct (proj2 (IH t Ht (S depth))) as (d & n & Hin).
      { exists path'. split; [done|]. intros p Hp. apply Hall. by right. }
      exists d, n. right. rewrite bool_decide_eq_true_2 by (apply Hall; by left).
      apply list_elem_of_In, List.in_flat_map. exists t. by rewrite <- !list_elem_of_In.
Qed.

Lemma leaf_rows E nodes item :
  (∃ d name, (d, RedisKeyLeafNode item name) ∈ List.flat_map (RedisKeyTreeNodeRow E 0) nodes) ↔
  ∃ path, (path, item) ∈ leaves nodes ∧ ∀ p, p ∈ path → p ∈ E.
Proof.
  unfold leaves. setoid_rewrite list_elem_of_In. setoid_rewrite List.in_flat_map. setoid_rewrite <- list_elem_of_In. split.
  - intros (d & n & t & Ht & Hin). destruct (proj1 (leaf_row E t 0 item)) as (path & ? & ?); [by eauto|]. by eauto 6.
  - intros (path & (t & Ht & Hl) & Hall). destruct (proj2 (leaf_row E t 0 item)) as (d & n & ?); [by eauto|]. by eauto 6.
Qed.
End rows.

(** Scanning a first page and the following ones. *)
Definition answered (connectionId : jstr) (cursor : number) (append : bool) (page : RedisKeysResult) (t : KeyTree) : KeyTree :=
  (drive [inl page] (run (load connectionId cursor append) t)).1.
Definition scan_pages (connectionId : jstr) (first : RedisKeysResult) (more : list RedisKeysResult) (t : KeyTree) : KeyTree :=
  foldl (λ t page, answered connectionId (kt_cursor t) true page t) (answered connectionId (num 0) false first t) more.

Lemma scan_pages_spec connectionId first more t :
  kt_keys (scan_pages connectionId first more t) = concat (rks_keys <$> first :: more)
  ∧ kt_cursor (scan_pages connectionId first more t) = rks_cursor (List.last (first :: more) first)
  ∧ kt_loading (scan_pages connectionId first more t) = false.
Proof.
  unfold scan_pages. induction more as [|page more (IH1 & IH2 & IH3)] using rev_ind; [cbn; by rewrite app_nil_r|].
  rewrite foldl_app. cbn [foldl].
  set (u := foldl _ _ more) in *. change (answered connectionId (kt_cursor u) true page u)
    with (setLoading false (setCursor (rks_cursor page) (setKeys (λ l, l ++ rks_keys page) (setLoading true u)))).
  split_and!; [|by rewrite app_comm_cons, List.last_last|done].
  cbn [kt_keys setLoading setCursor setKeys]. rewrite IH1, app_comm_cons, fmap_app, concat_app. cbn. by rewrite app_nil_r.
Qed.

Lemma tree_leaves `{Unicode} c keys :
  leaves (buildRedisKeyTree keys [c]) ≡ₚ (λ item, (folderPathForKey (rk_key item) [c], item)) <$> keys.
Proof. unfold buildRedisKeyTree. by rewrite toTreeNodes_leaves, (proj1 (insert_all_spec c keys)). Qed.

(** ** Properties *)

(** C25. The tree holds exactly the scanned keys, each below the folders whose prefixes
    [folderPathForKey] lists; no two folders share a prefix; every level is ordered, every
    folder counts the keys below it and every key shows the last part of its name. *)
Theorem redis_tree_spec `{Unicode} c keys :
  leaves (buildRedisKeyTree keys [c]) ≡ₚ (λ item, (folderPathForKey (rk_key item) [c], item)) <$> keys
  ∧ NoDup (prefixes (buildRedisKeyTree keys [c]))
  ∧ level_ok c (buildRedisKeyTree keys [c]).
Proof.
  destruct (insert_all_spec c keys) as [Hl Hwf]. split_and!.
  - apply tree_leaves.
  - by apply NoDup_prefixes.
  - by eapply toTreeNodes_ok.
Qed.

(** A key has a row exactly when it was scanned and every folder around it is
    expanded; selecting a scanned key expands them, and loading further pages appends
    their keys. *)
Theorem selected_key_displayed `{Unicode} t item :
  let displayed t := ∃ d name, (d, RedisKeyLeafNode item name) ∈ tree_rows t in
  (displayed t ↔ item ∈ kt_keys t ∧ ∀ p, p ∈ folderPathForKey (rk_key item) colon → p ∈ kt_expanded t)
  ∧ (rk_key item ≠ [] → item ∈ kt_keys t → displayed (revealSelected (rk_key item) t))
  ∧ ∀ connectionId first more,
      kt_keys (scan_pages connectionId first more t) = concat (rks_keys <$> first :: more).
Proof.
  intros displayed.
  assert (G : ∀ t, displayed t ↔ item ∈ kt_keys t ∧ ∀ p, p ∈ folderPathForKey (rk_key item) colon → p ∈ kt_expanded t).
  { intros u. unfold displayed, tree_rows. rewrite leaf_rows.
    setoid_rewrite (tree_leaves 58 (kt_keys u)).
    setoid_rewrite list_elem_of_fmap. split.
    - intros (path & (i & E & Hi) & Hall). by simplify_eq.
    - intros [Hi Hall]. exists (folderPathForKey (rk_key item) colon). split; [by exists item|done]. }
  split_and!; [apply G| |intros; apply scan_pages_spec]. intros Hne Hin. apply G. unfold revealSelected.
  destruct (rk_key item) as [|x s] eqn:E; [done|]. cbn [truthy setExpanded kt_keys kt_expanded].
  split; [done|]. intros p Hp. apply elem_of_union. right. by apply elem_of_list_to_set.
Qed.
