(* ===== verification/SchemaProps.v ===== *)
(** * What the drafts of a table structure promise

    The operations [diffColumns] makes turn the stored columns into the edited ones, and
    the pending index changes turn the stored indexes into the displayed ones. *)
From S2P Require Import Prelude JsString JsNumber Api Schema.

(** ** The meaning of an operation

    A table is its columns in order and the columns of its primary key, which goes with
    any of its columns.  An operation that
    names a missing column, or makes a name occur twice, fails. *)

Definition table := (list SchemaColumn * list jstr)%type.
Definition names (cols : list SchemaColumn) : list jstr := sc_name <$> cols.

Definition with_name (n : jstr) (c : SchemaColumn) : SchemaColumn := patch_column (PName n) c.
Definition with_type (d c : SchemaColumn) : SchemaColumn :=
  MkSchemaColumn (sc_name c) (sc_type d) (sc_nullable d) (sc_default d) (sc_comment c) (sc_primary c).
Definition with_comment (d c : SchemaColumn) : SchemaColumn :=
  MkSchemaColumn (sc_name c) (sc_type c) (sc_nullable c) (sc_default c) (sc_comment d) (sc_primary c).
Definition named (n : jstr) (c : SchemaColumn) : bool := bool_decide (sc_name c = n).

Definition perform_op (t : table) (op : SchemaOperation) : option table :=
  let '(cols, pk) := t in
  match op with
  | drop_column n =>
      if bool_decide (n ∈ names cols)
      then Some (filterb (λ c, negb (named n c)) cols, if bool_decide (n ∈ pk) then [] else pk) else None
  | add_column c => if bool_decide (sc_name c ∈ names cols) then None else Some (cols ++ [c], pk)
  | rename_column a b =>
      if bool_decide (a ∈ names cols) && negb (bool_decide (b ∈ names cols))
      then Some (update_where (named a) (with_name b) cols, (λ p, if bool_decide (p = a) then b else p) <$> pk)
      else None
  | alter_column d =>
      if bool_decide (sc_name d ∈ names cols) then Some (update_where (named (sc_name d)) (with_type d) cols, pk) else None
  | set_column_comment d =>
      if bool_decide (sc_name d ∈ names cols) then Some (update_where (named (sc_name d)) (with_comment d) cols, pk) else None
  | set_primary n => if bool_decide (n ∈ names cols) then Some (cols, [n]) else None
  | drop_primary => Some (cols, [])
  | drop_index _ | add_index _ | add_foreign_key _ | drop_foreign_key _ => Some t
  end.

Definition performs (ops : list SchemaOperation) (t : table) : option table :=
  foldl (λ s op, s ≫= λ t, perform_op t op) (Some t) ops.

Lemma performs_none ops : foldl (λ s op, s ≫= λ t, perform_op t op) None ops = None.
Proof. by induction ops. Qed.

Lemma performs_cons op ops t : performs (op :: ops) t = perform_op t op ≫= performs ops.
Proof. unfold performs. cbn. destruct (perform_op t op); [done|apply performs_none]. Qed.

Lemma performs_app ops ops' t : performs (ops ++ ops') t = performs ops t ≫= performs ops'.
Proof.
  revert t. induction ops as [|op ops IH]; intros t; [done|]. rewrite <- app_comm_cons, !performs_cons.
  destruct (perform_op t op); [apply IH|done].
Qed.

Section diff_spec.
Context `{Unicode}.

(** Columns up to the case of their types and the absence of a comment. *)
Definition normal (c : SchemaColumn) :=
  (sc_name c, toLowerCase (sc_type c), sc_nullable c, sc_default c, default [] (sc_comment c)).

Definition primary_of (cols : list SchemaColumn) : list jstr := names (filterb is_primary cols).

(** ** Drops *)

Lemma names_app l k : names (l ++ k) = names l ++ names k.
Proof. apply fmap_app. Qed.

Lemma names_filterb p cols : NoDup (names cols) → NoDup (names (filterb p cols)).
Proof. apply filterb_NoDup_fmap. Qed.

Lemma elem_of_names n cols : n ∈ names cols ↔ ∃ c, c ∈ cols ∧ sc_name c = n.
Proof. unfold names. rewrite list_elem_of_fmap. naive_solver. Qed.

Lemma perform_drops ds cols pk :
  NoDup ds → (∀ n, n ∈ ds → n ∈ names cols) →
  performs (drop_column <$> ds) (cols, pk) =
    Some (filterb (λ c, negb (bool_decide (sc_name c ∈ ds))) cols,
          if existsb (λ p, bool_decide (p ∈ ds)) pk then [] else pk).
Proof.
  revert cols pk. induction ds as [|n ds IH]; intros cols pk Hnd Hin.
  - assert (existsb (λ p, bool_decide (p ∈ [])) pk = false) as ->.
    { apply existsb_not. intros p _. by apply bool_decide_eq_false_2, not_elem_of_nil. }
    cbn. unfold performs. cbn. f_equal. f_equal. symmetry. apply filterb_id. intros c _.
    by rewrite bool_decide_eq_false_2 by apply not_elem_of_nil.
  - apply list.NoDup_cons in Hnd as [Hn Hnd]. cbn [fmap list_fmap]. rewrite performs_cons. cbn [perform_op].
    rewrite bool_decide_eq_true_2 by (apply Hin; by left). cbn [mbind option_bind].
    rewrite IH; [|done|].
    + f_equal. f_equal.
      * rewrite filterb_filterb. apply filterb_ext. intros c Hc. unfold named.
        rewrite <- negb_orb. f_equal. rewrite <- bool_decide_or. apply bool_decide_ext. by rewrite elem_of_cons.
      * assert (Hex : existsb (λ p, bool_decide (p ∈ n :: ds)) pk = bool_decide (n ∈ pk) || existsb (λ p, bool_decide (p ∈ ds)) pk).
        { apply eq_true_iff_eq. rewrite orb_true_iff, !existsb_elem. setoid_rewrite bool_decide_eq_true.
          setoid_rewrite elem_of_cons. naive_solver. }
        rewrite Hex. by destruct (bool_decide (n ∈ pk)).
    + intros m Hm. assert (m ≠ n) by (by intros ->).
      destruct (proj1 (elem_of_names m cols)) as (c & Hc & <-); [apply Hin; by right|].
      apply elem_of_names. exists c. split; [|done]. apply elem_of_filterb. split; [done|].
      unfold named. by rewrite bool_decide_eq_false_2.
Qed.

(** ** Editing one column *)

Lemma update_where_mid n f l c r :
  n ∉ names l → n ∉ names r → sc_name c = n →
  update_where (named n) f (l ++ c :: r) = l ++ f c :: r.
Proof.
  intros Hl Hr Hc. assert (G : ∀ k, n ∉ names k → update_where (named n) f k = k).
  { intros k Hk. unfold update_where. rewrite <- (list_fmap_id k) at 2. apply list_fmap_ext. intros i x Hx.
    unfold named. rewrite bool_decide_eq_false_2; [done|]. intros E. apply Hk, elem_of_names.
    exists x. split; [by eapply list_elem_of_lookup_2|done]. }
  unfold update_where in *. rewrite fmap_app. cbn [fmap list_fmap]. rewrite !G by done.
  unfold named. by rewrite bool_decide_eq_true_2.
Qed.

(** The primary key after a column may have been renamed. *)
Definition renamed (d : DraftColumn) (p : jstr) : jstr := if bool_decide (p = original_name d) then dc_name d else p.

(** The operations of one edited column, on a table that holds its original. *)
Lemma column_step before d o l r pk :
  dc_isNew d = false → find_first (λ item, bool_decide (sc_name item = original_name d)) before = Some o →
  original_name d ∉ names (l ++ r) →
  (original_name d = dc_name d ∨ (dc_name d ∉ names (l ++ o :: r))) →
  ∃ o', performs (column_ops before d) (l ++ o :: r, pk) = Some (l ++ o' :: r, renamed d <$> pk)
        ∧ normal o' = normal (dc_column d).
Proof.
  intros Hnew Hf Hor Hname. apply find_first_Some in Hf as Ho. destruct Ho as [_ Ho]. bool_to_prop.
  unfold column_ops. rewrite Hnew, Hf. clear Hf.
  rewrite names_app, not_elem_of_app in Hor. destruct Hor as [Hl Hr].
  set (c := dc_column d). change (dc_name d) with (sc_name c) in *. change (columnPayload d) with c.
  assert (Hcl : (sc_name c ∉ names l) ∧ (sc_name c ∉ names r)).
  { destruct Hname as [<-|Hn]; [done|]. rewrite names_app in Hn. cbn in Hn.
    rewrite not_elem_of_app, not_elem_of_cons in Hn. naive_solver. }
  destruct Hcl as [Hcl Hcr].
  assert (Hin : ∀ x, sc_name x = sc_name c → sc_name c ∈ names (l ++ x :: r)).
  { intros x Hx. rewrite names_app, elem_of_app. right. cbn. rewrite Hx. by left. }
  (* the rename *)
  assert (G1 : performs (if bool_decide (original_name d ≠ sc_name c) then [rename_column (original_name d) (sc_name c)] else [])
      (l ++ o :: r, pk) = Some (l ++ with_name (sc_name c) o :: r, renamed d <$> pk)).
  { unfold renamed. change (dc_name d) with (sc_name c). case_bool_decide as Hne.
    - destruct Hname as [?|Hfresh]; [done|]. rewrite performs_cons. cbn [perform_op].
      rewrite bool_decide_eq_true_2 by (rewrite names_app, elem_of_app; right; cbn; rewrite Ho; by left).
      rewrite bool_decide_eq_false_2 by done. cbn [andb negb mbind option_bind].
      rewrite update_where_mid by done. unfold performs. cbn. done.
    - unfold performs. cbn. f_equal. f_equal.
      + unfold with_name. cbn. destruct o. cbn in *. by rewrite Ho, Hne.
      + rewrite <- (list_fmap_id pk) at 1. apply list_fmap_ext. intros i p _. cbn. case_bool_decide; [congruence|done]. }
  (* an alteration or a comment *)
  assert (G2 : ∀ (b : bool) f op x q, perform_op (l ++ x :: r, q) op =
        (if bool_decide (sc_name c ∈ names (l ++ x :: r)) then Some (update_where (named (sc_name c)) f (l ++ x :: r), q) else None) →
      sc_name x = sc_name c →
      performs (if b then [op] else []) (l ++ x :: r, q) = Some (l ++ (if b then f x else x) :: r, q)).
  { intros [] f op x q Hop Hx; [|done]. rewrite performs_cons, Hop, bool_decide_eq_true_2 by by apply Hin.
    cbn [mbind option_bind]. by rewrite update_where_mid. }
  rewrite !performs_app, G1. cbn [mbind option_bind]. rewrite performs_app.
  rewrite (G2 _ (with_type c)) by done. cbn [mbind option_bind].
  rewrite (G2 _ (with_comment c)); [|done|by destruct (_ || _)]. eexists. split; [done|].
  destruct (bool_decide (default [] _ ≠ _)) eqn:E2, (_ || _) eqn:E1; unfold normal; cbn; bool_to_prop;
    repeat match goal with H : ¬ (_ ≠ _) |- _ => apply dec_stable in H end; congruence.
Qed.

(** ** The retained columns in turn *)

Definition edits_of (before : list SchemaColumn) (d : DraftColumn) (o : SchemaColumn) : Prop :=
  dc_isNew d = false ∧ find_first (λ item, bool_decide (sc_name item = original_name d)) before = Some o
  ∧ sc_name o = original_name d.

Lemma names_mid l x r n : n ∈ names (l ++ x :: r) ↔ n ∈ names l ∨ n = sc_name x ∨ n ∈ names r.
Proof. rewrite names_app, elem_of_app. cbn. by rewrite elem_of_cons. Qed.

Lemma retained_ops before R Q P pk :
  Forall2 (edits_of before) R Q →
  NoDup (dc_name <$> R) → NoDup (names Q) →
  (∀ d, d ∈ R → original_name d = dc_name d ∨ (dc_name d ∉ names before)) →
  (∀ n, n ∈ names Q → n ∈ names before) →
  (∀ n, n ∈ names P → (n ∉ dc_name <$> R) ∧ (n ∉ names Q)) →
  ∃ Q', performs (R ≫= column_ops before) (P ++ Q, pk) = Some (P ++ Q', foldl (λ pk d, renamed d <$> pk) pk R)
        ∧ normal <$> Q' = (λ d, normal (dc_column d)) <$> R.
Proof.
  intros HF. revert P pk. induction HF as [|d o R Q (Hnew & Hf & Ho) HF IH]; intros P pk HR HQ Hfresh Hsub HP.
  - exists []. split; [by rewrite app_nil_r|done].
  - cbn in HR, HQ. apply list.NoDup_cons in HR as [HdR HR], HQ as [HoQ HQ].
    assert (Hd : original_name d = dc_name d ∨ dc_name d ∉ names before) by (apply Hfresh; by left).
    assert (HoP : sc_name o ∉ names P) by (intros Hn; apply (proj2 (HP _ Hn)); cbn; by left).
    assert (HdP : dc_name d ∉ names P) by (intros Hn; apply (proj1 (HP _ Hn)); cbn; by left).
    assert (HdQ : dc_name d ∉ names Q).
    { destruct Hd as [<-|Hd]; [by rewrite <- Ho|]. intros Hn. apply Hd, Hsub. cbn. by right. }
    destruct (column_step before d o P Q pk Hnew Hf) as (o' & E & Hn').
    + rewrite <- Ho, names_app, not_elem_of_app. done.
    + destruct Hd as [|Hd]; [by left|]. right. rewrite names_mid. intros [?|[E|?]]; [done| |done].
      apply Hd. rewrite E. apply Hsub. cbn. by left.
    + assert (Ho' : sc_name o' = dc_name d) by (by injection Hn').
      destruct (IH (P ++ [o']) (renamed d <$> pk)) as (Q' & EQ & HQ'); [done|done| | | |].
      * intros d' Hd'. apply Hfresh. by right.
      * intros n Hn. apply Hsub. cbn. by right.
      * intros n. rewrite names_app, elem_of_app. cbn. rewrite list_elem_of_singleton, Ho'.
        intros [Hn| ->]; [|done]. destruct (HP n Hn) as [H1 H2]. cbn in H1, H2.
        rewrite not_elem_of_cons in H1, H2. naive_solver.
      * exists (o' :: Q'). cbn [mbind list_bind foldl]. rewrite performs_app, E. cbn [mbind option_bind].
        rewrite <- app_assoc in EQ. cbn in EQ. rewrite EQ, <- app_assoc. split; [done|]. cbn. by rewrite Hn', HQ'.
Qed.

Lemma added_ops cs cols pk :
  NoDup (names cs) → (∀ n, n ∈ names cs → n ∉ names cols) →
  performs (add_column <$> cs) (cols, pk) = Some (cols ++ cs, pk).
Proof.
  revert cols. induction cs as [|c cs IH]; intros cols Hnd Hn; [by rewrite app_nil_r|].
  cbn in Hnd. apply list.NoDup_cons in Hnd as [Hc Hnd]. cbn [fmap list_fmap]. rewrite performs_cons. cbn [perform_op].
  rewrite bool_decide_eq_false_2 by (apply Hn; cbn; by left). cbn [mbind option_bind]. rewrite IH; [|done|].
  - by rewrite <- app_assoc.
  - intros n Hin. rewrite names_app, elem_of_app. cbn. rewrite list_elem_of_singleton.
    intros [?| ->]; [|done]. apply (Hn n); [cbn; by right|done].
Qed.

(** ** The drafts that editing produces *)

(** The stored columns that are left, in their order, then the new ones; at most one
  column is the primary key. *)
Record draft_shape (before : list SchemaColumn) (after : list DraftColumn) : Prop := MkShape {
shape_parts : ∃ R N, after = R ++ N
  ∧ Forall (λ d, dc_isNew d = false ∧ ∃ n, n ≠ [] ∧ dc_originalName d = Some n) R
  ∧ Forall (λ d, dc_isNew d = true ∧ dc_originalName d = None) N
  ∧ sublist (original_name <$> R) (names before);
shape_primary : length (primary_of (dc_column <$> after)) ≤ 1;
}.

Lemma original_name_patch patch d n :
  n ≠ [] → dc_originalName d = Some n → original_name (patch_draft patch d) = original_name d.
Proof. intros Hn E. unfold original_name, patch_draft. cbn. rewrite E. by destruct n. Qed.

(** [change] edits the columns one by one. *)
Definition edited (x y : DraftColumn) : Prop := x = y ∨ ∃ patch, y = patch_draft patch x.

Lemma change_edited i patch v : Forall2 edited v (change i patch v).
Proof.
  unfold change. apply Forall2_same_length_lookup_2; [by rewrite length_imap|].
  intros j x y Hx Hy. rewrite list_lookup_imap, Hx in Hy. cbn in Hy. simplify_eq.
  case_bool_decide; [right; by eexists|]. destruct (sets_primary patch); [right; by eexists|by left].
Qed.

Lemma primary_length_filter l : length (primary_of l) = length (filterb is_primary l).
Proof. apply length_fmap. Qed.

Lemma filterb_imap_le {A} (p q : A → bool) (f : nat → A → A) (l : list A) :
  (∀ i x, p (f i x) = true → q x = true) → length (filterb p (imap f l)) ≤ length (filterb q l).
Proof.
  revert f. induction l as [|x l IH]; intros f Hf; [done|]. rewrite imap_cons, !filterb_cons.
  specialize (IH (f ∘ S) (λ i y, Hf (S i) y)). specialize (Hf 0 x).
  destruct (p (f 0 x)), (q x); cbn; first [lia | by specialize (Hf eq_refl)].
Qed.

Lemma filterb_imap_one {A} (p : A → bool) (f : nat → A → A) (l : list A) i :
  (∀ j x, p (f j x) = true → j = i) → length (filterb p (imap f l)) ≤ 1.
Proof.
  revert f i. induction l as [|x l IH]; intros f i Hf; [cbn; lia|].
  rewrite imap_cons, filterb_cons.
  destruct (p (f 0 x)) eqn:E.
  - assert (filterb p (imap (f ∘ S) l) = []) as ->; [|cbn; lia]. apply filterb_none.
    intros y (j & z & -> & Hz)%elem_of_lookup_imap. apply not_true_iff_false. intros Hp.
    apply Hf in E, Hp. lia.
  - apply (IH (f ∘ S) (pred i)). intros j y Hp. apply Hf in Hp. lia.
Qed.

Lemma primary_change i patch v :
  length (primary_of (dc_column <$> v)) ≤ 1 → length (primary_of (dc_column <$> change i patch v)) ≤ 1.
Proof.
  rewrite !primary_length_filter.
  rewrite !filterb_fmap, !length_fmap. intros Hv. unfold change. destruct (sets_primary patch) eqn:Ep.
  - apply (filterb_imap_one _ _ _ i). intros j x. case_bool_decide; [done|]. by cbn.
  - etrans; [|exact Hv]. apply filterb_imap_le. intros j x. case_bool_decide; [|done].
    by destruct patch as [| | |[]| |].
Qed.

Lemma shape_edited before R N v' :
  Forall (λ d, dc_isNew d = false ∧ ∃ n, n ≠ [] ∧ dc_originalName d = Some n) R →
  Forall (λ d, dc_isNew d = true ∧ dc_originalName d = None) N →
  sublist (original_name <$> R) (names before) → Forall2 edited (R ++ N) v' →
  ∃ R' N', v' = R' ++ N'
    ∧ Forall (λ d, dc_isNew d = false ∧ ∃ n, n ≠ [] ∧ dc_originalName d = Some n) R'
    ∧ Forall (λ d, dc_isNew d = true ∧ dc_originalName d = None) N'
    ∧ sublist (original_name <$> R') (names before).
Proof.
  intros HR HN Hs HF. apply Forall2_app_inv_l in HF as (R' & N' & FR & FN & ->). exists R', N'. split_and!; [done| | |].
  - clear -HR FR. induction FR as [|x y l k [<-|[patch ->]] _ IH]; [constructor|..];
      apply Forall_cons in HR as [Hx HR]; constructor; auto.
  - clear -HN FN. induction FN as [|x y l k [<-|[patch ->]] _ IH]; [constructor|..];
      apply Forall_cons in HN as [Hx HN]; constructor; auto.
  - assert (original_name <$> R' = original_name <$> R) as ->; [|done]. clear -HR FR.
    induction FR as [|x y l k Hxy _ IH]; [done|]. apply Forall_cons in HR as [(_ & n & Hn & E) HR]. cbn.
    rewrite IH by done. f_equal. destruct Hxy as [<-|[patch ->]]; [done|]. by eapply original_name_patch.
Qed.

Lemma shape_step driver before v v' : draft_step driver v v' → draft_shape before v → draft_shape before v'.
Proof.
  intros Hstep [(R & N & E & HR & HN & Hs) Hp]. destruct Hstep as [i patch v|v|i v].
  - split; [|by apply primary_change]. subst v. eapply shape_edited; [done..|apply change_edited].
  - unfold addColumn. split.
    + exists R, (N ++ [new_column driver v]). subst v. split_and!; [by rewrite <- app_assoc|done| |done].
      apply Forall_app. split; [done|]. by repeat constructor.
    + unfold primary_of in *. rewrite fmap_app, filterb_app. cbn [fmap list_fmap].
      rewrite filterb_cons. cbn. by rewrite app_nil_r.
  - unfold removeColumn. split.
    + subst v. destruct (decide (i < length R)) as [Hi|Hi].
      * exists (delete i R), N. rewrite delete_app_l by done. split_and!; [done|by apply Forall_delete|done|].
        rewrite list_fmap_delete. etrans; [apply sublist_delete|done].
      * exists R, (delete (i - length R) N). rewrite delete_app_r by lia. split_and!; [done|done|by apply Forall_delete|done].
    + etrans; [|exact Hp]. rewrite !primary_length_filter. rewrite list_fmap_delete. apply sublist_length.
      apply filterb_sublist, sublist_delete.
Qed.

Lemma shape_initial before : ([] ∉ names before) → length (primary_of before) ≤ 1 → draft_shape before (draft_of before).
Proof.
  intros Hne Hp. unfold draft_of.
  assert (E : dc_column <$> ((λ x, MkDraftColumn x (Some (sc_name x)) false) <$> before) = before)
    by (rewrite <- list_fmap_compose; apply list_fmap_id).
  split; [|by rewrite E]. exists (draft_of before), []. unfold draft_of. split_and!; [by rewrite app_nil_r| |constructor|].
  - apply Forall_fmap, Forall_forall. intros x Hx. split; [done|]. exists (sc_name x). split; [|done].
    intros E'. apply Hne, elem_of_names. by exists x.
  - assert (original_name <$> ((λ x, MkDraftColumn x (Some (sc_name x)) false) <$> before) = names before) as ->; [|done].
    rewrite <- list_fmap_compose. apply list_fmap_ext. intros i x _. unfold original_name, or_else, dc_name. cbn. by case_match.
Qed.

(** Names that no operation finds taken. *)
Definition distinct_names (before : list SchemaColumn) (after : list DraftColumn) : Prop :=
  NoDup (dc_name <$> after) ∧ ([] ∉ dc_name <$> after)
  ∧ ∀ d, d ∈ after → dc_isNew d = true ∨ original_name d ≠ dc_name d → dc_name d ∉ names before.

(** ** From the draft to the operations *)

Section retained.
Context (before : list SchemaColumn) (R N : list DraftColumn).
Context (Hnd : NoDup (names before)) (Hsub : sublist (original_name <$> R) (names before)).
Context (HR : Forall (λ d, dc_isNew d = false ∧ ∃ n, n ≠ [] ∧ dc_originalName d = Some n) R).
Context (HN : Forall (λ d, dc_isNew d = true ∧ dc_originalName d = None) N).
Context (Hnames : distinct_names before (R ++ N)).

Definition kept : list SchemaColumn := filterb (λ o, bool_decide (sc_name o ∈ original_name <$> R)) before.
Definition dropped : list jstr := names (filterb (λ o, negb (bool_decide (sc_name o ∈ original_name <$> R))) before).

Lemma kept_names : names kept = original_name <$> R.
Proof.
  rewrite <- (filterb_of_sublist (original_name <$> R) (names before)) by done.
  unfold kept, names. by rewrite filterb_fmap.
Qed.

Lemma retained_new : filterb (λ item, negb (dc_isNew item)) (R ++ N) = R.
Proof.
  rewrite filterb_app, filterb_id, filterb_none, app_nil_r; [done| |].
  - intros d Hd. rewrite Forall_forall in HN. destruct (HN d Hd) as [-> _]. done.
  - intros d Hd. rewrite Forall_forall in HR. destruct (HR d Hd) as [-> _]. done.
Qed.

Lemma new_name d : d ∈ N → original_name d = dc_name d ∧ (dc_name d ∉ names before).
Proof.
  intros Hd. rewrite Forall_forall in HN. destruct (HN d Hd) as [Hn Ho]. split.
  - unfold original_name. by rewrite Ho.
  - apply (proj2 (proj2 Hnames)); [|by left]. apply elem_of_app. by right.
Qed.

Lemma column_ops_new : N ≫= column_ops before = add_column <$> (dc_column <$> N).
Proof.
  clear Hnames. induction HN as [|d l [Hn _] Hl IH]; [done|]. cbn. unfold column_ops at 1. by rewrite Hn, IH.
Qed.

Lemma column_ops_kept d op : op ∈ column_ops before d → keeps_operation (R ++ N) op = true.
Proof.
  unfold column_ops. destruct (dc_isNew d); [by intros ->%list_elem_of_singleton|].
  destruct (find_first _ before); [|by intros ?%elem_of_nil]. rewrite !elem_of_app.
  intros [Hop|[Hop|Hop]]; case_match;
  first [by apply list_elem_of_singleton in Hop as -> | by apply elem_of_nil in Hop].
Qed.

Lemma diff_eq : diffColumns before (R ++ N) =
  (drop_column <$> dropped) ++ (R ≫= column_ops before) ++ (add_column <$> (dc_column <$> N))
  ++ primary_ops before (R ++ N).
Proof.
  unfold diffColumns. rewrite retained_new, bind_app, column_ops_new, <- !app_assoc.
  assert ((λ original, drop_column (sc_name original)) <$> filterb (λ o, negb (bool_decide (sc_name o ∈ original_name <$> R))) before
  = drop_column <$> dropped) as -> by (unfold dropped, names; by rewrite <- list_fmap_compose).
  apply filterb_id. intros op. rewrite !elem_of_app. intros [Hop|[Hop|[Hop|Hop]]].
  - apply list_elem_of_fmap in Hop as (n & -> & (o & Ho & <-)%elem_of_names). cbn. apply negb_true_iff, existsb_not.
  apply elem_of_filterb in Ho as [Ho Hr]. bool_to_prop. intros d Hd. apply bool_decide_eq_false_2. intros E.
  apply elem_of_app in Hd as [Hd|Hd].
  + apply Hr. apply list_elem_of_fmap. by exists d.
  + destruct (new_name d Hd) as [E1 Hf]. apply Hf. rewrite <- E1, E. apply elem_of_names. by exists o.
  - apply list_elem_of_bind in Hop as (d & Hop & _). by eapply column_ops_kept.
  - by apply list_elem_of_fmap in Hop as (c & -> & _).
  - unfold primary_ops in Hop. repeat case_match; try (by apply elem_of_nil in Hop);
    by apply list_elem_of_singleton in Hop as ->.
Qed.

Lemma retained_edits : Forall2 (edits_of before) R kept.
Proof.
  apply Forall2_same_length_lookup_2; [by rewrite <- (length_fmap original_name), <- kept_names; apply length_fmap|].
  intros i d o Hd Ho.
  assert (E : sc_name o = original_name d).
  { assert (Hi : names kept !! i = Some (sc_name o)) by (unfold names; by rewrite list_lookup_fmap, Ho).
  rewrite kept_names, list_lookup_fmap, Hd in Hi. by simplify_eq/=. }
  rewrite Forall_forall in HR. destruct (HR d) as [Hn _]; [by eapply list_elem_of_lookup_2|].
  assert (Hb : o ∈ before) by (apply list_elem_of_lookup_2 in Ho; by apply elem_of_filterb in Ho as [? _]).
  split_and!; [done| |done]. destruct (find_first _ before) as [o'|] eqn:Ef.
  - apply find_first_Some in Ef as [Ho' Ef]. bool_to_prop. f_equal.
  apply list_elem_of_lookup in Hb as [j Hj], Ho' as [k Hk].
  assert (j = k) as ->.
  { eapply NoDup_lookup; [exact Hnd| |]; unfold names; rewrite list_lookup_fmap; [by rewrite Hj|].
    rewrite Hk. cbn. by rewrite Ef, E. }
  congruence.
  - apply (proj1 (find_first_None _ _) Ef) in Hb. bool_to_prop. done.
Qed.

(** ** The primary key *)

Lemma renamed_nil l : foldl (λ pk d, renamed d <$> pk) [] l = [].
Proof. by induction l. Qed.

Lemma renamed_fixed q l : (∀ d, d ∈ l → original_name d = q → dc_name d = q) →
  foldl (λ pk d, renamed d <$> pk) [q] l = [q].
Proof.
  induction l as [|d l IH]; intros Hl; [done|]. cbn.
  assert (renamed d q = q) as ->; [|apply IH; intros; apply Hl; [by right|done]].
  unfold renamed. case_bool_decide as E; [|done]. apply Hl; [by left|done].
Qed.

(** The key that the other operations leave. *)
Definition key_left : list jstr :=
  foldl (λ pk d, renamed d <$> pk)
  (if existsb (λ p, bool_decide (p ∈ dropped)) (primary_of before) then [] else primary_of before) R.

Lemma key_left_same q : primary_of before = [q] → q ∈ dc_name <$> (R ++ N) → key_left = [q].
Proof.
  intros Ea (d & Eq & Hd)%list_elem_of_fmap. subst q.
  assert (Hq : dc_name d ∈ names before).
  { unfold primary_of in Ea. apply (elem_of_names (dc_name d) before).
  assert (Hin : dc_name d ∈ names (filterb is_primary before)) by (rewrite Ea; by left).
  apply elem_of_names in Hin as (o & [Ho _]%elem_of_filterb & E). by exists o. }
  assert (Hor : d ∈ R ∧ original_name d = dc_name d).
  { apply elem_of_app in Hd as [Hd|Hd]; [|by destruct (new_name d Hd)]. split; [done|].
  destruct (decide (original_name d = dc_name d)) as [|Hne]; [done|]. exfalso.
  apply (proj2 (proj2 Hnames) d); [apply elem_of_app; by left|by right|done]. }
  destruct Hor as [HdR Hor]. unfold key_left. rewrite Ea.
  assert (existsb (λ p, bool_decide (p ∈ dropped)) [dc_name d] = false) as ->.
  { apply existsb_not. intros p ->%list_elem_of_singleton. apply bool_decide_eq_false_2.
  intros (o & [_ Ho]%elem_of_filterb & E)%elem_of_names. bool_to_prop. apply Ho. rewrite E, <- Hor.
  apply list_elem_of_fmap. by exists d. }
  apply renamed_fixed. intros d' Hd' E. rewrite <- Hor in E |- *.
  apply list_elem_of_lookup in HdR as [i Hi], Hd' as [j Hj].
  assert (i = j) as ->; [|by rewrite Hi in Hj; simplify_eq].
  apply (NoDup_lookup (original_name <$> R) _ _ (original_name d)).
  - by eapply sublist_NoDup.
  - by rewrite list_lookup_fmap, Hi.
  - rewrite list_lookup_fmap, Hj. cbn. by rewrite E.
Qed.

Lemma primary_performed cols :
  length (primary_of before) ≤ 1 → length (primary_of (dc_column <$> (R ++ N))) ≤ 1 → ([] ∉ names before) →
  names cols = dc_name <$> (R ++ N) →
  performs (primary_ops before (R ++ N)) (cols, key_left) = Some (cols, primary_of (dc_column <$> (R ++ N))).
Proof.
  intros Hla Hlb Hne Hcols. unfold primary_ops. rewrite !find_first_head.
  assert (Hsubs : ∀ q, q ∈ primary_of (dc_column <$> (R ++ N)) → q ∈ dc_name <$> (R ++ N)).
  { intros q (c & [Hc _]%elem_of_filterb & <-)%elem_of_names. apply list_elem_of_fmap in Hc as (d & -> & Hd).
  apply list_elem_of_fmap. by exists d. }
  assert (E : dc_name <$> head (filterb (λ item, is_primary (dc_column item)) (R ++ N)) = head (primary_of (dc_column <$> (R ++ N)))).
  { unfold primary_of. rewrite filterb_fmap. by destruct (filterb _ _). }
  assert (E' : sc_name <$> head (filterb is_primary before) = head (primary_of before)).
  { unfold primary_of. by destruct (filterb is_primary before). }
  rewrite E, E'. clear E E'.
  destruct (primary_of (dc_column <$> (R ++ N))) as [|q [|? ?]] eqn:Eb; [| |cbn in Hlb; lia];
  destruct (primary_of before) as [|p [|? ?]] eqn:Ea; try (cbn in Hla; lia); cbn [head].
  - unfold performs, key_left. rewrite Ea. cbn. by rewrite renamed_nil.
  - rewrite bool_decide_eq_true_2 by done. destruct p as [|x p]; [|done].
  exfalso. apply Hne. assert (Hin : [] ∈ primary_of before) by (rewrite Ea; by left).
  apply elem_of_names in Hin as (o & [Ho _]%elem_of_filterb & E). apply elem_of_names. by exists o.
  - rewrite bool_decide_eq_true_2 by done. assert (Hq : q ∈ dc_name <$> (R ++ N)) by (apply Hsubs; by left).
  destruct q as [|x q]; [by destruct (proj1 (proj2 Hnames) Hq)|].
  rewrite performs_cons. cbn. by rewrite bool_decide_eq_true_2 by by rewrite Hcols.
  - assert (Hq : q ∈ dc_name <$> (R ++ N)) by (apply Hsubs; by left). case_bool_decide as Hpq.
  + destruct q as [|x q]; [by destruct (proj1 (proj2 Hnames) Hq)|].
    rewrite performs_cons. cbn. by rewrite bool_decide_eq_true_2 by by rewrite Hcols.
  + simplify_eq. by rewrite (key_left_same q Ea Hq).
Qed.

(** All operations in turn. *)
Lemma diff_performed :
  length (primary_of before) ≤ 1 → length (primary_of (dc_column <$> (R ++ N))) ≤ 1 → ([] ∉ names before) →
  ∃ cols, performs (diffColumns before (R ++ N)) (before, primary_of before)
          = Some (cols, primary_of (dc_column <$> (R ++ N)))
        ∧ normal <$> cols = (λ d, normal (dc_column d)) <$> (R ++ N).
Proof.
  intros Hla Hlb Hne. rewrite diff_eq, !performs_app, perform_drops.
  - cbn [mbind option_bind].
  assert (filterb (λ c, negb (bool_decide (sc_name c ∈ dropped))) before = kept) as ->.
  { apply filterb_ext. intros o Ho. rewrite <- bool_decide_not. apply bool_decide_ext. unfold dropped.
    rewrite elem_of_names. setoid_rewrite elem_of_filterb. setoid_rewrite negb_true_iff. setoid_rewrite bool_decide_eq_false.
    split; [|intros Hin (c & [_ Hc] & Ec); by rewrite Ec in Hc].
    intros Hn. destruct (decide (sc_name o ∈ original_name <$> R)); [done|].
    exfalso. apply Hn. by exists o. }
  pose proof Hnames as (HndN & _ & Hfresh).
  destruct (retained_ops before R kept [] (if existsb (λ p, bool_decide (p ∈ dropped)) (primary_of before) then [] else primary_of before)
    retained_edits) as (Q' & E & HQ).
  + rewrite fmap_app in HndN. by apply NoDup_app in HndN as (? & _).
  + by apply names_filterb.
  + intros d Hd. destruct (decide (original_name d = dc_name d)); [by left|]. right.
    apply Hfresh; [apply elem_of_app; by left|by right].
  + intros n (o & [Ho _]%elem_of_filterb & E)%elem_of_names. apply elem_of_names. by exists o.
  + by intros n ?%elem_of_nil.
  + cbn [app] in E. rewrite performs_app, E. cbn [mbind option_bind]. fold key_left.
    assert (HQn : names Q' = dc_name <$> R).
    { assert (Hf : (λ x, x.1.1.1.1) <$> (normal <$> Q') = (λ x, x.1.1.1.1) <$> ((λ d, normal (dc_column d)) <$> R)) by by rewrite HQ.
      by rewrite <- !list_fmap_compose in Hf. }
    rewrite fmap_app in HndN. apply NoDup_app in HndN as (_ & Hdis & HndN).
    assert (HNn : names (dc_column <$> N) = dc_name <$> N) by (unfold names; by rewrite <- list_fmap_compose).
    rewrite performs_app, added_ops; [|by rewrite HNn| by rewrite HNn, HQn; intros n H1 H2; apply (Hdis n)].
    cbn [mbind option_bind]. exists (Q' ++ (dc_column <$> N)). split.
    * apply primary_performed; [done..|]. by rewrite names_app, HQn, HNn, fmap_app.
    * rewrite !fmap_app, HQ. f_equal. by rewrite <- list_fmap_compose.
  - by apply names_filterb.
  - intros n (o & [Ho _]%elem_of_filterb & E)%elem_of_names. apply elem_of_names. by exists o.
Qed.
End retained.
End diff_spec.

(** ** Pending index changes *)

Section index_spec.
Context `{Unicode}.

(** The index of a name after an operation, in the table (which refuses to drop a missing
  index or to add a taken name) and in the list the editor shows. *)
Definition index_op (name : jstr) (i : option SchemaIndex) (op : SchemaOperation) : option (option SchemaIndex) :=
  match op with
  | drop_index n => if decide (n = name) then match i with Some _ => Some None | None => None end else Some i
  | add_index x => if decide (si_name x = name) then match i with Some _ => None | None => Some (Some x) end else Some i
  | _ => Some i
  end.

Abbreviation indexes := (gmap jstr SchemaIndex).

Definition perform_index (m : indexes) (op : SchemaOperation) : option indexes :=
  match op with
  | drop_index n => match m !! n with Some _ => Some (delete n m) | None => None end
  | add_index x => match m !! si_name x with Some _ => None | None => Some (<[si_name x := x]> m) end
  | _ => Some m
  end.
Definition perform_indexes (ops : list SchemaOperation) (m : indexes) : option indexes :=
  foldl (λ s op, s ≫= λ m, perform_index m op) (Some m) ops.

Definition index_map (base : list SchemaIndex) : indexes := list_to_map ((λ i, (si_name i, i)) <$> base).

Definition name_ops (name : jstr) (ops : list SchemaOperation) (i : option SchemaIndex) : option (option SchemaIndex) :=
  foldl (λ s op, s ≫= λ i, index_op name i op) (Some i) ops.

Lemma name_ops_app name ops ops' i : name_ops name (ops ++ ops') i = name_ops name ops i ≫= name_ops name ops'.
Proof.
  unfold name_ops. rewrite foldl_app. destruct (foldl _ (Some i) ops) as [j|]; [done|].
  cbn. by induction ops'.
Qed.

(** Operations on the table are operations on each name. *)
Lemma perform_index_name m op :
  (∀ name, is_Some (index_op name (m !! name) op)) →
  ∃ m', perform_index m op = Some m' ∧ ∀ name, index_op name (m !! name) op = Some (m' !! name).
Proof.
  intros Hop. destruct op as [| | | | | | |n|x| |]; try (by exists m).
  - destruct (Hop n) as [j E]. cbn in *. rewrite decide_True in E by done. destruct (m !! n) eqn:En; [|done].
    exists (delete n m). split; [done|]. intros name. cbn. destruct (decide (n = name)) as [<-|].
    + by rewrite En, lookup_delete_eq.
    + by rewrite lookup_delete_ne.
  - destruct (Hop (si_name x)) as [j E]. cbn in *. rewrite decide_True in E by done.
    destruct (m !! si_name x) eqn:En; [done|]. exists (<[si_name x := x]> m). split; [done|].
    intros name. cbn. destruct (decide (si_name x = name)) as [<-|].
    + by rewrite En, lookup_insert_eq.
    + by rewrite lookup_insert_ne.
Qed.

Lemma perform_indexes_names ops m :
  (∀ name, is_Some (name_ops name ops (m !! name))) →
  ∃ m', perform_indexes ops m = Some m' ∧ ∀ name, name_ops name ops (m !! name) = Some (m' !! name).
Proof.
  induction ops as [|op ops IH] using rev_ind; intros Hops; [by exists m|].
  setoid_rewrite name_ops_app in Hops.
  destruct IH as (m1 & E1 & Hm1).
  { intros name. destruct (Hops name) as [j E]. destruct (name_ops name ops (m !! name)); [by eexists|done]. }
  destruct (perform_index_name m1 op) as (m2 & E2 & Hm2).
  { intros name. destruct (Hops name) as [j E]. rewrite Hm1 in E. cbn in E. by exists j. }
  exists m2. split.
  - unfold perform_indexes in *. by rewrite foldl_app, E1.
  - intros name. rewrite name_ops_app, Hm1. cbn. by rewrite Hm2.
Qed.

(** ** The displayed list *)

Definition shown_index (name : jstr) (l : list SchemaIndex) : option SchemaIndex := find_first (same_index_name name) l.

Lemma find_first_filterb {A} (p q : A → bool) l :
  (∀ x, p x = true → q x = true) → find_first p (filterb q l) = find_first p l.
Proof.
  intros Hpq. rewrite !find_first_head, filterb_filterb. f_equal. apply filterb_ext. intros x _.
  destruct (p x) eqn:E; [by rewrite (Hpq x E)|by rewrite andb_false_r].
Qed.

(** Where the table accepts an operation, the editor shows its result. *)
Lemma resolve_step_shown name l op i :
  (∀ n, op = drop_index n → n ≠ []) → index_op name (shown_index name l) op = Some i →
  shown_index name (resolve_step l op) = i.
Proof.
  intros Hne Hop. destruct op as [| | | | | | |n|x| |]; try by injection Hop.
  - assert (resolve_step l (drop_index n) = filterb (λ item, negb (same_index_name n item)) l) as ->.
    { specialize (Hne n eq_refl). by destruct n. }
    cbn in Hop. unfold shown_index in *. destruct (decide (n = name)) as [->|Hn].
    + destruct (find_first _ l); [|done]. injection Hop as <-. apply find_first_None.
      intros y [_ Hy]%elem_of_filterb. by apply negb_true_iff in Hy.
    + rewrite find_first_filterb; [by injection Hop|]. intros y. unfold same_index_name. intros Hy. bool_to_prop.
      apply negb_true_iff, bool_decide_eq_false_2. congruence.
  - cbn in Hop |- *. unfold shown_index in *. rewrite find_first_app. destruct (decide (si_name x = name)) as [<-|Hn].
    + destruct (find_first _ l) eqn:E; [done|]. injection Hop as <-.
      assert (find_first (same_index_name (si_name x)) (filterb (λ item, negb (same_index_name (si_name x) item)) l) = None) as ->.
      { apply find_first_None. intros y [_ Hy]%elem_of_filterb. by apply negb_true_iff in Hy. }
      cbn. unfold same_index_name. by rewrite bool_decide_eq_true_2.
    + rewrite find_first_filterb.
      * injection Hop as <-. destruct (find_first _ l); [done|]. cbn. unfold same_index_name. by rewrite bool_decide_eq_false_2.
      * intros y. unfold same_index_name. intros Hy. bool_to_prop. apply negb_true_iff, bool_decide_eq_false_2. congruence.
Qed.

Lemma resolve_shown name ops l i :
  (∀ n, drop_index n ∈ ops → n ≠ []) → name_ops name ops (shown_index name l) = Some i →
  shown_index name (foldl resolve_step l ops) = i.
Proof.
  revert i. induction ops as [|op ops IH] using rev_ind; intros i Hne Hops; [by injection Hops|].
  rewrite name_ops_app in Hops. destruct (name_ops name ops _) as [j|] eqn:E; [|done]. rewrite foldl_app. cbn [foldl].
  apply resolve_step_shown.
  - intros n ->. apply Hne, elem_of_app. right. by left.
  - rewrite (IH j); [done| |done]. intros n Hn. apply Hne, elem_of_app. by left.
Qed.

Lemma resolve_names_NoDup l ops : NoDup (si_name <$> l) → NoDup (si_name <$> foldl resolve_step l ops).
Proof.
  revert l. induction ops as [|op ops IH]; intros l Hl; [done|]. apply IH.
  destruct op as [| | | | | | |[|c n]|x| |]; try done; cbn [resolve_step].
  - by apply filterb_NoDup_fmap.
  - rewrite fmap_app. apply NoDup_app_singleton; [by apply filterb_NoDup_fmap|].
    intros (y & E & [_ Hy]%elem_of_filterb)%list_elem_of_fmap. unfold same_index_name in Hy. bool_to_prop. done.
Qed.

Lemma shown_index_perm name l k : NoDup (si_name <$> l) → l ≡ₚ k → shown_index name l = shown_index name k.
Proof.
  intros Hnd Hp. unfold shown_index.
  assert (G : ∀ l', NoDup (si_name <$> l') → ∀ x, x ∈ l' → si_name x = name → find_first (same_index_name name) l' = Some x).
  { induction l' as [|y l' IH]; intros Hl x Hx Ex; [by apply elem_of_nil in Hx|]. cbn in *.
    apply list.NoDup_cons in Hl as [Hy Hl]. unfold same_index_name at 1. case_bool_decide as Ey.
    - apply elem_of_cons in Hx as [->|Hx]; [done|]. exfalso. apply Hy. rewrite Ey, <- Ex.
      apply list_elem_of_fmap. by exists x.
    - apply elem_of_cons in Hx as [->|Hx]; [done|]. by apply IH. }
  destruct (find_first _ l) as [x|] eqn:E.
  - apply find_first_Some in E as [Hx E]. unfold same_index_name in E. bool_to_prop. symmetry. apply G; [|by rewrite <- Hp|done].
    by rewrite <- Hp.
  - symmetry. apply find_first_None. intros y Hy. rewrite <- Hp in Hy. by apply (proj1 (find_first_None _ _) E).
Qed.

Lemma resolveIndexes_shown base extra name :
  NoDup (si_name <$> base) →
  shown_index name (resolveIndexes base extra) = shown_index name (foldl resolve_step base extra).
Proof.
  intros Hnd. symmetry. apply shown_index_perm; [by apply resolve_names_NoDup|]. unfold resolveIndexes. by rewrite sort_by_perm.
Qed.

Lemma index_map_shown base name : index_map base !! name = shown_index name base.
Proof.
  unfold index_map, shown_index. induction base as [|x base IH]; [done|]. cbn. unfold same_index_name.
  case_bool_decide as E; [subst; by rewrite lookup_insert_eq|]. by rewrite lookup_insert_ne.
Qed.

(** ** The shape of the pending changes

  A name of the table is untouched, dropped, or dropped and added again; another one is
  untouched or added. *)

Definition touches (name : jstr) (op : SchemaOperation) : bool := drops_index name op || adds_index name op.

Definition has_index (base : list SchemaIndex) (name : jstr) : bool := existsb (same_index_name name) base.

Definition drops_of (base : list SchemaIndex) (name : jstr) : list SchemaOperation :=
  if has_index base name then [drop_index name] else [].

Definition index_shape (base : list SchemaIndex) (extra : list SchemaOperation) : Prop :=
  ∀ name, let l := filterb (touches name) extra in
    l = [] ∨ l = drops_of base name ∨ ∃ x, si_name x = name ∧ l = drops_of base name ++ [add_index x].

Lemma name_ops_touches name ops i : name_ops name ops i = name_ops name (filterb (touches name) ops) i.
Proof.
  induction ops as [|op ops IH] using rev_ind; [done|]. rewrite filterb_app, !name_ops_app, <- IH.
  destruct (name_ops name ops i) as [j|]; [|done]. cbn [mbind option_bind]. rewrite filterb_cons. cbn [filterb].
  destruct (touches name op) eqn:E; [done|]. destruct op as [| | | | | | |n|x| |]; try done;
    unfold touches in E; cbn in E.
  - rewrite orb_false_r in E. bool_to_prop. unfold name_ops. cbn. by rewrite decide_False.
  - unfold same_index_name in E. bool_to_prop. unfold name_ops. cbn. by rewrite decide_False.
Qed.

Lemma has_index_shown base name : has_index base name = bool_decide (is_Some (shown_index name base)).
Proof.
  unfold has_index, shown_index. destruct (find_first _ base) as [x|] eqn:E.
  - rewrite bool_decide_eq_true_2 by done. apply existsb_elem. exists x. by apply find_first_Some.
  - rewrite bool_decide_eq_false_2 by by intros [? ?]. apply existsb_not. by apply find_first_None.
Qed.

Lemma drops_of_shown base name :
  drops_of base name = match shown_index name base with Some _ => [drop_index name] | None => [] end.
Proof. unfold drops_of. rewrite has_index_shown. by destruct (shown_index name base). Qed.

(** Such changes are accepted, name by name. *)
Lemma shape_name_ops base extra name :
  index_shape base extra → is_Some (name_ops name extra (shown_index name base)).
Proof.
  intros Hs. rewrite name_ops_touches. destruct (Hs name) as [-> | [-> | (x & Ex & ->)]]; [by eexists|..];
    rewrite drops_of_shown; destruct (shown_index name base) as [y|] eqn:E;
    unfold name_ops; cbn; repeat (rewrite decide_True by done; cbn); by eexists.
Qed.

(** A name that is not shown is added to a table without it. *)
Lemma shape_fresh base extra name :
  index_shape base extra → (∀ n, drop_index n ∈ extra → n ≠ []) → shown_index name (foldl resolve_step base extra) = None →
  filterb (drops_index name) extra = drops_of base name.
Proof.
  intros Hs Hne Hnone.
  destruct (shape_name_ops base extra name Hs) as [i Hi].
  rewrite (resolve_shown name extra base i Hne Hi) in Hnone. subst i. rewrite name_ops_touches in Hi.
  assert (E : filterb (drops_index name) extra = filterb (drops_index name) (filterb (touches name) extra)).
  { rewrite filterb_filterb. apply filterb_ext. intros op _. unfold touches.
    destruct (drops_index name op); [done|]. by rewrite andb_false_r. }
  rewrite E. clear E. destruct (Hs name) as [El|[El|(x & Ex & El)]]; rewrite El in Hi |- *.
  - injection Hi as Hi. by rewrite drops_of_shown, Hi.
  - unfold drops_of. destruct (has_index base name); [|done]. cbn. by rewrite bool_decide_eq_true_2.
  - rewrite name_ops_app in Hi. destruct (name_ops name (drops_of base name) _) as [j|]; [|done]. cbn in Hi.
    rewrite decide_True in Hi by done. by destruct j.
Qed.

(** ** The edits of the index list

  The dialog gives a name that is not empty; the name is free in the list shown, unless
  it is the edited index's own. *)
Inductive index_step (base : list SchemaIndex) (extra : list SchemaOperation) : list SchemaOperation → Prop :=
| step_add_index x :
  si_name x ≠ [] → shown_index (si_name x) (resolveIndexes base extra) = None →
  index_step base extra (appendAddIndex extra x)
| step_edit_index original x :
  si_name x ≠ [] → shown_index original (resolveIndexes base extra) ≠ None →
  si_name x = original ∨ shown_index (si_name x) (resolveIndexes base extra) = None →
  index_step base extra (replaceIndex extra base original x)
| step_drop_index name : index_step base extra (dropIndexOps extra base name)
| step_add_key k : index_step base extra (extra ++ [add_foreign_key k])
| step_drop_key name : index_step base extra (extra ++ [drop_foreign_key name]).

Lemma filterb_touches_other n (p : SchemaOperation → bool) extra :
  (∀ op, touches n op = true → p op = true) → filterb (touches n) (filterb p extra) = filterb (touches n) extra.
Proof.
  intros Hp. rewrite filterb_filterb. apply filterb_ext. intros op _.
  destruct (touches n op) eqn:E; [by rewrite (Hp op E)|by rewrite andb_false_r].
Qed.

Lemma filterb_touches_none n (p : SchemaOperation → bool) extra :
  (∀ op, touches n op = true → p op = false) → filterb (touches n) (filterb p extra) = [].
Proof.
  intros Hp. apply filterb_none. intros op [_ Ho]%elem_of_filterb. apply not_true_iff_false. intros Ht.
  by rewrite (Hp op Ht) in Ho.
Qed.

(** Keeping only the drops of a name. *)
Lemma filterb_touches_drops n (p : SchemaOperation → bool) extra :
  (∀ op, touches n op = true → p op = negb (adds_index n op)) → filterb (touches n) (filterb p extra) = filterb (drops_index n) extra.
Proof.
  intros Hp. rewrite filterb_filterb. apply filterb_ext. intros op _. specialize (Hp op).
  unfold touches in *. destruct op as [| | | | | | |m|x| |]; cbn in *; try by rewrite andb_false_r.
  - rewrite orb_false_r in *. destruct (bool_decide (m = n)); [by rewrite Hp|by rewrite andb_false_r].
  - destruct (same_index_name n x); [by rewrite Hp|by rewrite andb_false_r].
Qed.

Lemma touches_name n op : touches n op = true → op = drop_index n ∨ ∃ x, op = add_index x ∧ si_name x = n.
Proof.
  unfold touches. destruct op as [| | | | | | |m|x| |]; try done; cbn.
  - rewrite orb_false_r. intros E. bool_to_prop. left. by subst.
  - unfold same_index_name. intros E. bool_to_prop. right. by exists x.
Qed.

Definition pending_ok (base : list SchemaIndex) (extra : list SchemaOperation) : Prop :=
  index_shape base extra ∧ ∀ n, drop_index n ∈ extra → n ≠ [].

Lemma drops_kept p extra (new : list SchemaOperation) :
  (∀ n, drop_index n ∈ extra → n ≠ []) → (∀ n, drop_index n ∈ new → n ≠ []) →
  ∀ n, drop_index n ∈ filterb p extra ++ new → n ≠ [].
Proof. intros He Hn n [[Hd _]%elem_of_filterb|Hd]%elem_of_app; auto. Qed.

Lemma touches_add n x : filterb (touches n) [add_index x] = if decide (si_name x = n) then [add_index x] else [].
Proof.
  rewrite filterb_cons. unfold touches. cbn. unfold same_index_name.
  destruct (decide (si_name x = n)); [by rewrite bool_decide_eq_true_2|by rewrite bool_decide_eq_false_2].
Qed.

Lemma touches_drops_of n base m : filterb (touches n) (drops_of base m) = if decide (m = n) then drops_of base m else [].
Proof.
  unfold drops_of. destruct (has_index base m); [|by destruct (decide (m = n))].
  rewrite filterb_cons. unfold touches. cbn. rewrite orb_false_r.
  destruct (decide (m = n)); [by rewrite bool_decide_eq_true_2|by rewrite bool_decide_eq_false_2].
Qed.

Lemma replaceIndex_eq extra base original x :
  replaceIndex extra base original x =
    filterb (λ op, negb (drops_index original op) && negb (adds_index original op) && negb (adds_index (si_name x) op)) extra
    ++ drops_of base original ++ [add_index x].
Proof.
  unfold replaceIndex, drops_of, has_index. destruct (existsb _ base); [by rewrite <- app_assoc|done].
Qed.

Lemma dropIndexOps_eq extra base name :
  dropIndexOps extra base name =
    filterb (λ op, negb (adds_index name op) && negb (drops_index name op)) extra ++ drops_of base name.
Proof. unfold dropIndexOps, drops_of, has_index. destruct (existsb _ base); [done|by rewrite app_nil_r]. Qed.

(** Decides whether the filters of the edits keep an operation on the name [n]. *)
Ltac on_name n :=
  intros op [-> | (y & -> & Hy)]%touches_name; cbn; unfold same_index_name;
  repeat first [rewrite bool_decide_eq_true_2 by congruence | rewrite bool_decide_eq_false_2 by congruence];
  done.

Section pending_step.
Context (base : list SchemaIndex) (extra : list SchemaOperation).
Context (Hs : index_shape base extra).

Lemma append_shape x :
  filterb (drops_index (si_name x)) extra = drops_of base (si_name x) → index_shape base (appendAddIndex extra x).
Proof.
  intros Hd n l. subst l. unfold appendAddIndex. rewrite filterb_app, touches_add.
  destruct (decide (si_name x = n)) as [<-|Hn].
  - right. right. exists x. split; [done|]. by rewrite filterb_touches_drops, Hd.
  - rewrite filterb_touches_other, app_nil_r; [apply Hs|]. on_name n.
Qed.

Lemma replace_shape original x :
  si_name x = original ∨ filterb (drops_index (si_name x)) extra = drops_of base (si_name x) →
  index_shape base (replaceIndex extra base original x).
Proof.
  intros Hd n l. subst l. rewrite replaceIndex_eq, !filterb_app, touches_drops_of, touches_add.
  destruct (decide (original = n)) as [<-|Ho].
  - rewrite filterb_touches_none by (on_name original). cbn [app].
  destruct (decide (si_name x = original)); [right; right; by exists x|]. right. left. by rewrite app_nil_r.
  - destruct (decide (si_name x = n)) as [<-|Hn]; cbn [app].
  + right. right. exists x. split; [done|]. rewrite filterb_touches_drops.
    * destruct Hd as [?|Hd]; [congruence|by rewrite Hd].
    * on_name (si_name x).
  + rewrite filterb_touches_other, app_nil_r; [apply Hs|]. on_name n.
Qed.

Lemma drop_shape name : index_shape base (dropIndexOps extra base name).
Proof.
  intros n l. subst l. rewrite dropIndexOps_eq, filterb_app, touches_drops_of. destruct (decide (name = n)) as [<-|Hn].
  - rewrite filterb_touches_none by (on_name name). right. by left.
  - rewrite filterb_touches_other, app_nil_r; [apply Hs|]. on_name n.
Qed.

Lemma other_shape op : (∀ n, touches n op = false) → index_shape base (extra ++ [op]).
Proof. intros Ho n l. subst l. rewrite filterb_app. cbn. rewrite Ho, app_nil_r. apply Hs. Qed.
End pending_step.

Lemma pending_step base extra extra' :
  NoDup (si_name <$> base) → ([] ∉ si_name <$> base) →
  index_step base extra extra' → pending_ok base extra → pending_ok base extra'.
Proof.
  intros Hnd Hbase Hstep [Hs Hne].
  assert (Hfresh : ∀ n, shown_index n (resolveIndexes base extra) = None → filterb (drops_index n) extra = drops_of base n)
    by (intros n Hn; rewrite resolveIndexes_shown in Hn by done; by apply shape_fresh).
  assert (Hbne : ∀ m n, drop_index n ∈ drops_of base m → n ≠ []).
  { intros m n. unfold drops_of, has_index. destruct (existsb _ base) eqn:E; [|by intros ?%elem_of_nil].
    intros E'%list_elem_of_singleton. simplify_eq. apply existsb_elem in E as (x & Hx & Ex).
    unfold same_index_name in Ex. bool_to_prop. intros ->. apply Hbase, list_elem_of_fmap. by exists x. }
  destruct Hstep as [x Hx Hfx|original x Hx Ho Hfx|name|k|name].
  - split; [apply append_shape; auto|]. apply drops_kept; [done|by intros n ?%list_elem_of_singleton].
  - split; [apply replace_shape; naive_solver|]. rewrite replaceIndex_eq. apply drops_kept; [done|].
    intros n [?|?%list_elem_of_singleton]%elem_of_app; [by eapply Hbne|done].
  - split; [by apply drop_shape|]. rewrite dropIndexOps_eq. by apply drops_kept; [|apply Hbne].
  - split; [by apply other_shape|]. intros n [?|?%list_elem_of_singleton]%elem_of_app; [by apply Hne|done].
  - split; [by apply other_shape|]. intros n [?|?%list_elem_of_singleton]%elem_of_app; [by apply Hne|done].
Qed.

Lemma pending_nil base : pending_ok base [].
Proof. split; [by left|by intros n ?%elem_of_nil]. Qed.

Lemma pending_accepted base extra :
  NoDup (si_name <$> base) → pending_ok base extra →
  ∃ m, perform_indexes extra (index_map base) = Some m ∧ ∀ name, shown_index name (resolveIndexes base extra) = m !! name.
Proof.
  intros Hnd [Hs Hne]. destruct (perform_indexes_names extra (index_map base)) as (m & E & Hm).
  - intros name. rewrite index_map_shown. by apply shape_name_ops.
  - exists m. split; [done|]. intros name. rewrite resolveIndexes_shown by done. apply resolve_shown; [done|].
    by rewrite <- index_map_shown.
Qed.
End index_spec.

(** ** Properties *)


Definition demo_before : list SchemaColumn :=
  [MkSchemaColumn "id"%js "int"%js false None None (Some true);
   MkSchemaColumn "old"%js "text"%js true None None None;
   MkSchemaColumn "gone"%js "text"%js true None None None].
Definition demo_after : list DraftColumn :=
  change 1 (PPrimary true) (change 1 (PName "new"%js) (addColumn PostgreSQL (removeColumn 2 (draft_of demo_before)))).


Definition demo_keys : list SchemaColumn :=
  [MkSchemaColumn "a"%js "int"%js false None None (Some true);
   MkSchemaColumn "b"%js "int"%js false None None (Some true)].

(** Two edits that the operations lose: a column dropped and added again under its
    name (the drop is filtered out and the table refuses the addition), and a key of
    several columns reduced to the first of them (there is no operation at all). *)
Theorem diff_columns_limits :
  (∃ after, rtc (draft_step PostgreSQL) (draft_of demo_before) after
     ∧ NoDup (dc_name <$> after)
     ∧ performs (@diffColumns ascii_unicode demo_before after) (demo_before, primary_of demo_before) = None)
  ∧ (∃ after, rtc (draft_step PostgreSQL) (draft_of demo_keys) after
     ∧ primary_of (dc_column <$> after) ≠ primary_of demo_keys
     ∧ @diffColumns ascii_unicode demo_keys after = []).
Proof.
  split.
  - exists (change 2 (PName "gone"%js) (addColumn PostgreSQL (removeColumn 2 (draft_of demo_before)))). split_and!.
    + do 3 (eapply rtc_r; [|constructor]). apply rtc_refl.
    + apply (bool_decide_unpack _). vm_compute. exact I.
    + by vm_compute.
  - exists (change 0 (PPrimary true) (draft_of demo_keys)). split_and!.
    + apply rtc_once. constructor.
    + by vm_compute.
    + by vm_compute.
Qed.


Definition demo_indexes : list SchemaIndex := [MkIndex "a"%js ["x"%js] false; MkIndex "b"%js ["y"%js] true].

