(* ===== verification/SchemaWorkspace.v ===== *)
(** * The structure editor

    [src/web/src/features/schema/SchemaWorkspace.tsx] and [IndexDialog.tsx]: the draft of a
    table's structure, its SQL preview (requested 280 ms after the last change) and the
    handlers that save and discard it.  React runs an effect after the handler that
    changes what the effect depends on; here such handlers end with it. *)
From S2P Require Import Prelude JsString JsNumber Api Ddl Schema Async.

Record SchemaRisk := MkSchemaRisk { sr_level : jstr; sr_kind : jstr; sr_target : jstr; sr_message : jstr }.
Record SchemaPreview := MkPreview {
  sp_statements : list (jstr * option bool);
  sp_risks : list SchemaRisk;
  sp_warnings : option (list jstr);
  sp_fingerprint : jstr;
  sp_token : jstr;
  sp_expiresAt : number;
}.

(** ** State *)

Record SW := MkSW {
  sw_detail : option TableDetail;
  sw_columns : list DraftColumn;
  sw_extra : list SchemaOperation;
  sw_preview : option SchemaPreview;
  sw_busy : bool;
  sw_previewBusy : bool;
  sw_message : jstr;
  sw_editing : bool;
  sw_previewOpen : bool;
  sw_previewRequest : nat;
  (** The pending timeout and the operations it will preview. *)
  sw_timer : option (list SchemaOperation);
}.

Definition initialSW : SW := MkSW None [] [] None false false [] false false 0 None.

Definition setDetail d w := MkSW d (sw_columns w) (sw_extra w) (sw_preview w) (sw_busy w) (sw_previewBusy w) (sw_message w) (sw_editing w) (sw_previewOpen w) (sw_previewRequest w) (sw_timer w).
Definition setColumns f w := MkSW (sw_detail w) (f (sw_columns w)) (sw_extra w) (sw_preview w) (sw_busy w) (sw_previewBusy w) (sw_message w) (sw_editing w) (sw_previewOpen w) (sw_previewRequest w) (sw_timer w).
Definition setExtra f w := MkSW (sw_detail w) (sw_columns w) (f (sw_extra w)) (sw_preview w) (sw_busy w) (sw_previewBusy w) (sw_message w) (sw_editing w) (sw_previewOpen w) (sw_previewRequest w) (sw_timer w).
Definition setPreview p w := MkSW (sw_detail w) (sw_columns w) (sw_extra w) p (sw_busy w) (sw_previewBusy w) (sw_message w) (sw_editing w) (sw_previewOpen w) (sw_previewRequest w) (sw_timer w).
Definition setBusy b w := MkSW (sw_detail w) (sw_columns w) (sw_extra w) (sw_preview w) b (sw_previewBusy w) (sw_message w) (sw_editing w) (sw_previewOpen w) (sw_previewRequest w) (sw_timer w).
Definition setPreviewBusy b w := MkSW (sw_detail w) (sw_columns w) (sw_extra w) (sw_preview w) (sw_busy w) b (sw_message w) (sw_editing w) (sw_previewOpen w) (sw_previewRequest w) (sw_timer w).
Definition setMessage m w := MkSW (sw_detail w) (sw_columns w) (sw_extra w) (sw_preview w) (sw_busy w) (sw_previewBusy w) m (sw_editing w) (sw_previewOpen w) (sw_previewRequest w) (sw_timer w).
Definition setEditing b w := MkSW (sw_detail w) (sw_columns w) (sw_extra w) (sw_preview w) (sw_busy w) (sw_previewBusy w) (sw_message w) b (sw_previewOpen w) (sw_previewRequest w) (sw_timer w).
Definition setPreviewOpen f w := MkSW (sw_detail w) (sw_columns w) (sw_extra w) (sw_preview w) (sw_busy w) (sw_previewBusy w) (sw_message w) (sw_editing w) (f (sw_previewOpen w)) (sw_previewRequest w) (sw_timer w).
Definition setPreviewRequest n w := MkSW (sw_detail w) (sw_columns w) (sw_extra w) (sw_preview w) (sw_busy w) (sw_previewBusy w) (sw_message w) (sw_editing w) (sw_previewOpen w) n (sw_timer w).
Definition setTimer t w := MkSW (sw_detail w) (sw_columns w) (sw_extra w) (sw_preview w) (sw_busy w) (sw_previewBusy w) (sw_message w) (sw_editing w) (sw_previewOpen w) (sw_previewRequest w) t.

(** ** Calls *)

Inductive SchemaCall :=
| tableDetail (connection schema table : jstr)
| previewSchema (connection schema table : jstr) (operations : list SchemaOperation)
| executeSchema (connection schema table token : jstr) (confirmed : bool).

Inductive SchemaReply := RDetail (d : TableDetail) | RPreview (p : SchemaPreview) | RExecuted.

Abbreviation handler := (async SW SchemaCall SchemaReply error).
#[local] Open Scope async_scope.

Definition call_detail (c : SchemaCall) : handler TableDetail :=
  let* r := await c in match r with RDetail d => ret d | _ => throw None end.
Definition call_preview (c : SchemaCall) : handler SchemaPreview :=
  let* r := await c in match r with RPreview p => ret p | _ => throw None end.

Section workspace.
Context `{Unicode} (connectionId schema table : jstr) (driver : SqlDriver).

(** ** Derived values *)

Definition typeOptions (w : SW) : list SelectOption :=
  buildColumnTypeOptions driver ((λ x, sc_type (dc_column x)) <$> sw_columns w).

Definition baseIndexes (w : SW) : list SchemaIndex :=
  match sw_detail w with Some d => td_indexes d | None => [] end.

Definition visibleIndexes (w : SW) : list SchemaIndex := resolveIndexes (baseIndexes w) (sw_extra w).

Definition operations (w : SW) : list SchemaOperation :=
  match sw_detail w with
  | Some d => diffColumns (td_columns d) (sw_columns w) ++ sw_extra w
  | None => []
  end.

(** What the effect reports to [onDirtyChange]. *)
Definition schema_dirty (w : SW) : bool := sw_editing w && bool_decide (0 < length (operations w)).

(** The save button's [disabled], and the row that shows it. *)
Definition canSave (w : SW) : bool :=
  sw_editing w && bool_decide (0 < length (operations w))
  && match sw_preview w with Some _ => true | None => false end && negb (sw_busy w || sw_previewBusy w).

(** ** Effects and handlers *)

(** The effect on [detail] and [operations]; its cleanup clears the pending timeout. *)
Definition previewEffect (w : SW) : SW :=
  let w := setTimer None w in
  match sw_detail w with
  | None => w
  | Some _ =>
      match operations w with
      | [] => setMessage [] (setPreview None w)
      | ops => setTimer (Some ops) w
      end
  end.

Definition loaded (d : TableDetail) (w : SW) : SW :=
  setMessage [] (setPreview None (setExtra (λ _, []) (setColumns (λ _, draft_of (td_columns d)) (setDetail (Some d) w)))).

Definition load : handler unit :=
  do* modify (setBusy true) in
  finally
    (catch
      (let* d := call_detail (tableDetail connectionId schema table) in
       do* modify (loaded d) in
       modify previewEffect)
      (λ e, modify (setMessage (default "无法加载表结构"%js e))))
    (modify (setBusy false)).

Definition edit_columns (f : list DraftColumn → list DraftColumn) : handler unit :=
  modify (λ w, previewEffect (setColumns f w)).
Definition edit_extra (f : list SchemaOperation → list SchemaOperation) : handler unit :=
  modify (λ w, previewEffect (setExtra f w)).

Definition is_request (requestId : nat) (w : SW) : bool := bool_decide (sw_previewRequest w = requestId).

Definition refreshPreview (nextOperations : list SchemaOperation) : handler unit :=
  let* w := state in
  match sw_detail w, nextOperations with
  | None, _ | _, [] => modify (setPreview None)
  | Some _, _ =>
      let requestId := S (sw_previewRequest w) in
      do* modify (setPreviewRequest requestId) in
      do* modify (setPreviewBusy true) in
      finally
        (catch
          (let* nextPreview := call_preview (previewSchema connectionId schema table nextOperations) in
           let* w := state in
           if negb (is_request requestId w) then ret tt
           else do* modify (setPreview (Some nextPreview)) in modify (setMessage []))
          (λ e,
           let* w := state in
           if negb (is_request requestId w) then ret tt
           else do* modify (setPreview None) in modify (setMessage (default "SQL 预览失败"%js e))))
        (let* w := state in
         if is_request requestId w then modify (setPreviewBusy false) else ret tt)
  end.

(** The timeout of the effect. *)
Definition previewTimer : handler unit :=
  let* w := state in
  match sw_timer w with
  | None => ret tt
  | Some ops => do* modify (setTimer None) in refreshPreview ops
  end.

(** [sure] is the answer to the confirmation a dangerous change asks for. *)
Definition execute (sure : bool) : handler unit :=
  let* w := state in
  match sw_preview w, operations w with
  | None, _ | _, [] => ret tt
  | Some preview, _ =>
      let dangerous := existsb (λ x, bool_decide (sr_level x = "danger"%js)) (sp_risks preview) in
      if dangerous && negb sure then ret tt
      else
        do* modify (setBusy true) in
        finally
          (catch
            (do* await (executeSchema connectionId schema table (sp_token preview) dangerous) in
             do* modify (setMessage "结构变更已保存"%js) in
             do* load in
             modify (setEditing false))
            (λ e, modify (setMessage (default "结构变更失败，草稿已保留"%js e))))
          (modify (setBusy false))
  end.

Definition discard : handler unit :=
  let* w := state in
  match sw_detail w with
  | None => ret tt
  | Some d =>
      modify (λ w, previewEffect
        (setMessage "已放弃未保存修改"%js (setPreviewOpen (λ _, false) (setEditing false (setPreview None
          (setExtra (λ _, []) (setColumns (λ _, draft_of (td_columns d)) w)))))))
  end.

(** ** Index and relation editors *)

Definition validateIndex (index : SchemaIndex) : jstr :=
  let name := trim (si_name index) in
  if negb (truthy name) then "请输入索引名称"%js
  else if negb (isValidSqlIdent name) then "索引名称仅支持字母、数字和下划线，且不能以数字开头"%js
  else match si_columns index with
       | [] => "请至少选择一个字段"%js
       | columns =>
           foldr (λ column rest,
             if negb (truthy (trim column)) then "字段名不能为空"%js
             else if negb (isValidSqlIdent (trim column)) then "字段「"%js ++ trim column ++ "」名称不合法"%js
             else rest) [] columns
       end.

(** The dialog's [submit]: the index it gives, or the error it shows. *)
Definition dialog_submit (name : jstr) (columns : list jstr) (unique_ : bool) : SchemaIndex + jstr :=
  let index := MkIndex (trim name) columns unique_ in
  let message := validateIndex index in
  if truthy message then inr message else inl index.

Inductive IndexMode := create | edit (original : SchemaIndex).

(** [onSubmit] of the dialog that [IndexEditor] opens. *)
Definition submit_index (mode : IndexMode) (index : SchemaIndex) : handler unit :=
  let* w := state in
  match mode with
  | edit original => edit_extra (λ v, replaceIndex v (baseIndexes w) (si_name original) index)
  | create => edit_extra (λ v, appendAddIndex v index)
  end.
Definition drop_shown_index (name : jstr) : handler unit :=
  let* w := state in edit_extra (λ v, dropIndexOps v (baseIndexes w) name).

(** [submit] of [RelationEditor]; [None] when the button is disabled. *)
Definition relation_submit (name column target : jstr) : option SchemaForeignKey :=
  match split "."%js target with
  | [s; t; c] =>
      if truthy (trim name)
      then Some (MkForeignKey (trim name) [column] s t [c] (Some "NO ACTION"%js) (Some "NO ACTION"%js))
      else None
  | _ => None
  end.
Definition add_relation (k : SchemaForeignKey) : handler unit := edit_extra (λ v, v ++ [add_foreign_key k]).
Definition drop_relation (name : jstr) : handler unit := edit_extra (λ v, v ++ [drop_foreign_key name]).

(** The inputs are shown while editing. *)
Definition when_editing (m : handler unit) : handler unit :=
  let* w := state in if sw_editing w then m else ret tt.

(** What can happen to the editor. *)
Inductive schema_event : handler unit → Prop :=
| ev_load : schema_event load
| ev_edit : schema_event (modify (setEditing true))
| ev_toggle_preview : schema_event (modify (setPreviewOpen negb))
| ev_change i patch : schema_event (when_editing (edit_columns (change i patch)))
| ev_add : schema_event (when_editing (edit_columns (addColumn driver)))
| ev_remove i : schema_event (when_editing (edit_columns (removeColumn i)))
| ev_index mode name columns unique_ index :
    dialog_submit name columns unique_ = inl index → schema_event (when_editing (submit_index mode index))
| ev_drop_index name : schema_event (when_editing (drop_shown_index name))
| ev_relation name column target k :
    relation_submit name column target = Some k → schema_event (when_editing (add_relation k))
| ev_drop_relation name : schema_event (when_editing (drop_relation name))
| ev_timer : schema_event previewTimer
| ev_save sure : schema_event (let* w := state in if canSave w then execute sure else ret tt)
| ev_discard : schema_event (when_editing (let* w := state in match operations w with [] => ret tt | _ => discard end)).
End workspace.

(** ** The draft under every interleaving *)

Section draft_invariant.
Context `{Unicode} (connectionId schema table : jstr) (driver : SqlDriver).

(** The columns are a draft that editing the loaded ones produces. *)
Definition draft_ok (w : SW) : Prop :=
  match sw_detail w with
  | None => True
  | Some d => rtc (draft_step driver) (draft_of (td_columns d)) (sw_columns w)
  end.

Definition same_draft (w w' : SW) : Prop := sw_detail w' = sw_detail w ∧ sw_columns w' = sw_columns w.

Lemma draft_ok_same w w' : same_draft w w' → draft_ok w → draft_ok w'.
Proof. unfold draft_ok. by intros [-> ->]. Qed.

Lemma previewEffect_same w : same_draft w (previewEffect w).
Proof. unfold previewEffect, same_draft. cbv zeta. by repeat case_match. Qed.

Lemma draft_ok_preview w : draft_ok w → draft_ok (previewEffect w).
Proof. apply draft_ok_same, previewEffect_same. Qed.

Lemma draft_ok_edit f w :
  (∀ v, draft_step driver v (f v)) → draft_ok w → draft_ok (previewEffect (setColumns f w)).
Proof.
  intros Hf Hw. apply draft_ok_preview. unfold draft_ok in *. cbn. destruct (sw_detail w); [|done].
  eapply rtc_r; [exact Hw|apply Hf].
Qed.

Lemma draft_ok_loaded d w : draft_ok (loaded d w).
Proof. unfold draft_ok. cbn. apply rtc_refl. Qed.

(** Walks through a handler; the updates left are those of the columns. *)
Ltac keep_draft :=
  repeat lazymatch goal with
    | |- preserves _ (bind state _) => apply preserves_state_bind; intros ? ?
    | |- preserves _ (bind _ _) => apply preserves_bind; [|intros ?]
    | |- preserves _ (catch _ _) => apply preserves_catch; [|intros ?]
    | |- preserves _ (finally _ _) => apply preserves_finally
    | |- preserves _ (ret _) => apply preserves_ret
    | |- preserves _ (throw _) => apply preserves_throw
    | |- preserves _ (await _) => apply preserves_await
    | |- preserves _ (modify _) =>
        apply preserves_modify; intros w' Hw';
        first [exact (draft_ok_same w' _ (conj eq_refl eq_refl) Hw') | solve [auto using draft_ok_preview, draft_ok_loaded, draft_ok_edit]]
    | |- preserves _ (match ?x with _ => _ end) => destruct x
    | |- preserves _ (call_detail _) => unfold call_detail
    | |- preserves _ (call_preview _) => unfold call_preview
    | |- preserves _ (load _ _ _) => unfold load
    | |- preserves _ (refreshPreview _ _ _ _) => unfold refreshPreview
    | |- preserves _ (execute _ _ _ _) => unfold execute
    | |- preserves _ (when_editing _) => unfold when_editing
    | |- preserves _ (submit_index _ _) => unfold submit_index
    | |- preserves _ (drop_shown_index _) => unfold drop_shown_index
    | |- preserves _ (add_relation _) => unfold add_relation
    | |- preserves _ (drop_relation _) => unfold drop_relation
    | |- preserves _ (edit_extra _) => unfold edit_extra
    | |- preserves _ (edit_columns _) => unfold edit_columns
    | |- preserves _ (previewTimer _ _ _) => unfold previewTimer
    end.

Lemma keep_discard : preserves draft_ok discard.
Proof.
  intros k h Hk Hh w Hw. unfold discard, bind, state. destruct (sw_detail w) as [d|] eqn:E; [|by apply Hk].
  apply Hk, draft_ok_preview. unfold draft_ok. cbn. rewrite E. apply rtc_refl.
Qed.

Lemma event_keeps_draft m : schema_event connectionId schema table driver m → preserves draft_ok m.
Proof.
  destruct 1; keep_draft; try apply keep_discard;
    apply preserves_modify; intros w' Hw'; apply draft_ok_edit; try done; constructor.
Qed.

Lemma draft_ok_initial : world_keeps draft_ok ((initialSW, []) : world SW SchemaCall SchemaReply error).
Proof. split; [done|constructor]. Qed.
End draft_invariant.

(** ** Properties *)


Definition demo_detail : TableDetail :=
  {| td_schema := "public"%js; td_name := "people"%js;
     td_columns := [MkSchemaColumn "id"%js "integer"%js false None None (Some true)];
     td_indexes := []; td_foreignKeys := []; td_ddl := None; td_permissions := [] |}.

Abbreviation on_people f := (f "c"%js "public"%js "people"%js).
#[local] Instance demo_unicode : Unicode := ascii_unicode.

(** Loading the table and starting to edit it. *)
Definition opened : list (action SW SchemaCall SchemaReply error) :=
  [Start (on_people load); Answer 0 (inl (RDetail demo_detail)); Start (modify (setEditing true))].
Definition rename_to (name : jstr) : action SW SchemaCall SchemaReply error :=
  Start (when_editing (edit_columns (change 0 (PName name)))).

Lemma opened_reachable actions :
  Forall (λ a, match a with Start m => on_people schema_event PostgreSQL m | Answer _ _ => True end) actions →
  rtc (world_step (on_people schema_event PostgreSQL)) (initialSW, []) (schedule (opened ++ actions) (initialSW, [])).
Proof.
  intros Ha. apply schedule_reachable, Forall_app. split; [|done]. repeat constructor.
Qed.


(** Runs a resumed preview, the test of its request being decided by [E]. *)
Ltac resume E :=
  cbv [bind state modify ret throw catch finally await run]; cbn; rewrite ?E; cbn;
  unfold is_request in *; cbn; rewrite ?E; reflexivity.

(** A preview request is answered only while it is the last one: the reply to an
    earlier request changes nothing, the reply to the last one is shown, or clears the
    preview with its error, and ends the waiting. *)
Theorem preview_latest_reply `{Unicode} connectionId schema table ops w d :
  sw_detail w = Some d → ops ≠ [] →
  let n := S (sw_previewRequest w) in
  ∃ k, run (refreshPreview connectionId schema table ops) w
         = (setPreviewBusy true (setPreviewRequest n w), Await (previewSchema connectionId schema table ops) k)
    ∧ (∀ r w', sw_previewRequest w' ≠ n → k r w' = (w', Finished))
    ∧ (∀ p w', sw_previewRequest w' = n →
         k (inl (RPreview p)) w' = (setPreviewBusy false (setMessage [] (setPreview (Some p) w')), Finished))
    ∧ (∀ e w', sw_previewRequest w' = n →
         k (inr e) w' = (setPreviewBusy false (setMessage (default "SQL 预览失败"%js e) (setPreview None w')), Finished)).
Proof.
  intros Hd Hops n. unfold refreshPreview, run, bind at 1, state at 1. rewrite Hd.
  destruct ops as [|op ops]; [done|]. eexists. split; [reflexivity|].
  subst n. split_and!; [intros [[?|?|]|?] w' Hn|intros p w' Hn|intros e w' Hn];
    (assert (E : is_request (S (sw_previewRequest w)) w' = false) by (by apply bool_decide_eq_false_2))
    || (assert (E : is_request (S (sw_previewRequest w)) w' = true) by (by apply bool_decide_eq_true_2));
    resume E.
Qed.

Lemma preview_latest_reply_witness :
  ∃ k, run (on_people refreshPreview [drop_column "id"%js]) (setDetail (Some demo_detail) initialSW)
         = (setPreviewBusy true (setPreviewRequest 1 (setDetail (Some demo_detail) initialSW)),
            Await (on_people previewSchema [drop_column "id"%js]) k).
Proof.
  destruct (preview_latest_reply "c"%js "public"%js "people"%js [drop_column "id"%js]
    (setDetail (Some demo_detail) initialSW) demo_detail eq_refl ltac:(done)) as (k & E & _).
  exists k. exact E.
Defined.

Definition preview_of (token : jstr) : SchemaPreview := MkPreview [] [] None []%js token (num 0).
Definition renamed_to (name : jstr) : list SchemaOperation := [rename_column "id"%js name; set_primary name].

(** Saving is enabled while the preview shown is that of an earlier draft: in the
    280 ms after a change, or when a preview arrives after its draft was discarded.  The
    token that is then executed stands for other operations than the edited ones. *)
Theorem stale_preview_saved :
  ∃ before w ts,
    rtc (world_step (on_people schema_event PostgreSQL)) (initialSW, []) before
    ∧ last before.2 ≫= awaited = Some (on_people previewSchema (renamed_to "a"%js))
    ∧ schedule [Answer 3 (inl (RPreview (preview_of "token of a"%js))); rename_to "b"%js] before = (w, ts)
    ∧ canSave w = true ∧ operations w = renamed_to "b"%js
    ∧ awaited (run (on_people execute true) w).2 = Some (on_people executeSchema "token of a"%js false).
Proof.
  set (before := schedule (opened ++ [rename_to "a"%js; Start (on_people previewTimer)]) (initialSW, [])).
  set (after := schedule [Answer 3 (inl (RPreview (preview_of "token of a"%js))); rename_to "b"%js] before).
  exists before, after.1, after.2. split; [apply opened_reachable; repeat constructor|].
  split; [by vm_compute|]. split; [by rewrite <- surjective_pairing|]. split_and!; by vm_compute.
Qed.
