(* ===== verification/Uri.v ===== *)
(** * URL components

    [encodeURIComponent] as the language specifies it, the template literals that paths
    are made of, and how a server reads a path back. *)
From S2P Require Import Prelude JsString JsNumber.

(** ** UTF-16 to UTF-8 *)

Definition is_high (c : N) : bool := (55296 <=? c)%N && (c <? 56320)%N.
Definition is_low (c : N) : bool := (56320 <=? c)%N && (c <? 57344)%N.

(** The code points of a text; [None] when it has a lone surrogate. *)
Fixpoint code_points (s : jstr) : option (list N) :=
  match s with
  | [] => Some []
  | c :: r =>
      if is_high c then
        match r with
        | d :: r' =>
            if is_low d
            then cps ← code_points r'; Some (((c - 55296) * 1024 + (d - 56320) + 65536)%N :: cps)
            else None
        | [] => None
        end
      else if is_low c then None
      else cps ← code_points r; Some (c :: cps)
  end.

Definition utf8_bytes (cp : N) : list N :=
  (if cp <? 128 then [cp]
   else if cp <? 2048 then [192 + cp / 64; 128 + cp mod 64]
   else if cp <? 65536 then [224 + cp / 4096; 128 + (cp / 64) mod 64; 128 + cp mod 64]
   else [240 + cp / 262144; 128 + (cp / 4096) mod 64; 128 + (cp / 64) mod 64; 128 + cp mod 64])%N.

(** The bytes a server receives for a text. *)
Definition utf8 (s : jstr) : option (list N) := cps ← code_points s; Some (cps ≫= utf8_bytes).

(** ** Percent encoding *)

(** [A-Z a-z 0-9 - _ . ! ~ * ' ( )], which are not escaped. *)
Definition unreserved (c : N) : bool :=
  is_alpha c || is_digit c || existsb (N.eqb c) [45; 95; 46; 33; 126; 42; 39; 40; 41]%N.

Definition hex_upper (d : N) : N := (if d <? 10 then 48 + d else 55 + d)%N.
Definition percent (b : N) : jstr := [37; hex_upper (b / 16); hex_upper (b mod 16)]%N.

Definition encode_point (cp : N) : jstr := if unreserved cp then [cp] else utf8_bytes cp ≫= percent.

(** [None] is the [URIError] of a lone surrogate. *)
Definition encodeURIComponent (s : jstr) : option jstr := cps ← code_points s; Some (cps ≫= encode_point).

(** The reading of an escaped text: its bytes. *)
Fixpoint unescape (s : jstr) : option (list N) :=
  match s with
  | [] => Some []
  | c :: r =>
      if (c =? 37)%N then
        match r with
        | h :: l :: r' =>
            x ← hex_digit h; y ← hex_digit l; bs ← unescape r'; Some ((16 * Z.to_N x + Z.to_N y)%N :: bs)
        | _ => None
        end
      else bs ← unescape r; Some (c :: bs)
  end.

(** ** [URLSearchParams]

    Form encoding: a space is a plus sign, [* - . _] and alphanumerics are kept, a lone
    surrogate becomes the replacement character. *)
Fixpoint scalar_values (s : jstr) : list N :=
  match s with
  | [] => []
  | c :: r =>
      if is_high c then
        match r with
        | d :: r' =>
            if is_low d then ((c - 55296) * 1024 + (d - 56320) + 65536)%N :: scalar_values r'
            else 65533%N :: scalar_values r
        | [] => [65533%N]
        end
      else (if is_low c then 65533%N else c) :: scalar_values r
  end.

Definition form_byte (b : N) : jstr :=
  if (b =? 32)%N then "+"%js
  else if is_alpha b || is_digit b || existsb (N.eqb b) [42; 45; 46; 95]%N then [b] else percent b.
Definition form_encode (s : jstr) : jstr := (scalar_values s ≫= utf8_bytes) ≫= form_byte.
Definition search_params (params : list (jstr * jstr)) : jstr :=
  join "&"%js ((λ p, form_encode p.1 ++ "="%js ++ form_encode p.2) <$> params).

(** ** Paths *)

(** A template literal: texts and the holes [${encodeURIComponent(x)}]. *)
Inductive piece := Text (s : jstr) | Hole (x : jstr).

Definition fill_piece (p : piece) : option jstr :=
  match p with Text s => Some s | Hole x => encodeURIComponent x end.
Definition template (ps : list piece) : option jstr := parts ← mapM fill_piece ps; Some (concat parts).

(** The segments a server finds in a path. *)
Definition segments (path : jstr) : option (list (list N)) := mapM unescape (split "/"%js path).

(** ** Lemmas *)

Lemma code_points_bound s cps cp : Forall (λ c, c < 65536)%N s → code_points s = Some cps → cp ∈ cps → (cp < 1114112)%N.
Proof.
  remember (length s) as n eqn:En. revert s cps En. induction (lt_wf n) as [n _ IH]. intros s cps -> Hs Hc Hin.
  destruct s as [|c r]; cbn in Hc; [by simplify_eq; apply elem_of_nil in Hin|].
  apply Forall_cons in Hs as [Hc0 Hs]. destruct (is_high c) eqn:Eh.
  - destruct r as [|d r]; [done|]. destruct (is_low d) eqn:El; [|done]. apply Forall_cons in Hs as [_ Hs].
    destruct (code_points r) as [cps'|] eqn:Er; [|done]. cbn in Hc. simplify_eq.
    apply elem_of_cons in Hin as [->|Hin]; [|by eapply (IH (length r)); [cbn; lia| |..]].
    unfold is_high, is_low in *. bool_to_prop. lia.
  - destruct (is_low c); [done|]. destruct (code_points r) as [cps'|] eqn:Er; [|done]. cbn in Hc. simplify_eq.
    apply elem_of_cons in Hin as [->|Hin]; [lia|by eapply (IH (length r)); [cbn; lia| |..]].
Qed.

Lemma utf8_bytes_range cp b : (cp < 1114112)%N → b ∈ utf8_bytes cp → (b < 256)%N.
Proof.
  intros Hcp. unfold utf8_bytes.
  assert (H64 : ∀ x, (x mod 64 < 64)%N) by (intros; by apply N.mod_lt).
  destruct (cp <? 128)%N eqn:E1; [intros ->%list_elem_of_singleton; bool_to_prop; lia|].
  destruct (cp <? 2048)%N eqn:E2; [|destruct (cp <? 65536)%N eqn:E3]; bool_to_prop;
    rewrite !elem_of_cons, elem_of_nil; intros Hb;
    pose proof (H64 cp); pose proof (H64 (cp / 64)%N); pose proof (H64 (cp / 4096)%N);
    assert (cp / 64 < 32 ∨ 2048 <= cp)%N by (destruct (N.ltb_spec cp 2048); [left; apply N.Div0.div_lt_upper_bound; lia|by right]);
    assert (cp / 4096 < 16 ∨ 65536 <= cp)%N by (destruct (N.ltb_spec cp 65536); [left; apply N.Div0.div_lt_upper_bound; lia|by right]);
    assert (cp / 262144 < 5)%N by (apply N.Div0.div_lt_upper_bound; lia); naive_solver lia.
Qed.

Lemma hex_upper_digit d : (d < 16)%N → hex_digit (hex_upper d) = Some (Z.of_N d).
Proof.
  intros Hd. assert (d ∈ N.of_nat <$> seq 0 16) as Hin.
  { apply list_elem_of_fmap. exists (N.to_nat d). rewrite N2Nat.id, elem_of_seq. split; [done|lia]. }
  revert d Hd Hin. assert (G : forallb (λ d, bool_decide (hex_digit (hex_upper d) = Some (Z.of_N d))) (N.of_nat <$> seq 0 16) = true)
    by by vm_compute.
  intros d _ Hin. rewrite forallb_elem in G. specialize (G d Hin). by bool_to_prop.
Qed.

Lemma unreserved_ascii c : unreserved c = true → (c < 128 ∧ c ≠ 37 ∧ c ≠ 47 ∧ c ≠ 63)%N.
Proof.
  unfold unreserved, is_alpha, is_upper, is_lower, is_digit. intros H.
  apply orb_true_iff in H as [[[H|H]%orb_true_iff|H]%orb_true_iff|H]; [bool_to_prop; lia..|].
  apply existsb_elem in H as (d & Hd & E). bool_to_prop. subst. rewrite !elem_of_cons, elem_of_nil in Hd. naive_solver lia.
Qed.

Lemma hex_upper_char d : (d < 16)%N → (hex_upper d < 128 ∧ hex_upper d ≠ 47 ∧ hex_upper d ≠ 63)%N.
Proof. unfold hex_upper. intros Hd. destruct (d <? 10)%N eqn:E; bool_to_prop; lia. Qed.

(** No escaped text holds a separator of the path or of the query. *)
Lemma encode_point_chars cp c :
  (cp < 1114112)%N → c ∈ encode_point cp → (c < 128 ∧ c ≠ 47 ∧ c ≠ 63)%N.
Proof.
  intros Hcp. unfold encode_point. destruct (unreserved cp) eqn:Eu.
  - intros ->%list_elem_of_singleton. apply unreserved_ascii in Eu. lia.
  - intros (b & Hc & Hb)%list_elem_of_bind. apply utf8_bytes_range in Hb; [|done].
    unfold percent in Hc. rewrite !elem_of_cons, elem_of_nil in Hc.
    destruct Hc as [->|[->|[->|[]]]]; [lia|apply hex_upper_char, N.Div0.div_lt_upper_bound; lia|by apply hex_upper_char, N.mod_lt].
Qed.

Lemma unescape_percent b s : (b < 256)%N → unescape (percent b ++ s) = (bs ← unescape s; Some (b :: bs)).
Proof.
  intros Hb. unfold percent. cbn [app unescape]. change (37 =? 37)%N with true. cbv iota.
  rewrite !hex_upper_digit; [|apply N.Div0.div_lt_upper_bound; lia|by apply N.mod_lt]. cbn [mbind option_bind].
  rewrite !N2Z.id. destruct (unescape s); [|done]. cbn. do 2 f_equal. by rewrite <- N.div_mod'.
Qed.

Lemma unescape_bytes bs s : Forall (λ b, b < 256)%N bs → unescape ((bs ≫= percent) ++ s) = (r ← unescape s; Some (bs ++ r)).
Proof.
  induction 1 as [|b bs Hb _ IH]; [by cbn; destruct (unescape s)|].
  change ((b :: bs) ≫= percent) with (percent b ++ (bs ≫= percent)).
  rewrite <- app_assoc, unescape_percent, IH by done. by destruct (unescape s).
Qed.

(** Reading back what [encodeURIComponent] wrote gives the bytes of the text. *)
Lemma unescape_points cps s :
  Forall (λ cp, cp < 1114112)%N cps →
  unescape ((cps ≫= encode_point) ++ s) = (r ← unescape s; Some ((cps ≫= utf8_bytes) ++ r)).
Proof.
  induction 1 as [|cp cps Hcp _ IH]; [by cbn; destruct (unescape s)|].
  change ((cp :: cps) ≫= encode_point) with (encode_point cp ++ (cps ≫= encode_point)).
  change ((cp :: cps) ≫= utf8_bytes) with (utf8_bytes cp ++ (cps ≫= utf8_bytes)). rewrite <- app_assoc.
  unfold encode_point at 1. destruct (unreserved cp) eqn:Eu.
  - assert (cp < 128 ∧ cp ≠ 37)%N as [Hlt Hne] by (apply unreserved_ascii in Eu; lia).
    assert (utf8_bytes cp = [cp]) as -> by (unfold utf8_bytes; by rewrite (proj2 (N.ltb_lt _ _) Hlt)).
    cbn [app unescape]. rewrite (proj2 (N.eqb_neq _ _) Hne), IH. by destruct (unescape s).
  - rewrite unescape_bytes, IH; [destruct (unescape s); [cbn; by rewrite app_assoc|done]|].
    apply Forall_forall. intros b. by apply utf8_bytes_range.
Qed.

Definition well_formed (s : jstr) : Prop := Forall (λ c, c < 65536)%N s ∧ is_Some (code_points s).
#[export] Instance well_formed_dec s : Decision (well_formed s).
Proof. unfold well_formed. apply _. Defined.

(** What a hole contributes: one segment, which reads back as the bytes of the text. *)
Lemma encode_spec s :
  well_formed s → ∃ e bs, encodeURIComponent s = Some e ∧ utf8 s = Some bs ∧ unescape e = Some bs
    ∧ (47%N ∉ e) ∧ (63%N ∉ e).
Proof.
  intros [Hs [cps Hc]]. unfold encodeURIComponent, utf8. rewrite Hc. cbn [mbind option_bind].
  assert (Hb : ∀ cp, cp ∈ cps → (cp < 1114112)%N) by (intros cp; by eapply code_points_bound).
  eexists _, _. split_and!; [done|done| | |].
  - rewrite <- (app_nil_r (cps ≫= encode_point)), unescape_points; [by cbn; rewrite app_nil_r|].
    by apply Forall_forall.
  - intros (cp & Hin & Hcp)%list_elem_of_bind. apply encode_point_chars in Hin; [lia|auto].
  - intros (cp & Hin & Hcp)%list_elem_of_bind. apply encode_point_chars in Hin; [lia|auto].
Qed.

(** The segments of a route are read back one by one. *)
Lemma segments_join (es : list jstr) bss :
  es ≠ [] → Forall (λ e, 47%N ∉ e) es → mapM unescape es = Some bss → segments (join "/"%js es) = Some bss.
Proof. intros Hne He Hu. unfold segments. change "/"%js with [47%N]. by rewrite split_join. Qed.
