(* ===== verification/Http.v ===== *)
(** * Requests and responses

    The parts of [fetch] that the clients use: a request with its headers and JSON body, a
    response with its status and JSON body, and [src/web/src/auth/client.ts], which adds
    the CSRF token and turns error responses into exceptions. *)
From S2P Require Import Prelude JsString JsNumber JsValue.

Record Request := MkRequest {
  rq_method : jstr;
  rq_target : jstr;
  (** The value [JSON.stringify] gets, without the fields it omits. *)
  rq_body : option value;
}.

(** [None] when the body is not JSON. *)
Record Response := MkResponse { rs_status : Z; rs_body : option value }.
Definition rs_ok (r : Response) : bool := (200 <=? rs_status r)%Z && (rs_status r <=? 299)%Z.

Definition headers := list (jstr * jstr).

(** [JSON.stringify] leaves out undefined fields. *)
Definition obj (fields : list (jstr * value)) : value :=
  VObj (filterb (λ f, match f.2 with VUndefined => false | _ => true end) fields).
Definition opt_str (s : option jstr) : value := match s with Some s => VStr s | None => VUndefined end.
Definition opt_num (n : option number) : value := match n with Some n => VNum n | None => VUndefined end.
Definition opt_bool (b : option bool) : value := match b with Some b => VBool b | None => VUndefined end.

(** [v?.key]. *)
Definition field (v : value) (key : jstr) : value :=
  match v with
  | VObj fields => match find_first (λ f, bool_decide (f.1 = key)) fields with Some f => f.2 | None => VUndefined end
  | _ => VUndefined
  end.

(** [payload.error?.key ?? fallback] of the body, [{}] when it is not JSON. *)
Definition error_text (key fallback : jstr) (r : Response) : jstr :=
  match field (field (default (VObj []) (rs_body r)) "error"%js) key with
  | VUndefined | VNull => fallback
  | v => to_str v
  end.
Definition failed_text (r : Response) : jstr := "请求失败 ("%js ++ dec_Z (rs_status r) ++ ")"%js.

(** A rejected request: an [APIError] (or [AuthAPIError]), the abort of a timeout, or
    another failure of [fetch]. *)
Inductive failure :=
| APIError (status : Z) (code message : jstr)
| AbortError
| NetworkError (message : jstr).

Definition safe_method (method : jstr) : bool := bool_decide (method ∈ ["GET"; "HEAD"; "OPTIONS"]%js).

(** The headers of [authFetch]. *)
Definition auth_headers (csrfToken : jstr) (r : Request) (is_form : bool) : headers :=
  [("Accept"%js, "application/json"%js)]
  ++ (match rq_body r with
      | Some _ => if is_form then [] else [("Content-Type"%js, "application/json"%js)]
      | None => []
      end)
  ++ (if negb (safe_method (rq_method r)) && truthy csrfToken then [("X-CSRF-Token"%js, csrfToken)] else []).

(** What [authFetch] makes of a response. *)
Definition auth_response (r : Response) : Response + failure :=
  if rs_ok r then inl r
  else inr (APIError (rs_status r) (error_text "code"%js "request_failed"%js r) (error_text "message"%js (failed_text r) r)).

(** [json]: the body, undefined for 204; a [SyntaxError] when it is not JSON. *)
Definition json_body (r : Response) : value + failure :=
  match rs_body r with Some v => inl v | None => inr (NetworkError "Unexpected end of JSON input"%js) end.
Definition json_response (r : Response) : value + failure :=
  if (rs_status r =? 204)%Z then inl VUndefined else json_body r.

Definition GET (target : jstr) : Request := MkRequest "GET"%js target None.
Definition POST (target : jstr) (body : option value) : Request := MkRequest "POST"%js target body.
Definition PUT (target : jstr) (body : option value) : Request := MkRequest "PUT"%js target body.
Definition PATCH (target : jstr) (body : option value) : Request := MkRequest "PATCH"%js target body.
Definition DELETE (target : jstr) : Request := MkRequest "DELETE"%js target None.
