(* ===== verification/ApiClient.v ===== *)
(** * The API client

    [src/web/src/api/client.ts]: the request each method makes, and the session every
    request needs: created on demand with at most three attempts, shared by the callers
    that wait for it, and created again once when the server no longer knows it. *)
From S2P Require Import Prelude JsString JsNumber JsValue Api Uri Http Async.

(** ** The methods

    Each gives the request it makes; [None] is an exception thrown before there is one
    (the [URIError] of a lone surrogate, or a [SyntaxError] of [JSON.parse], which is the
    argument [parseJSON]). *)

Definition json_request (method : jstr) (path : list piece) (body : option value) : option Request :=
  target ← template path; Some (MkRequest method target body).
Abbreviation GET_ path := (json_request "GET"%js path None).
Abbreviation POST_ path body := (json_request "POST"%js path (Some body)).
Abbreviation DELETE_ path := (json_request "DELETE"%js path None).

(** [`/api/connections/${encodeURIComponent(connectionId)}...`]. *)
Definition on_connection (connectionId : jstr) (rest : list piece) : list piece :=
  Text "/api/connections/"%js :: Hole connectionId :: rest.

Definition connection_json (c : ConnectionInput) : value :=
  obj [("driver"%js, VStr (driver_text (ci_driver c))); ("host"%js, VStr (ci_host c)); ("port"%js, VNum (ci_port c));
       ("database"%js, VStr (ci_database c)); ("user"%js, VStr (ci_user c)); ("password"%js, VStr (ci_password c));
       ("tlsMode"%js, VStr (ci_tlsMode c))].

Definition record_json (r : record) : value := VObj (map_to_list r).
Definition opt_record (r : option record) : value := match r with Some r => record_json r | None => VUndefined end.

Definition mutation_json (m : MutationInput) : value :=
  obj [("schema"%js, opt_str (mi_schema m)); ("table"%js, VStr (mi_table m)); ("values"%js, opt_record (mi_values m));
       ("key"%js, opt_record (mi_key m)); ("transactionId"%js, opt_str (mi_transactionId m))].

Definition column_json (c : SchemaColumn) : value :=
  obj [("name"%js, VStr (sc_name c)); ("type"%js, VStr (sc_type c)); ("nullable"%js, VBool (sc_nullable c));
       ("default"%js, opt_str (sc_default c)); ("comment"%js, opt_str (sc_comment c)); ("primary"%js, opt_bool (sc_primary c))].
Definition index_json (i : SchemaIndex) : value :=
  obj [("name"%js, VStr (si_name i)); ("columns"%js, VArr (VStr <$> si_columns i)); ("unique"%js, VBool (si_unique i))].
Definition foreignKey_json (k : SchemaForeignKey) : value :=
  obj [("name"%js, VStr (fk_name k)); ("columns"%js, VArr (VStr <$> fk_columns k)); ("refSchema"%js, VStr (fk_refSchema k));
       ("refTable"%js, VStr (fk_refTable k)); ("refColumns"%js, VArr (VStr <$> fk_refColumns k));
       ("onDelete"%js, opt_str (fk_onDelete k)); ("onUpdate"%js, opt_str (fk_onUpdate k))].
Definition operation_json (op : SchemaOperation) : value :=
  match op with
  | drop_column n => obj [("kind"%js, VStr "drop_column"%js); ("name"%js, VStr n)]
  | add_column c => obj [("kind"%js, VStr "add_column"%js); ("column"%js, column_json c)]
  | rename_column a b => obj [("kind"%js, VStr "rename_column"%js); ("name"%js, VStr a); ("newName"%js, VStr b)]
  | alter_column c => obj [("kind"%js, VStr "alter_column"%js); ("column"%js, column_json c)]
  | set_column_comment c => obj [("kind"%js, VStr "set_column_comment"%js); ("column"%js, column_json c)]
  | set_primary n => obj [("kind"%js, VStr "set_primary"%js); ("name"%js, VStr n)]
  | drop_primary => obj [("kind"%js, VStr "drop_primary"%js)]
  | drop_index n => obj [("kind"%js, VStr "drop_index"%js); ("name"%js, VStr n)]
  | add_index i => obj [("kind"%js, VStr "add_index"%js); ("index"%js, index_json i)]
  | add_foreign_key k => obj [("kind"%js, VStr "add_foreign_key"%js); ("foreignKey"%js, foreignKey_json k)]
  | drop_foreign_key n => obj [("kind"%js, VStr "drop_foreign_key"%js); ("name"%js, VStr n)]
  end.

Module Client.
Section methods.
Context (parseJSON : jstr → option value).

Definition connect (input : ConnectionInput) : option Request :=
  POST_ [Text "/api/connections"%js] (connection_json input).
Definition connectSaved (connectionId : jstr) : option Request :=
  json_request "POST"%js [Text "/api/registry/v2/connections/"%js; Hole connectionId; Text "/sessions"%js] None.
Definition disconnect (connectionId : jstr) : option Request := DELETE_ (on_connection connectionId []).
Definition listDatabases (connectionId : jstr) : option Request :=
  GET_ (on_connection connectionId [Text "/databases"%js]).
Definition switchDatabase (connectionId database : jstr) : option Request :=
  POST_ (on_connection connectionId [Text "/database"%js]) (obj [("database"%js, VStr database)]).
Definition metadata (connectionId : jstr) : option Request :=
  GET_ (on_connection connectionId [Text "/metadata"%js]).

Definition on_table (connectionId schema table : jstr) (rest : list piece) : list piece :=
  on_connection connectionId (Text "/tables/"%js :: Hole schema :: Text "/"%js :: Hole table :: rest).
Definition tableDetail (connectionId schema table : jstr) : option Request :=
  GET_ (on_table connectionId schema table []).
Definition previewSchema (connectionId schema table : jstr) (operations : list SchemaOperation) : option Request :=
  POST_ (on_table connectionId schema table [Text "/schema/preview"%js])
    (obj [("operations"%js, VArr (operation_json <$> operations))]).
Definition executeSchema (connectionId schema table token : jstr) (confirmed : bool) : option Request :=
  POST_ (on_table connectionId schema table [Text "/schema/execute"%js])
    (obj [("token"%js, VStr token); ("confirmed"%js, VBool confirmed)]).

Definition startQuery (connectionId sql : jstr) (confirmed : option bool)
    (confirmationTarget transactionId : option jstr) : option Request :=
  POST_ (on_connection connectionId [Text "/queries"%js])
    (obj [("sql"%js, VStr sql); ("confirmed"%js, opt_bool confirmed);
          ("confirmationTarget"%js, opt_str confirmationTarget); ("transactionId"%js, opt_str transactionId)]).
Definition on_query (connectionId queryId : jstr) (rest : list piece) : list piece :=
  on_connection connectionId (Text "/queries/"%js :: Hole queryId :: rest).
Definition queryResult (connectionId queryId : jstr) (cursor : number) : option Request :=
  GET_ (on_query connectionId queryId [Text ("?cursor="%js ++ number_to_string cursor)]).
Definition cancelQuery (connectionId queryId : jstr) : option Request := DELETE_ (on_query connectionId queryId []).
Definition exportCSV (connectionId queryId : jstr) : option Request :=
  GET_ (on_query connectionId queryId [Text "/export.csv"%js]).
Definition exportURL (baseURL connectionId queryId : jstr) : option jstr :=
  template (Text baseURL :: on_query connectionId queryId [Text "/export.csv"%js]).

Definition beginTransaction (connectionId : jstr) : option Request :=
  json_request "POST"%js (on_connection connectionId [Text "/transactions"%js]) None.
Definition finishTransaction (connectionId transactionId : jstr) (commit : bool) : option Request :=
  json_request "POST"%js
    (on_connection connectionId
       [Text "/transactions/"%js; Hole transactionId; Text (if commit then "/commit"%js else "/rollback"%js)]) None.
Inductive RowOperation := insert | update | remove.
Definition mutate (connectionId : jstr) (operation : RowOperation) (input : MutationInput) : option Request :=
  POST_ (on_connection connectionId
    [Text (match operation with insert => "/rows/insert" | update => "/rows/update" | remove => "/rows/delete" end)%js])
    (mutation_json input).
Definition capabilities (connectionId : jstr) : option Request :=
  GET_ (on_connection connectionId [Text "/capabilities"%js]).

(** [text ? JSON.parse(text) : fallback]. *)
Definition parse_or (fallback : value) (text : option jstr) : option value :=
  match text with
  | Some ((_ :: _) as t) => parseJSON t
  | _ => Some fallback
  end.
Definition mongoFind (connectionId : jstr) (database : option jstr) (collection : jstr)
    (filter sort : option jstr) (limit skip : option number) : option Request :=
  f ← parse_or (VObj []) filter;
  s ← parse_or VUndefined sort;
  POST_ (on_connection connectionId [Text "/mongo/find"%js])
    (obj [("database"%js, opt_str database); ("collection"%js, VStr collection); ("filter"%js, f); ("sort"%js, s);
          ("limit"%js, opt_num limit); ("skip"%js, opt_num skip)]).
Definition mongoAggregate (connectionId : jstr) (database : option jstr) (collection pipeline : jstr) : option Request :=
  p ← parseJSON pipeline;
  POST_ (on_connection connectionId [Text "/mongo/aggregate"%js])
    (obj [("database"%js, opt_str database); ("collection"%js, VStr collection); ("pipeline"%js, p)]).
Definition mongoMutate (connectionId : jstr) (database : option jstr) (collection operation : jstr)
    (filter document : option jstr) : option Request :=
  f ← parse_or VUndefined filter;
  d ← parse_or VUndefined document;
  POST_ (on_connection connectionId [Text "/mongo/documents"%js])
    (obj [("database"%js, opt_str database); ("collection"%js, VStr collection); ("operation"%js, VStr operation);
          ("filter"%js, f); ("document"%js, d)]).
Definition on_collection (connectionId collection : jstr) (rest : list piece) : list piece :=
  on_connection connectionId (Text "/mongo/collections/"%js :: Hole collection :: rest).
Definition mongoCollectionDetail (connectionId collection : jstr) : option Request :=
  GET_ (on_collection connectionId collection []).
Definition mongoCreateIndex (connectionId collection : jstr) (keys : list (jstr * number)) (unique_ : bool)
    (name : option jstr) : option Request :=
  POST_ (on_collection connectionId collection [Text "/indexes"%js])
    (obj [("keys"%js, VObj ((λ k, (k.1, VNum k.2)) <$> keys)); ("unique"%js, VBool unique_); ("name"%js, opt_str name)]).
Definition mongoDropIndex (connectionId collection name : jstr) : option Request :=
  DELETE_ (on_collection connectionId collection [Text "/indexes/"%js; Hole name]).

Definition redisScanKeys (connectionId match_ : jstr) (cursor count : number) : option Request :=
  GET_ (on_connection connectionId
    [Text "/redis/keys?"%js;
     Text (search_params [("match"%js, match_); ("cursor"%js, number_to_string cursor); ("count"%js, number_to_string count)])]).
Definition on_key (connectionId key : jstr) : list piece :=
  on_connection connectionId [Text "/redis/key?key="%js; Hole key].
Definition redisGetKey (connectionId key : jstr) : option Request := GET_ (on_key connectionId key).
Definition redisDeleteKey (connectionId key : jstr) : option Request := DELETE_ (on_key connectionId key).
Definition redisSaveKey (connectionId key type : jstr) (v : value) (ttl : option number) : option Request :=
  json_request "PUT"%js (on_connection connectionId [Text "/redis/key"%js])
    (Some (obj [("key"%js, VStr key); ("value"%js, obj [("type"%js, VStr type); ("value"%js, v); ("ttl"%js, opt_num ttl)])])).
Definition redisSetTTL (connectionId key : jstr) (ttl : number) : option Request :=
  POST_ (on_connection connectionId [Text "/redis/key/ttl"%js]) (obj [("key"%js, VStr key); ("ttl"%js, VNum ttl)]).
Definition redisCommands (connectionId : jstr) (commands : list jstr) : option Request :=
  POST_ (on_connection connectionId [Text "/redis/commands"%js]) (obj [("commands"%js, VArr (VStr <$> commands))]).
End methods.
End Client.

(** ** The session *)

Record ClientState := MkClient {
  (** The field of the payload, which the code takes as it is. *)
  sessionId : value;
  (** Whether [sessionReady] holds the promise of a creation under way. *)
  sessionReady : bool;
}.
Definition setSessionId s (c : ClientState) := MkClient s (sessionReady c).
Definition setSessionReady b (c : ClientState) := MkClient (sessionId c) b.

Inductive HttpCall :=
| fetch (r : Request) (hs : headers)
| join_session
| delay (ms : number).
Inductive HttpReply := RResponse (r : Response) | RSession (id : value) | RElapsed.

Abbreviation client := (async ClientState HttpCall HttpReply failure).
#[local] Open Scope async_scope.

Definition call_response (c : HttpCall) : client Response :=
  let* r := await c in match r with RResponse x => ret x | _ => throw (NetworkError []) end.

Definition settle_with {A} (r : A + failure) : client A := match r with inl a => ret a | inr e => throw e end.

(** Its timer aborts the fetch after 15 s. *)
Definition fetchWithTimeout (r : Request) (hs : headers) : client Response :=
  catch (call_response (fetch r hs))
    (λ error, match error with
              | AbortError => throw (APIError 408 "request_timeout"%js "请求超时，请检查网络后重试"%js)
              | _ => throw error
              end).

Section session.
Context (baseURL csrfToken : jstr) (sessionRetryDelayMs : number).

Definition addCSRFHeader (method : jstr) : headers :=
  if safe_method method then [] else if truthy csrfToken then [("X-CSRF-Token"%js, csrfToken)] else [].

Definition session_request : Request := MkRequest "POST"%js (baseURL ++ "/api/sessions"%js) None.
Definition session_headers : headers := ("Accept"%js, "application/json"%js) :: addCSRFHeader "POST"%js.

Definition error_status (e : failure) : Z := match e with APIError status _ _ => status | _ => 0 end.
Definition transient (e : failure) : bool :=
  let status := error_status e in
  (status =? 0)%Z || (status =? 408)%Z || (status =? 429)%Z || (500 <=? status)%Z.

(** The body of the [try]. *)
Definition open_session : client value :=
  let* response := fetchWithTimeout session_request session_headers in
  if negb (rs_ok response)
  then throw (APIError (rs_status response) (error_text "code"%js "session_failed"%js response)
                (error_text "message"%js (failed_text response) response))
  else
    let* result := settle_with (json_body response) in
    let id := field result "sessionId"%js in
    do* modify (setSessionId id) in
    ret id.

(** The loop, with [left] attempts after this one, which is number [2 - left]. *)
Fixpoint attempts (left : nat) : client value :=
  catch open_session
    (λ error,
      match left with
      | O => throw error
      | S n =>
          if negb (transient error) then throw error
          else
            do* await (delay (mul sessionRetryDelayMs (num (3 - Z.of_nat left)))) in
            attempts n
      end).

Definition createSession : client value :=
  let* c := state in
  if truthy_value (sessionId c) then ret (sessionId c)
  else if sessionReady c
       then let* r := await join_session in match r with RSession id => ret id | _ => throw (NetworkError []) end
       else
         do* modify (setSessionReady true) in
         finally (attempts 2) (modify (setSessionReady false)).

Definition invalidateSession : client unit := modify (λ _, MkClient (VStr []) false).

Definition request_headers (r : Request) (authenticated : bool) (id : value) : headers :=
  [("Accept"%js, "application/json"%js)]
  ++ (match rq_body r with Some _ => [("Content-Type"%js, "application/json"%js)] | None => [] end)
  ++ addCSRFHeader (rq_method r)
  ++ (if authenticated then [("X-Session-ID"%js, to_str id)] else []).

Definition based (r : Request) : Request := MkRequest (rq_method r) (baseURL ++ rq_target r) (rq_body r).

(** [request] with [sessionRetried]; [again] is its recursive call. *)
Definition request_step (authenticated sessionRetried : bool) (again : client value) (r : Request) : client value :=
  do* (if authenticated then (let* id := createSession in ret tt) else ret tt) in
  let* c := state in
  let* response := fetchWithTimeout (based r) (request_headers r authenticated (sessionId c)) in
  if negb (rs_ok response) then
    let code := error_text "code"%js "request_failed"%js response in
    if authenticated && negb sessionRetried && (rs_status response =? 401)%Z && bool_decide (code = "invalid_session"%js)
    then do* invalidateSession in again
    else throw (APIError (rs_status response) code (error_text "message"%js (failed_text response) response))
  else settle_with (json_response response).

(** Once retried it does not recurse. *)
Definition request_retried (authenticated : bool) (r : Request) : client value :=
  request_step authenticated true (ret VUndefined) r.
Definition request (authenticated : bool) (r : Request) : client value :=
  request_step authenticated false (request_retried authenticated r) r.

(** [exportCSVWithRetry]: the response whose body is the file. *)
Definition export_step (sessionRetried : bool) (again : client Response) (r : Request) : client Response :=
  do* (let* id := createSession in ret tt) in
  let* c := state in
  let* response := call_response (fetch (based r) [("X-Session-ID"%js, to_str (sessionId c)); ("Accept"%js, "text/csv"%js)]) in
  if negb (rs_ok response) then
    if negb sessionRetried && (rs_status response =? 401)%Z
       && bool_decide (error_text "code"%js [] response = "invalid_session"%js)
    then do* invalidateSession in again
    else throw (APIError (rs_status response) "export_failed"%js "导出失败"%js)
  else ret response.
Definition exportCSVWithRetry (r : Request) : client Response :=
  export_step false (export_step true (throw (NetworkError [])) r) r.
End session.

(** ** What the session machinery promises *)

Section session_spec.
Context (baseURL csrfToken : jstr) (sessionRetryDelayMs : number).

(** The outcome of a fetch, and of a session creation, for each answer. *)
Definition fetched (r : HttpReply + failure) : Response + failure :=
  match r with
  | inl (RResponse x) => inl x
  | inl _ => inr (NetworkError [])
  | inr AbortError => inr (APIError 408 "request_timeout"%js "请求超时，请检查网络后重试"%js)
  | inr e => inr e
  end.
Definition opened (r : HttpReply + failure) : value + failure :=
  match fetched r with
  | inl x =>
      if rs_ok x then match json_body x with inl v => inl (field v "sessionId"%js) | inr e => inr e end
      else inr (APIError (rs_status x) (error_text "code"%js "session_failed"%js x) (error_text "message"%js (failed_text x) x))
  | inr e => inr e
  end.

Lemma fetch_run r hs K H w x rs :
  drive (x :: rs) (fetchWithTimeout r hs K H w) = drive rs (match fetched x with inl y => K y w | inr e => H e w end)
  ∧ calls (x :: rs) (fetchWithTimeout r hs K H w) = fetch r hs :: calls rs (match fetched x with inl y => K y w | inr e => H e w end).
Proof. split; by destruct x as [[|?|]|[]]. Qed.

Lemma open_run K H w x rs :
  let next := match opened x with inl id => K id (setSessionId id w) | inr e => H e w end in
  drive (x :: rs) (open_session baseURL csrfToken K H w) = drive rs next
  ∧ calls (x :: rs) (open_session baseURL csrfToken K H w)
    = fetch (session_request baseURL) (session_headers csrfToken) :: calls rs next.
Proof.
  cbv zeta. unfold open_session, bind.
  rewrite (proj1 (fetch_run _ _ _ _ _ _ _)), (proj2 (fetch_run _ _ _ _ _ _ _)). unfold opened.
  destruct (fetched x) as [y|e]; [|done]. destruct (rs_ok y); [|done]. by destruct (json_body y).
Qed.

(** Failed attempts, each followed by its pause. *)
Definition paused (fails : list (HttpReply + failure)) : list (HttpReply + failure) := fails ≫= λ f, [f; inl RElapsed].

Definition fails_transiently (x : HttpReply + failure) : Prop := ∃ e, opened x = inr e ∧ transient e = true.

(** The calls of a creation that fails [n] times first: its pauses grow with the attempts. *)
Definition create_call : HttpCall := fetch (session_request baseURL) (session_headers csrfToken).
Fixpoint attempt_calls (left n : nat) : list HttpCall :=
  create_call ::
    match n with
    | O => []
    | S n => delay (mul sessionRetryDelayMs (num (3 - Z.of_nat left))) :: attempt_calls (Nat.pred left) n
    end.

Lemma attempts_run left K H w fails x rs :
  Forall fails_transiently fails → length fails ≤ left →
  (∀ e, opened x = inr e → transient e = false ∨ length fails = left) →
  let next := match opened x with inl id => K id (setSessionId id w) | inr e => H e w end in
  drive (paused fails ++ x :: rs) (attempts baseURL csrfToken sessionRetryDelayMs left K H w) = drive rs next
  ∧ calls (paused fails ++ x :: rs) (attempts baseURL csrfToken sessionRetryDelayMs left K H w)
    = attempt_calls left (length fails) ++ calls rs next.
Proof.
  cbv zeta. intros HF. revert left. induction HF as [|f fails (e & Ef & Et) HF IH]; intros left Hlen Hx.
  - cbn [paused mbind list_bind app length attempt_calls]. destruct left as [|left]; cbn [attempts]; unfold catch;
      rewrite (proj1 (open_run _ _ _ _ _)), (proj2 (open_run _ _ _ _ _)); (destruct (opened x) as [id|e] eqn:Eo; [done|]).
    + done.
    + destruct (Hx e eq_refl) as [Ht|?]; [|cbn in *; lia]. by rewrite Ht.
  - destruct left as [|left]; [cbn in Hlen; lia|]. cbn in Hlen.
    destruct (IH left) as [IH1 IH2]; [lia|intros e' He'; cbn in Hx; destruct (Hx e' He'); [by left|right; lia]|].
    change (paused (f :: fails)) with (f :: inl RElapsed :: paused fails). cbn [attempts app]. unfold catch.
    rewrite (proj1 (open_run _ _ _ _ _)), (proj2 (open_run _ _ _ _ _)), Ef, Et. cbn [negb length attempt_calls Nat.pred app].
    unfold bind, await. cbn [drive calls]. by rewrite IH1, IH2.
Qed.

(** The answer that tells a request its session is gone, and what any other answer means
    to a request. *)
Definition expired (x : HttpReply + failure) : bool :=
  match fetched x with
  | inl y => negb (rs_ok y) && (rs_status y =? 401)%Z
             && bool_decide (error_text "code"%js "request_failed"%js y = "invalid_session"%js)
  | inr _ => false
  end.
Definition outcome (x : HttpReply + failure) : value + failure :=
  match fetched x with
  | inl y =>
      if rs_ok y then json_response y
      else inr (APIError (rs_status y) (error_text "code"%js "request_failed"%js y) (error_text "message"%js (failed_text y) y))
  | inr e => inr e
  end.
Definition settle {A} (K : A → cont (S := ClientState)) (H : failure → cont) (o : A + failure) : cont (Call := HttpCall) (Reply := HttpReply) (E := failure) :=
  match o with inl v => K v | inr e => H e end.
Definition request_call (r : Request) (id : value) : HttpCall :=
  fetch (based baseURL r) (request_headers csrfToken r true id).

Lemma step_run retried again r K H id b x rs :
  truthy_value id = true → expired x && negb retried = false →
  let next := settle K H (outcome x) (MkClient id b) in
  let m := request_step baseURL csrfToken sessionRetryDelayMs true retried again r K H (MkClient id b) in
  drive (x :: rs) m = drive rs next ∧ calls (x :: rs) m = request_call r id :: calls rs next.
Proof.
  cbv zeta. intros Hid Hx. unfold request_step, createSession, bind, state, ret. cbn [sessionId]. rewrite Hid.
  rewrite (proj1 (fetch_run _ _ _ _ _ _ _)), (proj2 (fetch_run _ _ _ _ _ _ _)).
  unfold expired, outcome in *. destruct (fetched x) as [y|e]; [|done]. destruct (rs_ok y); cbn [negb].
  - by destruct (json_response y).
  - cbn [negb andb] in Hx |- *. rewrite (andb_comm (negb retried)), <- andb_assoc, (andb_comm (negb retried)), andb_assoc, Hx. done.
Qed.

(** A creation: [fails] answers it retries, then [x], which decides. *)
Definition decides (fails : list (HttpReply + failure)) (x : HttpReply + failure) : Prop :=
  Forall fails_transiently fails ∧ length fails ≤ 2 ∧ ∀ e, opened x = inr e → transient e = false ∨ length fails = 2.

Lemma create_run K H fails x rs i :
  truthy_value i = false → decides fails x →
  let next := match opened x with inl id => K id (MkClient id false) | inr e => H e (MkClient i false) end in
  let m := createSession baseURL csrfToken sessionRetryDelayMs K H (MkClient i false) in
  drive (paused fails ++ x :: rs) m = drive rs next
  ∧ calls (paused fails ++ x :: rs) m = attempt_calls 2 (length fails) ++ calls rs next.
Proof.
  cbv zeta. intros Hi (HF & Hl & Hx). unfold createSession, bind, state, modify, finally. cbn [sessionId sessionReady].
  rewrite Hi. cbn [setSessionReady].
  destruct (attempts_run 2 (λ a, λ w, K a (setSessionReady false w)) (λ e, λ w, H e (setSessionReady false w))
    (setSessionReady true (MkClient i false)) fails x rs HF Hl Hx) as [H1 H2].
  rewrite H1, H2. by destruct (opened x).
Qed.

Lemma retry_run r K H id x :
  truthy_value id = true → expired x = true →
  ∀ b rs, let m := request baseURL csrfToken sessionRetryDelayMs true r K H (MkClient id b) in
  let again := request_retried baseURL csrfToken sessionRetryDelayMs true r K H (MkClient (VStr []) false) in
  drive (x :: rs) m = drive rs again ∧ calls (x :: rs) m = request_call r id :: calls rs again.
Proof.
  intros Hid Hx b rs. cbv zeta. unfold request, request_step, createSession, bind, state, ret. cbn [sessionId]. rewrite Hid.
  rewrite (proj1 (fetch_run _ _ _ _ _ _ _)), (proj2 (fetch_run _ _ _ _ _ _ _)).
  unfold expired in Hx. destruct (fetched x) as [y|e]; [|done].
  apply andb_true_iff in Hx as [[Hx1 Hx2]%andb_true_iff Hx3]. cbn [negb andb]. by rewrite Hx1, Hx2, Hx3.
Qed.

(** A request continues from the session it waited for. *)
Lemma step_create retried again r K H w :
  ∃ rest : cont, request_step baseURL csrfToken sessionRetryDelayMs true retried again r K H w
    = createSession baseURL csrfToken sessionRetryDelayMs (λ _, rest) H w
  ∧ ∀ id b, truthy_value id = true →
      rest (MkClient id b) = request_step baseURL csrfToken sessionRetryDelayMs true retried again r K H (MkClient id b).
Proof.
  unfold request_step, bind, ret. eexists. split; [reflexivity|]. intros id b Hid.
  unfold createSession, bind, state, ret. cbn [sessionId]. by rewrite Hid.
Qed.

(** C32. The session of a request, for every sequence of answers.  A creation stops at its
    first success, at its first failure that is not transient, or at the third attempt,
    with a longer pause after each failure; a request that has a session is sent once,
    under its identifier; when the answer says that the session is gone, one new session
    is created and the request is sent exactly once more, under the new identifier,
    whatever comes back; and when the creation fails the request fails with it and is not
    sent again. *)
Theorem request_session_spec r K H id b x :
  truthy_value id = true →
  let m := request baseURL csrfToken sessionRetryDelayMs true r K H (MkClient id b) in
  (expired x = false → ∀ rs,
     let next := settle K H (outcome x) (MkClient id b) in
     drive (x :: rs) m = drive rs next ∧ calls (x :: rs) m = request_call r id :: calls rs next)
  ∧ (expired x = true → ∀ fails s, decides fails s →
     (∀ id' y rs, opened s = inl id' → truthy_value id' = true →
        let next := settle K H (outcome y) (MkClient id' false) in
        drive (x :: paused fails ++ s :: y :: rs) m = drive rs next
        ∧ calls (x :: paused fails ++ s :: y :: rs) m
          = [request_call r id] ++ attempt_calls 2 (length fails) ++ [request_call r id'] ++ calls rs next)
     ∧ (∀ e rs, opened s = inr e →
        let next := H e (MkClient (VStr []) false) in
        drive (x :: paused fails ++ s :: rs) m = drive rs next
        ∧ calls (x :: paused fails ++ s :: rs) m = [request_call r id] ++ attempt_calls 2 (length fails) ++ calls rs next)).
Proof.
  intros Hid m. split.
  { intros Hx rs. apply step_run; [done|]. by rewrite Hx. }
  intros Hx fails s Hd. split.
  - intros id' y rs Ho Hid'. unfold m. cbv zeta.
    destruct (retry_run r K H id x Hid Hx b (paused fails ++ s :: y :: rs)) as [-> ->]. unfold request_retried.
    destruct (step_create true (ret VUndefined) r K H (MkClient (VStr []) false)) as (rest & -> & Hrest).
    destruct (create_run (λ _, rest) H fails s (y :: rs) (VStr []) eq_refl Hd) as [-> ->]. rewrite Ho, Hrest by done.
    destruct (step_run true (ret VUndefined) r K H id' false y rs Hid') as [-> ->]; [by rewrite andb_false_r|done].
  - intros e rs Ho. unfold m. cbv zeta.
    destruct (retry_run r K H id x Hid Hx b (paused fails ++ s :: rs)) as [-> ->]. unfold request_retried.
    destruct (step_create true (ret VUndefined) r K H (MkClient (VStr []) false)) as (rest & -> & _).
    destruct (create_run (λ _, rest) H fails s rs (VStr []) eq_refl Hd) as [-> ->]. by rewrite Ho.
Qed.
End session_spec.

(** The server forgot session 7; the first attempt to create another is answered 503. *)
Lemma request_session_spec_witness :
  let body (status : Z) (v : value) : HttpReply + failure := inl (RResponse (MkResponse status (Some v))) in
  let gone := body 401%Z (VObj [("error", VObj [("code", VStr "invalid_session")])]%js) in
  let r := GET "/api/connections/c/metadata"%js in
  let m := request [] "t"%js (num 250) true r (λ v w, (w, Finished)) (λ e w, (w, Unhandled e)) (MkClient (VStr "7"%js) false) in
  let answers := gone :: paused [body 503%Z VNull] ++ body 201%Z (VObj [("sessionId", VStr "8")]%js) :: [body 200%Z VNull] in
  (drive answers m).1 = MkClient (VStr "8"%js) false ∧ length (calls answers m) = 5.
Proof.
  cbv zeta.
  set (body := λ (status : Z) (v : value), inl (RResponse (MkResponse status (Some v))) : HttpReply + failure).
  set (gone := body 401%Z _). set (r := GET _). set (created := body 201%Z _).
  destruct (request_session_spec [] "t"%js (num 250) r (λ v w, (w, Finished)) (λ e w, (w, Unhandled e))
    (VStr "7"%js) false gone) as [_ H]; [by vm_compute|].
  destruct (H ltac:(by vm_compute) [body 503%Z VNull] created) as [H1 _].
  { split_and!; [|cbn; lia|].
    - constructor; [|constructor]. eexists. by split; [vm_compute|].
    - intros e He. by vm_compute in He. }
  destruct (H1 (VStr "8"%js) (body 200%Z VNull) [] ltac:(by vm_compute) ltac:(by vm_compute)) as [E1 E2].
  split; [by rewrite E1|]. rewrite E2. by vm_compute.
Defined.

(** ** Routes *)

(** The path of a target, without its query. *)
Definition path_of (target : jstr) : jstr := hd [] (split "?"%js target).

(** The request uses [method], and the segments of its path read back as the bytes of
    [ss]. *)
Definition routed (method : jstr) (ss : list jstr) (r : option Request) : Prop :=
  ∃ req bss, r = Some req ∧ rq_method req = method
    ∧ mapM utf8 ([] :: ss) = Some bss ∧ segments (path_of (rq_target req)) = Some bss.

(** The escaped form of a segment. *)
Definition escapes (s e : jstr) : Prop :=
  encodeURIComponent s = Some e ∧ (47%N ∉ e) ∧ (63%N ∉ e) ∧ ∃ bs, utf8 s = Some bs ∧ unescape e = Some bs.

Lemma escapes_exists s : well_formed s → ∃ e, escapes s e.
Proof. intros (e & bs & ? & ? & ? & ? & ?)%encode_spec. exists e. unfold escapes. eauto 10. Qed.

Lemma segments_escapes ss es :
  Forall2 escapes ss es → es ≠ [] → ∃ bss, mapM utf8 ss = Some bss ∧ segments (join "/"%js es) = Some bss.
Proof.
  intros HF Hne. assert (∃ bss, mapM utf8 ss = Some bss ∧ mapM unescape es = Some bss) as (bss & Hu & He).
  { clear Hne. induction HF as [|s e ss es (_ & _ & _ & bs & Hu & He) _ (bss & IH1 & IH2)]; [by exists []|].
    exists (bs :: bss). cbn. by rewrite Hu, He, IH1, IH2. }
  exists bss. split; [done|]. apply segments_join; [done| |done].
  clear -HF. induction HF as [|s e ss es (_ & H & _)]; by constructor.
Qed.

Lemma path_of_query p q : 63%N ∉ p → path_of (p ++ "?"%js ++ q) = p.
Proof.
  intros Hp. unfold path_of. change "?"%js with [63%N]. change ([63%N] ++ q) with (63%N :: q).
  by rewrite split_char_app.
Qed.
Lemma path_of_plain p : 63%N ∉ p → path_of p = p.
Proof. intros Hp. unfold path_of. change "?"%js with [63%N]. by rewrite split_char_no. Qed.

Lemma join_no_query es : Forall (λ e, 63%N ∉ e) es → 63%N ∉ join "/"%js es.
Proof.
  induction 1 as [|e es He HF IH]; [apply not_elem_of_nil|]. destruct es as [|e' es]; [done|].
  rewrite join_cons by done. rewrite !elem_of_app, elem_of_cons, elem_of_nil. naive_solver.
Qed.

Lemma routed_intro method ss es target body q :
  Forall2 escapes ss es → target = join "/"%js ([] :: es) ++ q → q = [] ∨ (∃ q', q = "?"%js ++ q') →
  routed method ss (Some (MkRequest method target body)).
Proof.
  intros HF -> Hq. assert (Hn : 63%N ∉ join "/"%js ([] :: es)).
  { apply join_no_query. constructor; [apply not_elem_of_nil|]. clear -HF.
    induction HF as [|s e ss es (_ & _ & H & _)]; by constructor. }
  destruct (segments_escapes ([] :: ss) ([] :: es)) as (bss & Hu & Hs); [|done|].
  { constructor; [|done]. split_and!; [done|apply not_elem_of_nil..|by exists []]. }
  eexists _, bss. split_and!; [done..|]. cbn [rq_target].
  destruct Hq as [->|[q' ->]]; [|by rewrite path_of_query]. by rewrite app_nil_r, path_of_plain.
Qed.

Lemma escapes_literal s :
  bool_decide (encodeURIComponent s = Some s ∧ (47%N ∉ s) ∧ (63%N ∉ s) ∧ utf8 s = Some s ∧ unescape s = Some s) = true →
  escapes s s.
Proof. intros (? & ? & ? & ? & ?)%bool_decide_eq_true. unfold escapes. eauto 10. Qed.

Lemma routed_plain method ss es target body :
  Forall2 escapes ss es → target = join "/"%js ([] :: es) → routed method ss (Some (MkRequest method target body)).
Proof. intros HF ->. eapply routed_intro; [done|by rewrite app_nil_r|by left]. Qed.
Lemma routed_query method ss es target body q :
  Forall2 escapes ss es → target = join "/"%js ([] :: es) ++ "?"%js ++ q → routed method ss (Some (MkRequest method target body)).
Proof. intros HF ->. eapply routed_intro; [done..|eauto]. Qed.

(** The route of a method: its literals escape to themselves, its holes are given. *)
Ltac fill_target :=
  cbv beta iota delta [Client.connect Client.connectSaved Client.disconnect Client.listDatabases Client.switchDatabase
    Client.metadata Client.on_table Client.tableDetail Client.previewSchema Client.executeSchema Client.startQuery
    Client.on_query Client.queryResult Client.cancelQuery Client.exportCSV Client.beginTransaction
    Client.finishTransaction Client.mutate Client.capabilities Client.on_collection Client.mongoCollectionDetail
    Client.mongoCreateIndex Client.mongoDropIndex Client.redisScanKeys Client.on_key Client.redisGetKey
    Client.redisDeleteKey Client.redisSaveKey Client.redisSetTTL Client.redisCommands
    on_connection json_request template];
  cbn [mapM fill_piece];
  repeat match goal with H : escapes ?x ?e |- context [encodeURIComponent ?x] => rewrite (proj1 H) end;
  cbn [mbind option_bind].
Ltac escape_all :=
  cbn [app]; repeat first [apply Forall2_nil_2 | apply Forall2_cons_2; [first [eassumption | by apply escapes_literal]|]].
Ltac route :=
  fill_target;
  first
  [ eapply routed_plain; [escape_all | cbn; rewrite ?app_nil_r; reflexivity]
  | eapply routed_query; [escape_all | cbn; rewrite <- ?app_assoc, ?app_nil_r; reflexivity] ].


