(* ===== verification/EventStream.v ===== *)
(** * Event streams

    The reading loop of [tailSsh] in [src/web/src/logs/client.ts]: decoded texts arrive in
    pieces of any size; complete frames are cut out of a buffer, and the data line of each
    is parsed and handed to the caller. *)
From S2P Require Import Prelude JsString.

Section stream.
Context {Event : Type}.
(** [JSON.parse(..) as TailEvent]; [None] is its [SyntaxError]. *)
Context (parse : jstr → option Event).

Definition frame_end : jstr := [10; 10]%N.
Definition data_prefix : jstr := "data: "%js.

(** The data line of a frame. *)
Definition data_line (chunk : jstr) : option jstr := find_first (starts_with data_prefix) (split [10%N] chunk).

(** The events of complete frames, up to the first one that is not JSON; the flag tells
    whether all were read. *)
Fixpoint frames (chunks : list jstr) : list Event * bool :=
  match chunks with
  | [] => ([], true)
  | chunk :: rest =>
      match data_line chunk with
      | None => frames rest
      | Some line =>
          match parse (slice_from 6 line) with
          | Some e => let '(es, ok) := frames rest in (e :: es, ok)
          | None => ([], false)
          end
      end
  end.

(** One turn of the loop: the events delivered and the new buffer, [None] after an
    exception. *)
Definition feed (buffer text : jstr) : list Event * option jstr :=
  let chunks := split frame_end (buffer ++ text) in
  let '(es, ok) := frames (removelast chunks) in
  (es, if ok then Some (List.last chunks []) else None).

(** The loop until the stream ends. *)
Fixpoint read_all (buffer : jstr) (texts : list jstr) : list Event * option jstr :=
  match texts with
  | [] => ([], Some buffer)
  | text :: rest =>
      match feed buffer text with
      | (es, Some b) => let '(es', r) := read_all b rest in (es ++ es', r)
      | (es, None) => (es, None)
      end
  end.

(** ** Splitting at frame ends *)

Lemma split_frame_nonempty s : split frame_end s ≠ [].
Proof. apply (split_go_nonempty frame_end s 0). Qed.

Lemma split_frame_end s : split frame_end (frame_end ++ s) = [] :: split frame_end s.
Proof. done. Qed.

Lemma split_frame_cons c s :
  starts_with frame_end (c :: s) = false →
  split frame_end (c :: s) = match split frame_end s with h :: t => (c :: h) :: t | [] => [[c]] end.
Proof. intros H. unfold split, frame_end in *. cbn [split_go]. by rewrite H. Qed.

Lemma split_frame_single c : split frame_end [c] = [[c]].
Proof. unfold split, frame_end. cbn [split_go starts_with]. by rewrite andb_false_r. Qed.

Lemma last_removelast_cons {A} (x d : A) l :
  l ≠ [] → removelast (x :: l) = x :: removelast l ∧ List.last (x :: l) d = List.last l d.
Proof. by destruct l. Qed.

Lemma last_app_nonempty {A} (k l : list A) d : l ≠ [] → List.last (k ++ l) d = List.last l d.
Proof.
  intros Hl. induction k as [|x k IH]; [done|]. cbn [app].
  destruct (last_removelast_cons x d (k ++ l)) as [_ ->]; [by destruct k|done].
Qed.

Lemma frame_end_head c s : starts_with frame_end (c :: s) = true → ∃ s', c :: s = frame_end ++ s'.
Proof. intros [r Hr]%starts_with_app. by exists r. Qed.

Lemma starts_frame_app c d s t : starts_with frame_end ((c :: d :: s) ++ t) = starts_with frame_end (c :: d :: s).
Proof. done. Qed.

(** What follows a text continues its last piece. *)
Lemma split_frame_app s t :
  split frame_end (s ++ t) = removelast (split frame_end s) ++ split frame_end (List.last (split frame_end s) [] ++ t).
Proof.
  remember (length s) as n eqn:En. revert s En. induction (lt_wf n) as [n _ IH]. intros s ->.
  destruct s as [|c [|d s]]; [done|by rewrite split_frame_single|].
  destruct (starts_with frame_end (c :: d :: s)) eqn:Es.
  - apply frame_end_head in Es as [s' Es]. assert (s' = s) as -> by (by cbn in Es; simplify_eq). rewrite Es, <- app_assoc.
    rewrite !split_frame_end, (IH (length s)) by (cbn; lia || done).
    pose proof (split_frame_nonempty s). by destruct (split frame_end s).
  - rewrite (split_frame_cons c (d :: s)) by done. cbn [app].
    assert (Es' := starts_frame_app c d s t). cbn [app] in Es'. rewrite Es in Es'. rewrite split_frame_cons by done.
    change (d :: s ++ t) with ((d :: s) ++ t). rewrite (IH (length (d :: s))) by (cbn; lia || done).
    assert (Hj : join frame_end (split frame_end (d :: s)) = d :: s) by by apply join_split.
    destruct (split frame_end (d :: s)) as [|h [|h' r]]; [done| |done].
    cbn in Hj. subst h. cbn [removelast List.last app]. by rewrite (split_frame_cons c).
Qed.

Lemma split_frame_none s : includes frame_end s = false → split frame_end s = [s].
Proof.
  induction s as [|c s IH]; [done|]. intros [Hs Hi]%orb_false_iff. rewrite split_frame_cons, IH by done. done.
Qed.

Lemma split_frame_one p s : 10%N ∉ p → split frame_end (p ++ frame_end ++ s) = p :: split frame_end s.
Proof.
  induction p as [|c p IH]; [by intros _; apply split_frame_end|]. intros [Hc Hp]%not_elem_of_cons. cbn [app].
  rewrite split_frame_cons, IH by (done || (unfold frame_end; cbn [starts_with]; by rewrite (proj2 (N.eqb_neq _ _) Hc))). done.
Qed.

(** ** Reading *)

Lemma frames_app a b :
  frames (a ++ b) = match frames a with
                    | (es, true) => let '(es', ok) := frames b in (es ++ es', ok)
                    | (es, false) => (es, false)
                    end.
Proof.
  induction a as [|x a IH]; cbn [app frames]; [by destruct (frames b)|].
  destruct (data_line x); [|done]. destruct (parse _); [|done]. rewrite IH.
  destruct (frames a) as [es []]; [|done]. by destruct (frames b).
Qed.

Lemma feed_app buffer s t :
  feed buffer (s ++ t) = match feed buffer s with
                         | (es, Some b) => let '(es', r) := feed b t in (es ++ es', r)
                         | (es, None) => (es, None)
                         end.
Proof.
  unfold feed. rewrite app_assoc, split_frame_app. pose proof (split_frame_nonempty (List.last (split frame_end (buffer ++ s)) [] ++ t)) as Hne.
  rewrite removelast_app, frames_app by done.
  destruct (frames (removelast (split frame_end (buffer ++ s)))) as [es []]; [|done]. cbn [app].
  destruct (frames (removelast (split frame_end (List.last (split frame_end (buffer ++ s)) [] ++ t)))) as [es' ok].
  destruct ok; [|done]. do 2 f_equal. by apply last_app_nonempty.
Qed.

(** The pieces do not matter. *)
Lemma read_all_concat buffer texts : texts ≠ [] → read_all buffer texts = feed buffer (concat texts).
Proof.
  revert buffer. induction texts as [|t texts IH]; intros buffer Hne; [done|]. cbn [read_all concat].
  destruct texts as [|t' texts].
  - cbn. rewrite app_nil_r. destruct (feed buffer t) as [es [b|]]; [by rewrite app_nil_r|done].
  - rewrite feed_app. destruct (feed buffer t) as [es [b|]]; [|done]. by rewrite IH.
Qed.

(** ** What the server sends

    [sendEvent] of [src/api/internal/httpapi/log_handlers.go]: a data line with JSON text,
    which holds no line feed, and an empty line. *)
Definition sendEvent (json : jstr) : jstr := data_prefix ++ json ++ frame_end.

Lemma frames_sent jsons events rest :
  Forall2 (λ json e, (10%N ∉ json) ∧ parse json = Some e) jsons events → includes frame_end rest = false →
  frames (removelast (split frame_end (concat (sendEvent <$> jsons) ++ rest))) = (events, true)
  ∧ List.last (split frame_end (concat (sendEvent <$> jsons) ++ rest)) [] = rest.
Proof.
  intros HF Hr. induction HF as [|json e jsons events [Hn Hp] HF [IH1 IH2]].
  - cbn [fmap list_fmap concat app]. by rewrite split_frame_none.
  - cbn [fmap list_fmap concat]. unfold sendEvent at 1 3. rewrite <- !app_assoc, (app_assoc data_prefix).
    assert (Hline : 10%N ∉ data_prefix ++ json) by (rewrite elem_of_app; intros [H|H]; [exact (bool_decide_unpack (10%N ∉ data_prefix) I H)|done]).
    rewrite split_frame_one by done.
    pose proof (split_frame_nonempty (concat (sendEvent <$> jsons) ++ rest)) as Hne.
    destruct (last_removelast_cons (data_prefix ++ json) [] _ Hne) as [-> ->]. split; [|done]. cbn [frames]. unfold data_line.
    rewrite split_char_no by done. unfold find_first. cbn [List.find].
    rewrite (proj2 (starts_with_app data_prefix _)) by eauto. unfold slice_from.
    change 6 with (length data_prefix) at 1. rewrite drop_app_length, Hp. by rewrite IH1.
Qed.

(** The tail of a log arrives whole: however the network cuts the stream of events
    that the server sent, the loop delivers exactly these events, in order, and keeps the
    incomplete rest for the next piece. *)
Theorem tail_roundtrip jsons events rest texts :
  Forall2 (λ json e, (10%N ∉ json) ∧ parse json = Some e) jsons events → includes frame_end rest = false →
  concat texts = concat (sendEvent <$> jsons) ++ rest →
  read_all [] texts = (events, Some rest).
Proof.
  intros HF Hr Ht. destruct (frames_sent jsons events rest HF Hr) as [H1 H2].
  destruct texts as [|t texts].
  - cbn in *. destruct HF; [by destruct rest|]. by apply (f_equal length) in Ht.
  - rewrite read_all_concat, Ht by done. unfold feed. cbn [app]. by rewrite H1, H2.
Qed.
End stream.

Lemma tail_roundtrip_witness :
  read_all (λ json, Some (length json)) [] ["da"; "ta: []"; [10]%N; [10]%N ++ "data: [1"; ",2]" ++ [10; 10]%N ++ "data"]%js
    = ([2; 5], Some "data"%js).
Proof.
  apply (tail_roundtrip (λ json, Some (length json)) ["[]"; "[1,2]"]%js).
  - repeat constructor; try (apply (bool_decide_unpack _); vm_compute; exact I).
  - by vm_compute.
  - by vm_compute.
Defined.
