(* ===== verification/LogsClient.v ===== *)
(** * The client of the log service

    The data and the requests of [src/web/src/logs/client.ts]; its stream reader is in
    [EventStream.v]. *)
From S2P Require Import Prelude JsString JsNumber JsValue Uri Http.

(** ** Data *)

Record LogSession := MkLogSession {
  ls_id : jstr;
  ls_name : jstr;
  ls_status : jstr;
  ls_scope : jstr;
  ls_ownerUserId : option jstr;
  ls_teamId : option jstr;
  ls_createdAt : jstr;
  ls_updatedAt : jstr;
  ls_fileCount : number;
  ls_serviceCount : number;
  ls_errorMessage : option jstr;
}.

Record LogSourceFile := MkLogSourceFile {
  lf_id : jstr;
  lf_sessionId : jstr;
  lf_serviceName : jstr;
  lf_nodeName : jstr;
  lf_originalName : jstr;
  lf_totalLines : number;
  lf_parseStatus : jstr;
  lf_sourceType : jstr;
}.

Record LogEntry := MkLogEntry {
  le_id : number;
  le_sessionId : jstr;
  le_sourceFileId : jstr;
  le_timestampMs : option number;
  le_level : jstr;
  le_serviceName : jstr;
  le_nodeName : jstr;
  le_message : jstr;
  le_raw : jstr;
  le_lineNumber : number;
}.

Record LogScopeNode := MkLogScopeNode { ln_nodeName : jstr; ln_lineCount : number }.
Record LogScope := MkLogScope { lg_serviceName : jstr; lg_lineCount : number; lg_nodes : list LogScopeNode }.

Record SSHLogConnection := MkSSHLogConnection {
  sl_id : jstr;
  sl_name : jstr;
  sl_scope : jstr;
  sl_teamId : option jstr;
  sl_host : jstr;
  sl_port : number;
}.

Inductive RemoteKind := remote_file | remote_directory | remote_other.
#[export] Instance RemoteKind_eq_dec : EqDecision RemoteKind.
Proof. solve_decision. Defined.
(** The size of a file is a whole number of bytes. *)
Record RemoteLogEntry := MkRemoteLogEntry {
  re_name : jstr;
  re_path : jstr;
  re_type : RemoteKind;
  re_size : Z;
  re_modifiedAt : number;
}.

Inductive TailEvent :=
| tail_ready (path : jstr) (sourceFile : LogSourceFile)
| tail_line (line : jstr) (entry : option LogEntry)
| tail_error (message : jstr)
| tail_done
| tail_stopped.

Record LogSearchResult := MkLogSearchResult {
  sr_entries : list LogEntry;
  sr_total : number;
  sr_countExact : bool;
  (** Absent from the answers of older servers. *)
  sr_tree : option (list LogScope);
}.

Record CreateLogSessionInput := MkCreateLogSessionInput { cl_name : jstr; cl_scope : jstr; cl_teamId : option jstr }.
(** A file chosen by the user. *)
Record File := MkFile { file_name : jstr; file_text : jstr }.
Record UploadLogInput := MkUploadLogInput {
  ul_sessionId : jstr;
  ul_file : File;
  ul_serviceName : option jstr;
  ul_nodeName : option jstr;
}.
Record LogSearchInput := MkLogSearchInput {
  li_query : option jstr;
  li_level : option jstr;
  li_service : option jstr;
  li_nodeKey : option jstr;
  li_limit : option number;
}.
Record ScanSSHInput := MkScanSSHInput {
  sc_connectionId : jstr;
  sc_path : jstr;
  sc_maxDepth : option number;
  sc_maxFiles : option number;
}.
Record ScanSSHResult := MkScanSSHResult {
  sc_entries : option (list RemoteLogEntry);
  sc_truncated : bool;
}.
Record ImportSSHInput := MkImportSSHInput {
  im_sessionId : jstr;
  im_connectionId : jstr;
  im_path : jstr;
  im_serviceName : option jstr;
  im_nodeName : option jstr;
}.
Record TailSSHInput := MkTailSSHInput {
  ts_sessionId : jstr;
  ts_connectionId : jstr;
  ts_path : jstr;
  ts_lines : number;
  ts_serviceName : option jstr;
  ts_nodeName : option jstr;
}.

(** ** Requests *)

(** [`/api/logs/sessions/${encodeURIComponent(sessionId)}...`]; [None] is the [URIError]
    of a lone surrogate. *)
Definition on_session (sessionId rest : jstr) : option jstr :=
  template [Text "/api/logs/sessions/"%js; Hole sessionId; Text rest].

Module Logs.
Definition listSessions : Request := GET "/api/logs/sessions"%js.
Definition createSession (input : CreateLogSessionInput) : Request :=
  POST "/api/logs/sessions"%js
    (Some (obj [("name", VStr (cl_name input)); ("scope", VStr (cl_scope input)); ("teamId", opt_str (cl_teamId input))]%js)).

(** An entry of a form: a text or a file. *)
Inductive form_value := FormText (s : jstr) | FormFile (f : File).
Definition uploadFile (input : UploadLogInput) : option (jstr * list (jstr * form_value)) :=
  target ← on_session (ul_sessionId input) "/upload"%js;
  Some (target,
    [("file"%js, FormFile (ul_file input))]
    ++ (match ul_serviceName input with Some ((_ :: _) as s) => [("serviceName"%js, FormText s)] | _ => [] end)
    ++ (match ul_nodeName input with Some ((_ :: _) as s) => [("nodeName"%js, FormText s)] | _ => [] end)).

Definition listSshConnections : Request := GET "/api/logs/ssh-connections"%js.
Definition testSshConnection (connectionId : jstr) : Request :=
  POST "/api/logs/ssh/test"%js (Some (obj [("connectionId", VStr connectionId)]%js)).
Definition browseSsh (connectionId path : jstr) : Request :=
  POST "/api/logs/ssh/browse"%js (Some (obj [("connectionId", VStr connectionId); ("path", VStr path)]%js)).
Definition scanSsh (input : ScanSSHInput) : Request :=
  POST "/api/logs/ssh/scan"%js
    (Some (obj [("connectionId", VStr (sc_connectionId input)); ("path", VStr (sc_path input));
                ("maxDepth", opt_num (sc_maxDepth input)); ("maxFiles", opt_num (sc_maxFiles input))]%js)).
Definition importSshFile (input : ImportSSHInput) : option Request :=
  target ← on_session (im_sessionId input) "/ssh/import"%js;
  Some (POST target
    (Some (obj [("connectionId", VStr (im_connectionId input)); ("path", VStr (im_path input));
                ("serviceName", opt_str (im_serviceName input)); ("nodeName", opt_str (im_nodeName input))]%js))).
Definition tailSsh (input : TailSSHInput) : option Request :=
  target ← on_session (ts_sessionId input) "/tail"%js;
  Some (POST target
    (Some (obj [("connectionId", VStr (ts_connectionId input)); ("path", VStr (ts_path input));
                ("lines", VNum (ts_lines input));
                ("serviceName", opt_str (ts_serviceName input)); ("nodeName", opt_str (ts_nodeName input))]%js))).

Definition appendIfPresent (params : list (jstr * jstr)) (key : jstr) (v : option jstr) : list (jstr * jstr) :=
  match v with
  | None | Some [] => params
  | Some s => params ++ [(key, s)]
  end.
Definition search_query (input : LogSearchInput) : list (jstr * jstr) :=
  let params := appendIfPresent [] "query"%js (li_query input) in
  let params := appendIfPresent params "limit"%js (number_to_string <$> li_limit input) in
  let params := appendIfPresent params "level"%js (li_level input) in
  let params := appendIfPresent params "service"%js (li_service input) in
  appendIfPresent params "nodeKey"%js (li_nodeKey input).
Definition search (sessionId : jstr) (input : LogSearchInput) : option Request :=
  let params := search_params (search_query input) in
  target ← on_session sessionId ("/search"%js ++ (if truthy params then "?"%js ++ params else []));
  Some (GET target).
Definition timeline (sessionId : jstr) : option Request :=
  target ← on_session sessionId "/timeline"%js; Some (GET target).
Definition files (sessionId : jstr) : option Request :=
  target ← on_session sessionId "/files"%js; Some (GET target).
Definition removeSession (sessionId : jstr) : option Request :=
  target ← on_session sessionId []; Some (DELETE target).
End Logs.
