(* ===== verification/LogsPage.v ===== *)
(** * The log page

    The state and handlers of [src/web/src/pages/LogsPage.tsx].  A handler reads the
    variables it closes over when it starts.  The updates of the tail output are functions
    that React queues and runs, at the latest, when it renders: they read
    [tailLineIdRef.current] then, so the queue is part of the state and [render] runs it.
    The events of a running tail and renders happen between the other handlers. *)
From S2P Require Import Prelude JsString JsNumber JsRegex JsValue LogsClient Async.

(** ** Texts *)

Definition word_i (w : jstr) : re := Seq WordB (Seq (LitI w) WordB).
Definition detectLineLevel (line : jstr) : jstr :=
  if test (word_i "ERROR"%js) line then "ERROR"%js
  else if test (Seq WordB (Seq (LitI "WARN"%js) (Seq (Opt (LitI "ING"%js)) WordB))) line then "WARN"%js
  else if test (word_i "INFO"%js) line then "INFO"%js
  else if test (word_i "DEBUG"%js) line then "DEBUG"%js
  else if test (word_i "TRACE"%js) line then "TRACE"%js
  else "UNKNOWN"%js.

Definition parentRemotePath (v : jstr) : jstr :=
  let parts := removelast (filterb truthy (split "/"%js v)) in
  or_else ("/"%js ++ join "/"%js parts) "/"%js.

Definition formatSize (bytes : Z) : jstr :=
  if (1048576 <=? bytes)%Z then to_fixed1 bytes 1048576 ++ " MB"%js
  else if (1024 <=? bytes)%Z then to_fixed1 bytes 1024 ++ " KB"%js
  else dec_Z bytes ++ " B"%js.

Inductive TailStatus := tail_idle | tail_connecting | tail_live | tail_stopped_ | tail_failed.
Definition tailStatusLabel (status : TailStatus) : jstr :=
    match status with
    | tail_connecting => "连接中" | tail_live => "实时" | tail_stopped_ => "已停止" | tail_failed => "错误" | tail_idle => "空闲"
    end%js.
Inductive StatusTone := tone_success | tone_info | tone_danger | tone_warning | tone_neutral.
Definition tailStatusTone (status : TailStatus) : StatusTone :=
  match status with
  | tail_live => tone_success | tail_connecting => tone_info | tail_failed => tone_danger
  | tail_stopped_ => tone_warning | tail_idle => tone_neutral
  end.

Definition LOG_FILE : re := (Lit "."%js · AltsI ["log"; "txt"; "out"; "err"]%js · Eol false)%re.

(** ** State *)

Record TailLine := MkTailLine { tl_id : Z; tl_text : jstr; tl_level : jstr }.
(** The updates of [setTailLines]: a new value, or the updater of a line. *)
Inductive TailUpdate := ClearLines | AppendLine (text level : jstr).

Inductive LogsWorkspace := ws_search | ws_upload | ws_ssh | ws_tail.

Record Lists := MkLists {
  sessions : list LogSession;
  sshConnections : list SSHLogConnection;
  selectedId : jstr;
  sshConnectionId : jstr;
  loading : bool;
}.
Record Feedback := MkFeedback {
  error_ : jstr;
  success : jstr;
}.
Record NewSession := MkNewSession {
  newName : jstr;
  scope : jstr;
  teamId : jstr;
  creating : bool;
  showCreateSession : bool;
}.
Record Upload := MkUpload {
  serviceName : jstr;
  nodeName : jstr;
  file : option File;
  uploading : bool;
}.
Record Search := MkSearch {
  query : jstr;
  level : jstr;
  entries : list LogEntry;
  tree : list LogScope;
  total : number;
  searching : bool;
}.
Record Remote := MkRemote {
  remotePath : jstr;
  remoteEntries : list RemoteLogEntry;
  sshBusy : bool;
  importingPath : jstr;
  batchImporting : bool;
}.
Record Tail := MkTail {
  tailing : bool;
  tailPath : jstr;
  tailStatus : TailStatus;
  tailFilter : jstr;
  tailInitialLines : jstr;
  tailServiceName : jstr;
  tailNodeName : jstr;
}.
Record TailOutput := MkTailOutput {
  tailLines : list TailLine;
  pendingLines : list TailUpdate;
  tailLineId : Z;
}.
Record Controllers := MkControllers {
  tailAbort : option nat;
  aborted_ : gset nat;
  next_controller : nat;
}.

Record LP := MkLP {
  lists : Lists;
  feedback : Feedback;
  creation : NewSession;
  upload_form : Upload;
  search_form : Search;
  remote : Remote;
  tail : Tail;
  output : TailOutput;
  controllers : Controllers;
  workspace : LogsWorkspace;
}.

(** The setters of the [useState] variables. *)
Definition set_lists f (w : LP) := MkLP (f (lists w)) (feedback w) (creation w) (upload_form w) (search_form w) (remote w) (tail w) (output w) (controllers w) (workspace w).
Definition set_feedback f (w : LP) := MkLP (lists w) (f (feedback w)) (creation w) (upload_form w) (search_form w) (remote w) (tail w) (output w) (controllers w) (workspace w).
Definition set_creation f (w : LP) := MkLP (lists w) (feedback w) (f (creation w)) (upload_form w) (search_form w) (remote w) (tail w) (output w) (controllers w) (workspace w).
Definition set_upload_form f (w : LP) := MkLP (lists w) (feedback w) (creation w) (f (upload_form w)) (search_form w) (remote w) (tail w) (output w) (controllers w) (workspace w).
Definition set_search_form f (w : LP) := MkLP (lists w) (feedback w) (creation w) (upload_form w) (f (search_form w)) (remote w) (tail w) (output w) (controllers w) (workspace w).
Definition set_remote f (w : LP) := MkLP (lists w) (feedback w) (creation w) (upload_form w) (search_form w) (f (remote w)) (tail w) (output w) (controllers w) (workspace w).
Definition set_tail f (w : LP) := MkLP (lists w) (feedback w) (creation w) (upload_form w) (search_form w) (remote w) (f (tail w)) (output w) (controllers w) (workspace w).
Definition set_output f (w : LP) := MkLP (lists w) (feedback w) (creation w) (upload_form w) (search_form w) (remote w) (tail w) (f (output w)) (controllers w) (workspace w).
Definition set_controllers f (w : LP) := MkLP (lists w) (feedback w) (creation w) (upload_form w) (search_form w) (remote w) (tail w) (output w) (f (controllers w)) (workspace w).
Definition setWorkspace x (w : LP) := MkLP (lists w) (feedback w) (creation w) (upload_form w) (search_form w) (remote w) (tail w) (output w) (controllers w) x.
Definition setSessions f := set_lists (λ r, MkLists (f (sessions r)) (sshConnections r) (selectedId r) (sshConnectionId r) (loading r)).
Definition setSshConnections x := set_lists (λ r, MkLists (sessions r) x (selectedId r) (sshConnectionId r) (loading r)).
Definition setSelectedId f := set_lists (λ r, MkLists (sessions r) (sshConnections r) (f (selectedId r)) (sshConnectionId r) (loading r)).
Definition setSshConnectionId f := set_lists (λ r, MkLists (sessions r) (sshConnections r) (selectedId r) (f (sshConnectionId r)) (loading r)).
Definition setLoading x := set_lists (λ r, MkLists (sessions r) (sshConnections r) (selectedId r) (sshConnectionId r) x).
Definition setError x := set_feedback (λ r, MkFeedback x (success r)).
Definition setSuccess x := set_feedback (λ r, MkFeedback (error_ r) x).
Definition setNewName x := set_creation (λ r, MkNewSession x (scope r) (teamId r) (creating r) (showCreateSession r)).
Definition setScope x := set_creation (λ r, MkNewSession (newName r) x (teamId r) (creating r) (showCreateSession r)).
Definition setTeamId x := set_creation (λ r, MkNewSession (newName r) (scope r) x (creating r) (showCreateSession r)).
Definition setCreating x := set_creation (λ r, MkNewSession (newName r) (scope r) (teamId r) x (showCreateSession r)).
Definition setShowCreateSession x := set_creation (λ r, MkNewSession (newName r) (scope r) (teamId r) (creating r) x).
Definition setServiceName x := set_upload_form (λ r, MkUpload x (nodeName r) (file r) (uploading r)).
Definition setNodeName x := set_upload_form (λ r, MkUpload (serviceName r) x (file r) (uploading r)).
Definition setFile x := set_upload_form (λ r, MkUpload (serviceName r) (nodeName r) x (uploading r)).
Definition setUploading x := set_upload_form (λ r, MkUpload (serviceName r) (nodeName r) (file r) x).
Definition setQuery x := set_search_form (λ r, MkSearch x (level r) (entries r) (tree r) (total r) (searching r)).
Definition setLevel x := set_search_form (λ r, MkSearch (query r) x (entries r) (tree r) (total r) (searching r)).
Definition setEntries x := set_search_form (λ r, MkSearch (query r) (level r) x (tree r) (total r) (searching r)).
Definition setTree x := set_search_form (λ r, MkSearch (query r) (level r) (entries r) x (total r) (searching r)).
Definition setTotal x := set_search_form (λ r, MkSearch (query r) (level r) (entries r) (tree r) x (searching r)).
Definition setSearching x := set_search_form (λ r, MkSearch (query r) (level r) (entries r) (tree r) (total r) x).
Definition setRemotePath x := set_remote (λ r, MkRemote x (remoteEntries r) (sshBusy r) (importingPath r) (batchImporting r)).
Definition setRemoteEntries x := set_remote (λ r, MkRemote (remotePath r) x (sshBusy r) (importingPath r) (batchImporting r)).
Definition setSshBusy x := set_remote (λ r, MkRemote (remotePath r) (remoteEntries r) x (importingPath r) (batchImporting r)).
Definition setImportingPath x := set_remote (λ r, MkRemote (remotePath r) (remoteEntries r) (sshBusy r) x (batchImporting r)).
Definition setBatchImporting x := set_remote (λ r, MkRemote (remotePath r) (remoteEntries r) (sshBusy r) (importingPath r) x).
Definition setTailing x := set_tail (λ r, MkTail x (tailPath r) (tailStatus r) (tailFilter r) (tailInitialLines r) (tailServiceName r) (tailNodeName r)).
Definition setTailPath x := set_tail (λ r, MkTail (tailing r) x (tailStatus r) (tailFilter r) (tailInitialLines r) (tailServiceName r) (tailNodeName r)).
Definition setTailStatus f := set_tail (λ r, MkTail (tailing r) (tailPath r) (f (tailStatus r)) (tailFilter r) (tailInitialLines r) (tailServiceName r) (tailNodeName r)).
Definition setTailFilter x := set_tail (λ r, MkTail (tailing r) (tailPath r) (tailStatus r) x (tailInitialLines r) (tailServiceName r) (tailNodeName r)).
Definition setTailInitialLines x := set_tail (λ r, MkTail (tailing r) (tailPath r) (tailStatus r) (tailFilter r) x (tailServiceName r) (tailNodeName r)).
Definition setTailServiceName x := set_tail (λ r, MkTail (tailing r) (tailPath r) (tailStatus r) (tailFilter r) (tailInitialLines r) x (tailNodeName r)).
Definition setTailNodeName x := set_tail (λ r, MkTail (tailing r) (tailPath r) (tailStatus r) (tailFilter r) (tailInitialLines r) (tailServiceName r) x).
Definition set_rendered_lines x := set_output (λ r, MkTailOutput x (pendingLines r) (tailLineId r)).
Definition queue_lines f := set_output (λ r, MkTailOutput (tailLines r) (f (pendingLines r)) (tailLineId r)).
Definition setTailLineId f := set_output (λ r, MkTailOutput (tailLines r) (pendingLines r) (f (tailLineId r))).
Definition setTailAbort x := set_controllers (λ r, MkControllers x (aborted_ r) (next_controller r)).
Definition set_aborted f := set_controllers (λ r, MkControllers (tailAbort r) (f (aborted_ r)) (next_controller r)).
Definition set_next_controller x := set_controllers (λ r, MkControllers (tailAbort r) (aborted_ r) x).

(** ** What is shown *)

Definition initial_LP (teamId : jstr) : LP :=
  MkLP (MkLists [] [] [] [] true) (MkFeedback [] []) (MkNewSession [] "personal"%js teamId false false)
    (MkUpload [] [] None false) (MkSearch [] [] [] [] (num 0) false) (MkRemote "/var/log"%js [] false [] false)
    (MkTail false [] tail_idle [] "200"%js [] []) (MkTailOutput [] [] 0) (MkControllers None ∅ 0) ws_search.

Definition selected (w : LP) : option LogSession :=
  let l := sessions (lists w) in
  match find_first (λ s, bool_decide (ls_id s = selectedId (lists w))) l with Some s => Some s | None => head l end.

Definition visibleRemoteEntries (w : LP) : list RemoteLogEntry :=
  filterb (λ e, match re_type e with
                | remote_directory => true
                | remote_file => test LOG_FILE (re_name e)
                | remote_other => false
                end) (remoteEntries (remote w)).

Definition visibleTailLines `{Unicode} (w : LP) : list TailLine :=
  match toLowerCase (trim (tailFilter (tail w))) with
  | [] => tailLines (output w)
  | keyword => filterb (λ l, includes keyword (toLowerCase (tl_text l))) (tailLines (output w))
  end.

(** ** The tail output *)

Definition max_tail_lines : nat := 5000.

(** [next.length > 5000 ? next.slice(next.length - 5000) : next]. *)
Definition last_lines {A} (l : list A) : list A :=
  if (max_tail_lines <? length l)%nat then drop (length l - max_tail_lines) l else l.

Definition apply_update (id : Z) (current : list TailLine) (u : TailUpdate) : list TailLine :=
  match u with
  | ClearLines => []
  | AppendLine text level => last_lines (current ++ [MkTailLine id text level])
  end.

(** React renders: the queued updaters run, in order, on the current line number. *)
Definition render (w : LP) : LP :=
  set_output (λ o, MkTailOutput (foldl (apply_update (tailLineId o)) (tailLines o) (pendingLines o)) [] (tailLineId o)) w.

Definition setTailLines (u : TailUpdate) : LP → LP := queue_lines (λ q, q ++ [u]).

(** ** Calls of the log service *)

Inductive LogCall :=
(** [Promise.all] of the two lists. *)
| list_all
| create_session (input : CreateLogSessionInput)
| upload_file (input : UploadLogInput)
| search_logs (sessionId : jstr) (input : LogSearchInput)
| test_ssh (connectionId : jstr)
| browse_ssh (connectionId path : jstr)
| scan_ssh (input : ScanSSHInput)
| import_ssh (input : ImportSSHInput)
(** The tail, with the controller of its signal. *)
| tail_ssh (input : TailSSHInput) (controller : nat).
Inductive LogReply :=
| RLists (items : list LogSession) (sshItems : list SSHLogConnection)
| RSession (created : LogSession)
| RFound (result : LogSearchResult)
| RBrowsed (path : jstr) (entries : option (list RemoteLogEntry))
| RScanned (result : ScanSSHResult)
| RVoid.

Abbreviation handler := (async LP LogCall LogReply error).
#[local] Open Scope async_scope.

Definition messageFor (e : error) : jstr := default "请求失败"%js e.

(** The beginning of most handlers. *)
Definition clear_feedback : handler unit := do* modify (setError []) in modify (setSuccess []).

(** ** Handlers *)

Definition load : handler unit :=
  do* modify (setLoading true) in
  do* modify (setError []) in
  finally
    (catch
      (let* r := await list_all in
       match r with
       | RLists items sshItems =>
           do* modify (setSessions (λ _, items)) in
           do* modify (setSshConnections sshItems) in
           do* modify (setSelectedId (λ current, or_else current (from_option ls_id [] (head items)))) in
           modify (setSshConnectionId (λ current, or_else current (from_option sl_id [] (head sshItems))))
       | _ => throw None
       end)
      (λ err, modify (setError (messageFor err))))
    (modify (setLoading false)).

(** The effect that chooses a team, with the identifiers of [adminTeams]. *)
Definition team_effect (adminTeams : list jstr) : handler unit :=
  modify (λ w,
    if bool_decide (scope (creation w) = "team"%js) && negb (truthy (teamId (creation w)))
    then match adminTeams with t :: _ => setTeamId t w | [] => w end
    else w).

(** [controller.abort()]. *)
Definition abort (c : nat) : LP → LP := set_aborted (λ s, {[c]} ∪ s).
Definition signal_aborted (w : LP) (c : nat) : bool := bool_decide (c ∈ aborted_ (controllers w)).
Definition abort_current (w : LP) : LP := match tailAbort (controllers w) with Some c => abort c w | None => w end.

(** [tailAbortRef.current = new AbortController()]. *)
Definition new_controller (w : LP) : LP :=
  let c := next_controller (controllers w) in setTailAbort (Some c) (set_next_controller (S c) w).

(** The cleanup of the last effect. *)
Definition unmount : handler unit := modify abort_current.

Definition createSession : handler unit :=
  let* w := state in
  let n := creation w in
  do* modify (setCreating true) in
  do* clear_feedback in
  finally
    (catch
      (let* r := await (create_session (MkCreateLogSessionInput (or_else (trim (newName n)) "日志分析"%js) (scope n)
                          (if bool_decide (scope n = "team"%js) then Some (teamId n) else None))) in
       match r with
       | RSession created =>
           do* modify (setSessions (λ current, created :: filterb (λ item, negb (bool_decide (ls_id item = ls_id created))) current)) in
           do* modify (setSelectedId (λ _, ls_id created)) in
           do* modify (setNewName []) in
           do* modify (setShowCreateSession false) in
           do* modify (setWorkspace ws_search) in
           modify (setSuccess "日志会话已创建"%js)
       | _ => throw None
       end)
      (λ err, modify (setError (messageFor err))))
    (modify (setCreating false)).

(** [refreshSearch(sessionId)] of the render [w]. *)
Definition refreshSearch (w : LP) (sessionId : jstr) : handler unit :=
  if negb (truthy sessionId) then ret tt
  else
    do* modify (setSearching true) in
    do* modify (setError []) in
    finally
      (catch
        (let* r := await (search_logs sessionId (MkLogSearchInput (Some (trim (query (search_form w)))) (Some (level (search_form w))) None None (Some (num 200)))) in
         match r with
         | RFound result =>
             do* modify (setEntries (sr_entries result)) in
             do* modify (setTree (default [] (sr_tree result))) in
             modify (setTotal (sr_total result))
         | _ => throw None
         end)
        (λ err, modify (setError (messageFor err))))
      (modify (setSearching false)).

Definition search : handler unit :=
  let* w := state in refreshSearch w (from_option ls_id [] (selected w)).

Definition upload : handler unit :=
  let* w := state in
  match selected w, file (upload_form w) with
  | Some s, Some f =>
      do* modify (setUploading true) in
      do* clear_feedback in
      finally
        (catch
          (do* await (upload_file (MkUploadLogInput (ls_id s) f (Some (trim (serviceName (upload_form w)))) (Some (trim (nodeName (upload_form w)))))) in
           do* modify (setSuccess "日志已上传并完成索引"%js) in
           do* modify (setFile None) in
           do* refreshSearch w (ls_id s) in
           load)
          (λ err, modify (setError (messageFor err))))
        (modify (setUploading false))
  | _, _ => ret tt
  end.

(** The frame of the three handlers on an SSH connection. *)
Definition with_ssh (w : LP) (body : handler unit) : handler unit :=
  if negb (truthy (sshConnectionId (lists w))) then modify (setError "请先选择 SSH 连接"%js)
  else
    do* modify (setSshBusy true) in
    do* clear_feedback in
    finally (catch body (λ err, modify (setError (messageFor err)))) (modify (setSshBusy false)).

Definition testSshConnection : handler unit :=
  let* w := state in
  with_ssh w
    (do* await (test_ssh (sshConnectionId (lists w))) in
     modify (setSuccess "SSH 连接测试通过"%js)).

Definition browseSsh (pathOverride : option jstr) : handler unit :=
  let* w := state in
  with_ssh w
    (let* r := await (browse_ssh (sshConnectionId (lists w)) (or_else (default (trim (remotePath (remote w))) pathOverride) "/"%js)) in
     match r with
     | RBrowsed path entries =>
         do* modify (setRemotePath (or_else path (remotePath (remote w)))) in
         do* modify (setRemoteEntries (default [] entries)) in
         modify (setSuccess "远程目录已读取"%js)
     | _ => throw None
     end).

Definition scanSsh : handler unit :=
  let* w := state in
  with_ssh w
    (let* r := await (scan_ssh (MkScanSSHInput (sshConnectionId (lists w)) (or_else (trim (remotePath (remote w))) "/"%js) (Some (num 8)) (Some (num 1000)))) in
     match r with
     | RScanned result =>
         do* modify (setRemoteEntries (default [] (sc_entries result))) in
         modify (setSuccess ("扫描到 "%js ++ dec_Z (Z.of_nat (length (default [] (sc_entries result)))) ++ " 个日志文件"%js
                             ++ (if sc_truncated result then "（结果已截断）"%js else [])))
     | _ => throw None
     end).

(** *** Tails *)

Definition running (s : TailStatus) : bool := match s with tail_live | tail_connecting => true | _ => false end.
Definition stop_status (s : TailStatus) : TailStatus := if running s then tail_stopped_ else s.

Definition stopTail : handler unit :=
  do* modify abort_current in
  do* modify (setTailAbort None) in
  do* modify (setTailing false) in
  modify (setTailStatus stop_status).

(** The callback [onEvent]. *)
Definition onEvent (e : TailEvent) : handler unit :=
  match e with
  | tail_ready path _ =>
      do* modify (setTailStatus (λ _, tail_live)) in
      modify (setSuccess ("正在 tail "%js ++ path))
  | tail_line line entry =>
      do* modify (setTailLineId (λ n, n + 1)%Z) in
      modify (setTailLines (AppendLine line (default (detectLineLevel line) (le_level <$> entry))))
  | tail_error message =>
      do* modify (setTailStatus (λ _, tail_failed)) in
      modify (setError message)
  | tail_done => modify (setTailStatus (λ _, tail_idle))
  | tail_stopped => modify (setTailStatus (λ _, tail_stopped_))
  end.

(** [Math.min(x, y)] for [y] whole. *)
Definition min_int (y : Z) (x : number) : number :=
  match num_compare x (num y) with None => NaN | Some Gt => num y | _ => x end.
(** [Math.min(5000, Math.max(0, Number(text) || 0))]. *)
Definition initialLines (text : jstr) : number :=
  let n := to_number text in
  min_int 5000 (num_max (num 0) (if num_truthy n then n else num 0)).

Definition startTail (entry : RemoteLogEntry) : handler unit :=
  let* w := state in
  match selected w with
  | None => modify (setError "请先创建或选择日志会话"%js)
  | Some s =>
      if negb (truthy (sshConnectionId (lists w))) then modify (setError "请先选择 SSH 连接"%js)
      else
        do* stopTail in
        let* w' := state in
        let controller := next_controller (controllers w') in
        do* modify new_controller in
        do* modify (setTailing true) in
        do* modify (setTailStatus (λ _, tail_connecting)) in
        do* modify (setTailPath (re_path entry)) in
        do* modify (setWorkspace ws_tail) in
        do* modify (setTailLines ClearLines) in
        do* clear_feedback in
        finally
          (catch
            (do* await (tail_ssh (MkTailSSHInput (ls_id s) (sshConnectionId (lists w)) (re_path entry)
                          (initialLines (tailInitialLines (tail w)))
                          (Some (trim (tailServiceName (tail w)))) (Some (trim (tailNodeName (tail w))))) controller) in
             modify (λ w, if negb (signal_aborted w controller) then setTailStatus stop_status w else w))
            (λ err, modify (λ w, if negb (signal_aborted w controller)
                                 then setError (messageFor err) (setTailStatus (λ _, tail_failed) w) else w)))
          (do* modify (λ w, if bool_decide (tailAbort (controllers w) = Some controller) then setTailAbort None w else w) in
           do* modify (setTailing false) in
           load)
  end.

(** *** Imports *)

Definition import_input (w : LP) (s : LogSession) (entry : RemoteLogEntry) : ImportSSHInput :=
  MkImportSSHInput (ls_id s) (sshConnectionId (lists w)) (re_path entry)
    (Some (trim (tailServiceName (tail w)))) (Some (trim (tailNodeName (tail w)))).

Definition importRemoteFile (entry : RemoteLogEntry) : handler unit :=
  let* w := state in
  match selected w with
  | None => modify (setError "请先创建或选择日志会话"%js)
  | Some s =>
      if negb (truthy (sshConnectionId (lists w))) then modify (setError "请先选择 SSH 连接"%js)
      else
        do* modify (setImportingPath (re_path entry)) in
        do* clear_feedback in
        finally
          (catch
            (do* await (import_ssh (import_input w s entry)) in
             do* modify (setSuccess "远程日志已导入并完成索引"%js) in
             do* refreshSearch w (ls_id s) in
             load)
            (λ err, modify (setError (messageFor err))))
          (modify (setImportingPath []))
  end.

(** The loop over the files. *)
Fixpoint import_files (w : LP) (s : LogSession) (files : list RemoteLogEntry) : handler unit :=
  match files with
  | [] => ret tt
  | entry :: rest =>
      do* modify (setImportingPath (re_path entry)) in
      do* await (import_ssh (import_input w s entry)) in
      import_files w s rest
  end.

Definition importable (w : LP) : list RemoteLogEntry :=
  filterb (λ e, bool_decide (re_type e = remote_file)) (visibleRemoteEntries w).

Definition importVisibleFiles : handler unit :=
  let* w := state in
  match selected w with
  | Some s =>
      if negb (truthy (sshConnectionId (lists w))) then modify (setError "请先选择日志会话和 SSH 连接"%js)
      else
        let files := importable w in
        match files with
        | [] => modify (setError "当前没有可导入的日志文件"%js)
        | _ =>
            do* modify (setBatchImporting true) in
            do* clear_feedback in
            finally
              (catch
                (do* import_files w s files in
                 do* modify (setSuccess ("已导入 "%js ++ dec_Z (Z.of_nat (length files)) ++ " 个远程日志文件"%js)) in
                 do* refreshSearch w (ls_id s) in
                 load)
                (λ err, modify (setError (messageFor err))))
              (do* modify (setImportingPath []) in modify (setBatchImporting false))
        end
  | None => modify (setError "请先选择日志会话和 SSH 连接"%js)
  end.

(** *** Inputs of the page *)

Definition chooseSession (id : jstr) : handler unit :=
  do* modify (setSelectedId (λ _, id)) in
  do* modify (setWorkspace ws_search) in
  do* modify (setEntries []) in
  do* modify (setTree []) in
  modify (setTotal (num 0)).
Definition chooseSshConnection (id : jstr) : handler unit :=
  do* modify (setSshConnectionId (λ _, id)) in modify (setRemoteEntries []).
Definition clearTail : handler unit := modify (setTailLines ClearLines).

(** The handlers that the page, its effects, React and the tails start. *)
Inductive logs_event (adminTeams : list jstr) : handler unit → Prop :=
| ev_load : logs_event adminTeams load
| ev_team : logs_event adminTeams (team_effect adminTeams)
| ev_unmount : logs_event adminTeams unmount
| ev_createSession : logs_event adminTeams createSession
| ev_search : logs_event adminTeams search
| ev_upload : logs_event adminTeams upload
| ev_test : logs_event adminTeams testSshConnection
| ev_browse p : logs_event adminTeams (browseSsh p)
| ev_scan : logs_event adminTeams scanSsh
| ev_stop : logs_event adminTeams stopTail
| ev_start e : logs_event adminTeams (startTail e)
| ev_tail e : logs_event adminTeams (onEvent e)
| ev_import e : logs_event adminTeams (importRemoteFile e)
| ev_import_all : logs_event adminTeams importVisibleFiles
| ev_choose id : logs_event adminTeams (chooseSession id)
| ev_choose_ssh id : logs_event adminTeams (chooseSshConnection id)
| ev_clear : logs_event adminTeams clearTail
| ev_render : logs_event adminTeams (modify render)
| ev_workspace x : logs_event adminTeams (modify (setWorkspace x))
| ev_show b : logs_event adminTeams (modify (setShowCreateSession b))
| ev_name x : logs_event adminTeams (modify (setNewName x))
| ev_scope x : logs_event adminTeams (modify (setScope x))
| ev_teamId x : logs_event adminTeams (modify (setTeamId x))
| ev_service x : logs_event adminTeams (modify (setServiceName x))
| ev_node x : logs_event adminTeams (modify (setNodeName x))
| ev_file f : logs_event adminTeams (modify (setFile f))
| ev_query x : logs_event adminTeams (modify (setQuery x))
| ev_level x : logs_event adminTeams (modify (setLevel x))
| ev_path x : logs_event adminTeams (modify (setRemotePath x))
| ev_filter x : logs_event adminTeams (modify (setTailFilter x))
| ev_initial x : logs_event adminTeams (modify (setTailInitialLines x))
| ev_tail_service x : logs_event adminTeams (modify (setTailServiceName x))
| ev_tail_node x : logs_event adminTeams (modify (setTailNodeName x)).
