(* ===== verification/LogsPageProps.v ===== *)
(** * The log page: its guarantees

    What the tail shows of a stream, how its lines are numbered, how tails and imports
    end. *)
From S2P Require Import Prelude JsString JsNumber LogsClient EventStream LogsPage Async.

(** ** The last lines of a tail *)

Lemma last_lines_fmap {A B} (f : A → B) l : f <$> last_lines l = last_lines (f <$> l).
Proof. unfold last_lines. rewrite length_fmap. case_match; [by rewrite fmap_drop|done]. Qed.

Lemma last_lines_snoc {A} (l : list A) x : last_lines (last_lines l ++ [x]) = last_lines (l ++ [x]).
Proof.
  assert (1 ≤ max_tail_lines) by (apply Nat.leb_le; by vm_compute).
  unfold last_lines at 2. destruct (Nat.ltb_spec max_tail_lines (length l)) as [Hl|Hl]; [|done].
  unfold last_lines. rewrite !length_app, length_drop. cbn [length].
  rewrite !(proj2 (Nat.ltb_lt _ _)) by lia. rewrite drop_app_le by (rewrite length_drop; lia).
  rewrite (drop_app_le l) by lia. rewrite drop_drop. do 2 f_equal. lia.
Qed.

Lemma last_lines_short {A} (l : list A) : length l ≤ max_tail_lines → last_lines l = l.
Proof. intros Hl. unfold last_lines. by rewrite (proj2 (Nat.ltb_ge _ _)). Qed.

(** The text and the level of a line, which are what is shown. *)
Definition shown (l : TailLine) : jstr * jstr := (tl_text l, tl_level l).
Definition shown_update (current : list (jstr * jstr)) (u : TailUpdate) : list (jstr * jstr) :=
  match u with ClearLines => [] | AppendLine text level => last_lines (current ++ [(text, level)]) end.

Lemma shown_updates id q l : shown <$> foldl (apply_update id) l q = foldl shown_update (shown <$> l) q.
Proof.
  revert l. induction q as [|[|text level] q IH]; intros l; cbn [foldl apply_update shown_update]; [done|by rewrite IH|].
  by rewrite IH, last_lines_fmap, fmap_app.
Qed.

(** What a render would show. *)
Definition pending_output (w : LP) : list (jstr * jstr) := shown <$> tailLines (output (render w)).

Lemma pending_output_eq w :
  pending_output w = foldl shown_update (shown <$> tailLines (output w)) (pendingLines (output w)).
Proof. apply shown_updates. Qed.

Lemma pending_output_render w : pending_output (render w) = pending_output w.
Proof. done. Qed.

(** The lines of events. *)
Definition event_lines (es : list TailEvent) : list (jstr * jstr) :=
  es ≫= λ e, match e with
             | tail_line line entry => [(line, default (detectLineLevel line) (le_level <$> entry))]
             | _ => []
             end.

(** A callback runs to its end. *)
Definition handle (w : LP) (e : TailEvent) : LP := (run (onEvent e) w).1.

Lemma pending_output_event w e :
  pending_output (handle w e) = match e with
    | tail_line line entry => last_lines (pending_output w ++ [(line, default (detectLineLevel line) (le_level <$> entry))])
    | _ => pending_output w
    end.
Proof.
  destruct e as [path f|line entry|message| |]; try done.
  rewrite !pending_output_eq. cbn. by rewrite foldl_app.
Qed.

Lemma pending_output_events es w l :
  pending_output w = last_lines l → pending_output (foldl handle w es) = last_lines (l ++ event_lines es).
Proof.
  revert w l. induction es as [|e es IH]; intros w l Hw; cbn [foldl]; [by rewrite Hw, app_nil_r|].
  assert (He : pending_output (handle w e) = last_lines (l ++ event_lines [e])).
  { rewrite pending_output_event, Hw. destruct e; cbn; rewrite ?app_nil_r; [done| |done..]. apply last_lines_snoc. }
  rewrite (IH _ _ He), <- app_assoc. do 2 f_equal. unfold event_lines. by rewrite <- bind_app.
Qed.

(** ** From the network to the page *)

Section pipeline.
Context (parse : jstr → option TailEvent).

(** The pieces that arrive, each with whether React renders before the next: the events of
    a piece reach the callback one after the other. *)
Fixpoint receive (buffer : jstr) (pieces : list (jstr * bool)) (w : LP) : LP :=
  match pieces with
  | [] => w
  | (text, rendered) :: rest =>
      let '(es, r) := feed parse buffer text in
      let w1 := foldl handle w es in
      let w2 := if rendered then render w1 else w1 in
      match r with Some b => receive b rest w2 | None => w2 end
  end.

Lemma receive_output pieces buffer w l :
  pending_output w = last_lines l →
  pending_output (receive buffer pieces w) = last_lines (l ++ event_lines (read_all parse buffer pieces.*1).1).
Proof.
  revert buffer w l. induction pieces as [|[text b] pieces IH]; intros buffer w l Hw; cbn [receive]; [by cbn; rewrite app_nil_r|].
  cbn [fmap list_fmap fst read_all]. destruct (feed parse buffer text) as [es r].
  pose proof (pending_output_events es w l Hw) as He.
  assert (He' : pending_output (if b then render (foldl handle w es) else foldl handle w es) = last_lines (l ++ event_lines es))
    by (destruct b; [by rewrite pending_output_render|done]).
  destruct r as [b'|]; [|done]. rewrite (IH _ _ _ He'). destruct (read_all parse b' pieces.*1) as [es' r'].
  cbn [fst]. unfold event_lines. by rewrite bind_app, app_assoc.
Qed.

(** C34. A tail shows the stream: after a tail is started, however the network cuts what the
    server sent, and whenever React renders, the output shows the lines of the events sent
    so far, in order, with the level of their entry or the one detected in the text, and
    no more than the last 5000 of them. *)
Theorem tail_shows_stream w jsons events rest pieces :
  Forall2 (λ json e, (10%N ∉ json) ∧ parse json = Some e) jsons events → includes frame_end rest = false →
  concat pieces.*1 = concat (sendEvent <$> jsons) ++ rest →
  pending_output (receive [] pieces (setTailLines ClearLines w)) = last_lines (event_lines events).
Proof.
  intros HF Hr Hp. rewrite (receive_output pieces [] _ []).
  - cbn [app]. destruct (frames_sent parse jsons events rest HF Hr) as [H1 H2].
    destruct (decide (pieces.*1 = [])) as [E|Hne].
    + rewrite E in *. cbn in Hp |- *. destruct HF; [done|]. by apply (f_equal length) in Hp.
    + rewrite read_all_concat, Hp by done. unfold feed. cbn [app]. by rewrite H1.
  - rewrite pending_output_eq. cbn. by rewrite foldl_app.
Qed.
End pipeline.

Lemma tail_shows_stream_witness :
  let parse (json : jstr) := match json with [] => None | _ => Some (tail_line json None) end in
  pending_output (receive parse [] [("data: WARN x", true); ([10; 10]%N ++ "data: y" ++ [10]%N, true); ([10]%N, false)]%js
    (setTailLines ClearLines (initial_LP []))) = [("WARN x", "WARN"); ("y", "UNKNOWN")]%js.
Proof.
  cbv zeta. rewrite (tail_shows_stream _ _ ["WARN x"; "y"]%js [tail_line "WARN x" None; tail_line "y" None]%js []).
  - by vm_compute.
  - repeat constructor; try (apply (bool_decide_unpack _); vm_compute; exact I).
  - by vm_compute.
  - by vm_compute.
Defined.

(** ** Line numbers *)

(** The updaters of a batch of lines. *)
Lemma batch_queue lines w :
  let es := (λ l, tail_line l None) <$> lines in
  pendingLines (output (foldl handle w es)) = pendingLines (output w) ++ ((λ l, AppendLine l (detectLineLevel l)) <$> lines)
  ∧ tailLineId (output (foldl handle w es)) = (tailLineId (output w) + Z.of_nat (length lines))%Z
  ∧ tailLines (output (foldl handle w es)) = tailLines (output w).
Proof.
  cbv zeta. revert w. induction lines as [|l lines IH]; intros w; cbn [fmap list_fmap foldl length].
  - rewrite app_nil_r. split_and!; [done|lia|done].
  - destruct (IH (handle w (tail_line l None))) as (-> & -> & ->). cbn. rewrite <- app_assoc. split_and!; [done|lia|done].
Qed.

Lemma batch_applied id lines (l : list TailLine) :
  length l + length lines ≤ max_tail_lines →
  foldl (apply_update id) l ((λ l, AppendLine l (detectLineLevel l)) <$> lines)
    = l ++ ((λ l, MkTailLine id l (detectLineLevel l)) <$> lines).
Proof.
  revert l. induction lines as [|x lines IH]; intros l Hl; cbn [fmap list_fmap foldl apply_update]; [by rewrite app_nil_r|].
  cbn [length] in Hl. rewrite last_lines_short by (rewrite length_app; cbn; lia).
  rewrite IH by (rewrite length_app; cbn; lia). by rewrite <- app_assoc.
Qed.

(** Lines each followed by a render. *)
Definition rendered_lines (w : LP) (lines : list jstr) : LP :=
  foldl (λ w l, render (handle w (tail_line l None))) w lines.

Definition numbered (w : LP) : Prop :=
  NoDup (tl_id <$> tailLines (output w)) ∧ (∀ l, l ∈ tailLines (output w) → tl_id l <= tailLineId (output w))%Z
  ∧ pendingLines (output w) = [].

Lemma last_lines_sublist {A} (l : list A) : sublist (last_lines l) l.
Proof. unfold last_lines. case_match; [apply sublist_drop|done]. Qed.

Lemma numbered_render w l : numbered w → numbered (render (handle w (tail_line l None))).
Proof.
  intros (Hn & Hb & Hp). unfold numbered. cbn. rewrite Hp. cbn [app foldl apply_update].
  set (new := tailLines (output w) ++ _). pose proof (last_lines_sublist new) as Hs.
  assert (Hnew : NoDup (tl_id <$> new)).
  { unfold new. rewrite fmap_app. cbn. apply NoDup_app_singleton; [done|].
    intros (x & E & Hx)%list_elem_of_fmap. apply Hb in Hx. lia. }
  split_and!; [|intros x Hx|done].
  - eapply sublist_NoDup; [exact Hnew|]. by apply fmap_sublist.
  - eapply elem_of_sublist in Hx; [|exact Hs]. unfold new in Hx.
    apply elem_of_app in Hx as [Hx| ->%list_elem_of_singleton]; [specialize (Hb x Hx); lia|done].
Qed.

(** Keys of tail lines.  While React renders after every line, the lines of the output
    have distinct keys.  Lines that arrive in one piece are different: their updaters run
    together after the last of them, and all take its number, so that two lines or more
    share one key. *)
Theorem tail_line_keys w :
  (numbered w → ∀ lines, numbered (rendered_lines w lines))
  ∧ ∀ lines, pendingLines (output w) = [] → length (tailLines (output w)) + length lines ≤ max_tail_lines →
      tl_id <$> tailLines (output (render (foldl handle w ((λ l, tail_line l None) <$> lines))))
      = (tl_id <$> tailLines (output w)) ++ replicate (length lines) (tailLineId (output w) + Z.of_nat (length lines))%Z.
Proof.
  split.
  - intros Hw lines. revert w Hw. induction lines as [|l lines IH]; intros w Hw; [done|]. by apply IH, numbered_render.
  - intros lines Hp Hl. destruct (batch_queue lines w) as (Hq & Hn & Ht). cbn -[foldl fmap]. rewrite Hq, Hp, Hn, Ht.
    cbn [app]. rewrite batch_applied, fmap_app by done. f_equal. generalize (tailLineId (output w) + Z.of_nat (length lines))%Z.
    intros n. rewrite <- list_fmap_compose. clear. induction lines as [|l lines IH]; [done|]. cbn. by rewrite <- IH.
Qed.

Lemma tail_line_keys_witness :
  numbered (initial_LP []) ∧ numbered (rendered_lines (initial_LP []) ["a"; "b"]%js)
  ∧ tl_id <$> tailLines (output (render (foldl handle (initial_LP []) [tail_line "a" None; tail_line "b" None]%js))) = [2; 2]%Z.
Proof.
  destruct (tail_line_keys (initial_LP [])) as [H1 H2].
  assert (numbered (initial_LP [])) as Hn by (split_and!; [constructor|by intros l Hl%elem_of_nil|done]).
  split_and!; [done|by apply H1|]. apply (H2 ["a"; "b"]%js); [done|apply Nat.leb_le; by vm_compute].
Defined.

(** ** The invariant of the page *)

(** Controllers come from a counter, and the output is bounded and numbered up to the
    current line. *)
Definition page_ok (w : LP) : Prop :=
  (∀ c, c ∈ aborted_ (controllers w) ∨ tailAbort (controllers w) = Some c → c < next_controller (controllers w))
  ∧ length (tailLines (output w)) ≤ max_tail_lines
  ∧ (∀ l, l ∈ tailLines (output w) → tl_id l <= tailLineId (output w))%Z.

(** A change of anything else. *)
Lemma page_ok_same w w' : controllers w' = controllers w → output w' = output w → page_ok w → page_ok w'.
Proof. unfold page_ok. by intros -> ->. Qed.

Lemma page_ok_queue u w : page_ok w → page_ok (setTailLines u w).
Proof. done. Qed.

Lemma page_ok_count w : page_ok w → page_ok (setTailLineId (λ n, n + 1)%Z w).
Proof. intros (H1 & H2 & H3). split_and!; [done|done|]. intros l Hl. specialize (H3 l Hl). cbn. lia. Qed.

Lemma length_last_lines {A} (l : list A) : length (last_lines l) ≤ max_tail_lines.
Proof. unfold last_lines. destruct (Nat.ltb_spec max_tail_lines (length l)); [rewrite length_drop|]; lia. Qed.

Lemma page_ok_render w : page_ok w → page_ok (render w).
Proof.
  intros (H1 & H2 & H3). split; [done|]. cbn [render output set_output tailLines tailLineId].
  generalize (tailLines (output w)) (tailLineId (output w)) H2 H3. clear. intros l n. revert l.
  induction (pendingLines (output w)) as [|u q IH]; intros l H2 H3; [done|]. cbn [foldl]. apply IH.
  - destruct u; [cbn; lia|apply length_last_lines].
  - destruct u as [|text level]; cbn [apply_update]; intros x Hx; [by apply elem_of_nil in Hx|].
    eapply elem_of_sublist in Hx; [|apply last_lines_sublist].
    apply elem_of_app in Hx as [Hx| ->%list_elem_of_singleton]; [by apply H3|done].
Qed.

Lemma page_ok_abort w : page_ok w → page_ok (abort_current w).
Proof.
  intros Hok. unfold abort_current. destruct (tailAbort (controllers w)) as [c|] eqn:Ec; [|done].
  destruct Hok as [H1 H]. split; [|done]. cbn. rewrite Ec in *.
  intros c' [[->%elem_of_singleton|Hc]%elem_of_union|Hc]; apply H1; auto.
Qed.

Lemma page_ok_release w : page_ok w → page_ok (setTailAbort None w).
Proof. intros (H1 & H). split; [|done]. cbn. intros c' [Hc|?]; [by apply H1; left|done]. Qed.

Lemma page_ok_new w : page_ok w → page_ok (new_controller w).
Proof.
  intros (H1 & H). split; [|done]. cbn. intros c' [Hc|[= ->]]; [|lia]. assert (c' < next_controller (controllers w)) by (apply H1; auto). lia.
Qed.

Ltac page_goal :=
  lazymatch goal with
  | H : page_ok ?w |- page_ok ?w => exact H
  | |- page_ok (setTailLines _ _) => apply page_ok_queue; page_goal
  | |- page_ok (setTailLineId _ _) => apply page_ok_count; page_goal
  | |- page_ok (render _) => apply page_ok_render; page_goal
  | |- page_ok (abort_current _) => apply page_ok_abort; page_goal
  | |- page_ok (setTailAbort None _) => apply page_ok_release; page_goal
  | |- page_ok (new_controller _) => apply page_ok_new; page_goal
  | |- page_ok (match ?x with _ => _ end) => destruct x; page_goal
  | |- page_ok (_ ?w) => apply (page_ok_same w); [reflexivity|reflexivity|page_goal]
  end.
Ltac page_steps := repeat first [preserves_step | page_goal | by auto with page].

Create HintDb page.
Lemma page_clear : preserves page_ok clear_feedback. Proof. unfold clear_feedback. page_steps. Qed.
#[export] Hint Resolve page_clear : page.
Lemma page_load : preserves page_ok load. Proof. unfold load. page_steps. Qed.
Lemma page_refresh w id : preserves page_ok (refreshSearch w id). Proof. unfold refreshSearch. page_steps. Qed.
Lemma page_stop : preserves page_ok stopTail. Proof. unfold stopTail. page_steps. Qed.
#[export] Hint Resolve page_load page_refresh page_stop : page.
Lemma page_ssh w body : preserves page_ok body → preserves page_ok (with_ssh w body).
Proof. intros ?. unfold with_ssh. page_steps. Qed.
Lemma page_files w s files : preserves page_ok (import_files w s files).
Proof. induction files; cbn [import_files]; page_steps. Qed.
#[export] Hint Resolve page_ssh page_files : page.

Lemma event_keeps_page adminTeams m : logs_event adminTeams m → preserves page_ok m.
Proof.
  destruct 1; unfold team_effect, unmount, createSession, search, upload, testSshConnection, browseSsh, scanSsh,
    startTail, onEvent, importRemoteFile, importVisibleFiles, chooseSession, chooseSshConnection, clearTail;
    page_steps; apply page_ssh; page_steps.
Qed.

(** C35. Bounds of the page.  Whatever the user does, whatever the service answers and
    whatever the tails deliver, in any order and with renders in between, the output never
    holds more than 5000 lines, none of them numbered beyond the current line, and every
    controller in use or aborted is older than the next one. *)
Theorem tail_bounded_always adminTeams teamId w ts :
  rtc (world_step (logs_event adminTeams)) (initial_LP teamId, []) (w, ts) → page_ok w.
Proof.
  intros Hs. eapply (world_invariant page_ok) in Hs as [Hw _]; [exact Hw|apply event_keeps_page|].
  split; [|constructor]. split_and!; [|cbn; lia|by intros l Hl%elem_of_nil].
  cbn. intros c [Hc|Hc]; [by apply elem_of_empty in Hc|done].
Qed.

Lemma tail_bounded_always_witness :
  let line := Start (onEvent (tail_line "x"%js None)) in
  let w := (schedule [line; line; Start (modify render)] (initial_LP [], [])).1 in
  page_ok w ∧ length (tailLines (output w)) = 2.
Proof.
  cbv zeta. split; [|by vm_compute].
  set (acts := [_; _; _]). destruct (schedule acts (initial_LP [], [])) as [w ts] eqn:E.
  apply (tail_bounded_always [] [] w ts). rewrite <- E. apply schedule_reachable. repeat constructor.
Defined.

(** ** How tails end *)

(** The page as a tail leaves it waiting. *)
Definition ready (w : LP) : Prop := is_Some (selected w) ∧ truthy (sshConnectionId (lists w)) = true.
#[export] Instance ready_dec w : Decision (ready w).
Proof. unfold ready. apply _. Defined.

(** Starting a tail on a page that is ready, and what its failure does. *)
Lemma startTail_run w entry k h :
  ready w → ∃ input w' after, let c := next_controller (controllers w) in
    startTail entry k h w = (w', Await (tail_ssh input c) after)
    ∧ (controllers w' = MkControllers (Some c) (aborted_ (controllers (abort_current w))) (S c))
    ∧ lists w' = lists w ∧ tailing (tail w') = true ∧ tailStatus (tail w') = tail_connecting ∧ tailPath (tail w') = re_path entry
    ∧ ∀ e v, ∃ v' after',
        after (inr e) v = (v', Await list_all after')
        ∧ tailing (tail v') = false ∧ error_ (feedback v') = [] ∧ tailPath (tail v') = tailPath (tail v)
        ∧ tailStatus (tail v') = (if signal_aborted v c then tailStatus (tail v) else tail_failed)
        ∧ tailAbort (controllers v') = (if bool_decide (tailAbort (controllers v) = Some c) then None else tailAbort (controllers v))
        ∧ aborted_ (controllers v') = aborted_ (controllers v)
        ∧ ∀ items sshItems v2, ∃ v3,
            after' (inl (RLists items sshItems)) v2 = k tt v3 ∧ tail v3 = tail v2 ∧ feedback v3 = feedback v2.
Proof.
  intros [[s Hs] Hc]. unfold startTail, bind, state. rewrite Hs, Hc. cbn [negb].
  assert (Hn : next_controller (controllers (abort_current w)) = next_controller (controllers w))
    by (unfold abort_current; by destruct (tailAbort (controllers w))).
  assert (Hl : lists (abort_current w) = lists w)
    by (unfold abort_current; by destruct (tailAbort (controllers w))).
  do 3 eexists. cbv zeta. rewrite <- Hn. split; [reflexivity|].
  split_and!; [done|done|done..|].
  intros e v. do 2 eexists. split; [reflexivity|].
  split_and!; try (cbn -[signal_aborted]; repeat case_match; done).
  - cbn -[signal_aborted]. destruct (signal_aborted _ _); cbn; by destruct (bool_decide _).
  - intros items sshItems v2. by eexists.
Qed.

(** The end of a tail.  A tail that fails marks its status as failed and its message is
    erased in the same step by the reload of the lists, so that the page ends with no
    message; and when a second tail replaces a running one, the end of the first, which
    was aborted, takes back the mark of a running tail from the second, which is still
    connecting and holds the current controller. *)
Theorem tail_end_effects w :
  ready w → page_ok w →
  (∀ entry err items sshItems,
     let x := drive [inr err; inl (RLists items sshItems)] (run (startTail entry) w) in
     x.2 = Finished ∧ tailStatus (tail x.1) = tail_failed ∧ error_ (feedback x.1) = [])
  ∧ ∀ e1 e2 err,
     let x := schedule [Start (startTail e1); Start (startTail e2); Answer 0 (inr err)] (w, []) in
     ∃ input c, x.2 !! 1 ≫= awaited = Some (tail_ssh input c)
       ∧ tailAbort (controllers x.1) = Some c ∧ signal_aborted x.1 c = false
       ∧ tailPath (tail x.1) = re_path e2 ∧ tailStatus (tail x.1) = tail_connecting ∧ tailing (tail x.1) = false.
Proof.
  intros Hr Hok. split.
  - intros entry err items sshItems. cbv zeta. unfold run.
    destruct (startTail_run w entry (λ _ w, (w, Finished)) (λ e w, (w, Unhandled e)) Hr)
      as (input & w' & after & -> & Hc & _ & _ & _ & _ & Ha).
    destruct (Ha err w') as (v' & after' & Ev & _ & He & _ & Hs & _ & _ & Hf).
    destruct (Hf items sshItems v') as (v3 & Ev3 & Ht & Hfb). cbn [drive]. rewrite Ev, Ev3. cbn [fst snd].
    split; [done|]. rewrite Ht, Hfb, Hs. split; [|done].
    destruct (page_ok_abort w Hok) as [Hfresh _]. unfold signal_aborted. rewrite Hc. cbn.
    rewrite bool_decide_eq_false_2; [done|]. intros Hin.
    assert (next_controller (controllers (abort_current w)) = next_controller (controllers w)) as En
      by (unfold abort_current; by destruct (tailAbort (controllers w))).
    specialize (Hfresh _ (or_introl Hin)). rewrite En in Hfresh. lia.
  - intros e1 e2 err. cbv zeta. unfold schedule. cbn [foldl perform fst snd]. unfold run.
    destruct (startTail_run w e1 (λ _ w, (w, Finished)) (λ e w, (w, Unhandled e)) Hr)
      as (i1 & w1 & after1 & -> & Hc1 & Hl1 & _ & _ & _ & Ha1). cbn [fst snd app].
    assert (Hr1 : ready w1) by (unfold ready, selected; by rewrite Hl1).
    destruct (startTail_run w1 e2 (λ _ w, (w, Finished)) (λ e w, (w, Unhandled e)) Hr1)
      as (i2 & w2 & after2 & -> & Hc2 & _ & _ & Hs2 & Hp2 & _). cbn [fst snd app lookup list_lookup].
    set (c1 := next_controller (controllers w)) in *.
    destruct (Ha1 err w2) as (v' & after' & -> & Htl & _ & Hp & Hst & Hta & Hab & _). cbn [fst snd lookup list_lookup insert list_insert].
    assert (Ea : abort_current w1 = abort c1 w1) by (unfold abort_current; by rewrite Hc1).
    rewrite Ea in Hc2. cbn in Hc2. rewrite Hc1 in Hc2. cbn in Hc2.
    exists i2, (S c1). cbn [mbind option_bind awaited]. rewrite Hc1. split; [done|].
    assert (En : next_controller (controllers (abort_current w)) = c1)
      by (unfold abort_current, c1; by destruct (tailAbort (controllers w))).
    assert (Hx1 : bool_decide (Some (S c1) = Some c1) = false) by (apply bool_decide_eq_false_2; intros [=]; lia).
    assert (Hx2 : signal_aborted w2 c1 = true) by (unfold signal_aborted; rewrite Hc2; apply bool_decide_eq_true_2; set_solver).
    rewrite Hx2 in Hst. rewrite Hc2 in Hta. cbn in Hta. rewrite Hx1 in Hta.
    split_and!; [done| |by rewrite Hp|by rewrite Hst|done].
    unfold signal_aborted. rewrite Hab, Hc2. cbn. apply bool_decide_eq_false_2. intros [E|Hin]%elem_of_union; [set_solver by lia|].
    destruct (page_ok_abort w Hok) as [Hfresh _]. specialize (Hfresh _ (or_introl Hin)). lia.
Qed.

(** A page with a session and an SSH connection, its remote files listed. *)
Definition sample_page : LP :=
  let s := MkLogSession "s"%js "n"%js "ready"%js "personal"%js None None [] [] (num 0) (num 0) None in
  let entry n t := MkRemoteLogEntry n ("/var/log/"%js ++ n) t 0 (num 0) in
  setRemoteEntries [entry "a.log"%js remote_file; entry "d"%js remote_directory; entry "x.gz"%js remote_file; entry "b.TXT"%js remote_file]
    (set_lists (λ _, MkLists [s] [] "s"%js "c"%js false) (initial_LP [])).

Lemma tail_end_effects_witness :
  ready sample_page ∧ page_ok sample_page ∧
  let entry := MkRemoteLogEntry "a.log"%js "/var/log/a.log"%js remote_file 0 (num 0) in
  error_ (feedback (drive [inr (Some "refused"%js); inl (RLists [] [])] (run (startTail entry) sample_page)).1) = [].
Proof.
  assert (Hok : page_ok sample_page).
  { split_and!; [|cbn; lia|by intros l Hl%elem_of_nil]. cbn. intros c [Hc|Hc]; [by apply elem_of_empty in Hc|done]. }
  assert (Hr : ready sample_page) by (apply (bool_decide_unpack _); vm_compute; exact I).
  split_and!; [done|done|]. apply (proj1 (tail_end_effects sample_page Hr Hok)).
Defined.

(** ** Batch imports *)

Lemma import_files_run w s files k h v :
  (∀ rs, drive (replicate (length files) (inl RVoid) ++ rs) (import_files w s files k h v)
         = drive rs (k tt (foldl (λ v e, setImportingPath (re_path e) v) v files))
       ∧ calls (replicate (length files) (inl RVoid) ++ rs) (import_files w s files k h v)
         = ((λ e, import_ssh (import_input w s e)) <$> files) ++ calls rs (k tt (foldl (λ v e, setImportingPath (re_path e) v) v files))).
Proof.
  revert v. induction files as [|e files IH]; intros v rs; [done|]. cbn [length replicate app import_files].
  unfold bind, modify, await. cbn [drive calls fmap list_fmap foldl]. destruct (IH (setImportingPath (re_path e) v) rs) as [-> ->]. done.
Qed.

Lemma import_files_fail w s done_ entry rest k h v err :
  let v' := foldl (λ v e, setImportingPath (re_path e) v) v (done_ ++ [entry]) in
  let replies := replicate (length done_) (inl RVoid) ++ [inr err] in
  drive replies (import_files w s (done_ ++ entry :: rest) k h v) = h err v'
  ∧ calls replies (import_files w s (done_ ++ entry :: rest) k h v)
    = ((λ e, import_ssh (import_input w s e)) <$> done_ ++ [entry]) ++ calls [] (h err v').
Proof.
  cbv zeta. revert v. induction done_ as [|e done_ IH]; intros v; cbn [length replicate app import_files].
  - unfold bind, modify, await. cbn [drive calls fmap list_fmap foldl app]. by destruct (h err _) as [? []].
  - unfold bind, modify, await. cbn [drive calls fmap list_fmap foldl app].
    destruct (IH (setImportingPath (re_path e) v)) as [-> ->]. done.
Qed.

Lemma importing_paths v files :
  let v' := foldl (λ v e, setImportingPath (re_path e) v) v files in
  lists v' = lists v ∧ feedback v' = feedback v ∧ search_form v' = search_form v
  ∧ batchImporting (remote v') = batchImporting (remote v) ∧ remoteEntries (remote v') = remoteEntries (remote v).
Proof. cbv zeta. revert v. induction files as [|e files IH]; intros v; [done|]. apply (IH (setImportingPath (re_path e) v)). Qed.

(** Importing all files.  The files shown are imported one at a time in the order shown,
    each after the answer to the one before; when all have been accepted the search is
    refreshed, and the first refusal ends the batch: later files are not requested, its
    message is shown, and the page is no longer importing. *)
Theorem import_all_spec w s :
  selected w = Some s → truthy (sshConnectionId (lists w)) = true →
  let start e := import_ssh (import_input w s e) in
  (∀ done_ entry rest err, importable w = done_ ++ entry :: rest →
     let replies := replicate (length done_) (inl RVoid) ++ [inr err] in
     let x := drive replies (run importVisibleFiles w) in
     calls replies (run importVisibleFiles w) = start <$> done_ ++ [entry]
     ∧ x.2 = Finished ∧ error_ (feedback x.1) = messageFor err
     ∧ importingPath (remote x.1) = [] ∧ batchImporting (remote x.1) = false)
  ∧ (importable w ≠ [] → truthy (ls_id s) = true →
     let replies := replicate (length (importable w)) (inl RVoid) in
     ∃ input, calls replies (run importVisibleFiles w) = (start <$> importable w) ++ [search_logs (ls_id s) input]
       ∧ success (feedback (drive replies (run importVisibleFiles w)).1)
         = "已导入 "%js ++ dec_Z (Z.of_nat (length (importable w))) ++ " 个远程日志文件"%js).
Proof.
  intros Hs Hc. cbv zeta. split.
  - intros done_ entry rest err Hf. unfold run, importVisibleFiles, bind, state. rewrite Hs, Hc, Hf. cbn [negb].
    destruct (done_ ++ entry :: rest) as [|e l] eqn:E; [by destruct done_|].
    unfold finally, catch, clear_feedback, bind, modify. rewrite <- E.
    match goal with |- context [import_files w s _ ?k ?h ?v] => destruct (import_files_fail w s done_ entry rest k h v err) as [-> ->] end.
    split; [apply app_nil_r|]. by split_and!.
  - intros Hne Hid. unfold run, importVisibleFiles, bind, state. rewrite Hs, Hc. cbn [negb].
    destruct (importable w) as [|e l] eqn:E; [done|].
    unfold finally, catch, clear_feedback, bind, modify. rewrite <- E in *. clear e l E Hne.
    match goal with |- context [import_files w s ?l ?k ?h ?v] =>
      destruct (import_files_run w s l k h v []) as [Hd Hk]; rewrite app_nil_r in Hd, Hk; rewrite Hd, Hk end.
    unfold refreshSearch. rewrite Hid. cbn [negb]. eexists. split; [reflexivity|]. done.
Qed.

Lemma import_all_spec_witness :
  length (importable sample_page) = 2
  ∧ importingPath (remote (drive [inl RVoid; inr (Some "no space"%js)] (run importVisibleFiles sample_page)).1) = [].
Proof.
  split; [by vm_compute|].
  destruct (selected sample_page) as [s|] eqn:Es; [|done].
  destruct (import_all_spec sample_page s Es ltac:(by vm_compute)) as [H _].
  destruct (importable sample_page) as [|e [|e' [|? ?]]] eqn:Ei; [by vm_compute in Ei..| |by vm_compute in Ei].
  by destruct (H [e] e' [] (Some "no space"%js) eq_refl) as (_ & _ & _ & H4 & _).
Defined.
