(* ===== verification/SqlCompletion.v ===== *)
(** * SQL completion

    [src/web/src/features/editor/sqlCompletion.ts]: the table or column prefix before the
    cursor, the tables a statement mentions, and the suggestions made from the catalog of
    the connection. *)
From S2P Require Import Prelude JsString JsNumber JsRegex Api.

Record SqlCompletionContext := MkCtx {
  cc_driver : SqlDriver;
  cc_activeDatabase : jstr;
  cc_defaultSchema : jstr;
  cc_objects : list DatabaseObject;
}.

Inductive SuggestionKind := STable | SColumn.
#[export] Instance SuggestionKind_eq_dec : EqDecision SuggestionKind.
Proof. solve_decision. Defined.
Record SqlCompletionSuggestion := MkSuggestion {
  sg_label : jstr;
  sg_insertText : jstr;
  sg_detail : option jstr;
  sg_kind : SuggestionKind;
}.

Record TableCatalogItem := MkItem {
  ti_schema : jstr;
  ti_name : jstr;
  ti_qualified : jstr;
  (** Names with data types. *)
  ti_columns : list (jstr * option jstr);
}.

Inductive CompletionTarget := CTable | CColumn.
#[export] Instance CompletionTarget_eq_dec : EqDecision CompletionTarget.
Proof. solve_decision. Defined.
Record ParsedPrefix := MkPrefix { px_target : CompletionTarget; px_word : jstr; px_tableName : option jstr }.

Definition defaultSchema (ctx : SqlCompletionContext) : jstr :=
  or_else (cc_defaultSchema ctx)
    (or_else (cc_activeDatabase ctx) (match cc_driver ctx with PostgreSQL => "public"%js | MySQL => [] end)).

(** ** The prefix before the cursor *)

(** A back quote or a quote. *)
Definition quote_char (c : N) : bool := existsb (N.eqb c) [c_backtick; c_dquote; c_quote].
Definition word_dot (c : N) : bool := is_word c || (c =? 46)%N.
Definition word_tick (c : N) : bool := is_word c || (c =? c_backtick)%N.

Definition table_keyword : re :=
  (WordB · AltsI ["FROM"; "JOIN"; "UPDATE"; "INTO"; "TABLE"]%js · Plus ws · Star true (Class_ word_dot) · Eol false)%re.

Definition inferCompletionTarget (textBeforeCursor : jstr) : CompletionTarget :=
  let tail := replace_all (Class_ quote_char) [] textBeforeCursor in
  if test table_keyword tail then CTable else CColumn.

(** A table and a dot before the last word, and the last word with its dots. *)
Definition table_dot : re :=
  (Group 1 (Plus word) · Lit "."%js · Group 2 (Star true (Class_ word_tick)) · Eol false)%re.
Definition last_word : re := (Group 1 (Star true (Class_ word_dot)) · Eol false)%re.

Definition line_tail (text : jstr) : jstr := List.last (split [c_nl] text) [].

Definition parseCompletionPrefix (textBeforeCursor : jstr) : ParsedPrefix :=
  let lineTail := line_tail textBeforeCursor in
  match exec table_dot lineTail with
  | Some m => MkPrefix CColumn (default [] (group 2 m)) (Some (default [] (group 1 m)))
  | None =>
      let word := match exec last_word lineTail with Some m => default [] (group 1 m) | None => [] end in
      MkPrefix (inferCompletionTarget textBeforeCursor) word None
  end.

Section completion.
Context `{Unicode}.

(** ** The tables of a statement *)

Definition table_ref := (jstr * jstr)%type.
(** The key of [seen] identifies a pair up to case. *)
Definition ref_key (r : table_ref) : jstr := toLowerCase r.1 ++ [0%N] ++ toLowerCase r.2.

Definition add_ref (schemaFallback : jstr) (found : list table_ref) (schema name : jstr) : list table_ref :=
  let r := (or_else schema schemaFallback, name) in
  if negb (truthy name) || existsb (λ x, bool_decide (ref_key x = ref_key r)) found then found else found ++ [r].

Definition outer_quotes : re := (Bol · Class_ quote_char ∥ Class_ quote_char · Eol false)%re.
Definition skipped_word : re := (Bol · AltsI ["INNER"; "LEFT"; "RIGHT"; "FULL"; "CROSS"; "ON"; "AS"]%js · Eol false)%re.

Definition parseRef (schemaFallback : jstr) (found : list table_ref) (raw : jstr) : list table_ref :=
  let cleaned := trim (replace_all outer_quotes [] raw) in
  if negb (truthy cleaned) || test skipped_word cleaned then found
  else if includes "."%js cleaned then
    match split "."%js cleaned with
    | schema :: name :: _ => add_ref schemaFallback found schema name
    | _ => found
    end
  else add_ref schemaFallback found schemaFallback cleaned.

Definition join_kinds : list jstr := ["INNER"; "LEFT"; "RIGHT"; "FULL"; "CROSS"]%js.
Definition join_prefix : re := (WordB · Opt (AltsI join_kinds) · Star true ws · LitI "JOIN"%js)%re.

(** From the first FROM to the next clause, a semicolon or the end. *)
Definition from_clause : re :=
  (WordB · LitI "FROM"%js · WordB · Group 1 (Star false any_unit)
   · (WordB · LitI "WHERE"%js · WordB ∥ WordB · LitI "GROUP"%js · WordB ∥ WordB · LitI "ORDER"%js · WordB
      ∥ WordB · LitI "LIMIT"%js · WordB ∥ WordB · LitI "HAVING"%js · WordB ∥ Lit ";"%js ∥ Eol false))%re.

(** A name after a keyword, between the same quotes or none. *)
Definition named_ref : re := (Group 1 (Opt (Class_ quote_char)) · Group 2 (Plus (Class_ word_dot)) · Backref 1)%re.
Definition joinPattern : re := (join_prefix · Plus ws · named_ref)%re.
Definition updatePattern : re := (WordB · LitI "UPDATE"%js · Plus ws · named_ref)%re.
Definition intoPattern : re := (WordB · LitI "INTO"%js · Plus ws · named_ref)%re.

Definition segment_token (segment : jstr) : jstr :=
  hd [] (split_re (Plus ws) (replace_first (Bol · join_prefix · WordB)%re [] (trim segment))).

(** The tables of the clause after the first FROM. *)
Definition from_refs (schemaFallback sql : jstr) : list table_ref :=
  match exec from_clause sql with
  | None => []
  | Some m =>
      foldl (λ found segment, let token := segment_token segment in
                              if truthy token then parseRef schemaFallback found token else found)
        [] (split ","%js (default [] (group 1 m)))
  end.

(** The loop over the matches of a pattern. *)
Definition pattern_refs (pattern : re) (schemaFallback sql : jstr) (found : list table_ref) : list table_ref :=
  foldl (λ found m, parseRef schemaFallback found (default [] (group 2 m))) found (exec_all pattern sql).

Definition extractTablesFromSql (sql schemaFallback : jstr) : list table_ref :=
  pattern_refs intoPattern schemaFallback sql
    (pattern_refs updatePattern schemaFallback sql
       (pattern_refs joinPattern schemaFallback sql (from_refs schemaFallback sql))).

(** ** The catalog *)

Definition is_kind (k : ObjectKind) (o : DatabaseObject) : bool := bool_decide (o_kind o = k).

(** [item.schema || fallback]. *)
Definition schema_or (fallback : jstr) (o : DatabaseObject) : jstr := or_else (default [] (o_schema o)) fallback.

Definition catalog_item (fallback : jstr) (columns : list DatabaseObject) (table : DatabaseObject) : TableCatalogItem :=
  let schema := schema_or fallback table in
  MkItem schema (o_name table) (schema ++ "."%js ++ o_name table)
    ((λ c, (o_name c, o_dataType c)) <$>
     filterb (λ c, bool_decide (o_parent c = Some (o_name table)) && bool_decide (schema_or fallback c = schema)) columns).

Definition buildTableCatalog (ctx : SqlCompletionContext) : list TableCatalogItem :=
  catalog_item (defaultSchema ctx) (filterb (is_kind KColumn) (cc_objects ctx)) <$> filterb (is_kind KTable) (cc_objects ctx).

Definition matchesFilter (v filter : jstr) : bool :=
  if truthy filter then includes (toLowerCase filter) (toLowerCase v) else true.

Definition same_name (a b : jstr) : bool := bool_decide (toLowerCase a = toLowerCase b).
Definition findTable (catalog : list TableCatalogItem) (schema name : jstr) : option TableCatalogItem :=
  match find_first (λ item, same_name (ti_name item) name && same_name (ti_schema item) schema) catalog with
  | Some item => Some item
  | None => find_first (λ item, same_name (ti_name item) name) catalog
  end.

(** ** Suggestions *)

Definition table_suggestion (t : TableCatalogItem) : SqlCompletionSuggestion :=
  MkSuggestion (ti_qualified t) (ti_qualified t) (Some "表"%js) STable.
Definition suggestTables (catalog : list TableCatalogItem) (filter : jstr) : list SqlCompletionSuggestion :=
  table_suggestion <$> filterb (λ t, matchesFilter (ti_name t) filter || matchesFilter (ti_qualified t) filter) catalog.

(** The string [column.dataType] when it is there and not empty. *)
Definition present (s : option jstr) : option jstr := match s with Some ((_ :: _) as t) => Some t | _ => None end.

Definition column_suggestion (qualify : bool) (t : TableCatalogItem) (c : jstr * option jstr) : SqlCompletionSuggestion :=
  let label := if qualify then ti_name t ++ "."%js ++ c.1 else c.1 in
  MkSuggestion label label
    (Some (match present (snd c) with Some d => ti_qualified t ++ " · "%js ++ d | None => ti_qualified t end)) SColumn.
Definition column_matches (filter : jstr) (t : TableCatalogItem) (c : jstr * option jstr) : bool :=
  matchesFilter c.1 filter || matchesFilter (ti_name t ++ "."%js ++ c.1) filter || matchesFilter (ti_qualified t) filter.
Definition suggestColumnsForTables (tables : list TableCatalogItem) (filter : jstr) (qualify : bool) : list SqlCompletionSuggestion :=
  tables ≫= λ t, column_suggestion qualify t <$> filterb (column_matches filter t) (ti_columns t).

(** The columns of all tables, when the statement mentions no table. *)
Definition any_column (t : TableCatalogItem) (c : jstr * option jstr) : SqlCompletionSuggestion :=
  MkSuggestion (ti_qualified t ++ "."%js ++ c.1) c.1 (Some (default "字段"%js (snd c))) SColumn.
Definition all_columns (catalog : list TableCatalogItem) (filter : jstr) : list SqlCompletionSuggestion :=
  catalog ≫= λ t, any_column t <$>
    filterb (λ c, matchesFilter c.1 filter || matchesFilter (ti_qualified t ++ "."%js ++ c.1) filter) (ti_columns t).

(** The part for a column without a table: the tables the statement mentions. *)
Definition suggestReferenced (ctx : SqlCompletionContext) (catalog : list TableCatalogItem) (sql filter : jstr) : list SqlCompletionSuggestion :=
  let referenced := extractTablesFromSql sql (defaultSchema ctx) in
  let resolved := omap (λ r : table_ref, findTable catalog r.1 r.2) referenced in
  match resolved, referenced with
  | _ :: _, _ => suggestColumnsForTables resolved filter (1 <? length resolved)%nat
  | [], _ :: _ => suggestTables catalog []
  | [], [] =>
      match all_columns catalog filter with
      | [] => suggestTables catalog filter
      | columns => columns
      end
  end.

Definition suggestSqlCompletions (ctx : SqlCompletionContext) (sql : jstr) (prefix : ParsedPrefix) : list SqlCompletionSuggestion :=
  let catalog := buildTableCatalog ctx in
  let filter := px_word prefix in
  match catalog, px_target prefix with
  | [], _ => []
  | _, CTable => suggestTables catalog filter
  | _, CColumn =>
      match px_tableName prefix with
      | Some ((_ :: _) as tableName) =>
          match findTable catalog (defaultSchema ctx) tableName with
          | Some table => suggestColumnsForTables [table] filter false
          | None => suggestTables catalog tableName
          end
      | _ => suggestReferenced ctx catalog sql filter
      end
  end.

(** ** The provider

    [provideCompletionItems], with the text before the cursor, its column and the start of
    the editor's word as arguments. *)
Record CompletionItem := MkCompletionItem {
  it_suggestion : SqlCompletionSuggestion;
  it_startColumn : Z;
  it_endColumn : Z;
  it_sortText : jstr;
}.
Definition provideCompletionItems (ctx : option SqlCompletionContext) (sql textBefore : jstr) (column wordStart : Z) : list CompletionItem :=
  match ctx with
  | None => []
  | Some ctx =>
      match cc_objects ctx with
      | [] => []
      | _ =>
          let prefix := parseCompletionPrefix textBefore in
          let start := match px_tableName prefix with
                       | Some (_ :: _) => (column - Z.of_nat (length (px_word prefix)))%Z
                       | _ => wordStart
                       end in
          (λ s, MkCompletionItem s start column (toLowerCase (sg_label s))) <$> suggestSqlCompletions ctx sql prefix
      end
  end.
End completion.

(** ** The behaviour of the examples *)

Section examples.
#[local] Existing Instance ascii_unicode.

Definition sample_ctx : SqlCompletionContext :=
  let table n := MkObject KTable None (Some "public"%js) n None None None in
  let column p n t := MkObject KColumn None (Some "public"%js) n (Some p) (Some t) None in
  MkCtx PostgreSQL "channelHub"%js "public"%js
    [table "enterprise_contact"; column "enterprise_contact" "id" "bigint"; column "enterprise_contact" "name" "varchar";
     table "channel"; column "channel" "id" "bigint"; column "channel" "code" "varchar"]%js.

Example from_and_join : extractTablesFromSql "SELECT * FROM public.enterprise_contact JOIN channel ON channel.id = 1"%js "public"%js
  = [("public", "enterprise_contact"); ("public", "channel")]%js.
Proof. by vm_compute. Qed.
Example two_tables : sg_label <$> suggestSqlCompletions sample_ctx "SELECT id FROM public.enterprise_contact, public.channel WHERE "%js
    (MkPrefix CColumn "id"%js None) = ["enterprise_contact.id"; "channel.id"]%js.
Proof. by vm_compute. Qed.
Example after_dot : sg_label <$> suggestSqlCompletions sample_ctx "SELECT enterprise_contact."%js
    (parseCompletionPrefix "SELECT enterprise_contact."%js) = ["id"; "name"]%js.
Proof. by vm_compute. Qed.
Example table_target : parseCompletionPrefix "SELECT id FROM "%js = MkPrefix CTable [] None.
Proof. by vm_compute. Qed.
End examples.
