(* ===== verification/SqlCompletionProps.v ===== *)
(** * SQL completion: its guarantees *)
From S2P Require Import Prelude JsString JsNumber JsRegex Api SqlCompletion.

(** ** The prefix *)

Lemma mrun_group n a k s :
  mrun (Group n a) k s =
    mrun a (λ s', k (MState (m_before s') (m_after s')
      (<[n := take (length (m_after s) - length (m_after s')) (m_after s)]> (m_caps s')))) s.
Proof. done. Qed.

Lemma mrun_eol k b cp : mrun (Eol false) k (MState b [] cp) = k (MState b [] cp).
Proof. done. Qed.

Lemma mrun_eol_sound k b a cp r : mrun (Eol false) k (MState b a cp) = Some r → a = [] ∧ k (MState b a cp) = Some r.
Proof. by destruct a. Qed.

Lemma forallb_Forall_true (p : N → bool) l : forallb p l = true ↔ Forall (λ c, p c = true) l.
Proof. rewrite forallb_elem. by rewrite Forall_forall. Qed.

(** What a match of the two prefix expressions at a position tells, and when there is one. *)
Lemma last_word_match b a :
  match_here last_word b a =
    if forallb word_dot a then Some (RMatch (reverse b) a [] (<[1 := a]> ∅)) else None.
Proof.
  unfold match_here, last_word. rewrite mrun_seq, mrun_group. destruct (forallb word_dot a) eqn:E.
  - erewrite star_class_all; [|exact E|cbn; reflexivity]. cbn. by rewrite Nat.sub_0_r, firstn_all.
  - destruct (mrun (Star true (Class_ word_dot)) _ _) as [s|] eqn:Em; [|done].
    apply mrun_star_class_sound in Em as (u & v & Ha & Hu & Hk). cbn [m_after m_before m_caps] in Ha, Hk.
    apply mrun_eol_sound in Hk as [-> _]. rewrite app_nil_r in Ha. subst u. apply forallb_Forall_true in Hu. congruence.
Qed.

Definition dotted (a t w : jstr) : Prop :=
  a = t ++ "."%js ++ w ∧ t ≠ [] ∧ Forall (λ c, is_word c = true) t ∧ Forall (λ c, word_tick c = true) w.

Lemma table_dot_sound b a m :
  match_here table_dot b a = Some m → ∃ t w, dotted a t w ∧ group 1 m = Some t ∧ group 2 m = Some w.
Proof.
  unfold match_here, table_dot. destruct (mrun _ _ _) as [s|] eqn:Em; [|done]. cbn [mbind option_bind].
  intros [= <-]. unfold group. cbn [r_caps].
  rewrite mrun_seq, mrun_group in Em. unfold Plus, word in Em. rewrite mrun_seq, mrun_class in Em.
  destruct a as [|c a]; [done|]. destruct (is_word c) eqn:Ec; [|done].
  apply mrun_star_class_sound in Em as (u & v & Ha & Hu & Hk). cbn [m_after m_before m_caps] in Ha, Hk. subst a.
  rewrite mrun_seq in Hk. destruct v as [|x v]; [done|]. cbn [Lit foldr] in Hk. rewrite mrun_seq, mrun_class in Hk.
  destruct (N.eqb_spec 46 x) as [<-|]; [|done]. change (mrun Eps ?k ?s) with (k s) in Hk.
  rewrite mrun_seq, mrun_group in Hk. cbn [m_after] in Hk.
  apply mrun_star_class_sound in Hk as (w & v' & Hv & Hw & Hk). cbn [m_after m_before m_caps] in Hv, Hk. subst v.
  apply mrun_eol_sound in Hk as [-> Hk]. cbn in Hk. simplify_eq. rewrite app_nil_r in *. cbn [m_caps].
  exists (c :: u), w. split_and!.
  - split_and!; [done|done|by constructor|done].
  - rewrite lookup_insert_ne, lookup_insert by done. f_equal. rewrite length_app. cbn [length].
    replace (length u + S (length w) - length w) with (length (c :: u)) by (cbn; lia).
    exact (take_app_length (c :: u) (46%N :: w)).
  - rewrite lookup_insert. by rewrite Nat.sub_0_r, firstn_all.
Qed.

Lemma table_dot_exists b a t w : dotted a t w → is_Some (match_here table_dot b a).
Proof.
  intros (-> & Ht & Hu & Hw). unfold match_here, table_dot. rewrite mrun_seq, mrun_group. unfold Plus, word.
  destruct t as [|c u]; [done|]. apply Forall_cons in Hu as [Hc Hu]. rewrite mrun_seq. cbn [app]. rewrite mrun_class, Hc.
  erewrite star_class_stop; [by eexists|by apply forallb_Forall_true|done|].
  rewrite mrun_seq, (mrun_lit "."%js _ _ w), mrun_seq, mrun_group.
  erewrite star_class_all; [reflexivity|by apply forallb_Forall_true|reflexivity].
Qed.

(** The prefix before the cursor.  On the cursor's line the prefix is the end of the
    text: a table's name, a dot and the word begun after it, with the longest such name,
    when the line ends in them; otherwise the longest run of word characters and dots, and
    no shorter prefix could be read as a table's. *)
Theorem parse_prefix_spec text :
  let p := parseCompletionPrefix text in
  match px_tableName p with
  | Some t => px_target p = CColumn ∧ ∃ pre, line_tail text = pre ++ t ++ "."%js ++ px_word p
      ∧ t ≠ [] ∧ Forall (λ c, is_word c = true) t ∧ Forall (λ c, word_tick c = true) (px_word p)
      ∧ ∀ pre' c, pre = pre' ++ [c] → is_word c = false
  | None => px_target p = inferCompletionTarget text ∧ ∃ pre, line_tail text = pre ++ px_word p
      ∧ Forall (λ c, word_dot c = true) (px_word p) ∧ (∀ pre' c, pre = pre' ++ [c] → word_dot c = false)
      ∧ ∀ pre' t w, line_tail text = pre' ++ t ++ "."%js ++ w → t ≠ [] → Forall (λ c, is_word c = true) t →
          ¬ Forall (λ c, word_tick c = true) w
  end.
Proof.
  cbv zeta. unfold parseCompletionPrefix. destruct (exec table_dot (line_tail text)) as [m|] eqn:E.
  - cbn [px_tableName px_target px_word]. split; [done|].
    apply search_from_first in E as (pre & a & Htail & Hm & Hmin). rewrite app_nil_r in Hm.
    apply table_dot_sound in Hm as (t & w & (-> & Ht & Hu & Hw) & -> & ->). cbn [default].
    exists pre. split_and!; [done..|]. intros pre' c ->. destruct (is_word c) eqn:Ec; [|done]. exfalso.
    destruct (table_dot_exists (reverse pre' ++ []) ([c] ++ t ++ "."%js ++ w) (c :: t) w) as [x Hx].
    { split_and!; [done|done|by constructor|done]. }
    by rewrite (Hmin pre' [c]) in Hx.
  - cbn [px_tableName px_target px_word]. split; [done|].
    destruct (exec last_word (line_tail text)) as [m|] eqn:El.
    + apply search_from_first in El as (pre & a & Htail & Hm & Hmin). rewrite app_nil_r in Hm.
      rewrite last_word_match in Hm. destruct (forallb word_dot a) eqn:Ea; [|done]. simplify_eq. unfold group. cbn [r_caps default].
      rewrite lookup_insert. cbn [default]. exists pre. split_and!; [done|by apply forallb_Forall_true| |].
      * intros pre' c ->. destruct (word_dot c) eqn:Ec; [|done]. exfalso.
        specialize (Hmin pre' [c] eq_refl ltac:(done)). rewrite last_word_match in Hmin. cbn in Hmin. by rewrite Ec, Ea in Hmin.
      * intros pre' t w Hl Ht Hu Hw. destruct (table_dot_exists (reverse pre') (t ++ "."%js ++ w) t w) as [x Hx]; [done|].
        eapply search_from_none in E; [|exact Hl]. rewrite app_nil_r in E. congruence.
    + eapply search_from_none in El; [|symmetry; apply app_nil_r]. by rewrite last_word_match in El.
Qed.

(** ** Suggestions *)

Section suggestions.
Context `{Unicode}.

(** What the catalog can suggest. *)
Inductive suggested (catalog : list TableCatalogItem) : SqlCompletionSuggestion → Prop :=
| suggested_table t : t ∈ catalog → suggested catalog (table_suggestion t)
| suggested_column t c qualify : t ∈ catalog → c ∈ ti_columns t → suggested catalog (column_suggestion qualify t c)
| suggested_any t c : t ∈ catalog → c ∈ ti_columns t → suggested catalog (any_column t c).

Lemma elem_suggestTables catalog filter s :
  s ∈ suggestTables catalog filter ↔
  ∃ t, t ∈ catalog ∧ matchesFilter (ti_name t) filter || matchesFilter (ti_qualified t) filter = true ∧ s = table_suggestion t.
Proof.
  unfold suggestTables. rewrite list_elem_of_fmap. setoid_rewrite elem_of_filterb. naive_solver.
Qed.

Lemma elem_suggestColumns tables filter q s :
  s ∈ suggestColumnsForTables tables filter q ↔
  ∃ t c, t ∈ tables ∧ c ∈ ti_columns t ∧ column_matches filter t c = true ∧ s = column_suggestion q t c.
Proof.
  unfold suggestColumnsForTables. rewrite list_elem_of_bind. setoid_rewrite list_elem_of_fmap.
  setoid_rewrite elem_of_filterb. naive_solver.
Qed.

Lemma elem_all_columns catalog filter s : s ∈ all_columns catalog filter → suggested catalog s.
Proof.
  unfold all_columns. intros (t & Hs & Ht)%list_elem_of_bind. apply list_elem_of_fmap in Hs as (c & -> & [Hc _]%elem_of_filterb).
  by constructor.
Qed.

Lemma findTable_spec catalog schema name :
  match findTable catalog schema name with
  | Some t => t ∈ catalog ∧ same_name (ti_name t) name = true
      ∧ (same_name (ti_schema t) schema = true
         ∨ ∀ t', t' ∈ catalog → same_name (ti_name t') name = true → same_name (ti_schema t') schema = false)
  | None => ∀ t, t ∈ catalog → same_name (ti_name t) name = false
  end.
Proof.
  unfold findTable. destruct (find_first _ catalog) as [t|] eqn:E.
  - apply find_first_Some in E as [Ht E]. apply andb_true_iff in E as [E1 E2]. auto.
  - destruct (find_first (λ item, same_name (ti_name item) name) catalog) as [t|] eqn:E2.
    + apply find_first_Some in E2 as [Ht E2]. split_and!; [done..|right]. intros t' Ht' Hn.
      eapply find_first_None in E; [|exact Ht']. cbn in E. by rewrite Hn in E.
    + intros t Ht. by eapply find_first_None in E2.
Qed.

Lemma elem_suggestReferenced ctx catalog sql filter s : s ∈ suggestReferenced ctx catalog sql filter → suggested catalog s.
Proof.
  unfold suggestReferenced. destruct (omap _ _) as [|t0 ts] eqn:Eo.
  - destruct (extractTablesFromSql _ _) as [|r rs].
    + destruct (all_columns catalog filter) eqn:Ea.
      * intros (t & Ht & _ & ->)%elem_suggestTables. by constructor.
      * rewrite <- Ea. apply elem_all_columns.
    + intros (t & Ht & _ & ->)%elem_suggestTables. by constructor.
  - rewrite <- Eo. intros (t & c & Ht & Hc & _ & ->)%elem_suggestColumns. constructor; [|done].
    apply list_elem_of_omap in Ht as (r & _ & Hr). pose proof (findTable_spec catalog r.1 r.2) as Hf. rewrite Hr in Hf. tauto.
Qed.


(** ** The tables of a statement *)

Lemma add_ref_ok fb found schema name :
  NoDup (ref_key <$> found) → Forall (λ r, r.2 ≠ []) found →
  NoDup (ref_key <$> add_ref fb found schema name) ∧ Forall (λ r, r.2 ≠ []) (add_ref fb found schema name).
Proof.
  intros Hn Hf. unfold add_ref. destruct (truthy name) eqn:Et; [|done]. cbn [negb orb].
  destruct (existsb _ found) eqn:Ee; [done|]. rewrite fmap_app. cbn. split.
  - apply NoDup_app_singleton; [done|]. intros (x & Hx & Hin)%list_elem_of_fmap.
    rewrite existsb_not in Ee. specialize (Ee x Hin). cbn in Ee. bool_to_prop. congruence.
  - apply Forall_app. split; [done|]. constructor; [|done]. by destruct name.
Qed.

Definition refs_ok (found : list table_ref) : Prop := NoDup (ref_key <$> found) ∧ Forall (λ r, r.2 ≠ []) found.

Lemma parseRef_ok fb found raw : refs_ok found → refs_ok (parseRef fb found raw).
Proof.
  intros [? ?]. unfold parseRef. destruct (_ || _); [done|]. destruct (includes _ _); [|by apply add_ref_ok].
  destruct (split _ _) as [|? [|? ?]]; [done..|by apply add_ref_ok].
Qed.

Lemma fold_refs_ok {A} (f : list table_ref → A → list table_ref) l found :
  (∀ found x, refs_ok found → refs_ok (f found x)) → refs_ok found → refs_ok (foldl f found l).
Proof. intros Hf. revert found. induction l as [|x l IH]; intros found Hok; [done|]. by apply IH, Hf. Qed.

(** No table is mentioned twice, up to case, and none without a name. *)
Lemma extract_ok sql fb : refs_ok (extractTablesFromSql sql fb).
Proof.
  unfold extractTablesFromSql, pattern_refs, from_refs. repeat (apply fold_refs_ok; [intros; by apply parseRef_ok|]).
  destruct (exec _ _); [|split; constructor]. apply fold_refs_ok; [|split; constructor].
  intros found x Hok. by case_match; [apply parseRef_ok|].
Qed.
End suggestions.
