(* ===== verification/Connections.v ===== *)
(** * Saved connections

    [src/web/src/connections/] (the records, their form and their requests), the adapter
    [src/web/src/features/database/connectionAdapter.ts] and the direct connection form
    [src/web/src/features/connections/connectionFields.ts]. *)
From S2P Require Import Prelude JsString JsNumber JsValue Uri Http Api.

(** ** Data *)

Inductive ConnectionKind := database_kind | ssh_kind.
#[export] Instance ConnectionKind_eq_dec : EqDecision ConnectionKind.
Proof. solve_decision. Defined.
Inductive ConnectionScope := personal | team.
#[export] Instance ConnectionScope_eq_dec : EqDecision ConnectionScope.
Proof. solve_decision. Defined.
Inductive ConnectionDriver := db_driver (d : DriverId) | ssh.
#[export] Instance ConnectionDriver_eq_dec : EqDecision ConnectionDriver.
Proof. solve_decision. Defined.

Record Connection := MkConnection {
  c_id : jstr;
  c_name : jstr;
  c_kind : ConnectionKind;
  c_driver : ConnectionDriver;
  c_scope : ConnectionScope;
  c_ownerUserId : option jstr;
  c_teamId : option jstr;
  c_host : jstr;
  c_port : number;
  (** A database and whatever else the server keeps. *)
  c_config : record;
  c_hasSecret : bool;
}.

Record Secret := MkSecret {
  s_username : jstr;
  s_password : option jstr;
  s_privateKey : option jstr;
  s_passphrase : option jstr;
}.
#[export] Instance Secret_eq_dec : EqDecision Secret.
Proof. solve_decision. Defined.

(** The connection of a [SaveInput], without the optional fields that no caller sets. *)
Record SavedConnection := MkSaved {
  sv_name : jstr;
  sv_kind : ConnectionKind;
  sv_driver : ConnectionDriver;
  sv_scope : ConnectionScope;
  sv_teamId : option jstr;
  sv_host : jstr;
  sv_port : number;
  sv_config : record;
}.
Record SaveInput := MkSaveInput { si_connection : SavedConnection; si_secret : option Secret }.

Record TeamSummary := MkTeam { tm_id : jstr; tm_name : jstr; tm_role : jstr }.

Record WorkbenchTarget := MkWorkbenchTarget {
  wt_id : jstr;
  wt_name : jstr;
  wt_driver : DriverId;
  wt_scope : ConnectionScope;
  wt_teamId : option jstr;
  wt_host : jstr;
  wt_port : number;
  wt_database : value;
  wt_hasSecret : bool;
}.

(** ** connections/connectionForm.ts *)

Record ConnectionFormValue := MkForm {
  f_name : jstr;
  f_kind : ConnectionKind;
  f_driver : ConnectionDriver;
  f_scope : ConnectionScope;
  f_teamId : jstr;
  f_host : jstr;
  f_port : jstr;
  f_database : jstr;
  f_username : jstr;
  f_password : jstr;
  f_privateKey : jstr;
  f_passphrase : jstr;
}.

(** The [fields] of a [ConnectionFormError]. *)
Abbreviation field_errors := (gmap jstr jstr).

Definition defaultPorts (d : ConnectionDriver) : Z :=
  match d with
  | db_driver postgres => 5432 | db_driver mysql => 3306 | db_driver mongodb => 27017 | db_driver redis => 6379 | ssh => 22
  end.
Definition defaultPort (d : ConnectionDriver) : jstr := dec_Z (defaultPorts d).
Definition defaultDriver (k : ConnectionKind) : ConnectionDriver :=
  match k with ssh_kind => ssh | database_kind => db_driver postgres end.
Definition isValidKindDriver (k : ConnectionKind) (d : ConnectionDriver) : bool :=
  match k, d with ssh_kind, ssh | database_kind, db_driver _ => true | _, _ => false end.

(** [if (condition) fields.key = message]. *)
Definition check (condition : bool) (key message : jstr) (fields : field_errors) : field_errors :=
  if condition then <[key := message]> fields else fields.

Definition raw_port (v : ConnectionFormValue) : jstr :=
  or_else (trim (f_port v)) (match f_kind v with ssh_kind => "22"%js | database_kind => defaultPort (f_driver v) end).
Definition valid_port (port : number) : bool := is_integer port && num_le (num 1) port && num_le port (num 65535).

Definition manages (teams : list TeamSummary) (id : jstr) : bool :=
  existsb (λ t, bool_decide (tm_id t = id) && bool_decide (tm_role t = "admin"%js)) teams.

Definition form_errors (v : ConnectionFormValue) (teams : list TeamSummary) (existingSecret : bool) : field_errors :=
  let is_ssh := bool_decide (f_kind v = ssh_kind) in
  let password := truthy (trim (f_password v)) in
  let privateKey := truthy (trim (f_privateKey v)) in
  check (negb (valid_port (to_number (raw_port v)))) "port"%js "端口必须在 1 到 65535 之间"%js
  (check (is_ssh && negb password && negb privateKey && negb existingSecret) "credentials"%js "请输入登录密码或私钥"%js
  (check (is_ssh && truthy (trim (f_passphrase v)) && negb privateKey) "passphrase"%js "私钥口令需要配合私钥使用"%js
  (check (bool_decide (f_scope v = team) && negb (manages teams (f_teamId v))) "teamId"%js "请选择你管理的团队"%js
  (check (negb (isValidKindDriver (f_kind v) (f_driver v))) "driver"%js "类型和驱动不匹配"%js
  (check (negb (truthy (trim (f_host v)))) "host"%js "请输入主机名"%js
  (check (negb (truthy (trim (f_name v)))) "name"%js "请输入连接名称"%js ∅)))))).

Definition when (b : bool) (s : jstr) : option jstr := if b then Some s else None.

Definition form_secret (v : ConnectionFormValue) : option Secret :=
  let username := trim (f_username v) in
  let password := trim (f_password v) in
  let privateKey := trim (f_privateKey v) in
  let passphrase := trim (f_passphrase v) in
  match f_kind v with
  | database_kind => if truthy password then Some (MkSecret username (Some password) None None) else None
  | ssh_kind =>
      if truthy password || truthy privateKey
      then Some (MkSecret username (when (truthy password) password) (when (truthy privateKey) privateKey)
                   (when (truthy privateKey && truthy passphrase) passphrase))
      else None
  end.

Definition form_config (v : ConnectionFormValue) : record :=
  match f_kind v, trim (f_database v) with
  | database_kind, ((_ :: _) as d) => {["database"%js := VStr d]}
  | _, _ => ∅
  end.

Definition toSaveInput (v : ConnectionFormValue) (teams : list TeamSummary) (existingSecret : bool) : SaveInput + field_errors :=
  let fields := form_errors v teams existingSecret in
  if bool_decide (fields = ∅) then
    inl (MkSaveInput
      (MkSaved (trim (f_name v)) (f_kind v) (f_driver v) (f_scope v)
         (match f_scope v with team => Some (f_teamId v) | personal => None end)
         (trim (f_host v)) (to_number (raw_port v)) (form_config v))
      (form_secret v))
  else inr fields.

(** ** features/database/connectionAdapter.ts *)

(** [None] is the exception. *)
Definition toWorkbenchTarget (c : Connection) : option WorkbenchTarget :=
  match c_kind c, c_driver c with
  | database_kind, db_driver d =>
      let database := get (c_config c) "database"%js in
      Some (MkWorkbenchTarget (c_id c) (c_name c) d (c_scope c) (c_teamId c) (c_host c) (c_port c)
              (if is_nullish database then VStr [] else database) (c_hasSecret c))
  | _, _ => None
  end.

(** ** connections/client.ts *)

Definition kind_text (k : ConnectionKind) : jstr := match k with database_kind => "database"%js | ssh_kind => "ssh"%js end.
Definition scope_text (s : ConnectionScope) : jstr := match s with personal => "personal"%js | team => "team"%js end.
Definition connection_driver_text (d : ConnectionDriver) : jstr := match d with db_driver d => driver_text d | ssh => "ssh"%js end.

Definition secret_json (s : Secret) : value :=
  obj [("username"%js, VStr (s_username s)); ("password"%js, opt_str (s_password s));
       ("privateKey"%js, opt_str (s_privateKey s)); ("passphrase"%js, opt_str (s_passphrase s))].
Definition save_json (i : SaveInput) : value :=
  let c := si_connection i in
  obj [("connection"%js,
        obj [("name"%js, VStr (sv_name c)); ("kind"%js, VStr (kind_text (sv_kind c)));
             ("driver"%js, VStr (connection_driver_text (sv_driver c))); ("scope"%js, VStr (scope_text (sv_scope c)));
             ("endpoint"%js, obj [("host"%js, VStr (sv_host c)); ("port"%js, VNum (sv_port c))]);
             ("config"%js, VObj (map_to_list (sv_config c))); ("teamId"%js, opt_str (sv_teamId c))]);
       ("secret"%js, match si_secret i with Some s => secret_json s | None => VUndefined end)].

Module Registry.
Definition path : jstr := "/api/registry/v2/connections"%js.
Definition filteredPath (kind : option ConnectionKind) (scope : option ConnectionScope) : jstr :=
  let params := search_params
    ((match kind with Some k => [("kind"%js, kind_text k)] | None => [] end)
     ++ (match scope with Some s => [("scope"%js, scope_text s)] | None => [] end)) in
  path ++ (if truthy params then "?"%js ++ params else []).
Definition list_ (kind : option ConnectionKind) (scope : option ConnectionScope) : Request := GET (filteredPath kind scope).
Definition create (input : SaveInput) : Request := POST path (Some (save_json input)).
Definition on_saved (id : jstr) : option jstr := template [Text (path ++ "/"%js); Hole id].
Definition update (id : jstr) (input : SaveInput) : option Request := target ← on_saved id; Some (PUT target (Some (save_json input))).
Definition remove (id : jstr) : option Request := target ← on_saved id; Some (DELETE target).
End Registry.

(** ** features/connections/connectionFields.ts *)

Record FieldSpec := MkFieldSpec { fs_label : jstr; fs_required : bool }.
Record DriverFormSpec := MkDriverFormSpec { df_database : FieldSpec; df_user : FieldSpec; df_password : FieldSpec; df_tlsOptions : list jstr }.

Definition TLS_MYSQL : list jstr := ["disabled"; "preferred"; "required"]%js.
Definition TLS_PG_MONGO : list jstr := ["disable"; "prefer"; "require"; "verify-full"]%js.
Definition TLS_REDIS : list jstr := ["disabled"; "required"]%js.

Definition driverFormSpec (d : DriverId) : DriverFormSpec :=
  match d with
  | mysql => MkDriverFormSpec (MkFieldSpec "数据库"%js true) (MkFieldSpec "用户名"%js true) (MkFieldSpec "数据库密码"%js true) TLS_MYSQL
  | postgres => MkDriverFormSpec (MkFieldSpec "数据库"%js false) (MkFieldSpec "用户名"%js true) (MkFieldSpec "数据库密码"%js true) TLS_PG_MONGO
  | mongodb => MkDriverFormSpec (MkFieldSpec "默认库"%js false) (MkFieldSpec "用户名"%js false) (MkFieldSpec "数据库密码"%js false) TLS_PG_MONGO
  | redis => MkDriverFormSpec (MkFieldSpec "DB 索引"%js false) (MkFieldSpec "用户名"%js false) (MkFieldSpec "密码"%js false) TLS_REDIS
  end.

Definition defaultTLSMode (d : DriverId) : jstr :=
  match d with mysql | redis => "disabled"%js | postgres | mongodb => "prefer"%js end.

Definition set_input (i : ConnectionInput) (host database user : jstr) : ConnectionInput :=
  {| ci_driver := ci_driver i; ci_host := host; ci_port := ci_port i; ci_database := database; ci_user := user;
     ci_password := ci_password i; ci_tlsMode := ci_tlsMode i |}.
Definition default_database (d : DriverId) : jstr :=
  match d with postgres => "postgres"%js | mongodb => "admin"%js | redis => "0"%js | mysql => [] end.
Definition normalizeConnectionInput (i : ConnectionInput) : ConnectionInput :=
  let database := trim (ci_database i) in
  set_input i (trim (ci_host i)) (or_else database (default_database (ci_driver i))) (trim (ci_user i)).

Definition validateConnectionInput (i : ConnectionInput) : option jstr :=
  let spec := driverFormSpec (ci_driver i) in
  let database := trim (ci_database i) in
  let index := to_number database in
  if negb (truthy (trim (ci_host i))) then Some "请输入主机地址"%js
  else if negb (num_truthy (ci_port i)) || num_lt (ci_port i) (num 1) || num_lt (num 65535) (ci_port i) then Some "请输入有效端口"%js
  else if fs_required (df_database spec) && negb (truthy database) then Some ("请输入"%js ++ fs_label (df_database spec))
  else if bool_decide (ci_driver i = redis) && truthy database
          && (negb (is_integer index) || num_lt index (num 0) || num_lt (num 15) index)
       then Some "Redis DB 索引必须是 0–15 的整数"%js
  else if fs_required (df_user spec) && negb (truthy (trim (ci_user i))) then Some "请输入用户名"%js
  else if fs_required (df_password spec) && negb (truthy (ci_password i)) then Some "请输入数据库密码"%js
  else if bool_decide (ci_driver i = mongodb) && truthy (trim (ci_user i)) && negb (truthy (ci_password i))
       then Some "填写 MongoDB 用户名时必须提供密码"%js
  else None.

Definition connectionNeedsStoredPassword (d : DriverId) : bool := match d with mysql | postgres => true | _ => false end.
Definition driverDefaults (d : DriverId) : DriverId * Z * jstr := (d, Api.defaultPort d, defaultTLSMode d).
