(* ===== verification/ConnectionsProps.v ===== *)
(** * Saved connections: guarantees of the form *)
From S2P Require Import Prelude JsString JsNumber JsValue Http Api Connections.

(** ** Validation *)

Lemma valid_port_spec n : valid_port n = true ↔ ∃ p, n = num p ∧ (1 <= p <= 65535)%Z.
Proof.
  unfold valid_port. split.
  - intros [[Hi Hl]%andb_true_iff Hu]%andb_true_iff. destruct n as [|b| |m e]; try done.
    cbn in Hi. apply Z.eqb_eq in Hi as ->. rewrite num_le_int in Hl, Hu. apply Z.leb_le in Hl, Hu. by exists m.
  - intros (p & -> & Hp). rewrite !num_le_int. cbn [is_integer]. rewrite Z.eqb_refl.
    by rewrite !(proj2 (Z.leb_le _ _)) by lia.
Qed.

(** Why a field of the form is refused. *)
Inductive refused (v : ConnectionFormValue) (teams : list TeamSummary) (existingSecret : bool) : jstr → Prop :=
| refused_name : trim (f_name v) = [] → refused v teams existingSecret "name"%js
| refused_host : trim (f_host v) = [] → refused v teams existingSecret "host"%js
| refused_driver : (f_kind v = ssh_kind ↔ f_driver v ≠ ssh) → refused v teams existingSecret "driver"%js
| refused_team : f_scope v = team → (∀ t, t ∈ teams → tm_id t = f_teamId v → tm_role t ≠ "admin"%js) → refused v teams existingSecret "teamId"%js
| refused_passphrase : f_kind v = ssh_kind → trim (f_passphrase v) ≠ [] → trim (f_privateKey v) = [] → refused v teams existingSecret "passphrase"%js
| refused_credentials : f_kind v = ssh_kind → trim (f_password v) = [] → trim (f_privateKey v) = [] → existingSecret = false →
    refused v teams existingSecret "credentials"%js
| refused_port : (∀ p, to_number (raw_port v) = num p → (p < 1 ∨ 65535 < p)%Z) → refused v teams existingSecret "port"%js.

Lemma lookup_check b k m fields key :
  is_Some (check b k m fields !! key) ↔ (b = true ∧ k = key) ∨ is_Some (fields !! key).
Proof.
  unfold check. destruct b; [|naive_solver]. rewrite lookup_insert_is_Some. destruct (decide (k = key)); naive_solver.
Qed.

Lemma truthy_false s : negb (truthy s) = true ↔ s = [].
Proof. by destruct s. Qed.
Lemma truthy_nonempty s : truthy s = true ↔ s ≠ [].
Proof. by destruct s. Qed.

Lemma manages_false teams id : negb (manages teams id) = true ↔ ∀ t, t ∈ teams → tm_id t = id → tm_role t ≠ "admin"%js.
Proof.
  unfold manages. rewrite negb_true_iff, existsb_not. split.
  - intros Ha t Ht <- Hr. specialize (Ha t Ht). by rewrite Hr, !bool_decide_eq_true_2 in Ha.
  - intros Ha t Ht. destruct (bool_decide (tm_id t = id)) eqn:Eb; [|done]. apply bool_decide_eq_true in Eb.
    cbn. apply bool_decide_eq_false. by apply Ha.
Qed.

Lemma form_errors_spec v teams e key : is_Some (form_errors v teams e !! key) ↔ refused v teams e key.
Proof.
  unfold form_errors. rewrite !lookup_check, !andb_true_iff, !truthy_false, !truthy_nonempty, manages_false, !bool_decide_eq_true, negb_true_iff.
  rewrite lookup_empty. split.
  - intros [[Hp <-]|[[Hc <-]|[[Hc <-]|[[Hc <-]|[[Hd <-]|[[Hh <-]|[[Hn <-]|[? [=]]]]]]]]].
    + apply refused_port. intros p Hp'. destruct (decide (1 <= p <= 65535)%Z); [|lia].
      rewrite (proj2 (valid_port_spec _)) in Hp by (by exists p). done.
    + destruct Hc as [[[? ?] ?] ?%negb_true_iff]. by apply refused_credentials.
    + destruct Hc as [[? ?] ?]. by apply refused_passphrase.
    + destruct Hc as [? ?]. by apply refused_team.
    + apply refused_driver. by destruct (f_kind v), (f_driver v).
    + by apply refused_host.
    + by apply refused_name.
  - intros [?|?|Hd|? ?|? ? ?|? ? ? ->|Hp]; [tauto|tauto| |tauto|tauto|tauto|].
    + do 4 right. left. split; [|done]. destruct (f_kind v), (f_driver v); cbn; try done; exfalso; destruct Hd as [H1 H2]; naive_solver.
    + left. split; [|done]. apply negb_true_iff. destruct (valid_port _) eqn:Ev; [|done].
      apply valid_port_spec in Ev as (p & Ep & ?). specialize (Hp p Ep). lia.
Qed.

(** C37. Saving a connection.  The form is refused exactly for the fields that break a rule,
    each with a message, and accepted when none does; an accepted form gives a port between
    1 and 65535, a team the user manages, a driver of its kind, trimmed texts, and a secret
    whose parts are not empty, whose passphrase comes with a private key, and which is there for
    every SSH connection that has none stored. *)
Theorem save_input_spec v teams existingSecret :
  match toSaveInput v teams existingSecret with
  | inr fields => (∃ key, refused v teams existingSecret key) ∧ ∀ key, is_Some (fields !! key) ↔ refused v teams existingSecret key
  | inl i =>
      (∀ key, ¬ refused v teams existingSecret key)
      ∧ (∃ p, sv_port (si_connection i) = num p ∧ (1 <= p <= 65535)%Z)
      ∧ isValidKindDriver (sv_kind (si_connection i)) (sv_driver (si_connection i)) = true
      ∧ (∀ id, sv_teamId (si_connection i) = Some id → ∃ t, t ∈ teams ∧ tm_id t = id ∧ tm_role t = "admin"%js)
      ∧ (sv_kind (si_connection i) = ssh_kind → existingSecret = false → is_Some (si_secret i))
      ∧ ∀ s, si_secret i = Some s →
          (∀ part, part ∈ [s_password s; s_privateKey s; s_passphrase s] → part ≠ Some [])
          ∧ (is_Some (s_password s) ∨ is_Some (s_privateKey s))
          ∧ (is_Some (s_passphrase s) → is_Some (s_privateKey s))
  end.
Proof.
  unfold toSaveInput. destruct (bool_decide _) eqn:Eb; bool_to_prop.
  - assert (Hno : ∀ key, ¬ refused v teams existingSecret key).
    { intros key Hk%form_errors_spec. rewrite Eb, lookup_empty in Hk. by destruct Hk. }
    cbn [si_connection si_secret sv_port sv_kind sv_driver sv_teamId]. split_and!.
    + done.
    + apply valid_port_spec. destruct (valid_port _) eqn:Ev; [done|]. exfalso. apply (Hno "port"%js). apply refused_port.
      intros p Hp. destruct (decide (1 <= p <= 65535)%Z); [|lia]. rewrite (proj2 (valid_port_spec _)) in Ev by (by exists p). done.
    + destruct (isValidKindDriver _ _) eqn:Ev; [done|]. exfalso. apply (Hno "driver"%js). apply refused_driver.
      by destruct (f_kind v), (f_driver v).
    + intros id Hid. destruct (f_scope v) eqn:Es; simplify_eq. destruct (manages teams (f_teamId v)) eqn:Em.
      * apply existsb_elem in Em as (t & Ht & Hb). bool_to_prop. by exists t.
      * exfalso. apply (Hno "teamId"%js). apply refused_team; [done|]. apply manages_false. by rewrite Em.
    + intros Hk ->. unfold form_secret. rewrite Hk.
      destruct (truthy (trim (f_password v))) eqn:E1, (truthy (trim (f_privateKey v))) eqn:E2; cbn; eauto.
      exfalso. apply (Hno "credentials"%js). apply refused_credentials; [done|..|done]; apply truthy_false; by rewrite ?E1, ?E2.
    + intros s. unfold form_secret, when.
      destruct (f_kind v), (trim (f_password v)) as [|? ?], (trim (f_privateKey v)) as [|? ?], (trim (f_passphrase v)) as [|? ?];
        cbn; intros Hs; simplify_eq; cbn; (split_and!; [|eauto|eauto]);
        intros part; rewrite !elem_of_cons, elem_of_nil; intros Hp; destruct_or! Hp; by subst.
  - split; [|apply form_errors_spec]. apply map_choose in Eb as (key & m & Hk). exists key. apply form_errors_spec. by rewrite Hk.
Qed.

(** ** Editing *)
