(* ===== verification/ConnectionsPage.v ===== *)
(** * The connection center

    The state and handlers of [src/web/src/pages/ConnectionsPage.tsx].  A handler reads the
    variables it closes over when it starts. *)
From S2P Require Import Prelude JsString JsNumber JsValue Http Api Connections Async.

Inductive FormMode := create_mode | edit_mode.

(** ** Forms *)

Definition emptyForm (kind : ConnectionKind) : ConnectionFormValue :=
  let driver := defaultDriver kind in
  MkForm [] kind driver personal [] [] (defaultPort driver) [] [] [] [] [].

Definition formFromConnection (c : Connection) : ConnectionFormValue :=
  MkForm (c_name c) (c_kind c) (c_driver c) (c_scope c) (default [] (c_teamId c)) (c_host c) (number_to_string (c_port c))
    (match get (c_config c) "database"%js with VStr s => s | _ => [] end) [] [] [] [].

(** ** State *)

Record Listing := MkListing {
  connections : list Connection;
  teams : list TeamSummary;
  loading : bool;
  selectedConnectionId : jstr;
  deleteTarget : option Connection;
}.
Record Filters := MkFilters {
  kind_filter : option ConnectionKind;
  scope_filter : option ConnectionScope;
  query : jstr;
}.
Record Messages := MkMessages {
  error_ : jstr;
  success : jstr;
}.
Record Dialog := MkDialog {
  formMode : option FormMode;
  editing : option Connection;
  form : ConnectionFormValue;
  fieldErrors : field_errors;
  saving : bool;
}.

Record CP := MkCP {
  listing : Listing;
  filters : Filters;
  messages : Messages;
  dialog : Dialog;
}.

(** The setters of the [useState] variables. *)
Definition set_listing f (w : CP) := MkCP (f (listing w)) (filters w) (messages w) (dialog w).
Definition set_filters f (w : CP) := MkCP (listing w) (f (filters w)) (messages w) (dialog w).
Definition set_messages f (w : CP) := MkCP (listing w) (filters w) (f (messages w)) (dialog w).
Definition set_dialog f (w : CP) := MkCP (listing w) (filters w) (messages w) (f (dialog w)).
Definition setConnections x := set_listing (λ r, MkListing x (teams r) (loading r) (selectedConnectionId r) (deleteTarget r)).
Definition setTeams x := set_listing (λ r, MkListing (connections r) x (loading r) (selectedConnectionId r) (deleteTarget r)).
Definition setLoading x := set_listing (λ r, MkListing (connections r) (teams r) x (selectedConnectionId r) (deleteTarget r)).
Definition setSelectedConnectionId f := set_listing (λ r, MkListing (connections r) (teams r) (loading r) (f (selectedConnectionId r)) (deleteTarget r)).
Definition setDeleteTarget x := set_listing (λ r, MkListing (connections r) (teams r) (loading r) (selectedConnectionId r) x).
Definition setKind x := set_filters (λ r, MkFilters x (scope_filter r) (query r)).
Definition setScope x := set_filters (λ r, MkFilters (kind_filter r) x (query r)).
Definition setQuery x := set_filters (λ r, MkFilters (kind_filter r) (scope_filter r) x).
Definition setError x := set_messages (λ r, MkMessages x (success r)).
Definition setSuccess x := set_messages (λ r, MkMessages (error_ r) x).
Definition setFormMode x := set_dialog (λ r, MkDialog x (editing r) (form r) (fieldErrors r) (saving r)).
Definition setEditing x := set_dialog (λ r, MkDialog (formMode r) x (form r) (fieldErrors r) (saving r)).
Definition setForm f := set_dialog (λ r, MkDialog (formMode r) (editing r) (f (form r)) (fieldErrors r) (saving r)).
Definition setFieldErrors x := set_dialog (λ r, MkDialog (formMode r) (editing r) (form r) x (saving r)).
Definition setSaving x := set_dialog (λ r, MkDialog (formMode r) (editing r) (form r) (fieldErrors r) x).

(** The page of a user with the teams of the session. *)
Definition initial_CP (session_teams : list TeamSummary) : CP :=
  MkCP (MkListing [] session_teams true [] None) (MkFilters None None []) (MkMessages [] [])
    (MkDialog None None (emptyForm database_kind) ∅ false).

Definition adminTeams (w : CP) : list TeamSummary := filterb (λ t, bool_decide (tm_role t = "admin"%js)) (teams (listing w)).

(** [String(value ?? '')]. *)
Definition shown_text (v : value) : jstr := if is_nullish v then [] else to_str v.

Definition visible `{Unicode} (w : CP) : list Connection :=
  let needle := toLowerCase (trim (query (filters w))) in
  filterb (λ c,
    match kind_filter (filters w) with Some k => bool_decide (c_kind c = k) | None => true end
    && match scope_filter (filters w) with Some s => bool_decide (c_scope c = s) | None => true end
    && (negb (truthy needle)
        || existsb (λ v, includes needle (toLowerCase (shown_text v)))
             [VStr (c_name c); VStr (connection_driver_text (c_driver c)); VStr (c_host c); get (c_config c) "database"%js]))
    (connections (listing w)).

Definition hasActiveFilters (w : CP) : bool :=
  truthy (trim (query (filters w))) || bool_decide (is_Some (kind_filter (filters w))) || bool_decide (is_Some (scope_filter (filters w))).

(** [items.some((item) => item.id === current) ? current : items[0]?.id ?? '']. *)
Definition keep_selected (items : list Connection) (current : jstr) : jstr :=
  if existsb (λ c, bool_decide (c_id c = current)) items then current else from_option c_id [] (head items).

Definition selectedConnection `{Unicode} (w : CP) : option Connection :=
  find_first (λ c, bool_decide (c_id c = selectedConnectionId (listing w))) (visible w).
Definition selectedEndpoint (c : Connection) : jstr :=
  let database := get (c_config c) "database"%js in
  c_host c ++ ":"%js ++ number_to_string (c_port c) ++ (if truthy_value database then "/"%js ++ to_str database else []).

(** ** Calls *)

Inductive PageCall :=
(** [Promise.all] of the connections and the teams. *)
| load_all
| update_connection (id : jstr) (input : SaveInput)
| create_connection (input : SaveInput)
| remove_connection (id : jstr).
(** The teams are absent when their request failed. *)
Inductive PageReply := RLoaded (items : list Connection) (loadedTeams : option (list TeamSummary)) | RDone.

(** What a handler catches. *)
Inductive PageError :=
| FormError (fields : field_errors)
| AuthError (code message : jstr)
| OtherError (message : option jstr).
Definition messageFor (e : PageError) : jstr :=
  match e with FormError _ => "连接表单校验失败"%js | AuthError _ m => m | OtherError m => default "请求失败"%js m end.

Abbreviation handler := (async CP PageCall PageReply PageError).
#[local] Open Scope async_scope.

(** ** Handlers *)

Section page.
Context (session_teams : list TeamSummary).

Definition load : handler unit :=
  do* modify (setLoading true) in
  do* modify (setError []) in
  finally
    (catch
      (let* r := await load_all in
       match r with
       | RLoaded items loadedTeams =>
           do* modify (setConnections items) in
           do* modify (setTeams (default session_teams loadedTeams)) in
           modify (setSelectedConnectionId (keep_selected items))
       | _ => throw (OtherError None)
       end)
      (λ err, modify (setError (messageFor err))))
    (modify (setLoading false)).

(** The effect that runs when the visible connections change. *)
Definition visible_effect `{Unicode} : handler unit :=
  modify (λ w, setSelectedConnectionId (keep_selected (visible w)) w).

Definition clear_messages : handler unit := do* modify (setError []) in modify (setSuccess []).

Definition openCreate (nextKind : ConnectionKind) : handler unit :=
  do* modify (setFieldErrors ∅) in
  do* clear_messages in
  do* modify (setEditing None) in
  do* modify (setForm (λ _, emptyForm nextKind)) in
  modify (setFormMode (Some create_mode)).
Definition openEdit (c : Connection) : handler unit :=
  do* modify (setFieldErrors ∅) in
  do* clear_messages in
  do* modify (setEditing (Some c)) in
  do* modify (setForm (λ _, formFromConnection c)) in
  modify (setFormMode (Some edit_mode)).

Definition setFormKind (nextKind : ConnectionKind) : handler unit :=
  let driver := defaultDriver nextKind in
  modify (setForm (λ f, MkForm (f_name f) nextKind driver (f_scope f) (f_teamId f) (f_host f) (defaultPort driver)
    (match nextKind with database_kind => f_database f | ssh_kind => [] end) (f_username f) (f_password f) (f_privateKey f) (f_passphrase f))).
Definition setFormDriver (driver : ConnectionDriver) : handler unit :=
  modify (setForm (λ f, MkForm (f_name f) (f_kind f) driver (f_scope f) (f_teamId f) (f_host f) (defaultPort driver)
    (f_database f) (f_username f) (f_password f) (f_privateKey f) (f_passphrase f))).
Definition setFormScope (nextScope : ConnectionScope) : handler unit :=
  let* w := state in
  modify (setForm (λ f, MkForm (f_name f) (f_kind f) (f_driver f) nextScope
    (match nextScope with team => or_else (f_teamId f) (from_option tm_id [] (head (adminTeams w))) | personal => [] end)
    (f_host f) (f_port f) (f_database f) (f_username f) (f_password f) (f_privateKey f) (f_passphrase f))).

(** [formMode === 'edit'] and the edited connection. *)
Definition edited (w : CP) : option Connection :=
  match formMode (dialog w) with Some edit_mode => editing (dialog w) | _ => None end.

Definition submit : handler unit :=
  let* w := state in
  do* modify (setSaving true) in
  do* modify (setFieldErrors ∅) in
  do* clear_messages in
  finally
    (catch
      (match toSaveInput (form (dialog w)) (adminTeams w) (from_option c_hasSecret false (edited w)) with
       | inr fields => throw (FormError fields)
       | inl input =>
           do* match edited w with
               | Some c => do* await (update_connection (c_id c) input) in modify (setSuccess "连接已更新"%js)
               | None => do* await (create_connection input) in modify (setSuccess "连接已创建"%js)
               end in
           do* modify (setFormMode None) in
           do* modify (setEditing None) in
           load
       end)
      (λ err,
        match err with
        | FormError fields => modify (setFieldErrors fields)
        | AuthError code message =>
            if bool_decide (code = "connection_name_conflict"%js)
            then modify (setFieldErrors {["name"%js := message]})
            else modify (setError message)
        | OtherError _ => modify (setError (messageFor err))
        end))
    (modify (setSaving false)).

Definition confirmDelete : handler unit :=
  let* w := state in
  match deleteTarget (listing w) with
  | None => ret tt
  | Some c =>
      do* clear_messages in
      catch
        (do* await (remove_connection (c_id c)) in
         do* modify (setSuccess "连接已删除"%js) in
         do* modify (setDeleteTarget None) in
         load)
        (λ err, modify (setError (messageFor err)))
  end.
End page.
