(* ===== verification/ConnectionsPageProps.v ===== *)
(** * The connection center: its guarantees *)
From S2P Require Import Prelude JsString JsNumber JsValue Http Api Connections ConnectionsProps ConnectionsPage Async.

(** ** Editing *)

(** A connection as the server keeps it. *)
Definition stored (teams : list TeamSummary) (c : Connection) : Prop :=
  (trim (c_name c) = c_name c ∧ c_name c ≠ []) ∧ (trim (c_host c) = c_host c ∧ c_host c ≠ [])
  ∧ isValidKindDriver (c_kind c) (c_driver c) = true
  ∧ (∃ p, c_port c = num p ∧ (1 <= p <= 65535)%Z)
  ∧ (match c_scope c with team => ∃ id, c_teamId c = Some id ∧ manages teams id = true | personal => c_teamId c = None end)
  ∧ (c_kind c = ssh_kind → c_hasSecret c = true)
  ∧ (c_config c !! "database"%js = None
     ∨ ∃ s, c_kind c = database_kind ∧ c_config c !! "database"%js = Some (VStr s) ∧ trim s = s ∧ s ≠ []).

Definition saved_of (c : Connection) : SavedConnection :=
  MkSaved (c_name c) (c_kind c) (c_driver c) (c_scope c) (c_teamId c) (c_host c) (c_port c)
    (match c_config c !! "database"%js with Some v => {["database"%js := v]} | None => ∅ end).

Definition with_secret (v : ConnectionFormValue) (username password : jstr) : ConnectionFormValue :=
  MkForm (f_name v) (f_kind v) (f_driver v) (f_scope v) (f_teamId v) (f_host v) (f_port v) (f_database v)
    username password (f_privateKey v) (f_passphrase v).

Lemma port_text p : (1 <= p <= 65535)%Z → trim (number_to_string (num p)) = dec_Z p ∧ dec_Z p ≠ [] ∧ to_number (dec_Z p) = num p.
Proof.
  intros Hp. assert (Hs : (Z.abs p <= max_safe)%Z) by (unfold max_safe; lia).
  rewrite number_to_string_safe by done. rewrite to_number_dec by (unfold max_safe in *; lia).
  unfold dec_Z. rewrite (proj2 (Z.ltb_ge p 0)) by lia. split_and!; [|apply dec_digits_nonempty|done].
  apply trim_digits, dec_digits_digits. lia.
Qed.

Lemma edited_form teams c username password :
  stored teams c →
  ∃ i, toSaveInput (with_secret (formFromConnection c) username password) teams (c_hasSecret c) = inl i
     ∧ si_connection i = saved_of c
     ∧ si_secret i = form_secret (with_secret (formFromConnection c) username password).
Proof.
  intros ((Hn & Hn') & (Hh & Hh') & Hd & (p & Hp & Hp') & Ht & Hs & Hdb).
  set (v := with_secret (formFromConnection c) username password).
  destruct (port_text p Hp') as (Htp & Hne & Hnum).
  assert (Hraw : to_number (raw_port v) = num p).
  { unfold raw_port, v. cbn [with_secret formFromConnection f_port]. rewrite Hp, Htp. unfold or_else. by destruct (dec_Z p). }
  assert (He : form_errors v teams (c_hasSecret c) = ∅).
  { apply map_empty. intros key. apply eq_None_not_Some. intros Hk%form_errors_spec. unfold v in *.
    destruct Hk as [Hk|Hk|Hk|Hk1 Hk2|Hk1 Hk2|Hk1 Hk2 Hk3 Hk4|Hk]; cbn -[trim to_number raw_port manages] in *.
    - congruence.
    - congruence.
    - destruct (c_kind c), (c_driver c); try done; naive_solver.
    - rewrite Hk1 in Ht. destruct Ht as (id & Hid & Hm). rewrite Hid in Hk2. cbn in Hk2. apply manages_false in Hk2. by rewrite Hm in Hk2.
    - done.
    - rewrite Hs in Hk4 by done. done.
    - specialize (Hk p Hraw). lia. }
  unfold toSaveInput. rewrite bool_decide_eq_true_2 by done. eexists. split_and!; [done| |done]. cbn [si_connection].
  rewrite Hraw. unfold saved_of, v. cbn -[trim number_to_string]. rewrite Hn, Hh, Hp.
  replace (match c_scope c with team => Some (default [] (c_teamId c)) | personal => None end) with (c_teamId c)
    by (destruct (c_scope c); [done|]; by destruct Ht as (id & -> & _)).
  f_equal. unfold form_config. cbn -[trim]. unfold get.
  destruct Hdb as [->|(s & Hk & -> & Hts & Hs')]; cbn -[trim].
  - by destruct (c_kind c).
  - rewrite Hk, Hts. by destruct s.
Qed.


Definition sample_connection : Connection :=
  MkConnection "c"%js "n"%js database_kind (db_driver postgres) personal None None "h"%js (num 5432)
    (<["database"%js := VStr "d"%js]> {["tlsMode"%js := VStr "verify-full"%js]}) true.


(** ** Submitting *)

(** Submitting the form.  A form that is refused makes no call and shows its errors in
    the dialog; an accepted one sends the update of the edited connection or a new
    connection; its success closes the dialog and reloads the list, a name that is taken
    shows at the name's field and any other failure as a message, both with the dialog
    still open; and in the end the page is no longer saving. *)
Theorem submit_spec session_teams w :
  let start := run (submit session_teams) w in
  match toSaveInput (form (dialog w)) (adminTeams w) (from_option c_hasSecret false (edited w)) with
  | inr fields =>
      start.2 = Finished ∧ fieldErrors (dialog start.1) = fields ∧ formMode (dialog start.1) = formMode (dialog w)
      ∧ saving (dialog start.1) = false
  | inl input =>
      awaited start.2 = Some (match edited w with Some c => update_connection (c_id c) input | None => create_connection input end)
      ∧ (let x := drive [inl RDone] start in
         awaited x.2 = Some load_all ∧ formMode (dialog x.1) = None ∧ editing (dialog x.1) = None ∧ truthy (success (messages x.1)) = true)
      ∧ (∀ r, let x := drive [inl RDone; r] start in x.2 = Finished ∧ saving (dialog x.1) = false)
      ∧ (∀ err, let x := drive [inr err] start in
         x.2 = Finished ∧ saving (dialog x.1) = false ∧ formMode (dialog x.1) = formMode (dialog w)
         ∧ form (dialog x.1) = form (dialog w)
         ∧ match err with
           | FormError fields => fieldErrors (dialog x.1) = fields
           | AuthError code message =>
               if bool_decide (code = "connection_name_conflict"%js) then fieldErrors (dialog x.1) = {["name"%js := message]}
               else error_ (messages x.1) = message
           | OtherError m => error_ (messages x.1) = default "请求失败"%js m
           end)
  end.
Proof.
  cbv zeta. unfold run, submit, bind, state, modify, clear_messages, finally, catch.
  destruct (toSaveInput _ _ _) as [input|fields]; [|done].
  destruct (edited w) as [c|]; (split; [done|split; [by split_and!|split]]);
    [intros [[]|]; by split|intros [fields|code message|m]; cbn; try case_match; by split_and!
    |intros [[]|]; by split|intros [fields|code message|m]; cbn; try case_match; by split_and!].
Qed.
