(* ===== verification/Auth.v ===== *)
(** * Authentication and routes

    [src/web/src/auth/]: the session that [AuthProvider.tsx] keeps and the login page;
    [src/web/src/app/AppRouter.tsx] and the guards of
    [src/web/src/settings/SettingsLayout.tsx]: which page a session sees at a path.  The
    matching of paths is the router library's: it is the argument [match_route]. *)
From S2P Require Import Prelude JsString JsNumber JsValue Http Async.

(** ** auth/types.ts *)

Record AuthUser := MkAuthUser { au_id : jstr; au_username : jstr; au_displayName : jstr; au_systemRole : jstr }.
Record AuthTeam := MkAuthTeam { at_id : jstr; at_name : jstr; at_role : jstr }.
Record AuthSession := MkAuthSession { as_user : AuthUser; as_teams : list AuthTeam; as_csrfToken : jstr }.

(** ** auth/AuthProvider.tsx *)

Inductive AuthState := auth_loading | auth_guest | auth_ready | auth_error.
#[export] Instance AuthState_eq_dec : EqDecision AuthState.
Proof. solve_decision. Defined.

(** [AuthTeam[] | Record<string, string>], if any; a record as the list of its
    [Object.entries]. *)
Inductive teams_payload := TeamsMissing | TeamsArray (teams : list AuthTeam) | TeamsRecord (entries : list (jstr * jstr)).
Record AuthSessionPayload := MkPayload { ap_user : AuthUser; ap_teams : teams_payload; ap_csrfToken : jstr }.

Definition normalizeTeams (teams : teams_payload) : list AuthTeam :=
  match teams with
  | TeamsMissing => []
  | TeamsArray teams => teams
  | TeamsRecord entries => (λ '(id, role), MkAuthTeam id id role) <$> entries
  end.
Definition normalizeSession (payload : AuthSessionPayload) : AuthSession :=
  MkAuthSession (ap_user payload) (normalizeTeams (ap_teams payload)) (ap_csrfToken payload).

(** The [useState] variables of the provider, and [csrfToken] of [auth/client.ts]. *)
Record Provider := MkProvider {
  session : option AuthSession;
  status : AuthState;
  error_ : jstr;
  csrfToken : jstr;
}.
(** The address in the browser, and the path its history entry says it came from. *)
Record Location := MkLocation { pathname : jstr; from : option jstr }.
Record LoginForm := MkLoginForm {
  username : jstr;
  password : jstr;
  login_error : jstr;
  submitting : bool;
}.
Record AW := MkAW { provider : Provider; location : Location; login_form : LoginForm }.

Definition set_provider f (w : AW) := MkAW (f (provider w)) (location w) (login_form w).
Definition navigate (path : jstr) (origin : option jstr) (w : AW) := MkAW (provider w) (MkLocation path origin) (login_form w).
Definition set_login f (w : AW) := MkAW (provider w) (location w) (f (login_form w)).
Definition setStatus x := set_provider (λ p, MkProvider (session p) x (error_ p) (csrfToken p)).
Definition setError x := set_provider (λ p, MkProvider (session p) (status p) x (csrfToken p)).
Definition setSubmitting x := set_login (λ l, MkLoginForm (username l) (password l) (login_error l) x).
Definition setLoginError x := set_login (λ l, MkLoginForm (username l) (password l) x (submitting l)).

(** The provider of a page whose server passes [initialSession], if it passes anything. *)
Definition initial_provider (initialSession : option (option AuthSession)) : Provider :=
  match initialSession with
  | None => MkProvider None auth_loading [] []
  | Some None => MkProvider None auth_guest [] []
  | Some (Some s) => MkProvider (Some s) auth_ready [] (as_csrfToken s)
  end.

(** A call is a request and the headers it is sent with. *)
Record AuthCall := MkAuthCall { ac_request : Request; ac_headers : headers }.
Inductive AuthReply := RSession (payload : AuthSessionPayload) | RVoid.
Inductive AuthFailure := AuthAPIError (code : Z) (message : jstr) | OtherError (message : option jstr).
Definition failure_message (fallback : jstr) (e : AuthFailure) : jstr :=
  match e with AuthAPIError _ m => m | OtherError m => default fallback m end.

Abbreviation handler := (async AW AuthCall AuthReply AuthFailure).
#[local] Open Scope async_scope.

Definition json (r : Request) : handler AuthReply :=
  let* w := state in await (MkAuthCall r (auth_headers (csrfToken (provider w)) r false)).

Definition applySession (next : option AuthSession) : handler unit :=
  modify (set_provider (λ _,
    MkProvider next (match next with Some _ => auth_ready | None => auth_guest end) []
      (from_option as_csrfToken [] next))).

Definition reload : handler unit :=
  do* modify (setStatus auth_loading) in
  catch
    (let* r := json (GET "/api/auth/session"%js) in
     match r with
     | RSession payload => applySession (Some (normalizeSession payload))
     | RVoid => throw (OtherError None)
     end)
    (λ e,
      match e with
      | AuthAPIError 401 _ => applySession None
      | _ =>
          do* modify (setStatus auth_error) in
          modify (setError (failure_message "认证状态加载失败"%js e))
      end).

Definition login (user pass : jstr) : handler unit :=
  let* r := json (POST "/api/auth/login"%js (Some (obj [("username", VStr user); ("password", VStr pass)]%js))) in
  match r with
  | RSession payload => applySession (Some (normalizeSession payload))
  | RVoid => throw (OtherError None)
  end.

Definition logout : handler unit :=
  finally (do* json (POST "/api/auth/logout"%js None) in ret tt) (applySession None).

(** ** auth/LoginPage.tsx and the header's button *)

Definition destination (l : Location) : jstr :=
  match from l with
  | Some ((_ :: _) as path) => if bool_decide (path = "/login"%js) then "/connections"%js else path
  | _ => "/connections"%js
  end.

Definition submit : handler unit :=
  let* w := state in
  do* modify (setSubmitting true) in
  do* modify (setLoginError []) in
  finally
    (catch
      (do* login (username (login_form w)) (password (login_form w)) in
       modify (navigate (destination (location w)) None))
      (λ e, modify (setLoginError (failure_message "登录失败"%js e))))
    (modify (setSubmitting false)).

Definition signOut : handler unit :=
  do* logout in modify (navigate "/login"%js None).

Definition setUsername (x : jstr) : handler unit :=
  modify (set_login (λ l, MkLoginForm x (password l) (login_error l) (submitting l))).
Definition setPassword (x : jstr) : handler unit :=
  modify (set_login (λ l, MkLoginForm (username l) x (login_error l) (submitting l))).

(** ** app/AppRouter.tsx *)

Inductive Route :=
| LoginRoute | IndexRoute | ConnectionsRoute | DatabaseRoute | LogsRoute
| SettingsIndex | ProfileRoute | UsersRoute | TeamsRoute | UnknownRoute.
#[export] Instance Route_eq_dec : EqDecision Route.
Proof. solve_decision. Defined.

(** What a route renders: a page, a state of the session check, or a redirection. *)
Inductive Element :=
| Page (r : Route)
| Checking
| CheckFailed
| Nothing
| Navigate (path : jstr) (origin : option jstr).

Definition is_admin (s : AuthSession) : bool := bool_decide (au_systemRole (as_user s) = "admin"%js).
Definition is_team_admin (s : AuthSession) : bool := existsb (λ t, bool_decide (at_role t = "admin"%js)) (as_teams s).

Definition SettingsUsersGuard (s : option AuthSession) : Element :=
  if from_option is_admin false s then Page UsersRoute else Navigate "/settings/profile"%js None.
Definition SettingsTeamsGuard (s : option AuthSession) : Element :=
  if from_option is_admin false s || from_option is_team_admin false s then Page TeamsRoute
  else Navigate "/settings/profile"%js None.

(** [SettingsLayout] renders nothing without a session. *)
Definition in_settings (s : option AuthSession) (e : Element) : Element :=
  match s with Some _ => e | None => Nothing end.

Definition RequireAuth (p : Provider) (l : Location) (e : Element) : Element :=
  match status p with
  | auth_loading => Checking
  | auth_error => CheckFailed
  | auth_guest => Navigate "/login"%js (Some (pathname l))
  | auth_ready => e
  end.

Definition element (r : Route) (p : Provider) (l : Location) : Element :=
  match r with
  | LoginRoute => match status p with auth_ready => Navigate "/connections"%js None | _ => Page LoginRoute end
  | UnknownRoute => Navigate "/"%js None
  | IndexRoute => RequireAuth p l (Navigate "/connections"%js None)
  | ConnectionsRoute | DatabaseRoute | LogsRoute => RequireAuth p l (Page r)
  | SettingsIndex => RequireAuth p l (in_settings (session p) (Navigate "/settings/profile"%js None))
  | ProfileRoute => RequireAuth p l (in_settings (session p) (Page ProfileRoute))
  | UsersRoute => RequireAuth p l (in_settings (session p) (SettingsUsersGuard (session p)))
  | TeamsRoute => RequireAuth p l (in_settings (session p) (SettingsTeamsGuard (session p)))
  end.

Section routes.
Context (match_route : jstr → Route).

Definition AppRouter (w : AW) : Element := element (match_route (pathname (location w))) (provider w) (location w).

(** Rendering carries out the redirections it meets, at most [n]. *)
Fixpoint settle (n : nat) (w : AW) : AW * Element :=
  match AppRouter w, n with
  | Navigate path origin, S n => settle n (navigate path origin w)
  | e, _ => (w, e)
  end.
End routes.
