(* ===== verification/AuthProps.v ===== *)
(** * Authentication: its guarantees

    Whatever the order of events and replies, the token in use is the one of the session
    and the pages shown are those the session may see; redirections end; and logging in
    leads back to the page that asked for it. *)
From S2P Require Import Prelude JsString JsNumber JsValue Http Async Auth.

Section session_invariant.

Definition provider_ok (p : Provider) : Prop :=
  csrfToken p = from_option as_csrfToken [] (session p)
  ∧ (status p = auth_ready → is_Some (session p))
  ∧ (status p = auth_guest → session p = None)
  ∧ (error_ p ≠ [] → status p = auth_error ∨ status p = auth_loading).
Definition auth_ok (w : AW) : Prop := provider_ok (provider w).

Lemma provider_ok_initial i : provider_ok (initial_provider i).
Proof. by destruct i as [[s|]|]; split_and!. Qed.

Lemma auth_ok_status x w : auth_ok w → x = auth_loading ∨ x = auth_error → auth_ok (setStatus x w).
Proof. intros (H1 & H2 & H3 & H4) Hx. split_and!; cbn; [done|..]; naive_solver. Qed.

Lemma auth_ok_frame w w' : provider w' = provider w → auth_ok w → auth_ok w'.
Proof. unfold auth_ok. by intros ->. Qed.

Lemma preserves_apply next : preserves auth_ok (applySession next).
Proof. apply preserves_modify. intros w _. unfold auth_ok, provider_ok. cbn. by destruct next; split_and!. Qed.

Lemma preserves_json r : preserves auth_ok (json r).
Proof. unfold json. repeat preserves_step. Qed.

Lemma preserves_reload : preserves auth_ok reload.
Proof.
  unfold reload. preserves_step; [preserves_step; apply auth_ok_status; auto|].
  preserves_step.
  - preserves_step; [apply preserves_json|]. preserves_step; [apply preserves_apply|preserves_step].
  - assert (Hf : preserves auth_ok ((do* modify (setStatus auth_error) in modify (setError (failure_message "认证状态加载失败"%js e)))%async : Auth.handler unit)).
    { apply preserves_at. intros w (H1 & H2 & H3 & H4). apply at_modify_bind, at_modify.
      split_and!; cbn; [done|done|done|by left]. }
    destruct e as [code m|m]; [|done].
    destruct (decide (code = 401%Z)) as [->|Hc]; [apply preserves_apply|].
    by repeat case_match; subst.
Qed.

Lemma preserves_login u p : preserves auth_ok (login u p).
Proof. unfold login. preserves_step; [apply preserves_json|]. preserves_step; [apply preserves_apply|preserves_step]. Qed.

Lemma preserves_logout : preserves auth_ok logout.
Proof.
  unfold logout.   preserves_step; [|apply preserves_apply]. preserves_step; [apply preserves_json|preserves_step].
Qed.

Ltac frame_step := preserves_step; by eapply auth_ok_frame; [|eassumption].

Lemma preserves_submit : preserves auth_ok submit.
Proof.
  unfold submit. preserves_step. preserves_step; [frame_step|]. preserves_step; [frame_step|].
  preserves_step; [|frame_step]. preserves_step; [|frame_step]. preserves_step; [apply preserves_login|frame_step].
Qed.

Lemma preserves_signOut : preserves auth_ok signOut.
Proof. unfold signOut. preserves_step; [apply preserves_logout|frame_step]. Qed.
End session_invariant.

(** ** Routes *)

(** What the router library is relied on for: these paths match their routes. *)
Definition routes_match (match_route : jstr → Route) : Prop :=
  match_route "/login"%js = LoginRoute ∧ match_route "/"%js = IndexRoute
  ∧ match_route "/connections"%js = ConnectionsRoute ∧ match_route "/settings/profile"%js = ProfileRoute.

(** The pages a session may see. *)
Definition permitted (s : option AuthSession) (r : Route) : Prop :=
  match r with
  | LoginRoute => True
  | UsersRoute => ∃ s', s = Some s' ∧ is_admin s' = true
  | TeamsRoute => ∃ s', s = Some s' ∧ is_admin s' || is_team_admin s' = true
  | _ => is_Some s
  end.

Lemma element_permitted r p l r' : provider_ok p → element r p l = Page r' → permitted (session p) r'.
Proof.
  intros (_ & Hready & _).
  destruct r; unfold element, RequireAuth, in_settings, SettingsUsersGuard, SettingsTeamsGuard;
    repeat case_match; intros [= <-]; cbn in *; try done; simplify_eq; eauto;
    by destruct Hready as [? ?].
Qed.

Section guards.
Context (match_route : jstr → Route) (Hroutes : routes_match match_route).

Ltac routed :=
  repeat (cbn; match goal with H : match_route ?x = _ |- context [match_route ?x] => rewrite H end); cbn; try done.

Lemma settle_0 w : settle match_route 0 w = (w, AppRouter match_route w).
Proof. cbn. by destruct (AppRouter match_route w). Qed.

(** Rendering a known path takes at most one redirection. *)
Lemma settle_once w :
  match_route (pathname (location w)) ≠ UnknownRoute →
  auth_ok w →
  let x := settle match_route 1 w in
  provider x.1 = provider w ∧ AppRouter match_route x.1 = x.2 ∧ (∀ p o, x.2 ≠ Navigate p o).
Proof.
  intros Hr (_ & Hready & _). destruct Hroutes as (Hl & Hi & Hc & Hp).
  destruct w as [[s st e c] [path o] l]. cbn in *. unfold AppRouter. cbn.
  destruct (match_route path) eqn:Em, st; routed;
    (destruct s as [s|]; [|by destruct Hready]); routed.
  - unfold SettingsUsersGuard. cbn. destruct (is_admin s) eqn:Ea; routed.
    unfold SettingsUsersGuard. cbn. by rewrite Ea.
  - unfold SettingsTeamsGuard. cbn. destruct (is_admin s || is_team_admin s) eqn:Ea; routed.
    unfold SettingsTeamsGuard. cbn. by rewrite Ea.
Qed.

(** An unknown path takes one more, to the index. *)
Lemma settle_twice w :
  auth_ok w →
  let x := settle match_route 2 w in
  provider x.1 = provider w ∧ AppRouter match_route x.1 = x.2 ∧ (∀ p o, x.2 ≠ Navigate p o).
Proof.
  intros Hw. destruct (decide (match_route (pathname (location w)) = UnknownRoute)) as [Hu|Hu].
  - change (settle match_route 2 w) with
      (match AppRouter match_route w with Navigate path origin => settle match_route 1 (navigate path origin w) | e => (w, e) end).
    unfold AppRouter at 1 2. rewrite Hu. cbn [element].
    apply (settle_once (navigate "/"%js None w)); [|done]. cbn. destruct Hroutes as (_ & -> & _). done.
  - pose proof (settle_once w Hu Hw) as (H1 & H2 & H3). revert H1 H2 H3. cbv zeta.
    cbn [settle]. destruct (AppRouter match_route w) as [| | | |p o] eqn:E; [by intros..|].
    intros H1 H2 H3. cbn [settle] in *.
    destruct (AppRouter match_route (navigate p o w)) as [| | | |p' o'] eqn:E'; [by intros..|]. by destruct (H3 p' o').
Qed.
End guards.

(** ** The properties *)

(** The events: the session check, logging in and out, typing, and following a link. *)
Inductive auth_event : Auth.handler unit → Prop :=
| ev_reload : auth_event reload
| ev_submit : auth_event submit
| ev_sign_out : auth_event signOut
| ev_username x : auth_event (setUsername x)
| ev_password x : auth_event (setPassword x)
| ev_link path : auth_event (modify (navigate path None)).

Lemma auth_ok_reachable initialSession path l w ts :
  rtc (world_step auth_event) (MkAW (initial_provider initialSession) (MkLocation path None) l, []) (w, ts) → auth_ok w.
Proof.
  intros Hs. eapply (world_invariant auth_ok) in Hs as [H _]; [done| |split; [apply provider_ok_initial|constructor]].
  intros m [| | |x|x|p]; [apply preserves_reload|apply preserves_submit|apply preserves_signOut|..];
    apply preserves_modify; intros w' Hw; by eapply auth_ok_frame.
Qed.

(** C7. Pages are guarded.  In whatever order the session is checked, the user logs in and
    out, follows links and the server answers, the token sent with requests is the one of
    the session in use, rendering ends after at most two redirections without changing the
    session, and the page it shows is one the session may see: without a session only the
    login page, the user list only for an administrator, the teams only for an
    administrator or the administrator of a team. *)
Theorem pages_guarded match_route initialSession path l w ts :
  routes_match match_route →
  rtc (world_step auth_event) (MkAW (initial_provider initialSession) (MkLocation path None) l, []) (w, ts) →
  csrfToken (provider w) = from_option as_csrfToken [] (session (provider w))
  ∧ (let x := settle match_route 2 w in
     provider x.1 = provider w ∧ settle match_route 0 x.1 = x ∧ (∀ p o, x.2 ≠ Navigate p o)
     ∧ ∀ r, x.2 = Page r → permitted (session (provider w)) r).
Proof.
  intros Hr Hs%auth_ok_reachable. split; [apply Hs|].
  destruct (settle_twice match_route Hr w Hs) as (Hp & Ha & Hn). cbv zeta. split_and!; [done| |done|].
  - by rewrite settle_0, Ha, <- surjective_pairing.
  - intros r He. rewrite He in Ha. rewrite <- Hp. eapply element_permitted; [|exact Ha]. by rewrite Hp.
Qed.

Definition sample_routes (path : jstr) : Route :=
  if bool_decide (path = "/login"%js) then LoginRoute else if bool_decide (path = "/"%js) then IndexRoute
  else if bool_decide (path = "/connections"%js) then ConnectionsRoute
  else if bool_decide (path = "/settings/profile"%js) then ProfileRoute
  else if bool_decide (path = "/settings/users"%js) then UsersRoute else UnknownRoute.

Definition sample_session : AuthSession := MkAuthSession (MkAuthUser "u"%js "u"%js "U"%js "member"%js) [] "t"%js.

Lemma pages_guarded_witness :
  let w := MkAW (initial_provider (Some (Some sample_session))) (MkLocation "/settings/users"%js None) (MkLoginForm [] [] [] false) in
  permitted (session (provider w)) ProfileRoute ∧ (settle sample_routes 2 w).2 = Page ProfileRoute.
Proof.
  intros w. assert (He : (settle sample_routes 2 w).2 = Page ProfileRoute) by (by vm_compute). split; [|done].
  eapply (pages_guarded sample_routes (Some (Some sample_session)) _ _ w []); [by vm_compute|apply rtc_refl|exact He].
Defined.

(** Logging in.  A guest who opens a page is shown the login page instead.  Logging in
    sends the two fields as typed, without a token; an accepted login makes the session of
    the answer the current one and shows the page that was opened, as far as that session
    may see it; a refused one shows the message on the login page and changes neither the
    session nor the address. *)
Theorem login_spec match_route w user pass :
  routes_match match_route → auth_ok w → status (provider w) = auth_guest →
  pathname (location w) ≠ [] → pathname (location w) ≠ "/login"%js →
  match_route (pathname (location w)) ≠ LoginRoute → match_route (pathname (location w)) ≠ UnknownRoute →
  let shown := settle match_route 1 w in
  let filled := set_login (λ l, MkLoginForm user pass (login_error l) (submitting l)) shown.1 in
  let start := run submit filled in
  shown.2 = Page LoginRoute
  ∧ (∃ hs, awaited start.2 =
       Some (MkAuthCall (POST "/api/auth/login"%js (Some (obj [("username", VStr user); ("password", VStr pass)]%js))) hs)
       ∧ ∀ t, ("X-CSRF-Token"%js, t) ∉ hs)
  ∧ (∀ payload,
       let x := drive [inl (RSession payload)] start in
       x.2 = Finished ∧ session (provider x.1) = Some (normalizeSession payload) ∧ status (provider x.1) = auth_ready
       ∧ submitting (login_form x.1) = false
       ∧ (settle match_route 2 x.1).2 = (settle match_route 2 (navigate (pathname (location w)) None x.1)).2)
  ∧ (∀ e,
       let x := drive [inr e] start in
       x.2 = Finished ∧ provider x.1 = provider w ∧ location x.1 = location shown.1
       ∧ login_error (login_form x.1) = failure_message "登录失败"%js e ∧ submitting (login_form x.1) = false).
Proof.
  intros (Hl & _) (Ht & _ & Hg & _) Hst Hne Hnl Hml Hmu.
  destruct w as [[s st e c] [path o] l]. cbn in Ht, Hg, Hst, Hne, Hnl, Hml, Hmu. subst st. specialize (Hg eq_refl). subst s. cbn in Ht. subst c.
  assert (Hs : settle match_route 1 (MkAW (MkProvider None auth_guest e []) (MkLocation path o) l)
               = (MkAW (MkProvider None auth_guest e []) (MkLocation "/login"%js (Some path)) l, Page LoginRoute)).
  { cbn. unfold AppRouter. cbn. destruct (match_route path) eqn:Em; cbn; rewrite ?Hl; try done. }
  rewrite Hs. cbv zeta. cbn [fst snd]. split; [done|]. split; [|split].
  - eexists. split; [reflexivity|]. intros t Hin. cbn in Hin. set_solver.
  - intros payload. cbn. unfold destination. cbn. destruct path as [|a path]; [done|].
    rewrite bool_decide_eq_false_2 by done. done.
  - intros err. by destruct err.
Qed.

Lemma login_spec_witness :
  let w := MkAW (initial_provider (Some None)) (MkLocation "/settings/users"%js None) (MkLoginForm [] [] [] false) in
  (settle sample_routes 1 w).2 = Page LoginRoute.
Proof.
  intros w. by apply (login_spec sample_routes w [] []).
Defined.
