(* ===== verification/DatabasePage.v ===== *)
(** * The database page

    [src/web/src/pages/DatabasePage.tsx], which loads the connections the workbench offers
    and keeps the chosen one in the address, and
    [src/web/src/features/database/DatabaseResourceRail.tsx], which lists them.  The effect
    that loads the list runs again whenever the chosen connection changes; [effect] counts
    its runs, and a run is active until the next one starts. *)
From S2P Require Import Prelude JsString JsNumber JsValue Http Api Connections Async.

(** ** The list of connections *)

(** [selectedConnectionId] is the parameter of the address. *)
Record DP := MkDP {
  targets : list WorkbenchTarget;
  loading : bool;
  page_error : jstr;
  selectedConnectionId : jstr;
  effect : nat;
}.
Definition setConnections x w := MkDP x (loading w) (page_error w) (selectedConnectionId w) (effect w).
Definition setLoading x w := MkDP (targets w) x (page_error w) (selectedConnectionId w) (effect w).
Definition setError x w := MkDP (targets w) (loading w) x (selectedConnectionId w) (effect w).
Definition setSearchParams x w := MkDP (targets w) (loading w) (page_error w) x (effect w).
Definition new_effect w := MkDP (targets w) (loading w) (page_error w) (selectedConnectionId w) (S (effect w)).

(** The page opened at an address. *)
Definition initial_DP (connection : jstr) : DP := MkDP [] true [] connection 0.

Inductive ListCall := list_connections (kind : ConnectionKind).
Abbreviation handler := (async DP ListCall (list Connection) error).
#[local] Open Scope async_scope.

(** [items.map(toWorkbenchTarget)], which throws at the first connection that is no
    database. *)
Definition to_targets (items : list Connection) : handler (list WorkbenchTarget) :=
  match mapM toWorkbenchTarget items with
  | Some l => ret l
  | None => throw (Some "数据库工作台仅支持数据库连接"%js)
  end.

(** [if (active) ...] in the run [n]. *)
Definition if_active (n : nat) (m : handler unit) : handler unit :=
  let* w := state in if (effect w =? n)%nat then m else ret tt.

Definition unknown_connection : jstr := "连接不存在或无权访问"%js.

(** One run of the effect. *)
Definition fetch_list : handler unit :=
  do* modify new_effect in
  let* w := state in
  let n := effect w in
  let selected := selectedConnectionId w in
  do* modify (setLoading true) in
  do* modify (setError []) in
  finally
    (catch
      (let* items := await (list_connections database_kind) in
       if_active n
         (let* l := to_targets items in
          do* modify (setConnections l) in
          if truthy selected && negb (existsb (λ c, bool_decide (wt_id c = selected)) l) then
            do* modify (setSearchParams []) in
            modify (setError unknown_connection)
          else ret tt))
      (λ reason, if_active n (modify (setError (default "无法加载数据库连接"%js reason)))))
    (if_active n (modify (setLoading false))).

(** The effect: it runs again when it has changed the address itself. *)
Definition load_effect : handler unit :=
  let* before := state in
  do* fetch_list in
  let* after := state in
  if (effect after =? S (effect before))%nat && negb (bool_decide (selectedConnectionId after = selectedConnectionId before))
  then fetch_list else ret tt.

(** [onSelectConnection]. *)
Definition onSelectConnection (id : jstr) : handler unit :=
  let* w := state in
  do* modify (setSearchParams id) in
  if bool_decide (id = selectedConnectionId w) then ret tt else load_effect.

(** ** The rail *)

Definition driverLabels (d : DriverId) : jstr :=
  match d with postgres => "PG"%js | mysql => "MY"%js | mongodb => "MO"%js | redis => "RE"%js end.

(** Part of a target that is searched; the name of the database is a text. *)
Definition parts (c : WorkbenchTarget) : list jstr :=
  [wt_name c; wt_host c; to_str (wt_database c); driver_text (wt_driver c)].
Definition rail_visible `{Unicode} (query : jstr) (connections : list WorkbenchTarget) : list WorkbenchTarget :=
  let value := toLowerCase (trim query) in
  if truthy value then filterb (λ c, existsb (λ part, includes value (toLowerCase part)) (parts c)) connections
  else connections.

Inductive RailStatus := Online | Busy | Offline.
Record RailItem := MkRailItem { ri_target : WorkbenchTarget; ri_selected : bool; ri_disabled : bool; ri_status : RailStatus }.

Definition rail_item (selectedId connectingId : jstr) (connected : bool) (c : WorkbenchTarget) : RailItem :=
  let selected := bool_decide (wt_id c = selectedId) in
  let busy := bool_decide (wt_id c = connectingId) in
  MkRailItem c selected (truthy connectingId && negb busy)
    (if selected && connected && negb busy then Online else if busy then Busy else Offline).

Definition scope_label (s : ConnectionScope) : jstr := match s with personal => "个人"%js | team => "团队"%js end.

(** The groups displayed: a label and its connections. *)
Definition rail_groups `{Unicode} (query selectedId connectingId : jstr) (connected : bool)
    (connections : list WorkbenchTarget) : list (jstr * list RailItem) :=
  let visible := rail_visible query connections in
  omap (λ scope,
    match filterb (λ c, bool_decide (wt_scope c = scope)) visible with
    | [] => None
    | items => Some (scope_label scope, rail_item selectedId connectingId connected <$> items)
    end) [personal; team].

(** ** Properties *)

(** Runs a handler as far as the test decided by [E] allows. *)
Ltac walk E := cbv [bind state modify ret throw catch finally if_active]; cbn; repeat (first [rewrite Nat.eqb_refl|rewrite E]; cbn).

Lemma to_targets_spec items :
  to_targets items = match mapM toWorkbenchTarget items with
                     | Some l => ret l
                     | None => throw (Some "数据库工作台仅支持数据库连接"%js)
                     end.
Proof. done. Qed.

(** Loading the connections.  A run of the effect asks for the database connections.
    Answered after another run has started, it changes nothing.  Otherwise the connections
    of the answer are shown and the page is no longer loading; an answer that holds
    something else, or a failure, shows a message and keeps the earlier connections; and a
    chosen connection that the answer lacks is dropped from the address, which starts
    another run that clears the message saying so. *)
Theorem connections_loaded w :
  let n := S (effect w) in
  let start := run load_effect w in
  start.1 = setError [] (setLoading true (new_effect w))
  ∧ ∃ k, start.2 = Await (list_connections database_kind) k
    ∧ (∀ r w', n ≠ effect w' → k r w' = (w', Finished))
    ∧ (∀ reason w', effect w' = n → selectedConnectionId w' = selectedConnectionId w →
         k (inr reason) w' = (setLoading false (setError (default "无法加载数据库连接"%js reason) w'), Finished))
    ∧ (∀ items w', effect w' = n → selectedConnectionId w' = selectedConnectionId w →
         match mapM toWorkbenchTarget items with
         | None => k (inl items) w' = (setLoading false (setError "数据库工作台仅支持数据库连接"%js w'), Finished)
         | Some l =>
             if bool_decide (selectedConnectionId w = [] ∨ selectedConnectionId w ∈ (wt_id <$> l))
             then k (inl items) w' = (setLoading false (setConnections l w'), Finished)
             else
               let x := k (inl items) w' in
               awaited x.2 = Some (list_connections database_kind)
               ∧ targets x.1 = l ∧ selectedConnectionId x.1 = [] ∧ page_error x.1 = [] ∧ loading x.1 = true
         end).
Proof.
  intros n start. split; [done|]. eexists. split; [reflexivity|]. subst n start. split_and!.
  - intros r [ts ld er sel ef] Hn. cbn in Hn.
    assert (E : (ef =? S (effect w))%nat = false) by (apply Nat.eqb_neq; lia). by destruct r; walk E.
  - intros reason [ts ld er sel ef] Hn Hs. cbn in Hn, Hs. subst ef sel. walk Nat.eqb_refl.
    by rewrite bool_decide_eq_true_2.
  - intros items [ts ld er sel ef] Hn Hs. cbn in Hn, Hs. subst ef sel. pose proof (to_targets_spec items) as El.
    destruct (mapM toWorkbenchTarget items) as [l|].
    2:{ walk Nat.eqb_refl. rewrite El. walk Nat.eqb_refl. by rewrite bool_decide_eq_true_2. }
    destruct (bool_decide_reflect (selectedConnectionId w = [] ∨ selectedConnectionId w ∈ (wt_id <$> l))) as [Hs|Hs].
    + assert (E : truthy (selectedConnectionId w) && negb (existsb (λ c, bool_decide (wt_id c = selectedConnectionId w)) l) = false).
      { destruct Hs as [->|(c & Hid & Hc)%list_elem_of_fmap]; [done|]. apply andb_false_iff. right. apply negb_false_iff, existsb_elem.
        exists c. split; [done|]. by apply bool_decide_eq_true_2. }
      walk Nat.eqb_refl. rewrite El. walk E. walk Nat.eqb_refl. by rewrite bool_decide_eq_true_2.
    + assert (E : truthy (selectedConnectionId w) && negb (existsb (λ c, bool_decide (wt_id c = selectedConnectionId w)) l) = true).
      { assert (Hne : selectedConnectionId w ≠ []) by naive_solver. apply andb_true_iff. split; [by destruct (selectedConnectionId w)|].
        apply negb_true_iff, existsb_not. intros c Hc. apply bool_decide_eq_false_2. intros Hid. apply Hs. right. rewrite <- Hid.
        by apply list_elem_of_fmap_2. }
      walk Nat.eqb_refl. rewrite El. walk E. walk Nat.eqb_refl.
      by rewrite bool_decide_eq_false_2 by (intros E'; apply Hs; by left).
Qed.

(** The rail lists each connection that matches the search once, under its scope and in
    the order of the list; while a connection is being made only that one can be chosen. *)
Theorem rail_spec `{Unicode} query selectedId connectingId connected connections :
  let groups := rail_groups query selectedId connectingId connected connections in
  let items := concat (snd <$> groups) in
  (ri_target <$> items)
    = filterb (λ c, bool_decide (wt_scope c = personal)) (rail_visible query connections)
      ++ filterb (λ c, bool_decide (wt_scope c = team)) (rail_visible query connections)
  ∧ Permutation (ri_target <$> items) (rail_visible query connections)
  ∧ (∀ c, c ∈ rail_visible query connections ↔
       c ∈ connections ∧ (toLowerCase (trim query) = [] ∨ ∃ part, part ∈ parts c ∧ includes (toLowerCase (trim query)) (toLowerCase part) = true))
  ∧ (∀ g, g ∈ groups → g.2 ≠ [])
  ∧ (∀ i, i ∈ items → connectingId ≠ [] → ri_disabled i = true ↔ wt_id (ri_target i) ≠ connectingId).
Proof.
  cbv zeta. set (V := rail_visible query connections).
  set (P := filterb (λ c, bool_decide (wt_scope c = personal)) V). set (T := filterb (λ c, bool_decide (wt_scope c = team)) V).
  assert (Hi : concat (snd <$> rail_groups query selectedId connectingId connected connections)
               = (rail_item selectedId connectingId connected <$> P) ++ (rail_item selectedId connectingId connected <$> T)).
  { unfold rail_groups. fold V. cbn -[filterb]. fold P T. destruct P, T; cbn -[rail_item]; by rewrite ?app_nil_r. }
  assert (Ht : ∀ l : list WorkbenchTarget, ri_target <$> (rail_item selectedId connectingId connected <$> l) = l).
  { intros l. rewrite <- list_fmap_compose. apply list_fmap_id. }
  split_and!.
  - by rewrite Hi, fmap_app, !Ht.
  - rewrite Hi, fmap_app, !Ht. subst P T. clear. induction V as [|c V IH]; [done|]. rewrite !filterb_cons.
    destruct (wt_scope c).
    + change (bool_decide (personal = personal)) with true. change (bool_decide (personal = team)) with false. cbn. by f_equiv.
    + change (bool_decide (team = personal)) with false. change (bool_decide (team = team)) with true.
      cbn. rewrite <- Permutation_middle. by f_equiv.
  - intros c. subst V. unfold rail_visible. set (value := toLowerCase (trim query)). cbv zeta.
    destruct (truthy value) eqn:E; [|destruct value; [naive_solver|done]].
    rewrite elem_of_filterb, existsb_elem. by destruct value; naive_solver.
  - intros g. unfold rail_groups. rewrite list_elem_of_omap. intros (s & _ & Hg). cbn -[filterb] in Hg.
    case_match; [done|]. by simplify_eq.
  - intros i Hin Hc. rewrite Hi, <- fmap_app in Hin. apply list_elem_of_fmap in Hin as (c & -> & _). cbn.
    destruct connectingId as [|a b]; [done|]. cbn. rewrite negb_true_iff, bool_decide_eq_false. done.
Qed.
