(* ===== verification/Settings.v ===== *)
(** * Users and teams: data, requests and dialogs

    [src/web/src/settings/]: the records and requests of [client.ts], the helpers of
    [shared.ts] and [errors.ts], and the drafts of the dialogs [TeamMembersDialog.tsx],
    [UserTeamAssignmentsField.tsx], [CreateUserDialog.tsx], [EditUserDialog.tsx] and
    [CreateTeamDialog.tsx].  [Record<string, TeamMemberSummary[]>] is a map. *)
From S2P Require Import Prelude JsString JsNumber JsValue Uri Http Auth.

(** ** client.ts *)

Record UserSummary := MkUser {
  u_id : jstr;
  u_username : jstr;
  u_displayName : jstr;
  u_systemRole : jstr;
  u_disabled : bool;
}.
Record TeamSummary := MkTeam { team_id : jstr; team_name : jstr; team_role : jstr }.
Record TeamMemberSummary := MkMember { mem_user : UserSummary; mem_role : jstr }.
Record CreateUserInput := MkCreateUser { cu_username : jstr; cu_displayName : jstr; cu_password : jstr; cu_systemRole : jstr }.
Record UpdateUserInput := MkUpdateUser {
  uu_displayName : jstr;
  uu_systemRole : jstr;
  uu_disabled : option bool;
  uu_password : option jstr;
}.
Record UserTeamAssignment := MkAssignment { ta_teamId : jstr; ta_role : jstr }.

Abbreviation members_map := (gmap jstr (list TeamMemberSummary)).
(** [teamMembers[id] ?? []]. *)
Definition members_of (teamMembers : members_map) (id : jstr) : list TeamMemberSummary := default [] (teamMembers !! id).

Module SettingsClient.
Definition on_user (id rest : jstr) : option jstr := template [Text "/api/users/"%js; Hole id; Text rest].
Definition on_team (id rest : jstr) : option jstr := template [Text "/api/teams/"%js; Hole id; Text rest].
Definition on_member (team user : jstr) : option jstr :=
  template [Text "/api/teams/"%js; Hole team; Text "/members/"%js; Hole user].

Definition listUsers : Request := GET "/api/users"%js.
Definition createUser (i : CreateUserInput) : Request :=
  POST "/api/users"%js
    (Some (obj [("username", VStr (cu_username i)); ("displayName", VStr (cu_displayName i));
                ("password", VStr (cu_password i)); ("role", VStr (cu_systemRole i))]%js)).
Definition updateUser (userId : jstr) (i : UpdateUserInput) : option Request :=
  target ← on_user userId [];
  Some (PATCH target
    (Some (obj ([("displayName", VStr (uu_displayName i)); ("role", VStr (uu_systemRole i))]%js
                ++ [("disabled"%js, opt_bool (uu_disabled i))]
                ++ match uu_password i with Some ((_ :: _) as p) => [("password"%js, VStr p)] | _ => [] end)))).
Definition deleteUser (userId : jstr) : option Request := target ← on_user userId []; Some (DELETE target).
Definition setUserTeams (userId : jstr) (teams : list UserTeamAssignment) : option Request :=
  target ← on_user userId "/teams"%js;
  Some (PUT target
    (Some (obj [("teams"%js, VArr ((λ t, obj [("teamId", VStr (ta_teamId t)); ("role", VStr (ta_role t))]%js) <$> teams))]))).
Definition listTeams : Request := GET "/api/teams"%js.
Definition createTeam (name : jstr) : Request := POST "/api/teams"%js (Some (obj [("name"%js, VStr name)])).
Definition updateTeam (teamId name : jstr) : option Request :=
  target ← on_team teamId []; Some (PATCH target (Some (obj [("name"%js, VStr name)]))).
Definition deleteTeam (teamId : jstr) : option Request := target ← on_team teamId []; Some (DELETE target).
Definition listTeamMembers (teamId : jstr) : option Request := target ← on_team teamId "/members"%js; Some (GET target).
Definition addMember (teamId userId role : jstr) : option Request :=
  target ← on_team teamId "/members"%js;
  Some (POST target (Some (obj [("userId", VStr userId); ("role", VStr role)]%js))).
Definition updateMemberRole (teamId userId role : jstr) : option Request :=
  target ← on_member teamId userId; Some (PATCH target (Some (obj [("role"%js, VStr role)]))).
Definition removeMember (teamId userId : jstr) : option Request := target ← on_member teamId userId; Some (DELETE target).
End SettingsClient.

(** ** shared.ts *)

Definition systemRoleOptions : list (jstr * jstr) := [("member", "成员"); ("admin", "系统管理员")]%js.
Definition teamRoleOptions : list (jstr * jstr) := [("member", "成员"); ("admin", "团队管理员")]%js.

Definition displayUser (u : UserSummary) : jstr := or_else (u_displayName u) (u_username u).
Definition toCurrentUserSummary (u : AuthUser) : UserSummary :=
  MkUser (au_id u) (au_username u) (au_displayName u) (au_systemRole u) false.

Definition memberTeams (teams : list TeamSummary) : list TeamSummary :=
  filterb (λ t, bool_decide (team_role t = "member"%js) || bool_decide (team_role t = "admin"%js)) teams.
Definition manageableTeams (teams : list TeamSummary) (isSystemAdmin : bool) : list TeamSummary :=
  if isSystemAdmin then teams else filterb (λ t, bool_decide (team_role t = "admin"%js)) teams.

Definition teamRoleLabel (role : jstr) : jstr :=
  if bool_decide (role = "admin"%js) then "团队管理员"%js
  else if bool_decide (role = "member"%js) then "成员"%js else "未加入"%js.

Definition member_in (userId : jstr) (members : list TeamMemberSummary) : option TeamMemberSummary :=
  find_first (λ m, bool_decide (u_id (mem_user m) = userId)) members.
Definition membershipsForUser (userId : jstr) (teams : list TeamSummary) (teamMembers : members_map) : list UserTeamAssignment :=
  omap (λ t, (λ m, MkAssignment (team_id t) (mem_role m)) <$> member_in userId (members_of teamMembers (team_id t))) teams.
Definition teamsForUser (userId : jstr) (teams : list TeamSummary) (teamMembers : members_map) : list (jstr * jstr * jstr) :=
  omap (λ t, (λ m, (team_id t, team_name t, mem_role m)) <$> member_in userId (members_of teamMembers (team_id t))) teams.

(** The messages of invalid input; [None] when there is none. *)
Definition validatePassword (password : jstr) : option jstr :=
  if negb (truthy password) then Some "请输入密码"%js
  else if (length password <? 8)%nat then Some "密码至少 8 位"%js else None.
Definition validateCreateUser (username password : jstr) : option jstr :=
  if negb (truthy (trim username)) then Some "请输入用户名"%js else validatePassword password.

(** ** errors.ts *)

(** What the pages catch: an [AuthAPIError], or anything else. *)
Inductive SettingsError := Refused (code message : jstr) | Broken (message : option jstr).

Definition codeMessages (code : jstr) : option jstr :=
  if bool_decide (code = "last_team_admin"%js)
  then Some "该团队至少需要保留一名管理员。请先指定其他成员为管理员，再执行此操作。"%js
  else if bool_decide (code = "last_system_admin"%js)
  then Some "系统至少需要保留一名未禁用的管理员。请先提升其他用户或启用其他管理员账号。"%js
  else if bool_decide (code = "forbidden"%js) then Some "你没有权限执行此操作。"%js
  else if bool_decide (code = "conflict"%js) then Some "操作发生冲突，可能是记录已存在或状态不允许变更。"%js
  else if bool_decide (code = "invalid"%js) then Some "提交的数据无效，请检查表单后重试。"%js
  else if bool_decide (code = "not_found"%js) then Some "目标记录不存在，可能已被删除。"%js
  else None.
Definition settingsErrorMessage (e : SettingsError) : jstr :=
  match e with
  | Refused code message => default message (codeMessages code)
  | Broken message => default "请求失败"%js message
  end.
(** [err instanceof Error ? err.message : '请求失败']. *)
Definition error_message (e : SettingsError) : jstr :=
  match e with Refused _ message => message | Broken message => default "请求失败"%js message end.

(** ** Drafts of memberships *)

Record TeamMemberDraft := MkMemberDraft { md_userId : jstr; md_joined : bool; md_role : jstr }.
Record TeamMembershipDraft := MkMembershipDraft { td_teamId : jstr; td_joined : bool; td_role : jstr }.

(** [new Map(members.map((member) => [member.user.id, member.role]))]: its lookups.  A later
    entry of the same key wins. *)
Definition role_of (members : list TeamMemberSummary) (userId : jstr) : option jstr :=
  mem_role <$> find_first (λ m, bool_decide (u_id (mem_user m) = userId)) (rev members).

Definition active_users (users : list UserSummary) : list UserSummary := filterb (λ u, negb (u_disabled u)) users.
Definition buildTeamMemberDraft (users : list UserSummary) (members : list TeamMemberSummary) : list TeamMemberDraft :=
  (λ u, MkMemberDraft (u_id u) (bool_decide (is_Some (role_of members (u_id u)))) (default "member"%js (role_of members (u_id u))))
    <$> active_users users.
(** [updateMember(userId, {joined})] and [updateMember(userId, {role})]. *)
Definition update_joined (userId : jstr) (joined : bool) (draft : list TeamMemberDraft) : list TeamMemberDraft :=
  update_where (λ d, bool_decide (md_userId d = userId)) (λ d, MkMemberDraft (md_userId d) joined (md_role d)) draft.
Definition update_role (userId role : jstr) (draft : list TeamMemberDraft) : list TeamMemberDraft :=
  update_where (λ d, bool_decide (md_userId d = userId)) (λ d, MkMemberDraft (md_userId d) (md_joined d) role) draft.
Definition memberSummaryLabel (members : list TeamMemberSummary) : jstr :=
  match members with
  | [] => "暂无成员"%js
  | _ => join "、"%js ((λ m, displayUser (mem_user m) ++ "（"%js ++ teamRoleLabel (mem_role m) ++ "）"%js) <$> members)
  end.

Definition emptyTeamMembershipDraft (teams : list TeamSummary) : list TeamMembershipDraft :=
  (λ t, MkMembershipDraft (team_id t) false "member"%js) <$> teams.
Definition buildTeamMembershipDraft (userId : jstr) (teams : list TeamSummary) (teamMembers : members_map) : list TeamMembershipDraft :=
  let memberships := membershipsForUser userId teams teamMembers in
  (λ t,
    let membership := find_first (λ a, bool_decide (ta_teamId a = team_id t)) memberships in
    MkMembershipDraft (team_id t) (bool_decide (is_Some membership)) (from_option ta_role "member"%js membership)) <$> teams.
Definition update_team_joined (teamId : jstr) (joined : bool) (draft : list TeamMembershipDraft) : list TeamMembershipDraft :=
  update_where (λ d, bool_decide (td_teamId d = teamId)) (λ d, MkMembershipDraft (td_teamId d) joined (td_role d)) draft.
Definition update_team_role (teamId role : jstr) (draft : list TeamMembershipDraft) : list TeamMembershipDraft :=
  update_where (λ d, bool_decide (td_teamId d = teamId)) (λ d, MkMembershipDraft (td_teamId d) (td_joined d) role) draft.

(** ** Submitting the dialogs *)

(** What [onSubmit] gets, or the message shown. *)
Definition create_user_submit (profile : CreateUserInput) : CreateUserInput + jstr :=
  match validateCreateUser (cu_username profile) (cu_password profile) with
  | Some message => inr message
  | None => inl (MkCreateUser (trim (cu_username profile)) (trim (cu_displayName profile)) (cu_password profile) (cu_systemRole profile))
  end.

(** The profile [EditUserDialog] starts with. *)
Definition edit_profile (u : UserSummary) : UpdateUserInput := MkUpdateUser (displayUser u) (u_systemRole u) (Some (u_disabled u)) None.

Definition edit_user_submit (profile : UpdateUserInput) (password passwordConfirm : jstr) : UpdateUserInput + jstr :=
  let trimmedPassword := trim password in
  let accepted := inl (MkUpdateUser (uu_displayName profile) (uu_systemRole profile) (uu_disabled profile)
                         (if truthy trimmedPassword then Some trimmedPassword else None)) in
  if truthy trimmedPassword || truthy (trim passwordConfirm) then
    match validatePassword trimmedPassword with
    | Some message => inr message
    | None =>
        if bool_decide (trimmedPassword = trim passwordConfirm) then accepted else inr "两次输入的密码不一致"%js
    end
  else accepted.

Definition create_team_submit (name : jstr) : jstr + jstr :=
  let trimmed := trim name in if truthy trimmed then inl trimmed else inr "请输入团队名称"%js.
