(* ===== verification/SettingsPages.v ===== *)
(** * The settings pages

    The data of [src/web/src/settings/useSettingsData.ts] and of [SettingsLayout.tsx], which
    the pages share, and the state and handlers of [SettingsTeamsPage.tsx] and
    [SettingsUsersPage.tsx].  The requests of a [Promise.all] are one call whose reply holds
    all the answers. *)
From S2P Require Import Prelude JsString JsNumber JsValue Http Async Auth Settings.

(** ** State *)

Inductive LoadState := state_loading | state_ready | state_error.

Record Data := MkData {
  load_state : LoadState;
  users : list UserSummary;
  teams : list TeamSummary;
  teamMembers : members_map;
  error_ : jstr;
  success : jstr;
  session : option AuthSession;
  effect : nat;
}.
Record Teams := MkTeams {
  creatingTeam : bool;
  showCreateTeam : bool;
  editingTeamId : jstr;
  teamDrafts : gmap jstr jstr;
  teamPending : gmap jstr bool;
  pendingAction : option TeamSummary;
  managingTeam : option TeamSummary;
  savingMembers : bool;
  selectedTeamId : jstr;
}.
Record Users := MkUsers {
  showCreate : bool;
  creating : bool;
  editingUser : option UserSummary;
  savingEdit : bool;
  togglingDisabled : gmap jstr bool;
  deletingUser : option UserSummary;
  deletePending : bool;
  query : jstr;
  selectedUserId : jstr;
}.

(** The states of the dialogs. *)
Record NewTeam := MkNewTeam { nt_name : jstr; nt_error : jstr }.
Record NewUser := MkNewUser { nu_profile : CreateUserInput; nu_teams : list TeamMembershipDraft; nu_error : jstr }.
Record EditUser := MkEditUser {
  eu_profile : UpdateUserInput;
  eu_teams : list TeamMembershipDraft;
  eu_password : jstr;
  eu_confirm : jstr;
  eu_error : jstr;
}.
(** The dialogs that are mounted, with the [key] of those that have one. *)
Record Dialogs := MkDialogs {
  d_newTeam : option NewTeam;
  d_members : option (jstr * list TeamMemberDraft);
  d_newUser : option (jstr * NewUser);
  d_editUser : option (jstr * EditUser);
}.

Record SP := MkSP {
  data : Data;
  teams_page : Teams;
  users_page : Users;
  dialogs : Dialogs;
}.

(** The setters of the [useState] variables. *)
Definition set_data f (w : SP) := MkSP (f (data w)) (teams_page w) (users_page w) (dialogs w).
Definition set_teams_page f (w : SP) := MkSP (data w) (f (teams_page w)) (users_page w) (dialogs w).
Definition set_users_page f (w : SP) := MkSP (data w) (teams_page w) (f (users_page w)) (dialogs w).
Definition set_dialogs f (w : SP) := MkSP (data w) (teams_page w) (users_page w) (f (dialogs w)).
Definition setState x := set_data (λ r, MkData x (users r) (teams r) (teamMembers r) (error_ r) (success r) (session r) (effect r)).
Definition setUsers f := set_data (λ r, MkData (load_state r) (f (users r)) (teams r) (teamMembers r) (error_ r) (success r) (session r) (effect r)).
Definition setTeams f := set_data (λ r, MkData (load_state r) (users r) (f (teams r)) (teamMembers r) (error_ r) (success r) (session r) (effect r)).
Definition setTeamMembers f := set_data (λ r, MkData (load_state r) (users r) (teams r) (f (teamMembers r)) (error_ r) (success r) (session r) (effect r)).
Definition setError x := set_data (λ r, MkData (load_state r) (users r) (teams r) (teamMembers r) x (success r) (session r) (effect r)).
Definition setSuccess x := set_data (λ r, MkData (load_state r) (users r) (teams r) (teamMembers r) (error_ r) x (session r) (effect r)).
Definition set_session x := set_data (λ r, MkData (load_state r) (users r) (teams r) (teamMembers r) (error_ r) (success r) x (effect r)).
Definition set_effect f := set_data (λ r, MkData (load_state r) (users r) (teams r) (teamMembers r) (error_ r) (success r) (session r) (f (effect r))).
Definition setCreatingTeam x := set_teams_page (λ r, MkTeams x (showCreateTeam r) (editingTeamId r) (teamDrafts r) (teamPending r) (pendingAction r) (managingTeam r) (savingMembers r) (selectedTeamId r)).
Definition setShowCreateTeam x := set_teams_page (λ r, MkTeams (creatingTeam r) x (editingTeamId r) (teamDrafts r) (teamPending r) (pendingAction r) (managingTeam r) (savingMembers r) (selectedTeamId r)).
Definition setEditingTeamId x := set_teams_page (λ r, MkTeams (creatingTeam r) (showCreateTeam r) x (teamDrafts r) (teamPending r) (pendingAction r) (managingTeam r) (savingMembers r) (selectedTeamId r)).
Definition setTeamDrafts f := set_teams_page (λ r, MkTeams (creatingTeam r) (showCreateTeam r) (editingTeamId r) (f (teamDrafts r)) (teamPending r) (pendingAction r) (managingTeam r) (savingMembers r) (selectedTeamId r)).
Definition setTeamPending f := set_teams_page (λ r, MkTeams (creatingTeam r) (showCreateTeam r) (editingTeamId r) (teamDrafts r) (f (teamPending r)) (pendingAction r) (managingTeam r) (savingMembers r) (selectedTeamId r)).
Definition setPendingAction x := set_teams_page (λ r, MkTeams (creatingTeam r) (showCreateTeam r) (editingTeamId r) (teamDrafts r) (teamPending r) x (managingTeam r) (savingMembers r) (selectedTeamId r)).
Definition setManagingTeam x := set_teams_page (λ r, MkTeams (creatingTeam r) (showCreateTeam r) (editingTeamId r) (teamDrafts r) (teamPending r) (pendingAction r) x (savingMembers r) (selectedTeamId r)).
Definition setSavingMembers x := set_teams_page (λ r, MkTeams (creatingTeam r) (showCreateTeam r) (editingTeamId r) (teamDrafts r) (teamPending r) (pendingAction r) (managingTeam r) x (selectedTeamId r)).
Definition setSelectedTeamId x := set_teams_page (λ r, MkTeams (creatingTeam r) (showCreateTeam r) (editingTeamId r) (teamDrafts r) (teamPending r) (pendingAction r) (managingTeam r) (savingMembers r) x).
Definition setShowCreate x := set_users_page (λ r, MkUsers x (creating r) (editingUser r) (savingEdit r) (togglingDisabled r) (deletingUser r) (deletePending r) (query r) (selectedUserId r)).
Definition setCreating x := set_users_page (λ r, MkUsers (showCreate r) x (editingUser r) (savingEdit r) (togglingDisabled r) (deletingUser r) (deletePending r) (query r) (selectedUserId r)).
Definition setEditingUser x := set_users_page (λ r, MkUsers (showCreate r) (creating r) x (savingEdit r) (togglingDisabled r) (deletingUser r) (deletePending r) (query r) (selectedUserId r)).
Definition setSavingEdit x := set_users_page (λ r, MkUsers (showCreate r) (creating r) (editingUser r) x (togglingDisabled r) (deletingUser r) (deletePending r) (query r) (selectedUserId r)).
Definition setTogglingDisabled f := set_users_page (λ r, MkUsers (showCreate r) (creating r) (editingUser r) (savingEdit r) (f (togglingDisabled r)) (deletingUser r) (deletePending r) (query r) (selectedUserId r)).
Definition setDeletingUser x := set_users_page (λ r, MkUsers (showCreate r) (creating r) (editingUser r) (savingEdit r) (togglingDisabled r) x (deletePending r) (query r) (selectedUserId r)).
Definition setDeletePending x := set_users_page (λ r, MkUsers (showCreate r) (creating r) (editingUser r) (savingEdit r) (togglingDisabled r) (deletingUser r) x (query r) (selectedUserId r)).
Definition setQuery x := set_users_page (λ r, MkUsers (showCreate r) (creating r) (editingUser r) (savingEdit r) (togglingDisabled r) (deletingUser r) (deletePending r) x (selectedUserId r)).
Definition setSelectedUserId x := set_users_page (λ r, MkUsers (showCreate r) (creating r) (editingUser r) (savingEdit r) (togglingDisabled r) (deletingUser r) (deletePending r) (query r) x).

Definition initial_SP (s : option AuthSession) : SP :=
  MkSP (MkData state_loading [] [] ∅ [] [] s 0)
    (MkTeams false false [] ∅ ∅ None None false [])
    (MkUsers false false None false ∅ None false [] [])
    (MkDialogs None None None None).

(** ** Calls *)

Inductive SettingsCall :=
(** [Promise.all] of the users and the teams. *)
| list_users_teams
(** The members of several teams at once. *)
| list_all_members (teamIds : list jstr)
| list_members (teamId : jstr)
| create_team (name : jstr)
| update_team (teamId name : jstr)
| delete_team (teamId : jstr)
| add_member (teamId userId role : jstr)
| update_member_role (teamId userId role : jstr)
| remove_member (teamId userId : jstr)
| create_user (input : CreateUserInput)
| update_user (userId : jstr) (input : UpdateUserInput)
| delete_user (userId : jstr)
| set_user_teams (userId : jstr) (teams : list UserTeamAssignment).
Inductive SettingsReply :=
| RUsersTeams (users : list UserSummary) (teams : list TeamSummary)
(** [None] for a team whose request failed. *)
| RAllMembers (members : list (option (list TeamMemberSummary)))
| RMembers (members : list TeamMemberSummary)
| RTeam (team : TeamSummary)
| RUser (user : UserSummary)
| RVoid.

Abbreviation handler := (async SP SettingsCall SettingsReply SettingsError).
#[local] Open Scope async_scope.

(** An answer of another kind cannot come; it counts as a failure. *)
Definition wrong {A} : handler A := throw (Broken None).
Definition call_members (c : SettingsCall) : handler (list TeamMemberSummary) :=
  let* r := await c in match r with RMembers l => ret l | _ => wrong end.
Definition call_team (c : SettingsCall) : handler TeamSummary :=
  let* r := await c in match r with RTeam t => ret t | _ => wrong end.
Definition call_user (c : SettingsCall) : handler UserSummary :=
  let* r := await c in match r with RUser u => ret u | _ => wrong end.
Definition call (c : SettingsCall) : handler unit := do* await c in ret tt.

(** ** useSettingsData.ts *)

(** [Object.fromEntries] of the pairs of a team and its members. *)
Definition members_entries (ids : list jstr) (replies : list (option (list TeamMemberSummary))) : members_map :=
  foldl (λ m '(id, r), <[id := default [] r]> m) ∅ (zip ids replies).
Definition loadTeamMembers (loadedTeams : list TeamSummary) : handler members_map :=
  let ids := team_id <$> loadedTeams in
  let* r := await (list_all_members ids) in
  match r with RAllMembers l => ret (members_entries ids l) | _ => wrong end.

Definition session_team (t : AuthTeam) : TeamSummary := MkTeam (at_id t) (at_name t) (at_role t).

(** [reloadSettings] in a run of the effect; the run [n] is cancelled by the next one. *)
Definition reloadSettings (n : nat) : handler unit :=
  let* w := state in
  match session (data w) with
  | None => ret tt
  | Some s =>
      let unless_cancelled (m : handler unit) : handler unit :=
        let* w := state in if (effect (data w) =? n)%nat then m else ret tt in
      do* modify (setState state_loading) in
      do* modify (setError []) in
      catch
        (let* r := await list_users_teams in
         match r with
         | RUsersTeams loadedUsers loadedTeams =>
             let* loadedMembers := loadTeamMembers loadedTeams in
             unless_cancelled
               (do* modify (setUsers (λ _, match loadedUsers with [] => [toCurrentUserSummary (as_user s)] | l => l end)) in
                do* modify (setTeams (λ _, loadedTeams)) in
                do* modify (setTeamMembers (λ _, loadedMembers)) in
                modify (setState state_ready))
         | _ => wrong
         end)
        (λ err,
           unless_cancelled
             (do* modify (setUsers (λ _, [toCurrentUserSummary (as_user s)])) in
              do* modify (setTeams (λ _, session_team <$> as_teams s)) in
              do* modify (setTeamMembers (λ _, ∅)) in
              do* modify (setState state_error) in
              modify (setError (error_message err))))
  end.

(** The effect of a session: each run cancels the one before. *)
Definition load_effect : handler unit :=
  do* modify (set_effect S) in
  let* w := state in reloadSettings (effect (data w)).
Definition session_changed (s : option AuthSession) : handler unit :=
  do* modify (set_session s) in load_effect.

Definition refreshMembers (teamId : jstr) : handler unit :=
  let* members := call_members (list_members teamId) in
  modify (setTeamMembers (λ current, <[teamId := members]> current)).
Definition refreshAllMembers (teams : list TeamSummary) : handler unit :=
  let* loadedMembers := loadTeamMembers teams in
  modify (setTeamMembers (λ _, loadedMembers)).

(** ** SettingsLayout.tsx *)

Definition isSystemAdmin (w : SP) : bool := from_option is_admin false (session (data w)).
Definition canManageTeams (w : SP) : bool :=
  isSystemAdmin w || match manageableTeams (teams (data w)) false with [] => false | _ => true end.

Definition clear_messages : handler unit := do* modify (setError []) in modify (setSuccess []).
Definition report (err : SettingsError) : handler unit := modify (setError (settingsErrorMessage err)).

(** ** SettingsTeamsPage.tsx *)

Definition managedTeams (w : SP) : list TeamSummary := manageableTeams (teams (data w)) (isSystemAdmin w).
Definition with_team_id (id : jstr) (l : list TeamSummary) : option TeamSummary :=
  find_first (λ t, bool_decide (team_id t = id)) l.
Definition selectedTeam (w : SP) : option TeamSummary :=
  match with_team_id (selectedTeamId (teams_page w)) (managedTeams w) with
  | Some t => Some t
  | None => head (managedTeams w)
  end.
Definition selectedMembers (w : SP) : list TeamMemberSummary :=
  match selectedTeam w with Some t => members_of (teamMembers (data w)) (team_id t) | None => [] end.

(** [!selected && first] selects the first; a selection that is gone moves to the first. *)
Definition keep_selection (ids : list jstr) (selected : jstr) : jstr :=
  match selected, ids with
  | [], first :: _ => first
  | [], [] => []
  | _, _ => if bool_decide (selected ∈ ids) then selected else default [] (head ids)
  end.
(** The effect of the shown teams. *)
Definition select_team_effect : handler unit :=
  modify (λ w, setSelectedTeamId (keep_selection (team_id <$> managedTeams w) (selectedTeamId (teams_page w))) w).

Section teams.
Context `{Unicode}.

Definition by_team_name (a b : TeamSummary) : Z := localeCompare (team_name a) (team_name b).

Definition submitTeam (name : jstr) : handler unit :=
  do* modify (setCreatingTeam true) in
  do* clear_messages in
  finally
    (catch
      (let* created := call_team (create_team name) in
       let* members := catch (call_members (list_members (team_id created))) (λ _, ret []) in
       do* modify (setTeams (λ current,
         sort_by by_team_name (filterb (λ t, negb (bool_decide (team_id t = team_id created))) current ++ [created]))) in
       do* modify (setTeamMembers (λ current, <[team_id created := members]> current)) in
       do* modify (setShowCreateTeam false) in
       modify (setSuccess ("团队 "%js ++ team_name created ++ " 已创建"%js)))
      report)
    (modify (setCreatingTeam false)).

Definition pending (id : jstr) (b : bool) : handler unit := modify (setTeamPending (λ current, <[id := b]> current)).

Definition saveTeamName (t : TeamSummary) : handler unit :=
  let* w := state in
  let nextName := trim (default (team_name t) (teamDrafts (teams_page w) !! team_id t)) in
  if negb (truthy nextName) || bool_decide (nextName = team_name t) then modify (setEditingTeamId [])
  else
    do* pending (team_id t) true in
    do* clear_messages in
    finally
      (catch
        (let* updated := call_team (update_team (team_id t) nextName) in
         do* modify (setTeams (λ current,
           sort_by by_team_name (update_where (λ i, bool_decide (team_id i = team_id t)) (λ _, updated) current))) in
         do* modify (setEditingTeamId []) in
         modify (setSuccess ("团队已重命名为 "%js ++ team_name updated)))
        report)
      (pending (team_id t) false).
End teams.

Definition deleteTeam (t : TeamSummary) : handler unit :=
  do* pending (team_id t) true in
  do* clear_messages in
  finally
    (catch
      (do* call (delete_team (team_id t)) in
       do* modify (setTeams (filterb (λ i, negb (bool_decide (team_id i = team_id t))))) in
       do* modify (setTeamMembers (delete (team_id t))) in
       modify (setSuccess ("团队 "%js ++ team_name t ++ " 已删除"%js)))
      report)
    (do* pending (team_id t) false in modify (setPendingAction None)).

(** The entries of a [Map] made from a list of pairs: one per key, at the place of its
    first pair and with the role of its last. *)
Definition map_entries (pairs : list (jstr * jstr)) : list (jstr * jstr) :=
  foldl (λ entries '(id, role),
    if existsb (λ e, bool_decide (e.1 = id)) entries then update_where (λ e, bool_decide (e.1 = id)) (λ _, (id, role)) entries
    else entries ++ [(id, role)]) [] pairs.
Definition current_roles (members : list TeamMemberSummary) : list (jstr * jstr) :=
  map_entries ((λ m, (u_id (mem_user m), mem_role m)) <$> members).
Definition next_roles (draft : list TeamMemberDraft) : list (jstr * jstr) :=
  map_entries ((λ d, (md_userId d, md_role d)) <$> filterb md_joined draft).
Definition role_in (entries : list (jstr * jstr)) (id : jstr) : option jstr :=
  snd <$> find_first (λ e, bool_decide (e.1 = id)) entries.

(** The calls of the two loops, in order. *)
Definition member_calls (teamId : jstr) (current next : list (jstr * jstr)) : list SettingsCall :=
  omap (λ '(userId, role),
    match role_in current userId with
    | None => Some (add_member teamId userId role)
    | Some old => if bool_decide (old = role) then None else Some (update_member_role teamId userId role)
    end) next
  ++ omap (λ '(userId, _), match role_in next userId with None => Some (remove_member teamId userId) | Some _ => None end) current.

Fixpoint call_each (calls : list SettingsCall) : handler unit :=
  match calls with [] => ret tt | c :: rest => do* call c in call_each rest end.

Definition saveTeamMembers (t : TeamSummary) (draft : list TeamMemberDraft) : handler unit :=
  let* w := state in
  let current := current_roles (members_of (teamMembers (data w)) (team_id t)) in
  do* modify (setSavingMembers true) in
  do* clear_messages in
  finally
    (catch
      (do* call_each (member_calls (team_id t) current (next_roles draft)) in
       do* refreshMembers (team_id t) in
       do* modify (setManagingTeam None) in
       modify (setSuccess ("已更新 "%js ++ team_name t ++ " 的成员"%js)))
      report)
    (modify (setSavingMembers false)).

(** Opening the dialogs. *)
Definition open_rename (t : TeamSummary) : handler unit :=
  do* modify (setEditingTeamId (team_id t)) in modify (setTeamDrafts (λ current, <[team_id t := team_name t]> current)).
Definition type_name (id name : jstr) : handler unit := modify (setTeamDrafts (λ current, <[id := name]> current)).
(** The renaming and the members of the selected team are offered to these users. *)
Definition offers_management (w : SP) (t : TeamSummary) : bool := isSystemAdmin w || bool_decide (team_role t = "admin"%js).

(** ** SettingsUsersPage.tsx *)

Definition visibleUsers `{Unicode} (w : SP) : list UserSummary :=
  let needle := toLowerCase (trim (query (users_page w))) in
  if truthy needle
  then filterb (λ u, existsb (λ v, includes needle (toLowerCase v)) [u_username u; u_displayName u; u_systemRole u]) (users (data w))
  else users (data w).
Definition selectedUser `{Unicode} (w : SP) : option UserSummary :=
  match find_first (λ u, bool_decide (u_id u = selectedUserId (users_page w))) (visibleUsers w) with
  | Some u => Some u
  | None => head (visibleUsers w)
  end.
Definition select_user_effect `{Unicode} : handler unit :=
  modify (λ w, setSelectedUserId (keep_selection (u_id <$> visibleUsers w) (selectedUserId (users_page w))) w).

Definition joined_teams (draft : list TeamMembershipDraft) : list UserTeamAssignment :=
  (λ d, MkAssignment (td_teamId d) (td_role d)) <$> filterb td_joined draft.

Definition submitCreate `{Unicode} (profile : CreateUserInput) (teamDraft : list TeamMembershipDraft) : handler unit :=
  let* w := state in
  do* modify (setCreating true) in
  do* clear_messages in
  finally
    (catch
      (let* created := call_user (create_user profile) in
       do* match joined_teams teamDraft with [] => ret tt | joined => call (set_user_teams (u_id created) joined) end in
       do* modify (setUsers (λ current,
         sort_by (λ a b, localeCompare (u_username a) (u_username b))
           (filterb (λ u, negb (bool_decide (u_id u = u_id created))) current ++ [created]))) in
       do* refreshAllMembers (teams (data w)) in
       do* modify (setShowCreate false) in
       modify (setSuccess ("已创建用户 "%js ++ displayUser created)))
      report)
    (modify (setCreating false)).

Definition submitEdit (profile : UpdateUserInput) (draft : list TeamMembershipDraft) : handler unit :=
  let* w := state in
  match editingUser (users_page w) with
  | None => ret tt
  | Some u =>
      do* modify (setSavingEdit true) in
      do* clear_messages in
      finally
        (catch
          (let* updated := call_user (update_user (u_id u)
             (MkUpdateUser (trim (uu_displayName profile)) (uu_systemRole profile) (uu_disabled profile) (uu_password profile))) in
           do* call (set_user_teams (u_id u) (joined_teams draft)) in
           do* modify (setUsers (update_where (λ i, bool_decide (u_id i = u_id u)) (λ _, updated))) in
           do* refreshAllMembers (teams (data w)) in
           do* modify (setEditingUser None) in
           modify (setSuccess ("已保存 "%js ++ displayUser updated)))
          report)
        (modify (setSavingEdit false))
  end.

Definition toggling (id : jstr) (b : bool) : handler unit := modify (setTogglingDisabled (λ current, <[id := b]> current)).

(** [user.id === session.user.id]. *)
Definition is_self (w : SP) (u : UserSummary) : bool :=
  match session (data w) with Some s => bool_decide (u_id u = au_id (as_user s)) | None => false end.

Definition toggleDisabled (u : UserSummary) (disabled : bool) : handler unit :=
  let* w := state in
  if is_self w u then ret tt
  else
    do* toggling (u_id u) true in
    do* clear_messages in
    finally
      (catch
        (let* updated := call_user (update_user (u_id u) (MkUpdateUser (displayUser u) (u_systemRole u) (Some disabled) None)) in
         do* modify (setUsers (update_where (λ i, bool_decide (u_id i = u_id u)) (λ _, updated))) in
         modify (setSuccess ((if disabled then "已禁用 "%js else "已启用 "%js) ++ displayUser u)))
        report)
      (toggling (u_id u) false).

Definition confirmDeleteUser : handler unit :=
  let* w := state in
  match deletingUser (users_page w) with
  | None => ret tt
  | Some u =>
      do* modify (setDeletePending true) in
      do* clear_messages in
      finally
        (catch
          (do* call (delete_user (u_id u)) in
           do* modify (setUsers (filterb (λ i, negb (bool_decide (u_id i = u_id u))))) in
           do* modify (setSuccess ("已删除用户 "%js ++ displayUser u)) in
           modify (setDeletingUser None))
          report)
        (modify (setDeletePending false))
  end.
