(* ===== verification/Membership.v ===== *)
(** * Team membership on the server

    What the membership requests of the settings pages do:
    [AddTeamMember], [SetTeamMemberRole], [RemoveTeamMember] and
    [SetUserTeamMemberships] of [src/api/internal/identity/store.go], each a transaction,
    and the errors that [writeIdentityError] of [src/api/internal/httpapi/auth_handlers.go]
    makes of theirs.  The tables are maps; their foreign keys and the check of the role are
    those of [src/api/internal/migrate/sql/]. *)
From S2P Require Import Prelude JsString JsValue Http Go Auth Settings SettingsPages.

Record Account := MkAccount { ac_role : jstr; ac_disabled : bool }.
Record Identity := MkIdentity {
  id_users : gmap jstr Account;
  id_teams : gset jstr;
  (** A team's members with their roles. *)
  id_members : gmap (jstr * jstr) jstr;
}.
Definition set_members (f : gmap (jstr * jstr) jstr → gmap (jstr * jstr) jstr) (s : Identity) : Identity :=
  MkIdentity (id_users s) (id_teams s) (f (id_members s)).

Inductive IdentityError := ErrForbidden | ErrLastTeamAdmin | ErrInvalid | ErrNotFound.
#[export] Instance IdentityError_eq_dec : EqDecision IdentityError.
Proof. solve_decision. Defined.

Definition validTeamRole (role : jstr) : bool := bool_decide (role = "member"%js) || bool_decide (role = "admin"%js).

Definition authorizeSystemAdmin (s : Identity) (actor : jstr) : bool :=
  match id_users s !! actor with Some a => negb (ac_disabled a) && bool_decide (ac_role a = "admin"%js) | None => false end.
Definition authorizeTeamAdmin (s : Identity) (actor team : jstr) : bool :=
  match id_users s !! actor with
  | Some a =>
      negb (ac_disabled a)
      && (bool_decide (ac_role a = "admin"%js) || bool_decide (id_members s !! (team, actor) = Some "admin"%js))
  | None => false
  end.

(** Another administrator of the team than [user]. *)
Definition anotherTeamAdmin (s : Identity) (team user : jstr) : bool :=
  existsb (λ '((t, u), role), bool_decide (t = team) && negb (bool_decide (u = user)) && bool_decide (role = "admin"%js))
    (map_to_list (id_members s)).

(** Writing a row of [team_members]. *)
Definition upsert (team user role : jstr) (s : Identity) : Identity + IdentityError :=
  if negb (validTeamRole role) then inr ErrInvalid
  else if negb (bool_decide (team ∈ id_teams s)) || negb (bool_decide (is_Some (id_users s !! user))) then inr ErrNotFound
  else inl (set_members <[(team, user) := role]> s).

Definition AddTeamMember (actor team user role : jstr) (s : Identity) : Identity + IdentityError :=
  if authorizeTeamAdmin s actor team then upsert team user role s else inr ErrForbidden.

(** [role] is the one that remains; [None] when the member is removed. *)
Definition guard_last_admin (team user : jstr) (role : option jstr) (s : Identity) (k : Identity + IdentityError) : Identity + IdentityError :=
  match id_members s !! (team, user) with
  | None => inr ErrNotFound
  | Some currentRole =>
      if bool_decide (currentRole = "admin"%js) && negb (bool_decide (role = Some "admin"%js)) && negb (anotherTeamAdmin s team user)
      then inr ErrLastTeamAdmin else k
  end.

Definition SetTeamMemberRole (actor team user role : jstr) (s : Identity) : Identity + IdentityError :=
  let role := TrimSpace role in
  if negb (validTeamRole role) then inr ErrInvalid
  else if negb (authorizeTeamAdmin s actor team) then inr ErrForbidden
  else guard_last_admin team user (Some role) s (inl (set_members <[(team, user) := role]> s)).

Definition RemoveTeamMember (actor team user : jstr) (s : Identity) : Identity + IdentityError :=
  if negb (authorizeTeamAdmin s actor team) then inr ErrForbidden
  else guard_last_admin team user None s (inl (set_members (delete (team, user)) s)).

(** The assignments with their texts trimmed; [None] when one is invalid or repeated. *)
Fixpoint normalize_assignments (seen : gset jstr) (l : list UserTeamAssignment) : option (list (jstr * jstr)) :=
  match l with
  | [] => Some []
  | a :: l =>
      let team := TrimSpace (ta_teamId a) in
      let role := TrimSpace (ta_role a) in
      if negb (truthy team) || negb (validTeamRole role) || bool_decide (team ∈ seen) then None
      else rest ← normalize_assignments ({[team]} ∪ seen) l; Some ((team, role) :: rest)
  end.

(** The teams a user is a member of, with the role. *)
Definition teams_of (s : Identity) (user : jstr) : list (jstr * jstr) :=
  omap (λ '((t, u), role), if bool_decide (u = user) then Some (t, role) else None) (map_to_list (id_members s)).

Fixpoint upsert_all (user : jstr) (l : list (jstr * jstr)) (s : Identity) : Identity + IdentityError :=
  match l with
  | [] => inl s
  | (team, role) :: l => match upsert team user role s with inl s => upsert_all user l s | inr e => inr e end
  end.

Definition SetUserTeamMemberships (actor user : jstr) (assignments : list UserTeamAssignment) (s : Identity) : Identity + IdentityError :=
  match normalize_assignments ∅ assignments with
  | None => inr ErrInvalid
  | Some normalized =>
      if negb (authorizeSystemAdmin s actor) then inr ErrForbidden
      else if negb (bool_decide (is_Some (id_users s !! user))) then inr ErrNotFound
      else
        let desired : gmap jstr jstr := list_to_map normalized in
        let current := teams_of s user in
        if existsb (λ '(team, role),
             bool_decide (role = "admin"%js) && negb (bool_decide (desired !! team = Some "admin"%js)) && negb (anotherTeamAdmin s team user))
             current
        then inr ErrLastTeamAdmin
        else
          upsert_all user normalized
            (set_members (λ m, foldr (λ '(team, _) m, match desired !! team with Some _ => m | None => delete (team, user) m end) m current) s)
  end.

(** [writeIdentityError], as the client reads it. *)
Definition identity_failure (e : IdentityError) : SettingsError :=
  match e with
  | ErrForbidden => Refused "forbidden"%js "没有权限"%js
  | ErrLastTeamAdmin => Refused "last_team_admin"%js "该团队至少需要保留一名管理员"%js
  | ErrInvalid => Refused "invalid"%js "请求无效"%js
  | ErrNotFound => Refused "not_found"%js "记录不存在"%js
  end.

(** The answer to a call that changes memberships; [None] for the other calls. *)
Definition serve_call (actor : jstr) (c : SettingsCall) (s : Identity) : option (Identity + IdentityError) :=
  match c with
  | add_member team user role => Some (AddTeamMember actor team user role s)
  | update_member_role team user role => Some (SetTeamMemberRole actor team user role s)
  | remove_member team user => Some (RemoveTeamMember actor team user s)
  | set_user_teams user teams => Some (SetUserTeamMemberships actor user teams s)
  | _ => None
  end.

(** Calls made one after the other, up to the first that is refused: what the server holds
    in the end and how it answered. *)
Fixpoint serve_all (actor : jstr) (calls : list SettingsCall) (s : Identity) : Identity * list (SettingsReply + SettingsError) :=
  match calls with
  | [] => (s, [])
  | c :: calls =>
      match serve_call actor c s with
      | Some (inl s') => let '(s'', answers) := serve_all actor calls s' in (s'', inl RVoid :: answers)
      | Some (inr e) => (s, [inr (identity_failure e)])
      | None => (s, [])
      end
  end.
