(* ===== verification/SettingsProps.v ===== *)
(** * Users and teams: what the settings pages guarantee

    The calls of the member dialog against the server's rules for memberships, what an
    edited user keeps, and the loading of the pages' data. *)
From S2P Require Import Prelude JsString JsValue Http Go Async Auth Settings SettingsPages Membership.

(** ** Maps made of pairs *)

#[local] Arguments role_in : simpl never.

Lemma role_in_map entries id : role_in entries id = (list_to_map entries : gmap jstr jstr) !! id.
Proof.
  induction entries as [|[k r] entries IH]; [done|]. unfold role_in in *. cbn.
  destruct (decide (k = id)) as [->|Hk].
  - by rewrite bool_decide_eq_true_2, lookup_insert_eq.
  - by rewrite bool_decide_eq_false_2, lookup_insert_ne by done.
Qed.

Lemma role_in_None entries id : role_in entries id = None ↔ id ∉ entries.*1.
Proof. rewrite role_in_map. symmetry. apply not_elem_of_list_to_map. Qed.

Lemma role_in_elem entries id r : NoDup entries.*1 → (id, r) ∈ entries → role_in entries id = Some r.
Proof. intros. rewrite role_in_map. by apply elem_of_list_to_map. Qed.

Lemma elem_role_in entries id r : role_in entries id = Some r → (id, r) ∈ entries.
Proof. rewrite role_in_map. apply elem_of_list_to_map_2. Qed.

(** One step of [new Map]. *)
Definition map_set (entries : list (jstr * jstr)) (e : jstr * jstr) : list (jstr * jstr) :=
  if existsb (λ x, bool_decide (x.1 = e.1)) entries then update_where (λ x, bool_decide (x.1 = e.1)) (λ _, e) entries
  else entries ++ [e].

Lemma map_entries_snoc pairs e : map_entries (pairs ++ [e]) = map_set (map_entries pairs) e.
Proof. unfold map_entries. rewrite foldl_app. by destruct e. Qed.

Lemma has_key entries id : existsb (λ x : jstr * jstr, bool_decide (x.1 = id)) entries = true ↔ id ∈ entries.*1.
Proof. rewrite existsb_elem, list_elem_of_fmap. setoid_rewrite bool_decide_eq_true. naive_solver. Qed.

Lemma map_set_keys entries e : (map_set entries e).*1 = if existsb (λ x, bool_decide (x.1 = e.1)) entries then entries.*1 else entries.*1 ++ [e.1].
Proof.
  unfold map_set. destruct (existsb _ _); [|by rewrite fmap_app].
  unfold update_where. rewrite <- list_fmap_compose. apply list_fmap_ext. intros i [k r] _. cbn.
  by case_bool_decide.
Qed.

Lemma map_entries_nodup pairs : NoDup (map_entries pairs).*1.
Proof.
  induction pairs as [|e pairs IH] using rev_ind; [constructor|]. rewrite map_entries_snoc, map_set_keys.
  destruct (existsb _ _) eqn:E; [done|]. apply NoDup_app_singleton; [done|]. rewrite <- has_key. by rewrite E.
Qed.

Lemma role_in_app l k id : role_in (l ++ k) id = match role_in l id with Some r => Some r | None => role_in k id end.
Proof. unfold role_in. rewrite find_first_app. by destruct (find_first _ l). Qed.

Lemma role_in_cons k r l id : role_in ((k, r) :: l) id = if bool_decide (k = id) then Some r else role_in l id.
Proof. unfold role_in. cbn. by case_bool_decide. Qed.

Lemma role_in_update entries k r id :
  role_in (update_where (λ x, bool_decide (x.1 = k)) (λ _, (k, r)) entries) id
  = (λ old, if bool_decide (k = id) then r else old) <$> role_in entries id.
Proof.
  induction entries as [|[k' r'] entries IH]; [done|]. unfold update_where in *. rewrite fmap_cons, role_in_cons. cbn.
  destruct (decide (k' = k)) as [->|Hk].
  - rewrite (bool_decide_eq_true_2 (k = k)) by done. cbv iota. rewrite role_in_cons, IH. by case_bool_decide.
  - rewrite (bool_decide_eq_false_2 (k' = k)) by done. cbv iota. rewrite role_in_cons, IH. destruct (decide (k' = id)) as [E|E].
    + rewrite (bool_decide_eq_true_2 (k' = id)) by done. cbn. by rewrite bool_decide_eq_false_2 by congruence.
    + by rewrite (bool_decide_eq_false_2 (k' = id)) by done.
Qed.

Lemma role_in_map_set entries e id : role_in (map_set entries e) id = if bool_decide (e.1 = id) then Some e.2 else role_in entries id.
Proof.
  unfold map_set. destruct e as [k r]. cbn. destruct (existsb _ _) eqn:E.
  - apply has_key in E. rewrite role_in_update. case_bool_decide as Hid; [|by destruct (role_in entries id)].
    subst id. destruct (role_in entries k) eqn:Ek; [done|]. by apply role_in_None in Ek.
  - assert (Hk : k ∉ entries.*1) by (rewrite <- has_key; by rewrite E). apply role_in_None in Hk.
    rewrite role_in_app, role_in_cons. case_bool_decide as Hid; [subst id; by rewrite Hk|by destruct (role_in entries id)].
Qed.

(** The last pair of a key decides. *)
Lemma role_in_map_entries pairs id :
  role_in (map_entries pairs) id = snd <$> find_first (λ e, bool_decide (e.1 = id)) (rev pairs).
Proof.
  induction pairs as [|e pairs IH] using rev_ind; [done|].
  rewrite map_entries_snoc, role_in_map_set, rev_app_distr. cbn. case_bool_decide; [done|apply IH].
Qed.

Lemma current_roles_role members id : role_in (current_roles members) id = role_of members id.
Proof.
  unfold current_roles, role_of. rewrite role_in_map_entries, <- List.map_rev.
  induction (rev members) as [|m l IH]; [done|]. cbn. by case_bool_decide.
Qed.

(** ** Calls in a row *)

(** The server accepts all of the calls. *)
Definition serves (actor : jstr) (calls : list SettingsCall) (s s' : Identity) : Prop :=
  serve_all actor calls s = (s', replicate (length calls) (inl RVoid)).

Lemma serves_nil actor s : serves actor [] s s.
Proof. done. Qed.
Lemma serves_cons actor c calls s s' s'' :
  serve_call actor c s = Some (inl s') → serves actor calls s' s'' → serves actor (c :: calls) s s''.
Proof. unfold serves. cbn. by intros -> ->. Qed.
Lemma serves_app actor calls calls' s s' s'' :
  serves actor calls s s' → serves actor calls' s' s'' → serves actor (calls ++ calls') s s''.
Proof.
  revert s. induction calls as [|c calls IH]; intros s; unfold serves; cbn; [by intros [= ->]|].
  destruct (serve_call actor c s) as [[s1|e]|]; [|done..].
  destruct (serve_all actor calls s1) as [s2 l] eqn:E. intros [= -> ->] H.
  by rewrite (IH s1 E H).
Qed.

Lemma drive_call_each_ok calls rest k h w :
  drive (replicate (length calls) (inl RVoid) ++ rest) (call_each calls k h w) = drive rest (k tt w).
Proof. induction calls as [|c calls IH]; [done|]. apply IH. Qed.

Lemma drive_call_each_fail calls c calls' e rest k h w :
  drive (replicate (length calls) (inl RVoid) ++ inr e :: rest) (call_each (calls ++ c :: calls') k h w) = drive rest (h e w).
Proof. induction calls as [|c' calls IH]; [done|]. apply IH. Qed.


(** ** The server's rules *)

Lemma another_admin s t a u : id_members s !! (t, a) = Some "admin"%js → a ≠ u → anotherTeamAdmin s t u = true.
Proof.
  intros Ha Hu. apply existsb_elem. exists ((t, a), "admin"%js). split; [by apply elem_of_map_to_list|].
  by rewrite bool_decide_eq_true_2, bool_decide_eq_false_2.
Qed.

Lemma no_other_admin s t u : (∀ a, a ≠ u → id_members s !! (t, a) ≠ Some "admin"%js) → anotherTeamAdmin s t u = false.
Proof.
  intros H. apply existsb_not. intros [[t' u'] role] Hin%elem_of_map_to_list.
  destruct (decide (t' = t)) as [->|Ht]; [|by rewrite bool_decide_eq_false_2].
  destruct (decide (u' = u)) as [->|Hu]; [by rewrite (bool_decide_eq_true_2 (t = t)), (bool_decide_eq_true_2 (u = u))|].
  rewrite (bool_decide_eq_false_2 (role = _)); [by rewrite andb_false_r|]. intros ->. by apply (H u' Hu).
Qed.

Lemma admin_authorized s actor team : authorizeSystemAdmin s actor = true → authorizeTeamAdmin s actor team = true.
Proof.
  unfold authorizeSystemAdmin, authorizeTeamAdmin. destruct (id_users s !! actor) as [a|]; [|done].
  by intros [-> ->]%andb_true_iff.
Qed.

Lemma valid_role_trim role : validTeamRole role = true → TrimSpace role = role.
Proof. intros [ ->%bool_decide_eq_true| ->%bool_decide_eq_true]%orb_true_iff; by vm_compute. Qed.

(** Only the memberships of team [t] change, to those of [f]. *)
Definition team_changed (t : jstr) (f : jstr → option jstr) (s s' : Identity) : Prop :=
  id_users s' = id_users s ∧ id_teams s' = id_teams s
  ∧ ∀ t' u, id_members s' !! (t', u) = if bool_decide (t' = t) then f u else id_members s !! (t', u).

Section save_members.
Context (actor t a : jstr).

(** A server that knows the administrator [actor], the team [t] and some users. *)
Definition knows (s : Identity) (ids : list jstr) : Prop :=
  authorizeSystemAdmin s actor = true ∧ t ∈ id_teams s ∧ ∀ u, u ∈ ids → is_Some (id_users s !! u).

Lemma knows_changed f s s' ids : team_changed t f s s' → knows s ids → knows s' ids.
Proof. intros (Hu & Ht & _) (H1 & H2 & H3). unfold knows, authorizeSystemAdmin in *. by rewrite Hu, Ht. Qed.

Lemma set_member_changed u r s : team_changed t (λ u', if bool_decide (u' = u) then Some r else id_members s !! (t, u')) s (set_members <[(t, u) := r]> s).
Proof.
  split_and!; [done..|]. intros t' u'. cbn. destruct (decide ((t', u') = (t, u))) as [[= -> ->]|Hne].
  - by rewrite lookup_insert_eq, !bool_decide_eq_true_2.
  - rewrite lookup_insert_ne by done. case_bool_decide as Ht; [|done]. rewrite bool_decide_eq_false_2; congruence.
Qed.

Lemma add_accepted u r s :
  knows s [u] → validTeamRole r = true → serve_call actor (add_member t u r) s = Some (inl (set_members <[(t, u) := r]> s)).
Proof.
  intros (Ha & Ht & Hu) Hr. cbn. unfold AddTeamMember, upsert. rewrite admin_authorized, Hr by done. cbn.
  rewrite (bool_decide_eq_true_2 (t ∈ _)) by done. rewrite bool_decide_eq_true_2 by (apply Hu; by left). done.
Qed.

Lemma guard_passes u role s k :
  is_Some (id_members s !! (t, u)) → id_members s !! (t, a) = Some "admin"%js → (u = a → role = Some "admin"%js) →
  guard_last_admin t u role s k = k.
Proof.
  intros [old Ho] Ha Hu. unfold guard_last_admin. rewrite Ho.
  destruct (decide (u = a)) as [->|Hne].
  - rewrite (bool_decide_eq_true_2 (role = _)) by auto. by rewrite andb_false_r.
  - rewrite (another_admin s t a u) by done. by rewrite andb_false_r.
Qed.

Lemma update_accepted u r s :
  knows s [] → validTeamRole r = true → is_Some (id_members s !! (t, u)) → id_members s !! (t, a) = Some "admin"%js →
  (u = a → r = "admin"%js) →
  serve_call actor (update_member_role t u r) s = Some (inl (set_members <[(t, u) := r]> s)).
Proof.
  intros (Ha & _) Hr Hu Hadm Hua. cbn. unfold SetTeamMemberRole. rewrite valid_role_trim, Hr, admin_authorized by done. cbn.
  rewrite guard_passes; [done..|]. intros E. f_equal. by apply Hua.
Qed.

Lemma remove_accepted u s :
  knows s [] → is_Some (id_members s !! (t, u)) → id_members s !! (t, a) = Some "admin"%js → u ≠ a →
  serve_call actor (remove_member t u) s = Some (inl (set_members (delete (t, u)) s)).
Proof.
  intros (Ha & _) Hu Hadm Hua. cbn. unfold RemoveTeamMember. rewrite admin_authorized by done. cbn. by rewrite guard_passes.
Qed.

Lemma team_changed_refl s : team_changed t (λ u, id_members s !! (t, u)) s s.
Proof. split_and!; [done..|]. intros t' u. by case_bool_decide; subst. Qed.

Lemma team_changed_trans f g s s' s'' : team_changed t f s s' → team_changed t g s' s'' → team_changed t g s s''.
Proof.
  intros (H1 & H2 & H3) (H4 & H5 & H6). split_and!; [congruence..|]. intros t' u. rewrite H6, H3. by case_bool_decide.
Qed.

Lemma team_changed_ext f g s s' : (∀ u, f u = g u) → team_changed t f s s' → team_changed t g s s'.
Proof. intros Hf (H1 & H2 & H3). split_and!; [done..|]. intros t' u. by rewrite H3, Hf. Qed.

(** The additions and the changes of role. *)
Lemma serve_next current rest s :
  NoDup rest.*1 → knows s rest.*1 → Forall (λ e, validTeamRole e.2 = true) rest →
  (∀ u, u ∈ rest.*1 → id_members s !! (t, u) = role_in current u) →
  id_members s !! (t, a) = Some "admin"%js → (∀ r, (a, r) ∈ rest → r = "admin"%js) →
  ∃ s', serves actor (omap (λ '(userId, role),
            match role_in current userId with
            | None => Some (add_member t userId role)
            | Some old => if bool_decide (old = role) then None else Some (update_member_role t userId role)
            end) rest) s s'
    ∧ team_changed t (λ u, match role_in rest u with Some r => Some r | None => id_members s !! (t, u) end) s s'.
Proof.
  revert s. induction rest as [|[u r] rest IH]; intros s Hnd Hk Hv Hcur Ha Har.
  { exists s. split; [done|]. apply team_changed_refl. }
  cbn in Hnd, Hk, Hcur. apply list.NoDup_cons in Hnd as [Hu Hnd]. apply Forall_cons in Hv as [Hr Hv]. cbn in Hr.
  pose proof (Hcur u ltac:(by left)) as Hcu.
  set (s1 := set_members <[(t, u) := r]> s).
  assert (H1 : team_changed t (λ u', if bool_decide (u' = u) then Some r else id_members s !! (t, u')) s s1) by apply set_member_changed.
  assert (Hrest : ∀ s2, team_changed t (λ u', if bool_decide (u' = u) then Some r else id_members s !! (t, u')) s s2 →
    ∃ s', serves actor (omap (λ '(userId, role),
            match role_in current userId with
            | None => Some (add_member t userId role)
            | Some old => if bool_decide (old = role) then None else Some (update_member_role t userId role)
            end) rest) s2 s'
      ∧ team_changed t (λ u', match role_in ((u, r) :: rest) u' with Some r => Some r | None => id_members s !! (t, u') end) s s').
  { intros s2 Hs2. destruct (IH s2) as (s' & Hserve & Hch); [done| |done|..].
    - eapply knows_changed; [done|]. destruct Hk as (? & ? & Hk). split_and!; [done..|]. intros u' ?. apply Hk. by right.
    - intros u' Hu'. destruct Hs2 as (_ & _ & ->). rewrite bool_decide_eq_true_2, bool_decide_eq_false_2 by (done || by intros ->).
      apply Hcur. by right.
    - destruct Hs2 as (_ & _ & ->). rewrite (bool_decide_eq_true_2 (t = t)) by done. case_bool_decide as E; [|done].
      subst u. f_equal. apply Har. by left.
    - intros r' Hr'. apply Har. by right.
    - exists s'. split; [done|]. eapply team_changed_trans; [done|]. eapply team_changed_ext; [|done]. intros u'. cbn.
      destruct Hs2 as (_ & _ & ->). rewrite (bool_decide_eq_true_2 (t = t)) by done. rewrite role_in_cons.
      destruct (decide (u' = u)) as [->|Hne].
      + rewrite !bool_decide_eq_true_2 by done. apply role_in_None in Hu. by rewrite Hu.
      + by rewrite !bool_decide_eq_false_2 by done. }
  cbn. destruct (role_in current u) as [old|] eqn:Eo.
  - case_bool_decide as Eold.
    + subst old. apply Hrest. eapply team_changed_ext; [|apply team_changed_refl]. intros u'. cbn. case_bool_decide; by subst.
    + destruct (Hrest s1 H1) as (s' & Hserve & Hch). exists s'. split; [|done]. eapply serves_cons; [|done].
      apply update_accepted; [|done|by rewrite Hcu|done|].
      * destruct Hk as (? & ? & _). split_and!; [done..|]. by intros u' ?%elem_of_nil.
      * intros ->. apply Har. by left.
  - destruct (Hrest s1 H1) as (s' & Hserve & Hch). exists s'. split; [|done]. eapply serves_cons; [|done].
    apply add_accepted; [|done]. destruct Hk as (? & ? & Hk). split_and!; [done..|]. intros u' ->%list_elem_of_singleton. apply Hk. by left.
Qed.

(** The removals. *)
Lemma serve_removals next (rest : list (jstr * jstr)) s :
  NoDup rest.*1 → knows s [] → (∀ u, u ∈ rest.*1 → role_in next u = None → is_Some (id_members s !! (t, u))) →
  id_members s !! (t, a) = Some "admin"%js → role_in next a ≠ None →
  ∃ s', serves actor (omap (λ '(userId, _), match role_in next userId with None => Some (remove_member t userId) | Some _ => None end) rest) s s'
    ∧ team_changed t (λ u, if bool_decide (u ∈ rest.*1 ∧ role_in next u = None) then None else id_members s !! (t, u)) s s'.
Proof.
  revert s. induction rest as [|[u r] rest IH]; intros s Hnd Hk Hin Ha Hna.
  { exists s. split; [done|]. eapply team_changed_ext; [|apply team_changed_refl]. intros u. cbn.
    by rewrite bool_decide_eq_false_2 by (intros [?%elem_of_nil _]; done). }
  cbn in Hnd, Hin. apply list.NoDup_cons in Hnd as [Hu Hnd]. cbn. destruct (role_in next u) as [r'|] eqn:En.
  - destruct (IH s) as (s' & Hserve & Hch); [done|done| |done|done|].
    { intros u' ? ?. apply Hin; [by right|done]. }
    exists s'. split; [done|]. eapply team_changed_ext; [|done]. intros u'. cbn. erewrite bool_decide_ext; [done|].
    rewrite elem_of_cons. split; [naive_solver|]. intros [[->|?] ?]; [by rewrite En in *|done].
  - set (s1 := set_members (delete (t, u)) s).
    assert (Hua : u ≠ a) by (intros ->; done).
    assert (H1 : team_changed t (λ u', if bool_decide (u' = u) then None else id_members s !! (t, u')) s s1).
    { split_and!; [done..|]. intros t' u'. cbn. destruct (decide ((t', u') = (t, u))) as [[= -> ->]|Hne].
      - by rewrite lookup_delete_eq, !bool_decide_eq_true_2.
      - rewrite lookup_delete_ne by done. case_bool_decide as Ht; [|done]. rewrite bool_decide_eq_false_2; congruence. }
    destruct (IH s1) as (s' & Hserve & Hch); [done|by eapply knows_changed| |..|done|].
    + intros u' Hu' Hn. cbn. rewrite lookup_delete_ne by congruence. apply Hin; [by right|done].
    + cbn. rewrite lookup_delete_ne by congruence. done.
    + exists s'. split.
      * eapply serves_cons; [|done]. apply remove_accepted; [done| |done|done]. apply Hin; [by left|done].
      * eapply team_changed_trans; [done|]. eapply team_changed_ext; [|done]. intros u'. cbn.
        destruct (decide (u' = u)) as [->|Hne].
        -- rewrite lookup_delete_eq. rewrite (bool_decide_eq_true_2 (u ∈ u :: _ ∧ _)) by (split; [by left|done]). by case_bool_decide.
        -- rewrite lookup_delete_ne by congruence. erewrite bool_decide_ext; [done|]. rewrite elem_of_cons. naive_solver.
Qed.
End save_members.

(** ** Saving the members of a team *)

Lemma map_entries_elem pairs id r : role_in (map_entries pairs) id = Some r → (id, r) ∈ pairs.
Proof.
  rewrite role_in_map_entries. destruct (find_first _ _) as [[k r']|] eqn:E; [|done]. intros [= <-].
  apply find_first_Some in E as [Hin <-%bool_decide_eq_true]. by apply list_elem_of_In, List.in_rev, list_elem_of_In.
Qed.

Lemma next_role_elem draft u r : role_in (next_roles draft) u = Some r → ∃ d, d ∈ draft ∧ md_userId d = u ∧ md_role d = r.
Proof.
  intros [d [[= -> ->] Hd]]%map_entries_elem%list_elem_of_fmap. apply elem_of_filterb in Hd as [Hd _]. by exists d.
Qed.

Lemma calls_call_each cs rest k h w :
  calls (replicate (length cs) (inl RVoid) ++ rest) (call_each cs k h w) = cs ++ calls rest (k tt w).
Proof. induction cs as [|c cs IH]; [done|]. cbn. f_equal. apply IH. Qed.

(** The page while the calls are made, after them, and after a refusal. *)
Definition saving_page (w : SP) : SP := setSuccess [] (setError [] (setSavingMembers true w)).

Lemma save_members_run t draft w :
  let cs := member_calls (team_id t) (current_roles (members_of (teamMembers (data w)) (team_id t))) (next_roles draft) in
  ∃ k h, run (saveTeamMembers t draft) w = call_each cs k h (saving_page w)
    ∧ (∀ shown, calls [inl (RMembers shown)] (k tt (saving_page w)) = [list_members (team_id t)]
        ∧ drive [inl (RMembers shown)] (k tt (saving_page w))
          = (setSavingMembers false (setSuccess ("已更新 "%js ++ team_name t ++ " 的成员"%js) (setManagingTeam None
               (setTeamMembers (λ current, <[team_id t := shown]> current) (saving_page w)))), Finished))
    ∧ ∀ e, h e (saving_page w) = (setSavingMembers false (setError (settingsErrorMessage e) (saving_page w)), Finished).
Proof. eexists _, _. split; [reflexivity|]. done. Qed.


(** A team of one administrator and one member, disabled, and its server. *)
Definition sample_user (id : jstr) (disabled : bool) : UserSummary := MkUser id id [] "member"%js disabled.
Definition sample_members : list TeamMemberSummary :=
  [MkMember (sample_user "a"%js false) "admin"%js; MkMember (sample_user "b"%js true) "member"%js].
Definition sample_team : TeamSummary := MkTeam "t"%js "Team"%js "admin"%js.
Definition sample_page : SP :=
  setTeamMembers (λ _, {["t"%js := sample_members]}) (setTeams (λ _, [sample_team]) (initial_SP None)).
Definition sample_identity : Identity :=
  MkIdentity {["root"%js := MkAccount "admin"%js false; "a"%js := MkAccount "member"%js false; "b"%js := MkAccount "member"%js true]}
    {["t"%js]} {[("t"%js, "a"%js) := "admin"%js; ("t"%js, "b"%js) := "member"%js]}.

Lemma sample_stored u : id_members sample_identity !! ("t"%js, u) = role_of sample_members u.
Proof.
  destruct (decide (u = "a"%js)) as [->|Ha]; [by vm_compute|]. destruct (decide (u = "b"%js)) as [->|Hb]; [by vm_compute|].
  cbn [id_members sample_identity]. rewrite lookup_insert_ne, lookup_singleton_ne by congruence. unfold role_of. cbn.
  rewrite !bool_decide_eq_false_2 by congruence. done.
Qed.


(** ** What a saved dialog leaves out *)

Lemma role_in_map_entries_const pairs id r :
  (∀ r', (id, r') ∈ pairs → r' = r) → (id, r) ∈ pairs → role_in (map_entries pairs) id = Some r.
Proof.
  intros Hall Hin. destruct (role_in (map_entries pairs) id) as [r'|] eqn:E.
  - f_equal. by apply Hall, map_entries_elem.
  - rewrite role_in_map_entries in E. destruct (find_first _ _) eqn:Ef; [done|]. rewrite find_first_None in Ef.
    specialize (Ef (id, r)). cbn in Ef. rewrite bool_decide_eq_true_2 in Ef by done.
    discriminate Ef. by apply list_elem_of_In, List.in_rev; rewrite List.rev_involutive; apply list_elem_of_In.
Qed.

Definition active_ids (users : list UserSummary) : list jstr := u_id <$> active_users users.

Lemma next_roles_unchanged users members id :
  role_in (next_roles (buildTeamMemberDraft users members)) id
  = if bool_decide (id ∈ active_ids users) then role_of members id else None.
Proof.
  unfold next_roles. set (pairs := _ <$> _).
  assert (Hp : ∀ i r, (i, r) ∈ pairs ↔ i ∈ active_ids users ∧ role_of members i = Some r).
  { intros i r. subst pairs. unfold buildTeamMemberDraft, active_ids. rewrite list_elem_of_fmap. split.
    - intros (d & [= -> ->] & Hd). apply elem_of_filterb in Hd as [Hd Hj].
      apply list_elem_of_fmap in Hd as (u & -> & Hu). cbn in *. apply bool_decide_eq_true in Hj as [r Hr]. rewrite Hr.
      split; [by apply list_elem_of_fmap_2|done].
    - intros [(u & -> & Hu)%list_elem_of_fmap Hr].
      exists (MkMemberDraft (u_id u) true r). split; [done|]. apply elem_of_filterb. split; [|done].
      apply list_elem_of_fmap. exists u. split; [|done]. rewrite Hr. by rewrite bool_decide_eq_true_2 by eauto. }
  case_bool_decide as Hid.
  - destruct (role_of members id) as [r|] eqn:Er.
    + apply role_in_map_entries_const; [intros r' [_ Hr]%Hp; congruence|by apply Hp].
    + destruct (role_in _ _) as [r|] eqn:E; [|done]. apply map_entries_elem, Hp in E as [_ E]. congruence.
  - destruct (role_in _ _) as [r|] eqn:E; [|done]. by apply map_entries_elem, Hp in E as [E _].
Qed.

Lemma omap_none {A B} (f : A → option B) (l : list A) : (∀ x, x ∈ l → f x = None) → omap f l = [].
Proof. induction l as [|x l IH]; intros H; [done|]. cbn. rewrite H by by left. apply IH. intros y Hy. apply H. by right. Qed.

Lemma omap_ext_in {A B} (f g : A → option B) (l : list A) : (∀ x, x ∈ l → f x = g x) → omap f l = omap g l.
Proof.
  induction l as [|x l IH]; intros H; [done|]. cbn. rewrite (H x) by by left. rewrite IH; [done|]. intros y Hy. apply H. by right.
Qed.

Lemma omap_filterb {A B C} (p : B → bool) (key : A → B) (c : B → C) (l : list A) :
  omap (λ x, if p (key x) then Some (c (key x)) else None) l = c <$> filterb p (key <$> l).
Proof. induction l as [|x l IH]; [done|]. rewrite fmap_cons, filterb_cons. cbn. rewrite IH. by destruct (p (key x)). Qed.

(** The member dialog lists active users only.  Saving it unchanged makes no addition
    and no change of role, and removes exactly the members that are not active users: a
    disabled member of the team loses the membership. *)
Theorem unchanged_members_saved teamId users members :
  member_calls teamId (current_roles members) (next_roles (buildTeamMemberDraft users members))
  = remove_member teamId <$> filterb (λ id, negb (bool_decide (id ∈ active_ids users))) (current_roles members).*1
  ∧ ∀ m, m ∈ members → u_id (mem_user m) ∉ active_ids users →
      remove_member teamId (u_id (mem_user m))
        ∈ member_calls teamId (current_roles members) (next_roles (buildTeamMemberDraft users members)).
Proof.
  assert (Heq : member_calls teamId (current_roles members) (next_roles (buildTeamMemberDraft users members))
    = remove_member teamId <$> filterb (λ id, negb (bool_decide (id ∈ active_ids users))) (current_roles members).*1).
  { unfold member_calls. rewrite omap_none; cbn [app].
    2:{ intros [id r] Hin. rewrite current_roles_role. apply role_in_elem in Hin; [|apply map_entries_nodup].
        rewrite next_roles_unchanged in Hin. case_bool_decide; [|done]. rewrite Hin. by rewrite bool_decide_eq_true_2. }
    rewrite <- omap_filterb. apply omap_ext_in. intros [id r] Hin. cbn [fst]. rewrite next_roles_unchanged.
    case_bool_decide; [|done]. apply role_in_elem in Hin; [|apply map_entries_nodup].
    rewrite current_roles_role in Hin. by rewrite Hin. }
  split; [done|]. intros m Hm Hid. rewrite Heq. apply list_elem_of_fmap_2, elem_of_filterb.
  split; [|by rewrite bool_decide_eq_false_2].
  apply dec_stable. intros Hn%role_in_None. rewrite current_roles_role in Hn. unfold role_of in Hn.
  destruct (find_first _ _) eqn:Ef; [done|]. rewrite find_first_None in Ef. specialize (Ef m). cbn in Ef.
  rewrite bool_decide_eq_true_2 in Ef by done. discriminate Ef.
  by apply list_elem_of_In, List.in_rev; rewrite List.rev_involutive; apply list_elem_of_In.
Qed.

(** ** The order of the calls *)

(** The first call of [demote_first] and its answer. *)
Lemma demote_refused actor team s a b :
  knows actor team s [] → a ≠ b →
  (∀ u, id_members s !! (team, u) = role_in [(a, "admin"); (b, "member")]%js u) →
  member_calls team [(a, "admin"); (b, "member")]%js [(a, "member"); (b, "admin")]%js
    = [update_member_role team a "member"%js; update_member_role team b "admin"%js]
  ∧ serve_all actor (member_calls team [(a, "admin"); (b, "member")]%js [(a, "member"); (b, "admin")]%js) s
    = (s, [inr (identity_failure ErrLastTeamAdmin)]).
Proof.
  intros Hk Hab Hstored.
  assert (Hc : member_calls team [(a, "admin"); (b, "member")]%js [(a, "member"); (b, "admin")]%js
               = [update_member_role team a "member"%js; update_member_role team b "admin"%js]).
  { unfold member_calls. cbn. rewrite !role_in_cons, !(bool_decide_eq_true_2 (a = a)), !(bool_decide_eq_true_2 (b = b)),
      (bool_decide_eq_false_2 (a = b)) by done. done. }
  split; [done|]. rewrite Hc. cbn. unfold SetTeamMemberRole, guard_last_admin.
  destruct Hk as (Hadmin & _). rewrite admin_authorized by done. cbn [negb].
  rewrite Hstored, role_in_cons, (bool_decide_eq_true_2 (a = a)), no_other_admin by
    (done || (intros u Hu; rewrite Hstored, !role_in_cons, (bool_decide_eq_false_2 (a = u)) by done; by case_bool_decide)).
  done.
Qed.

(** Handing a team over.  A team whose only administrator is [a] is to get [b] in that
    place.  When the dialog lists [b] first, the server accepts the two changes; when it
    lists [a] first, the server refuses the first change because no administrator would be
    left, nothing is changed, and the dialog stays open with that message, although the
    memberships it asks for are the same. *)
Theorem handover_order actor t w s a b :
  let shown := [(a, "admin"); (b, "member")]%js in
  let promote_first := [MkMemberDraft b true "admin"%js; MkMemberDraft a true "member"%js] in
  let demote_first := [MkMemberDraft a true "member"%js; MkMemberDraft b true "admin"%js] in
  let served draft := serve_all actor (member_calls (team_id t) (current_roles (members_of (teamMembers (data w)) (team_id t))) (next_roles draft)) s in
  knows actor (team_id t) s [] → a ≠ b →
  current_roles (members_of (teamMembers (data w)) (team_id t)) = shown →
  (∀ u, id_members s !! (team_id t, u) = role_in shown u) →
  (∀ u, role_in (next_roles demote_first) u = role_in (next_roles promote_first) u)
  ∧ team_changed (team_id t) (role_in (next_roles promote_first)) s (served promote_first).1
  ∧ (served demote_first).1 = s
  ∧ (let y := drive (served demote_first).2 (run (saveTeamMembers t demote_first) w) in
     y.2 = Finished ∧ codeMessages "last_team_admin"%js = Some (error_ (data y.1))
     ∧ managingTeam (teams_page y.1) = managingTeam (teams_page w) ∧ teamMembers (data y.1) = teamMembers (data w)).
Proof.
  intros shown promote_first demote_first served Hk Hab Hshown Hstored.
  assert (Hp : next_roles promote_first = [(b, "admin"); (a, "member")]%js).
  { unfold next_roles, map_entries. cbn. by rewrite bool_decide_eq_false_2. }
  assert (Hd : next_roles demote_first = [(a, "member"); (b, "admin")]%js).
  { unfold next_roles, map_entries. cbn. by rewrite bool_decide_eq_false_2. }
  assert (Hra : role_in shown a = Some "admin"%js) by (unfold shown; rewrite role_in_cons; by rewrite bool_decide_eq_true_2).
  assert (Hrb : role_in shown b = Some "member"%js).
  { unfold shown. rewrite !role_in_cons, bool_decide_eq_false_2, bool_decide_eq_true_2 by done. done. }
  assert (Hsa : id_members s !! (team_id t, a) = Some "admin"%js) by (by rewrite Hstored).
  assert (Hsb : id_members s !! (team_id t, b) = Some "member"%js) by (by rewrite Hstored).
  split_and!.
  - intros u. rewrite Hp, Hd, !role_in_cons. destruct (decide (a = u)) as [<-|Hau].
    + by rewrite bool_decide_eq_true_2, (bool_decide_eq_false_2 (b = a)) by congruence.
    + rewrite !(bool_decide_eq_false_2 (a = u)) by done. done.
  - unfold served. rewrite Hshown, Hp. set (s1 := set_members <[(team_id t, b) := "admin"%js]> s).
    assert (H1 : team_changed (team_id t) (λ u, if bool_decide (u = b) then Some "admin"%js else id_members s !! (team_id t, u)) s s1)
      by apply set_member_changed.
    assert (Hk1 : knows actor (team_id t) s1 []) by (by eapply knows_changed).
    assert (Hs : serves actor [update_member_role (team_id t) b "admin"%js; update_member_role (team_id t) a "member"%js]
                   s (set_members <[(team_id t, a) := "member"%js]> s1)).
    { eapply serves_cons; [apply (update_accepted _ _ a); [done|done|by rewrite Hsb|done|congruence]|].
      eapply serves_cons; [|apply serves_nil].
      apply (update_accepted _ _ b); [done|done| | |congruence]; cbn; [by rewrite lookup_insert_ne, Hsa by congruence|by rewrite lookup_insert_eq]. }
    assert (Hc : member_calls (team_id t) shown [(b, "admin"); (a, "member")]%js
                 = [update_member_role (team_id t) b "admin"%js; update_member_role (team_id t) a "member"%js]).
    { unfold member_calls. cbn. rewrite Hra, Hrb. cbn. rewrite !role_in_cons, (bool_decide_eq_false_2 (b = a)), (bool_decide_eq_true_2 (a = a)), (bool_decide_eq_true_2 (b = b)) by done.
      done. }
    rewrite Hc, Hs. cbn [fst]. eapply team_changed_trans; [exact H1|]. eapply team_changed_ext; [|apply set_member_changed].
    intros u. cbn beta. rewrite !role_in_cons. destruct H1 as (_ & _ & Hm).
    destruct (decide (u = a)) as [->|Hua]; [|destruct (decide (u = b)) as [->|Hub]].
    + rewrite (bool_decide_eq_true_2 (a = a)), (bool_decide_eq_false_2 (b = a)) by congruence. done.
    + rewrite (bool_decide_eq_false_2 (b = a)), (bool_decide_eq_true_2 (b = b)) by congruence. by rewrite Hm, !bool_decide_eq_true_2.
    + rewrite !bool_decide_eq_false_2 by congruence. rewrite Hm, bool_decide_eq_true_2, bool_decide_eq_false_2 by done.
      rewrite Hstored. unfold shown. by rewrite !role_in_cons, !bool_decide_eq_false_2 by congruence.
  - unfold served. rewrite Hshown, Hd. unfold shown. by rewrite (proj2 (demote_refused actor (team_id t) s a b Hk Hab Hstored)).
  - unfold served. destruct (demote_refused actor (team_id t) s a b Hk Hab Hstored) as [Hc Hs].
    destruct (save_members_run t demote_first w) as (k & h & -> & _ & Hh). rewrite Hshown, Hd. unfold shown. rewrite Hs, Hc. cbn.
    by rewrite Hh.
Qed.

Lemma handover_order_witness :
  (serve_all "root"%js (member_calls "t"%js [("a", "admin"); ("b", "member")]%js [("a", "member"); ("b", "admin")]%js) sample_identity).1
  = sample_identity.
Proof.
  refine (proj1 (proj2 (proj2 (handover_order "root"%js sample_team sample_page sample_identity "a"%js "b"%js _ _ _ _)))).
  - split_and!; [by vm_compute|set_solver|]. by intros u ?%elem_of_nil.
  - done.
  - by vm_compute.
  - intros u. rewrite sample_stored, <- current_roles_role. done.
Defined.

(** ** The memberships of an edited user *)

Lemma members_entries_notin l m k :
  k ∉ l.*1 → foldl (λ (m : members_map) '(id, r), <[id := default [] r]> m) m l !! k = m !! k.
Proof.
  revert m. induction l as [|[id r] l IH]; intros m Hk; [done|]. cbn in Hk. apply not_elem_of_cons in Hk as [Hk1 Hk2].
  cbn. rewrite IH by done. by rewrite lookup_insert_ne.
Qed.

Lemma members_entries_in l m k r :
  NoDup l.*1 → (k, r) ∈ l → foldl (λ (m : members_map) '(id, r), <[id := default [] r]> m) m l !! k = Some (default [] r).
Proof.
  revert m. induction l as [|[id r'] l IH]; intros m Hnd Hin; [by apply elem_of_nil in Hin|].
  cbn in Hnd. apply list.NoDup_cons in Hnd as [Hid Hnd]. cbn. apply elem_of_cons in Hin as [[= <- <-]|Hin]; [|by apply IH].
  rewrite members_entries_notin by done. by rewrite lookup_insert_eq.
Qed.

(** The members of a team after loading: those of its answer, none if it failed. *)
Lemma loaded_members teams replies i t r :
  NoDup (team_id <$> teams) → length replies = length teams → teams !! i = Some t → replies !! i = Some r →
  members_of (members_entries (team_id <$> teams) replies) (team_id t) = default [] r.
Proof.
  intros Hnd Hlen Ht Hr. unfold members_of, members_entries.
  erewrite members_entries_in; [done| |].
  - rewrite fst_zip; [done|]. rewrite length_fmap. lia.
  - apply list_elem_of_lookup. exists i. rewrite lookup_zip_with. by rewrite list_lookup_fmap, Ht; cbn; rewrite Hr.
Qed.

Section edit.
Context (user : jstr) (teams : list TeamSummary) (teamMembers : members_map) (Hnd : NoDup (team_id <$> teams)).

Definition assignment_of (t : TeamSummary) : option UserTeamAssignment :=
  (λ m, MkAssignment (team_id t) (mem_role m)) <$> member_in user (members_of teamMembers (team_id t)).

Lemma assignment_team t a : assignment_of t = Some a → ta_teamId a = team_id t.
Proof. unfold assignment_of. destruct (member_in user _); [|done]. by intros [= <-]. Qed.

Lemma find_assignment l t :
  NoDup (team_id <$> l) → t ∈ l → find_first (λ a, bool_decide (ta_teamId a = team_id t)) (omap assignment_of l) = assignment_of t.
Proof.
  induction l as [|t' l IH]; intros Hl Ht; [by apply elem_of_nil in Ht|].
  cbn in Hl. apply list.NoDup_cons in Hl as [Ht' Hl]. apply elem_of_cons in Ht as [<-|Ht]; cbn.
  - destruct (assignment_of t) as [a|] eqn:Ea; cbn; [by rewrite bool_decide_eq_true_2 by by apply assignment_team|].
    apply find_first_None. intros a (t2 & Ht2 & Ha%assignment_team)%list_elem_of_omap. apply bool_decide_eq_false_2.
    intros Hid. apply Ht'. rewrite <- Hid, Ha. by apply list_elem_of_fmap_2.
  - assert (Hne : team_id t' ≠ team_id t) by (intros E; apply Ht'; rewrite E; by apply list_elem_of_fmap_2).
    destruct (assignment_of t') as [a|] eqn:Ea; cbn; [|by apply IH].
    rewrite bool_decide_eq_false_2 by (by rewrite (assignment_team _ _ Ea)). by apply IH.
Qed.

(** The dialog asks for the memberships it was shown. *)
Lemma unchanged_teams : joined_teams (buildTeamMembershipDraft user teams teamMembers) = omap assignment_of teams.
Proof.
  unfold joined_teams, buildTeamMembershipDraft. change (membershipsForUser user teams teamMembers) with (omap assignment_of teams).
  assert (H : ∀ l, (∀ t, t ∈ l → t ∈ teams) →
    (λ d, MkAssignment (td_teamId d) (td_role d)) <$> filterb td_joined
      ((λ t, let membership := find_first (λ a, bool_decide (ta_teamId a = team_id t)) (omap assignment_of teams) in
             MkMembershipDraft (team_id t) (bool_decide (is_Some membership)) (from_option ta_role "member"%js membership)) <$> l)
    = omap assignment_of l).
  { induction l as [|t l IH]; intros Hl; [done|]. rewrite fmap_cons. cbv zeta in *. rewrite filterb_cons, find_assignment by (done || apply Hl; by left).
    assert (Hl' : ∀ t', t' ∈ l → t' ∈ teams) by (intros t' ?; apply Hl; by right).
    cbn. destruct (assignment_of t) as [a|] eqn:Ea; cbn; [|by apply IH]. f_equal; [|by apply IH].
    rewrite <- (assignment_team _ _ Ea). by destruct a. }
  by apply H.
Qed.
End edit.

(** ** What the server makes of a user's assignments *)

Lemma normalize_keys seen A N :
  normalize_assignments seen A = Some N →
  N = (λ a, (TrimSpace (ta_teamId a), TrimSpace (ta_role a))) <$> A ∧ NoDup N.*1 ∧ (∀ k, k ∈ N.*1 → k ∉ seen).
Proof.
  revert seen N. induction A as [|a A IH]; intros seen N; cbn; [intros [= <-]; split_and!; [done|constructor|by intros k ?%elem_of_nil]|].
  case_bool_decide as Hs; [by rewrite orb_true_r|]. destruct (negb (truthy _) || negb (validTeamRole _)); [done|].
  cbn. destruct (normalize_assignments _ A) as [N'|] eqn:E; [|done]. cbn. intros [= <-].
  destruct (IH _ _ E) as (-> & Hnd & Hk). split_and!; [done| |].
  - cbn. apply list.NoDup_cons. split; [|done]. intros Hin. apply (Hk _ Hin). set_solver.
  - cbn. intros k [->|Hin]%elem_of_cons; [done|]. specialize (Hk k Hin). set_solver.
Qed.

Lemma upsert_all_spec user l s s' :
  NoDup l.*1 → upsert_all user l s = inl s' →
  ∀ t u, id_members s' !! (t, u) = if bool_decide (u = user) then match role_in l t with Some r => Some r | None => id_members s !! (t, u) end
                                   else id_members s !! (t, u).
Proof.
  revert s. induction l as [|[team role] l IH]; intros s Hnd; cbn; [intros [= ->] t u; by case_bool_decide|].
  cbn in Hnd. apply list.NoDup_cons in Hnd as [Ht Hnd]. unfold upsert.
  destruct (negb (validTeamRole role)); [done|]. destruct (negb _ || negb _); [done|]. intros H t u.
  rewrite (IH _ Hnd H). cbn. rewrite role_in_cons. case_bool_decide as Hu.
  - subst u. destruct (decide (team = t)) as [->|Hne].
    + rewrite (bool_decide_eq_true_2 (t = t)) by done. apply role_in_None in Ht. by rewrite Ht, lookup_insert_eq.
    + rewrite bool_decide_eq_false_2 by done. by rewrite lookup_insert_ne by congruence.
  - by rewrite lookup_insert_ne by congruence.
Qed.

Lemma elem_teams_of s user t role : (t, role) ∈ teams_of s user ↔ id_members s !! (t, user) = Some role.
Proof.
  unfold teams_of. rewrite list_elem_of_omap. split.
  - intros ([[t' u'] r'] & Hin%elem_of_map_to_list & E). case_bool_decide; [|done]. by simplify_eq.
  - intros H. exists ((t, user), role). split; [by apply elem_of_map_to_list|]. by rewrite bool_decide_eq_true_2.
Qed.

Lemma drop_memberships_spec (desired : gmap jstr jstr) (user : jstr) (current : list (jstr * jstr)) (m : gmap (jstr * jstr) jstr) (t u : jstr) :
  foldr (λ '(team, _) m, match desired !! team with Some _ => m | None => delete (team, user) m end) m current !! (t, u)
  = if bool_decide (u = user ∧ t ∈ current.*1 ∧ desired !! t = None) then None else m !! (t, u).
Proof.
  induction current as [|[team role] current IH]; cbn; [by rewrite bool_decide_eq_false_2 by (intros (_ & H & _); by apply elem_of_nil in H)|].
  destruct (desired !! team) eqn:Ed.
  - rewrite IH. erewrite bool_decide_ext; [done|]. rewrite elem_of_cons. split; [naive_solver|]. intros (? & [-> | ?] & ?); [congruence|done].
  - destruct (decide ((team, user) = (t, u))) as [[= -> ->]|Hne].
    + rewrite lookup_delete_eq. by rewrite bool_decide_eq_true_2 by (split_and!; [done|by left|done]).
    + rewrite lookup_delete_ne, IH by done. erewrite bool_decide_ext; [done|]. rewrite elem_of_cons. split; [naive_solver|].
      intros (-> & [-> | ?] & ?); [congruence|done].
Qed.

(** Accepted assignments are the user's memberships from then on. *)
Lemma set_user_teams_spec actor user A s s' :
  SetUserTeamMemberships actor user A s = inl s' →
  let N := (λ a, (TrimSpace (ta_teamId a), TrimSpace (ta_role a))) <$> A in
  ∀ t u, id_members s' !! (t, u) = if bool_decide (u = user) then role_in N t else id_members s !! (t, u).
Proof.
  unfold SetUserTeamMemberships. destruct (normalize_assignments ∅ A) as [N|] eqn:EN; [|done].
  destruct (normalize_keys _ _ _ EN) as (<- & Hnd & _). destruct (negb (authorizeSystemAdmin s actor)); [done|].
  destruct (negb _); [done|]. destruct (existsb _ _); [done|]. intros H t u.
  rewrite (upsert_all_spec _ _ _ _ Hnd H). cbn. rewrite drop_memberships_spec, <- role_in_map.
  case_bool_decide as Hu; [subst u|rewrite bool_decide_eq_false_2; [done|naive_solver]].
  destruct (role_in N t) as [r|] eqn:Er; [done|]. case_bool_decide as Hc; [done|].
  destruct (id_members s !! (t, user)) as [role|] eqn:Es; [|done]. destruct Hc. split_and!; [done| |done].
  apply elem_teams_of in Es. by apply (list_elem_of_fmap_2 fst) in Es.
Qed.

(** Editing a user.  Saving the dialog of a user sends one assignment for each team
    whose member list was loaded with the user in it, in the role shown there, unless the
    boxes were changed; once the server accepts them they are the user's memberships and
    nobody else's change.  A team whose member list could not be loaded is shown as not
    joined, so that saving any change of the user, a display name for instance, removes the
    user from it. *)
Theorem edit_user_memberships user teams replies :
  NoDup (team_id <$> teams) → length replies = length teams →
  (∀ t, t ∈ teams → TrimSpace (team_id t) = team_id t) →
  let teamMembers := members_entries (team_id <$> teams) replies in
  let assignments := joined_teams (buildTeamMembershipDraft user teams teamMembers) in
  (∀ i t r, teams !! i = Some t → replies !! i = Some r →
     ∀ a, a ∈ assignments → ta_teamId a = team_id t → ∃ m, member_in user (default [] r) = Some m ∧ ta_role a = mem_role m)
  ∧ (∀ i t l m, teams !! i = Some t → replies !! i = Some (Some l) → member_in user l = Some m →
       MkAssignment (team_id t) (mem_role m) ∈ assignments)
  ∧ ∀ actor s s', SetUserTeamMemberships actor user assignments s = inl s' →
      (∀ t u, u ≠ user → id_members s' !! (t, u) = id_members s !! (t, u))
      ∧ (∀ i t l m, teams !! i = Some t → replies !! i = Some (Some l) → member_in user l = Some m →
           validTeamRole (mem_role m) = true → id_members s' !! (team_id t, user) = Some (mem_role m))
      ∧ (∀ i t, teams !! i = Some t → replies !! i = Some None → id_members s' !! (team_id t, user) = None).
Proof.
  intros Hnd Hlen Htrim teamMembers assignments.
  assert (HA : assignments = omap (assignment_of user teamMembers) teams) by (by apply unchanged_teams).
  assert (Hload : ∀ i t r, teams !! i = Some t → replies !! i = Some r → members_of teamMembers (team_id t) = default [] r)
    by (intros i t r; by apply loaded_members).
  assert (Hfrom : ∀ i t r a, teams !! i = Some t → replies !! i = Some r → a ∈ assignments → ta_teamId a = team_id t →
    ∃ m, member_in user (default [] r) = Some m ∧ ta_role a = mem_role m).
  { intros i t r a Ht Hr Ha Hid. rewrite HA in Ha. apply list_elem_of_omap in Ha as (t' & Ht' & Ha).
    assert (t' = t) as ->.
    { pose proof (assignment_team _ _ _ _ Ha) as Hid'. rewrite Hid in Hid'.
      apply list_elem_of_lookup in Ht' as [j Hj]. assert (i = j) as <-; [|congruence].
      eapply (NoDup_lookup (team_id <$> teams) i j (team_id t)); [done|by rewrite list_lookup_fmap, Ht|].
      rewrite list_lookup_fmap, Hj. cbn. by rewrite Hid'. }
    unfold assignment_of in Ha. rewrite (Hload i t r Ht Hr) in Ha. destruct (member_in user _) as [m|]; [|done].
    exists m. by injection Ha as <-. }
  assert (Hto : ∀ i t l m, teams !! i = Some t → replies !! i = Some (Some l) → member_in user l = Some m →
    MkAssignment (team_id t) (mem_role m) ∈ assignments).
  { intros i t l m Ht Hr Hm. rewrite HA. apply list_elem_of_omap. exists t. split; [by eapply list_elem_of_lookup_2|].
    unfold assignment_of. rewrite (Hload i t _ Ht Hr). change (default [] (Some l)) with l. by rewrite Hm. }
  split_and!; [intros i t r Ht Hr a Ha Hid; by eapply Hfrom|done|]. intros actor s s' Hset.
  pose proof (set_user_teams_spec _ _ _ _ _ Hset) as Hspec. cbv zeta in Hspec.
  set (N := _ <$> assignments) in Hspec.
  assert (HN : ∀ t role, t ∈ teams → (team_id t, role) ∈ N → ∃ a, a ∈ assignments ∧ ta_teamId a = team_id t ∧ role = TrimSpace (ta_role a)).
  { intros t role Ht (a & [= Hid ->] & Ha)%list_elem_of_fmap. exists a. split_and!; [done| |done].
    pose proof Ha as Ha'. rewrite HA in Ha'. apply list_elem_of_omap in Ha' as (t' & Ht' & Ea%assignment_team).
    rewrite Ea, (Htrim t') in Hid by done. congruence. }
  split_and!.
  - intros t u Hu. rewrite Hspec. by rewrite bool_decide_eq_false_2.
  - intros i t l m Ht Hr Hm Hrole. rewrite Hspec, bool_decide_eq_true_2 by done.
    destruct (role_in N (team_id t)) as [role|] eqn:E.
    + apply elem_role_in, HN in E as (a & Ha & Hid & ->); [|by eapply list_elem_of_lookup_2].
      destruct (Hfrom i t _ a Ht Hr Ha Hid) as (m' & Hm' & ->). change (default [] (Some l)) with l in Hm'. rewrite Hm in Hm'. injection Hm' as <-.
      by rewrite valid_role_trim.
    + apply role_in_None in E. destruct E. apply list_elem_of_fmap. exists (team_id t, mem_role m). split; [done|].
      apply list_elem_of_fmap. exists (MkAssignment (team_id t) (mem_role m)). split; [|by eapply Hto]. cbn [ta_teamId ta_role].
      rewrite Htrim by (by eapply list_elem_of_lookup_2). by rewrite valid_role_trim.
  - intros i t Ht Hr. rewrite Hspec, bool_decide_eq_true_2 by done.
    destruct (role_in N (team_id t)) as [role|] eqn:E; [|done].
    apply elem_role_in, HN in E as (a & Ha & Hid & ->); [|by eapply list_elem_of_lookup_2].
    by destruct (Hfrom i t _ a Ht Hr Ha Hid) as (m' & Hm' & _).
Qed.

Lemma edit_user_memberships_witness :
  ∃ s', SetUserTeamMemberships "root"%js "b"%js
          (joined_teams (buildTeamMembershipDraft "b"%js [sample_team] (members_entries ["t"%js] [None]))) sample_identity = inl s'
  ∧ id_members sample_identity !! ("t"%js, "b"%js) = Some "member"%js ∧ id_members s' !! ("t"%js, "b"%js) = None.
Proof.
  set (s' := set_members (delete ("t"%js, "b"%js)) sample_identity).
  assert (Hs : SetUserTeamMemberships "root"%js "b"%js
    (joined_teams (buildTeamMembershipDraft "b"%js [sample_team] (members_entries ["t"%js] [None]))) sample_identity = inl s') by (by vm_compute).
  exists s'. split; [exact Hs|]. split; [by vm_compute|].
  refine (proj2 (proj2 (proj2 (proj2 (edit_user_memberships "b"%js [sample_team] [None] _ _ _)) "root"%js sample_identity s' Hs)) 0 sample_team _ _);
    [apply NoDup_singleton|done| |done|done]. intros t ->%list_elem_of_singleton. by vm_compute.
Defined.

(** ** Loading *)

(** Loading the users and teams.  A run of the loading asks for users and teams and then
    for the members of all teams.  When it is answered after another run has started it
    changes nothing; otherwise the page shows what was answered, the team whose members
    could not be read without any; and when users or teams cannot be read it shows the
    session's own user and teams with the message.  Without a session nothing is asked. *)
Theorem settings_loaded w :
  let n := S (effect (data w)) in
  let start := run load_effect w in
  match session (data w) with
  | None => start.2 = Finished ∧ start.1 = set_effect S w
  | Some s =>
      let own := toCurrentUserSummary (as_user s) in
      start.1 = setError [] (setState state_loading (set_effect S w))
      ∧ ∃ k, start.2 = Await list_users_teams k
        ∧ (∀ err w', k (inr err) w' =
             (if (effect (data w') =? n)%nat
              then setError (error_message err) (setState state_error (setTeamMembers (λ _, ∅)
                     (setTeams (λ _, session_team <$> as_teams s) (setUsers (λ _, [own]) w'))))
              else w', Finished))
        ∧ (∀ us ts w', ∃ k', k (inl (RUsersTeams us ts)) w' = (w', Await (list_all_members (team_id <$> ts)) k')
             ∧ ∀ replies w2, k' (inl (RAllMembers replies)) w2 =
                 (if (effect (data w2) =? n)%nat
                  then setState state_ready (setTeamMembers (λ _, members_entries (team_id <$> ts) replies)
                         (setTeams (λ _, ts) (setUsers (λ _, match us with [] => [own] | _ => us end) w2)))
                  else w2, Finished))
  end.
Proof.
  destruct w as [[ls users0 teams0 tm er su [s|] ef] tp up]; [|done]. cbv zeta. cbn [session data]. split; [done|].
  eexists. split; [reflexivity|]. split.
  - intros err w'. cbv [bind state modify catch]. change (effect (data (set_effect S _))) with (S ef). change (effect (MkData _ _ _ _ _ _ _ ef)) with ef.
    by destruct (effect (data w') =? S ef)%nat.
  - intros us ts w'. eexists. split; [reflexivity|]. intros replies w2.
    cbv [bind state modify catch ret]. change (effect (data (set_effect S _))) with (S ef). change (effect (MkData _ _ _ _ _ _ _ ef)) with ef.
    by destruct (effect (data w2) =? S ef)%nat, us.
Qed.

(** ** Changing teams *)

(** Creating, renaming and deleting a team.  An accepted change is shown at once: the
    new team takes its place in the order of names, with the members read back or none; the
    renamed one is moved to its place; the deleted one goes, with its members.  A refused
    change leaves the teams as they were, shows the message of its code and keeps the
    dialog.  Whatever the answer, the page is no longer busy.  A name that is blank or the
    same makes no call. *)
Theorem team_changes_spec `{Unicode} t name w :
  (let start := run (submitTeam name) w in
   awaited start.2 = Some (create_team name)
   ∧ (∀ created, awaited (drive [inl (RTeam created)] start).2 = Some (list_members (team_id created)))
   ∧ (∀ created members,
        let y := drive [inl (RTeam created); members] start in
        let others := filterb (λ t, negb (bool_decide (team_id t = team_id created))) (teams (data w)) in
        y.2 = Finished ∧ Permutation (teams (data y.1)) (created :: others)
        ∧ StronglySorted (λ a b, (localeCompare (team_name a) (team_name b) <= 0)%Z) (teams (data y.1))
        ∧ members_of (teamMembers (data y.1)) (team_id created) = match members with inl (RMembers l) => l | _ => [] end
        ∧ showCreateTeam (teams_page y.1) = false ∧ creatingTeam (teams_page y.1) = false)
   ∧ (∀ err, let y := drive [inr err] start in
        y.2 = Finished ∧ teams (data y.1) = teams (data w) ∧ error_ (data y.1) = settingsErrorMessage err
        ∧ showCreateTeam (teams_page y.1) = showCreateTeam (teams_page w) ∧ creatingTeam (teams_page y.1) = false))
  ∧ (let nextName := trim (default (team_name t) (teamDrafts (teams_page w) !! team_id t)) in
     let start := run (saveTeamName t) w in
     if bool_decide (nextName = [] ∨ nextName = team_name t)
     then start = (setEditingTeamId [] w, Finished)
     else
       awaited start.2 = Some (update_team (team_id t) nextName)
       ∧ (∀ updated, let y := drive [inl (RTeam updated)] start in
            y.2 = Finished ∧ editingTeamId (teams_page y.1) = [] ∧ teamPending (teams_page y.1) !! team_id t = Some false
            ∧ Permutation (teams (data y.1)) (update_where (λ i, bool_decide (team_id i = team_id t)) (λ _, updated) (teams (data w))))
       ∧ (∀ err, let y := drive [inr err] start in
            y.2 = Finished ∧ teams (data y.1) = teams (data w) ∧ error_ (data y.1) = settingsErrorMessage err
            ∧ editingTeamId (teams_page y.1) = editingTeamId (teams_page w) ∧ teamPending (teams_page y.1) !! team_id t = Some false))
  ∧ (let start := run (deleteTeam t) w in
     awaited start.2 = Some (delete_team (team_id t))
     ∧ (∀ r, let y := drive [inl r] start in
          y.2 = Finished ∧ teams (data y.1) = filterb (λ i, negb (bool_decide (team_id i = team_id t))) (teams (data w))
          ∧ members_of (teamMembers (data y.1)) (team_id t) = [] ∧ teamPending (teams_page y.1) !! team_id t = Some false)
     ∧ (∀ err, let y := drive [inr err] start in
          y.2 = Finished ∧ teams (data y.1) = teams (data w) ∧ error_ (data y.1) = settingsErrorMessage err
          ∧ teamPending (teams_page y.1) !! team_id t = Some false)).
Proof.
  assert (Hsort : ∀ l : list TeamSummary, StronglySorted (λ a b, (localeCompare (team_name a) (team_name b) <= 0)%Z) (sort_by by_team_name l)).
  { intros l. apply sort_by_sorted; unfold by_team_name; intros; [apply compare_antisym|by eapply compare_trans]. }
  split_and!.
  - cbv zeta. split_and!; [done|done| |by intros err; split_and!].
    intros created members. 
    assert (Hy : ∃ l, drive [inl (RTeam created); members] (run (submitTeam name) w)
      = (setCreatingTeam false (setSuccess ("团队 "%js ++ team_name created ++ " 已创建"%js) (setShowCreateTeam false
           (setTeamMembers (λ current, <[team_id created := l]> current)
             (setTeams (λ current, sort_by by_team_name (filterb (λ t, negb (bool_decide (team_id t = team_id created))) current ++ [created]))
               (setSuccess [] (setError [] (setCreatingTeam true w))))))), Finished)
      ∧ l = match members with inl (RMembers l) => l | _ => [] end).
    { destruct members as [[]|]; by eexists. }
    destruct Hy as (l & -> & ->). split_and!; [done| |apply Hsort| |done|done]; cbn -[filterb].
    + rewrite sort_by_perm. by rewrite <- Permutation_cons_append.
    + unfold members_of. by rewrite lookup_insert_eq.
  - cbv zeta. set (nextName := trim _). case_bool_decide as Hn.
    + unfold run, saveTeamName, bind, state. fold nextName. 
      assert (E : negb (truthy nextName) || bool_decide (nextName = team_name t) = true).
      { destruct Hn as [-> | ->]; [done|]. rewrite bool_decide_eq_true_2 by done. by rewrite orb_true_r. }
      by rewrite E.
    + assert (E : negb (truthy nextName) || bool_decide (nextName = team_name t) = false).
      { rewrite bool_decide_eq_false_2 by naive_solver. destruct nextName; [naive_solver|done]. }
      eassert (Hrun : run (saveTeamName t) w = _).
      { unfold run, saveTeamName, bind at 1, state at 1. fold nextName. rewrite E. reflexivity. }
      rewrite Hrun.
      split_and!; [done|intros updated; cbv zeta; split_and!; [done|done| |]|intros err; cbv zeta; split_and!; try done]; cbn.
      * by rewrite lookup_insert_eq.
      * apply sort_by_perm.
      * by rewrite lookup_insert_eq.
  - cbv zeta. split_and!; [done|intros r; split_and!; try done|intros err; split_and!; try done]; cbn.
    + unfold members_of. by rewrite lookup_delete_eq.
    + by rewrite lookup_insert_eq.
    + by rewrite lookup_insert_eq.
Qed.
