(* ===== verification/SettingsViews.v ===== *)
(** * What the settings pages show

    The elements of [src/web/src/settings/]: [SettingsProfilePage.tsx],
    [SettingsLayout.tsx], [SettingsTeamsPage.tsx], [SettingsUsersPage.tsx] and their dialogs.
    A dialog keeps its state in [dialogs] while it is mounted ([commit]); its [!] on a row
    that is missing is an exception, so that a dialog may have no elements. *)
From S2P Require Import Prelude JsString JsNumber JsValue Http Async Auth Settings SettingsPages View Elements Ui.
#[local] Open Scope async_scope.

Abbreviation markup := (view (handler unit)).
Definition set_teams f := set_dialogs (λ d, MkDialogs (f (d_newTeam d)) (d_members d) (d_newUser d) (d_editUser d)).
Definition set_members_draft f := set_dialogs (λ d, MkDialogs (d_newTeam d) (f (d_members d)) (d_newUser d) (d_editUser d)).
Definition set_new_user f := set_dialogs (λ d, MkDialogs (d_newTeam d) (d_members d) (f (d_newUser d)) (d_editUser d)).
Definition set_edit_user f := set_dialogs (λ d, MkDialogs (d_newTeam d) (d_members d) (d_newUser d) (f (d_editUser d))).

(** ** Mounting *)

Definition initial_new_user (teams : list TeamSummary) : NewUser :=
  MkNewUser (MkCreateUser [] [] [] "member"%js) (emptyTeamMembershipDraft teams) [].
Definition initial_edit_user (u : UserSummary) (teams : list TeamSummary) (teamMembers : members_map) : EditUser :=
  MkEditUser (edit_profile u) (buildTeamMembershipDraft (u_id u) teams teamMembers) [] [] [].

(** The state of a dialog with a key: it is kept while the key is the same. *)
Definition mounted {A} (key : jstr) (initial : A) (old : option (jstr * A)) : option (jstr * A) :=
  match old with
  | Some (k, a) => if bool_decide (k = key) then Some (k, a) else Some (key, initial)
  | None => Some (key, initial)
  end.
Definition members_key (w : SP) (t : TeamSummary) : jstr :=
  team_id t ++ "-"%js
  ++ join ","%js ((λ m, u_id (mem_user m) ++ ":"%js ++ mem_role m) <$> members_of (teamMembers (data w)) (team_id t)).
Definition create_key (w : SP) : jstr := join ","%js (team_id <$> teams (data w)).

Definition commit_teams (w : SP) : SP :=
  set_dialogs (λ d, MkDialogs
    (if showCreateTeam (teams_page w) then Some (default (MkNewTeam [] []) (d_newTeam d)) else None)
    (t ← managingTeam (teams_page w);
     mounted (members_key w t) (buildTeamMemberDraft (users (data w)) (members_of (teamMembers (data w)) (team_id t))) (d_members d))
    None None) w.
Definition commit_users (w : SP) : SP :=
  set_dialogs (λ d, MkDialogs None None
    (if showCreate (users_page w) then mounted (create_key w) (initial_new_user (teams (data w))) (d_newUser d) else None)
    (u ← editingUser (users_page w);
     mounted (u_id u) (initial_edit_user u (teams (data w)) (teamMembers (data w))) (d_editUser d))) w.

(** ** UserTeamAssignmentsField.tsx *)

Definition team_row {E} (draft : list TeamMembershipDraft) (onChange : list TeamMembershipDraft → E) (t : TeamSummary) : option (view E) :=
  d ← find_first (λ d, bool_decide (td_teamId d = team_id t)) draft;
  Some (Region "listitem"%js [] [
    Checkbox ("加入 "%js ++ team_name t) None (td_joined d) (λ b, onChange (update_team_joined (team_id t) b draft));
    SelectControl (team_name t ++ " 团队角色"%js) (td_role d) teamRoleOptions (negb (td_joined d))
      (λ role, onChange (update_team_role (team_id t) role draft))]).
Definition UserTeamAssignmentsField {E} (teams : list TeamSummary) (draft : list TeamMembershipDraft)
    (onChange : list TeamMembershipDraft → E) : option (view E) :=
  rows ← mapM (team_row draft onChange) teams;
  Some (Group ([Words "团队归属"%js]
    ++ (match teams with
        | [] => [Words "还没有团队。请先在「团队」页创建。"%js]
        | _ => [Region "list"%js [] rows]
        end)
    ++ [Words "勾选团队并设置角色，点击「保存」后一并生效。"%js])).

(** ** CreateTeamDialog.tsx *)

Section dialogs.
Context `{Unicode}.

Definition new_team (f : NewTeam → NewTeam) : handler unit := modify (set_teams (fmap f)).
Definition submit_new_team (s : NewTeam) : handler unit :=
  match create_team_submit (nt_name s) with
  | inr message => new_team (λ s, MkNewTeam (nt_name s) message)
  | inl name => do* new_team (λ s, MkNewTeam (nt_name s) []) in submitTeam name
  end.
Definition CreateTeamDialog (submitting : bool) (onCancel : handler unit) (s : NewTeam) : markup :=
  FormDialog "新建团队"%js (Some "创建后可维护成员，共享连接与日志会话。"%js) None "创建团队"%js submitting onCancel (submit_new_team s)
    [TextField "团队名称"%js (nt_name s) (Some (nt_error s)) None (λ name, new_team (λ _, MkNewTeam name []))].

(** ** TeamMembersDialog.tsx *)

Definition update_member (f : list TeamMemberDraft → list TeamMemberDraft) : handler unit :=
  modify (set_members_draft (fmap (λ d, (d.1, f d.2)))).
Definition member_row (draft : list TeamMemberDraft) (u : UserSummary) : option (markup) :=
  d ← find_first (λ d, bool_decide (md_userId d = u_id u)) draft;
  Some (Region "listitem"%js [] [
    Checkbox ("加入 "%js ++ displayUser u) (Some ("@"%js ++ u_username u)) (md_joined d) (λ b, update_member (update_joined (u_id u) b));
    SelectControl (displayUser u ++ " 团队角色"%js) (md_role d) teamRoleOptions (negb (md_joined d))
      (λ role, update_member (update_role (u_id u) role))]).
Definition TeamMembersDialog (t : TeamSummary) (users : list UserSummary) (submitting : bool) (onCancel : handler unit)
    (draft : list TeamMemberDraft) : option (markup) :=
  rows ← mapM (member_row draft) (active_users users);
  Some (FormDialog ("维护成员 · "%js ++ team_name t)
    (Some ("已选择 "%js ++ dec_Z (Z.of_nat (length (filterb md_joined draft))) ++ " 名成员。勾选用户并设置角色，点击保存后一并生效。"%js))
    None "保存"%js submitting onCancel (saveTeamMembers t draft)
    (match active_users users with
     | [] => [Words "没有可添加的用户。请先在「用户」页创建账号。"%js]
     | _ => [Region "list"%js [] rows]
     end)).

(** ** CreateUserDialog.tsx *)

Definition new_user (f : NewUser → NewUser) : handler unit := modify (set_new_user (fmap (λ x, (x.1, f x.2)))).
Definition new_profile (f : CreateUserInput → CreateUserInput) (s : NewUser) : NewUser := MkNewUser (f (nu_profile s)) (nu_teams s) (nu_error s).
Definition submit_new_user (s : NewUser) : handler unit :=
  match create_user_submit (nu_profile s) with
  | inr message => new_user (λ s, MkNewUser (nu_profile s) (nu_teams s) message)
  | inl profile => do* new_user (λ s, MkNewUser (nu_profile s) (nu_teams s) []) in submitCreate profile (nu_teams s)
  end.
Definition CreateUserDialog (teams : list TeamSummary) (submitting : bool) (onCancel : handler unit) (s : NewUser) : option (markup) :=
  let p := nu_profile s in
  assignments ← UserTeamAssignmentsField teams (nu_teams s) (λ draft, new_user (λ s, MkNewUser (nu_profile s) draft (nu_error s)));
  Some (FormDialog "新建用户"%js (Some "创建登录账号，可同时分配团队。"%js) None "创建用户"%js submitting onCancel (submit_new_user s)
    [TextField "用户名"%js (cu_username p) (Some (nu_error s)) None (λ x, new_user (λ s,
       MkNewUser (MkCreateUser x (cu_displayName (nu_profile s)) (cu_password (nu_profile s)) (cu_systemRole (nu_profile s))) (nu_teams s) []));
     TextField "显示名称"%js (cu_displayName p) None None (λ x, new_user (new_profile (λ p, MkCreateUser (cu_username p) x (cu_password p) (cu_systemRole p))));
     TextField "初始密码"%js (cu_password p) None None (λ x, new_user (new_profile (λ p, MkCreateUser (cu_username p) (cu_displayName p) x (cu_systemRole p))));
     Words "系统角色"%js;
     SelectControl "系统角色"%js (cu_systemRole p) systemRoleOptions false
       (λ x, new_user (new_profile (λ p, MkCreateUser (cu_username p) (cu_displayName p) (cu_password p) x)));
     assignments]).

(** ** EditUserDialog.tsx *)

Definition edit_user (f : EditUser → EditUser) : handler unit := modify (set_edit_user (fmap (λ x, (x.1, f x.2)))).
Definition edit_user_profile (f : UpdateUserInput → UpdateUserInput) (s : EditUser) : EditUser :=
  MkEditUser (f (eu_profile s)) (eu_teams s) (eu_password s) (eu_confirm s) (eu_error s).
Definition edit_user_error (e : jstr) (s : EditUser) : EditUser := MkEditUser (eu_profile s) (eu_teams s) (eu_password s) (eu_confirm s) e.
Definition submit_edit_user (s : EditUser) : handler unit :=
  match edit_user_submit (eu_profile s) (eu_password s) (eu_confirm s) with
  | inr message => edit_user (edit_user_error message)
  | inl profile => do* edit_user (edit_user_error []) in submitEdit profile (eu_teams s)
  end.
Definition account_states : list (jstr * jstr) := [("active", "正常"); ("disabled", "已禁用")]%js.
Definition EditUserDialog (user : UserSummary) (teams : list TeamSummary) (isSelf submitting : bool) (onCancel : handler unit)
    (s : EditUser) : option (markup) :=
  let p := eu_profile s in
  assignments ← UserTeamAssignmentsField teams (eu_teams s)
    (λ draft, edit_user (λ s, MkEditUser (eu_profile s) draft (eu_password s) (eu_confirm s) (eu_error s)));
  Some (FormDialog (displayUser user) (Some ("@"%js ++ u_username user)) None "保存"%js submitting onCancel (submit_edit_user s)
    [TextField "显示名称"%js (uu_displayName p) None None
       (λ x, edit_user (edit_user_profile (λ p, MkUpdateUser x (uu_systemRole p) (uu_disabled p) (uu_password p))));
     Words "系统角色"%js;
     SelectControl "系统角色"%js (uu_systemRole p) systemRoleOptions false
       (λ x, edit_user (edit_user_profile (λ p, MkUpdateUser (uu_displayName p) x (uu_disabled p) (uu_password p))));
     Words "登录密码"%js;
     TextField "新密码"%js (eu_password s) (Some (eu_error s)) None
       (λ x, edit_user (λ s, MkEditUser (eu_profile s) (eu_teams s) x (eu_confirm s) []));
     TextField "确认新密码"%js (eu_confirm s) None None
       (λ x, edit_user (λ s, MkEditUser (eu_profile s) (eu_teams s) (eu_password s) x []));
     Words "修改密码后，该用户现有登录会话会被撤销。"%js;
     assignments;
     Words "账号状态"%js;
     SelectControl "账号状态"%js (if default false (uu_disabled p) then "disabled"%js else "active"%js) account_states isSelf
       (λ v, edit_user (edit_user_profile (λ p,
          MkUpdateUser (uu_displayName p) (uu_systemRole p) (Some (bool_decide (v = "disabled"%js))) (uu_password p))));
     Words (if isSelf then "不能禁用自己的账号。"%js else "禁用后无法登录，现有会话会被撤销。"%js)]).
End dialogs.

(** ** SettingsProfilePage.tsx *)

Definition profile_name (u : AuthUser) : jstr := or_else (au_displayName u) (au_username u).
Definition role_text (role : jstr) : jstr := if bool_decide (role = "admin"%js) then "系统管理员"%js else "成员"%js.

Definition SettingsProfilePage {E} (s : AuthSession) (w : SP) : view E :=
  let u := as_user s in
  let joinedTeams := memberTeams (teams (data w)) in
  Group
    ([Region [] "current-account-heading"%js
        [Words (profile_name u); Words ("@"%js ++ au_username u); StatusBadge (role_text (au_systemRole u))];
      Region [] "joined-teams-heading"%js
        ([Words "我的团队"%js; Words "共享连接与日志会话归属"%js]
         ++ only_if (canManageTeams w) (Anchor "管理团队 →"%js "/settings/teams"%js)
         ++ [match load_state (data w), joinedTeams with
             | state_loading, _ => Words "正在加载团队信息…"%js
             | _, [] => EmptyState "暂未加入团队"%js "请联系团队管理员邀请你，或由系统管理员添加成员。"%js []
             | _, _ => Region "list"%js "我的团队"%js
                 ((λ t, Region "listitem"%js [] [Words (team_name t); Words "共享连接与日志会话"%js; StatusBadge (teamRoleLabel (team_role t))]) <$> joinedTeams)
             end]);
      Words "快捷入口"%js;
      Anchor "连接中心"%js "/connections"%js;
      Anchor "日志分析"%js "/logs"%js]
     ++ only_if (canManageTeams w) (Anchor "团队管理"%js "/settings/teams"%js)).

(** ** SettingsLayout.tsx *)

(** The last part of the path. *)
Definition section_of (path : jstr) : jstr := or_else (default [] (last (split "/"%js path))) "profile"%js.
Definition settings_detail (w : SP) : jstr :=
  if isSystemAdmin w then "SYSTEM ADMIN"%js else if canManageTeams w then "TEAM ADMIN"%js else "MEMBER"%js.
Definition settings_status (w : SP) : jstr :=
  or_else (error_ (data w)) (or_else (success (data w))
    (match load_state (data w) with
     | state_loading => "正在同步权限…"%js
     | _ => "READY · "%js ++ dec_Z (Z.of_nat (length (teams (data w)))) ++ " TEAMS"%js
     end)).
Definition SettingsProfileContext {E} (name role : jstr) (teamCount : nat) : view E :=
  Group [Words "IDENTITY"%js; Words name; Words "系统角色"%js; Words role; Words "团队"%js; Words (dec_Z (Z.of_nat teamCount));
         Words "当前区域"%js; Words "profile"%js].
(** The messages and the page of the route. *)
Definition SettingsLayout {E} (w : SP) (outlet : view E) : list (view E) :=
  match session (data w) with
  | None => []
  | Some _ =>
      only_if (truthy (success (data w))) (Notice "status"%js (success (data w)))
      ++ only_if (truthy (error_ (data w))) (Notice "alert"%js (error_ (data w)))
      ++ [outlet]
  end.

(** ** SettingsTeamsPage.tsx *)

Section teams.
Context `{Unicode}.

Definition count (n : nat) (noun : jstr) : jstr := dec_Z (Z.of_nat n) ++ noun.

(** The sidebar of the page. *)
Definition teamDirectory (w : SP) : markup :=
  Region "complementary"%js "团队目录"%js
    ([Words "TEAM DIRECTORY"%js]
     ++ only_if (isSystemAdmin w) (TerminalInlineAction "新建团队"%js false (modify (setShowCreateTeam true)))
     ++ ((λ t, Button (team_name t ++ count (length (members_of (teamMembers (data w)) (team_id t))) " members · shared resources"%js)
                 false (modify (setSelectedTeamId (team_id t)))) <$> managedTeams w)
     ++ [Words "TEAM HEALTH"%js;
         TerminalStatus (count (length (managedTeams w)) " active teams"%js);
         TerminalStatus (count (length (concat ((map_to_list (teamMembers (data w))).*2))) " memberships"%js)]).

(** The details of the selected team. *)
Definition teamResourceContext (w : SP) : list (markup) :=
  only_some (selectedTeam w) (λ t, Region "complementary"%js "团队资源"%js
    ([Words "RESOURCE LEDGER"%js; Words (team_name t ++ " / access surface"%js);
      Words "MEMBERS"%js; Words (count (length (selectedMembers w)) [])]
     ++ ((λ m, Group [Words (displayUser (mem_user m)); Words (mem_role m)]) <$> selectedMembers w)
     ++ [Words "SHARED ACCESS"%js; Words (if bool_decide (team_role t = "admin"%js) then "ADMIN"%js else "MEMBER"%js);
         Words "Connections & log sessions"%js; Words "team namespace"%js]
     ++ only_if (isSystemAdmin w)
          (Group [Words "DANGER ZONE"%js;
                  TerminalInlineAction "删除"%js (default false (teamPending (teams_page w) !! team_id t)) (modify (setPendingAction (Some t)))]))).
Definition teams_slots (w : SP) : markup := Group (teamDirectory w :: teamResourceContext w).

Definition members_table (w : SP) : markup :=
  Region "table"%js "团队成员"%js
    ([Words "MEMBER"%js; Words "LOGIN"%js; Words "TEAM ROLE"%js; Words "STATE"%js]
     ++ ((λ m, Region "row"%js []
           [Words (displayUser (mem_user m)); Words (u_username (mem_user m));
            Words (if bool_decide (mem_role m = "admin"%js) then "TEAM ADMIN"%js else "MEMBER"%js);
            TerminalStatus (if u_disabled (mem_user m) then "DISABLED"%js else "ACTIVE"%js)]) <$> selectedMembers w)).

Definition team_workspace (w : SP) : markup :=
  Region [] "teams-heading"%js
    ([Words (from_option team_name "团队"%js (selectedTeam w)); Words "成员关系、角色与资源访问边界"%js]
     ++ from_option (λ t, if offers_management w t
          then [TerminalInlineAction "成员"%js false (modify (setManagingTeam (Some t))); TerminalInlineAction "重命名"%js false (open_rename t)]
          else []) [] (selectedTeam w)
     ++ match selectedTeam w with
        | Some _ => [Inert ("MEMBERS "%js ++ count (length (selectedMembers w)) []); Inert "ACCESS POLICY"%js; Inert "ACTIVITY"%js;
                     members_table w; Words "ROLE NOTE / Team admins can manage membership and shared resources."%js]
        | None => [EmptyState "暂无可管理团队"%js
                     (if isSystemAdmin w then "新建团队后即可分配成员与共享资源。"%js else "你当前没有团队管理员权限。"%js) []]
        end).

Definition editingTeam (w : SP) : option TeamSummary := with_team_id (editingTeamId (teams_page w)) (managedTeams w).
Definition rename_dialog (w : SP) (t : TeamSummary) : markup :=
  FormDialog ("重命名 "%js ++ team_name t) None (Some "表单"%js) "保存名称"%js (default false (teamPending (teams_page w) !! team_id t))
    (modify (setEditingTeamId [])) (saveTeamName t)
    [TextField "团队名称"%js (default (team_name t) (teamDrafts (teams_page w) !! team_id t)) None None (type_name (team_id t))].
Definition delete_dialog (t : TeamSummary) : markup :=
  ConfirmDialog ("删除团队 "%js ++ team_name t ++ "？"%js)
    "删除团队会级联移除其团队连接与日志会话，且无法撤销。请确认团队内资源已不再需要。"%js "删除团队"%js true
    (modify (setPendingAction None)) (SettingsPages.deleteTeam t).

(** [None] when a row of the member dialog is missing. *)
Definition members_dialog (w : SP) : option (list (markup)) :=
  match managingTeam (teams_page w), d_members (dialogs w) with
  | Some t, Some (_, draft) =>
      d ← TeamMembersDialog t (users (data w)) (savingMembers (teams_page w)) (modify (setManagingTeam None)) draft; Some [d]
  | _, _ => Some []
  end.
Definition SettingsTeamsPage (w : SP) : option (markup) :=
  members ← members_dialog w;
  Some (Group
    ([team_workspace w]
     ++ only_some (editingTeam w) (rename_dialog w)
     ++ (if showCreateTeam (teams_page w)
         then only_some (d_newTeam (dialogs w)) (CreateTeamDialog (creatingTeam (teams_page w)) (modify (setShowCreateTeam false))) else [])
     ++ members
     ++ only_some (pendingAction (teams_page w)) delete_dialog)).
End teams.

(** ** SettingsUsersPage.tsx *)

Section users.
Context `{Unicode}.

Definition system_role_text (u : UserSummary) : jstr := if bool_decide (u_systemRole u = "admin"%js) then "SYSTEM ADMIN"%js else "MEMBER"%js.
Definition account_text (u : UserSummary) : jstr := if u_disabled u then "DISABLED"%js else "ACTIVE"%js.
Definition team_names (w : SP) (u : UserSummary) : jstr :=
  or_else (join ", "%js ((λ t, t.1.2) <$> teamsForUser (u_id u) (teams (data w)) (teamMembers (data w)))) "未加入团队"%js.

Definition identityRail (w : SP) : markup :=
  let all := users (data w) in
  Region "complementary"%js "身份与权限"%js
    [Words "IDENTITY & ACCESS"%js;
     Region "navigation"%js "身份区域"%js [Inert "USERS"%js; Inert "TEAMS"%js; Inert "SYSTEM ROLES"%js; Inert "AUDIT TRAIL"%js];
     Words "POLICY SUMMARY"%js;
     TerminalStatus (count (length (filterb (λ u, negb (u_disabled u)) all)) " active users"%js);
     TerminalStatus (count (length (filterb (λ u, bool_decide (u_systemRole u = "admin"%js)) all)) " system admins"%js);
     TerminalStatus (count (length (filterb u_disabled all)) " disabled"%js)].

Definition identity_actions (w : SP) (u : UserSummary) : list markup :=
  [TerminalInlineAction "编辑"%js false (modify (setEditingUser (Some u)))]
  ++ (if is_self w u then []
      else [TerminalInlineAction (if u_disabled u then "启用"%js else "禁用"%js) (default false (togglingDisabled (users_page w) !! u_id u))
              (toggleDisabled u (negb (u_disabled u)));
            TerminalInlineAction "删除"%js
              (deletePending (users_page w) && bool_decide (u_id <$> deletingUser (users_page w) = Some (u_id u)))
              (modify (setDeletingUser (Some u)))]).
Definition identityContext (w : SP) : list markup :=
  only_some (selectedUser w) (λ u, Region "complementary"%js "用户详情"%js
    ([Words "SELECTED IDENTITY"%js; Words (u_username u); TerminalStatus (system_role_text u ++ " · "%js ++ account_text u);
      Words "DISPLAY NAME"%js; Words (displayUser u); Words "TEAM"%js; Words (team_names w u);
      Words "AUTH PROVIDER"%js; Words "local password"%js]
     ++ identity_actions w u
     ++ only_if (is_self w u) (Group [Words "Protected system account"%js; Words "当前登录身份不可禁用或删除。"%js]))).
Definition users_slots (w : SP) : markup := Group (identityRail w :: identityContext w).

Definition user_row (w : SP) (u : UserSummary) : markup :=
  On Click (modify (setSelectedUserId (u_id u))) (On EnterOrSpace (modify (setSelectedUserId (u_id u)))
    (Region "row"%js [] [Words (u_username u); Words (displayUser u); Words (system_role_text u); Words (team_names w u);
                         TerminalStatus (account_text u)])).
Definition capabilities : list jstr := ["Manage users"; "Manage teams"; "Manage connections"; "View system logs"]%js.
Definition permission (capability : jstr) (u : UserSummary) : jstr :=
  if bool_decide (u_systemRole u = "admin"%js) then "ALLOW"%js
  else if bool_decide (capability = "Manage connections"%js) then "SCOPED"%js else "DENY"%js.
Definition permission_matrix {E} (l : list UserSummary) : view E :=
  Region "table"%js "权限矩阵"%js
    (Region "row"%js [] (Words "CAPABILITY"%js :: (Words ∘ u_username <$> l))
     :: ((λ c, Region "row"%js [] (Words c :: (TerminalStatus ∘ permission c <$> l))) <$> capabilities)).
Definition users_table (w : SP) : markup :=
  match visibleUsers w with
  | [] => EmptyState "暂无用户"%js "创建账号后可分配系统角色和团队归属。"%js []
  | l => Region "table"%js "用户列表"%js
           ([Words "IDENTITY"%js; Words "SYSTEM ROLE"%js; Words "TEAM"%js; Words "AUTH STATE"%js] ++ (user_row w <$> l))
  end.

Definition create_user_dialog (w : SP) : option (list markup) :=
  match showCreate (users_page w), d_newUser (dialogs w) with
  | true, Some (_, s) => d ← CreateUserDialog (teams (data w)) (creating (users_page w)) (modify (setShowCreate false)) s; Some [d]
  | _, _ => Some []
  end.
Definition edit_user_dialog (w : SP) : option (list markup) :=
  match editingUser (users_page w), d_editUser (dialogs w) with
  | Some u, Some (_, s) =>
      d ← EditUserDialog u (teams (data w)) (is_self w u) (savingEdit (users_page w)) (modify (setEditingUser None)) s; Some [d]
  | _, _ => Some []
  end.
Definition delete_user_dialog (u : UserSummary) : markup :=
  ConfirmDialog ("删除用户 "%js ++ displayUser u ++ "？"%js)
    "删除后该账号无法登录，现有会话会被撤销，且无法撤销此操作。若该用户是某团队唯一管理员且团队仍有其他成员，操作会被拒绝。"%js
    "删除用户"%js true (modify (setDeletingUser None)) confirmDeleteUser.

(** [None] when a row of a dialog is missing. *)
Definition SettingsUsersPage (w : SP) : option markup :=
  creates ← create_user_dialog w;
  edits ← edit_user_dialog w;
  Some (Region [] "users-heading"%js
    ([Words "Users"%js; Words "登录账号、系统权限与团队归属"%js; TerminalInlineAction "新建用户"%js false (modify (setShowCreate true));
      TerminalCommandFilter "筛选用户"%js (query (users_page w)) ["状态：全部"%js] (λ x, modify (setQuery x));
      users_table w;
      Words "PERMISSION MATRIX"%js;
      permission_matrix (visibleUsers w)]
     ++ creates ++ edits
     ++ only_some (deletingUser (users_page w)) delete_user_dialog)).
End users.
