(* ===== verification/SettingsViewsProps.v ===== *)
(** * What the settings pages let one do *)
From S2P Require Import Prelude JsString JsNumber JsValue Http Async Auth Settings SettingsPages View Elements Ui SettingsViews.
#[local] Open Scope async_scope.

(** Runs a program of the page up to what is to be shown of the state and the calls. *)
Ltac safe_step :=
  lazymatch goal with
  | |- proper _ _ _ _ wrong => apply proper_throw
  | |- proper _ _ _ _ (bind wrong _) => apply proper_throw_bind
  | |- _ => proper_step
  end.
Ltac safe := repeat safe_step; try done.

Lemma Forall_filterb {A} (P : A → Prop) p l : Forall P l → Forall P (filterb p l).
Proof. intros Hl. apply Forall_forall. intros u [Hu _]%elem_of_filterb. by eapply Forall_forall in Hl. Qed.
Lemma Forall_added {A} (P : A → Prop) cmp p u l : Forall P l → P u → Forall P (sort_by cmp (filterb p l ++ [u])).
Proof.
  intros Hl Hu. apply Forall_forall. intros v [Hv|Hv]%elem_of_sort_by%elem_of_app.
  - by eapply Forall_forall in Hv; [|by apply Forall_filterb].
  - by apply list_elem_of_singleton in Hv as ->.
Qed.
Lemma Forall_updated {A} (P : A → Prop) p u l : Forall P l → P u → Forall P (update_where p (λ _, u) l).
Proof.
  intros Hl Hu. unfold update_where. apply Forall_fmap. eapply Forall_impl; [done|]. intros i Hi. cbn. by destruct (p i).
Qed.

(** ** The user page *)

Section users.
Context `{Unicode} (s : AuthSession) (listed : list TeamSummary).
#[local] Abbreviation me := (au_id (as_user s)).

Definition not_disabled (u : UserSummary) : Prop := u_id u = me → u_disabled u = false.

(** A disabled account has no session: the server lists the one of the session as enabled. *)
Definition lists_me_enabled (_ : SettingsCall) (r : SettingsReply + SettingsError) : Prop :=
  match r with
  | inl (RUsersTeams l _) => Forall not_disabled l
  | inl (RUser u) => not_disabled u
  | _ => True
  end.

(** A draft with the rows of the teams. *)
Definition covers (draft : list TeamMembershipDraft) : Prop := td_teamId <$> draft = team_id <$> listed.

Definition users_ok (w : SP) : Prop :=
  session (data w) = Some s
  ∧ Forall not_disabled (users (data w))
  ∧ (∀ u, deletingUser (users_page w) = Some u → u_id u ≠ me)
  ∧ (∀ u, editingUser (users_page w) = Some u → not_disabled u)
  ∧ (∀ k st, d_editUser (dialogs w) = Some (k, st) → k = me → uu_disabled (eu_profile st) = Some false)
  ∧ teams (data w) = listed
  ∧ (∀ k st, d_newUser (dialogs w) = Some (k, st) → covers (nu_teams st))
  ∧ (∀ k st, d_editUser (dialogs w) = Some (k, st) → covers (eu_teams st)).
(** While it is rendered, the dialog is that of the user edited. *)
Definition users_rendered (w : SP) : Prop :=
  users_ok w ∧ ∀ u k st, editingUser (users_page w) = Some u → d_editUser (dialogs w) = Some (k, st) → k = u_id u.

Lemma assignments_shown {E} draft (onChange : _ → E) : covers draft → is_Some (UserTeamAssignmentsField listed draft onChange).
Proof.
  intros Hc. unfold UserTeamAssignmentsField. destruct (mapM_is_Some_2 (team_row draft onChange) listed) as [rows ->]; [|done].
  apply Forall_forall. intros t Ht. unfold team_row.
  assert (Hin : team_id t ∈ td_teamId <$> draft) by (rewrite Hc; by apply list_elem_of_fmap_2).
  apply list_elem_of_fmap in Hin as (d & E' & Hd).
  cbn. destruct (find_first (λ d, bool_decide (td_teamId d = team_id t)) draft) as [d'|] eqn:Ef; [by eexists|].
  apply find_first_None with (x := d) in Ef; [|done]. by rewrite bool_decide_eq_true_2 in Ef.
Qed.

Definition users_shown (w : SP) : markup := default (Group []) (SettingsUsersPage w).

Ltac assignments :=
  match goal with |- context [UserTeamAssignmentsField _ ?d ?f] => destruct (assignments_shown d f) as [a ->]; [|by eexists] end.
Lemma users_page_shown w : users_ok w → is_Some (SettingsUsersPage w).
Proof.
  intros (_ & _ & _ & _ & _ & H6 & H7 & H8). unfold SettingsUsersPage.
  assert (Hc : is_Some (create_user_dialog w)).
  { unfold create_user_dialog. destruct (showCreate _); [|done]. destruct (d_newUser (dialogs w)) as [[k st]|]; [|done].
    unfold CreateUserDialog. rewrite H6. assignments. by eapply H7. }
  assert (He : is_Some (edit_user_dialog w)).
  { unfold edit_user_dialog. destruct (editingUser _); [|done]. destruct (d_editUser (dialogs w)) as [[k st]|]; [|done].
    unfold EditUserDialog. rewrite H6. assignments. by eapply H8. }
  destruct Hc as [c ->], He as [e ->]. by eexists.
Qed.

Lemma delete_dialog_shown w u : users_ok w → deletingUser (users_page w) = Some u →
  ("删除用户 "%js ++ displayUser u ++ "？"%js) ∈ regions "dialog"%js (users_shown w).
Proof.
  intros Hw Hu. unfold users_shown. destruct (users_page_shown w Hw) as [v Hv]. rewrite Hv. cbn [default from_option].
  apply bind_Some in Hv as (c & _ & (e & _ & [= <-])%bind_Some). rewrite Hu.
  apply (elem_of_regions _ _ _ _ (delete_user_dialog u)); [|by left].
  rewrite !elem_of_cons, !elem_of_app. do 7 right. right. right. by left.
Qed.

(** Neither deleted nor disabled is the account of the session; and an account that is
    deleted is the one that the confirmation names. *)
Definition user_call_ok (w : SP) (c : SettingsCall) : Prop :=
  match c with
  | update_user id input => id = me → uu_disabled input = Some false
  | delete_user id =>
      id ≠ me ∧ ∃ u, u_id u = id ∧ ("删除用户 "%js ++ displayUser u ++ "？"%js) ∈ regions "dialog"%js (users_shown w)
  | _ => True
  end.

#[local] Abbreviation safe w m := (proper lists_me_enabled users_ok user_call_ok w m).
#[local] Abbreviation always_safe m := (proper_always lists_me_enabled users_ok user_call_ok m).

Lemma is_self_me w u : users_ok w → is_self w u = bool_decide (u_id u = me).
Proof. intros (Hs & _). unfold is_self. by rewrite Hs. Qed.

Lemma report_safe e : always_safe (report e).
Proof. intros w Hw. apply proper_modify. destruct Hw. by split. Qed.
Lemma refresh_safe l : always_safe (refreshAllMembers l).
Proof. intros w Hw. unfold refreshAllMembers, loadTeamMembers. safe. Qed.

Ltac split_ok :=
  lazymatch goal with H : users_ok _ |- users_ok _ => destruct H as (? & ? & ? & ? & ? & ? & ? & ?) end; split_and!; cbn; try done.

Lemma toggle_safe u : always_safe (toggleDisabled u (negb (u_disabled u))).
Proof.
  intros w Hw. unfold toggleDisabled, toggling, call_user, clear_messages. apply proper_state_bind. rewrite is_self_me by done.
  case_bool_decide as Hme; [by apply proper_ret|]. safe.
  - intros E. done.
  - split_ok. by apply Forall_updated.
  - by apply report_safe.
Qed.

Lemma confirm_delete_safe w : users_ok w → safe w confirmDeleteUser.
Proof.
  intros Hw. unfold confirmDeleteUser, call, clear_messages. apply proper_state_bind.
  destruct (deletingUser (users_page w)) as [u|] eqn:Eu; [|by apply proper_ret].
  assert (Hu : u_id u ≠ me) by (destruct Hw as (_ & _ & Hd & _); by apply Hd). safe.
  - split; [done|]. exists u. split; [done|]. by apply delete_dialog_shown.
  - split_ok. by apply Forall_filterb.
  - by apply report_safe.
Qed.

Lemma submit_create_safe profile draft : always_safe (submitCreate profile draft).
Proof.
  intros w Hw. unfold submitCreate, call_user, call, clear_messages. safe.
  all: try by apply report_safe.
  all: apply refresh_safe; split_ok; by apply Forall_added.
Qed.

Lemma submit_edit_safe w profile draft : users_ok w →
  (∀ u, editingUser (users_page w) = Some u → u_id u = me → uu_disabled profile = Some false) → safe w (submitEdit profile draft).
Proof.
  intros Hw Hp. unfold submitEdit, call_user, call, clear_messages. apply proper_state_bind.
  destruct (editingUser (users_page w)) as [u|] eqn:Eu; [|by apply proper_ret]. safe.
  - intros E. by apply (Hp u).
  - apply refresh_safe. split_ok. by apply Forall_updated.
  - split_ok.
  - by apply report_safe.
Qed.

(** ** What is offered *)

Lemma edit_user_submit_disabled p password confirm profile :
  edit_user_submit p password confirm = inl profile → uu_disabled profile = uu_disabled p.
Proof.
  unfold edit_user_submit. destruct (_ || _); [|by intros [= <-]].
  destruct (validatePassword _); [done|]. case_bool_decide; [by intros [= <-]|done].
Qed.

Lemma covers_joined id b draft : covers draft → covers (update_team_joined id b draft).
Proof. unfold covers, update_team_joined. intros <-. apply update_where_fmap. by intros []. Qed.
Lemma covers_role id r draft : covers draft → covers (update_team_role id r draft).
Proof. unfold covers, update_team_role. intros <-. apply update_where_fmap. by intros []. Qed.

Lemma every_assignments (P : handler unit → Prop) l draft onChange v :
  UserTeamAssignmentsField l draft onChange = Some v → covers draft → (∀ d, covers d → P (onChange d)) → every P v.
Proof.
  intros (rows & Hrows & [= <-])%bind_Some Hc HP. unfold Group.
  assert (Hall : every_of P rows).
  { apply mapM_Some in Hrows. clear -Hrows HP Hc. induction Hrows as [|t r l rows Hr _ IH]; constructor; [|done].
    apply bind_Some in Hr as (d & _ & [= <-]). elements.
    split_and!; [by apply HP, covers_joined| |done]. intros _ o _. by apply HP, covers_role. }
  elements. destruct l; elements; tauto.
Qed.
Lemma edit_change_safe f w : users_ok w → (∀ st, uu_disabled (eu_profile (f st)) = uu_disabled (eu_profile st)) →
  (∀ st, covers (eu_teams st) → covers (eu_teams (f st))) → safe w (edit_user f).
Proof.
  intros Hw Hf Hc. apply proper_modify. split_ok; intros k st Hst; [intros Hk|];
    apply fmap_Some in Hst as ([k' st'] & Hst & [= -> ->]); cbn; [rewrite Hf|apply Hc]; eauto.
Qed.
Lemma new_change_safe f w : users_ok w → (∀ st, covers (nu_teams st) → covers (nu_teams (f st))) → safe w (new_user f).
Proof.
  intros Hw Hc. apply proper_modify. split_ok. intros k st Hst.
  apply fmap_Some in Hst as ([k' st'] & Hst & [= -> ->]); cbn; apply Hc; eauto.
Qed.

Lemma edit_dialog_safe w u k st v : users_rendered w →
  editingUser (users_page w) = Some u → d_editUser (dialogs w) = Some (k, st) →
  EditUserDialog u (teams (data w)) (is_self w u) (savingEdit (users_page w)) (modify (setEditingUser None)) st = Some v →
  every (λ m, safe w m) v.
Proof.
  intros [Hw Hkey] Hu Hst (a & Ha & [= <-])%bind_Some. pose proof (Hkey u k st Hu Hst) as ->.
  assert (Hm : ∀ f, (∀ st, uu_disabled (eu_profile (f st)) = uu_disabled (eu_profile st)) →
    (∀ st, eu_teams (f st) = eu_teams st) → safe w (edit_user f)).
  { intros f Hf Hg. apply edit_change_safe; [done..|]. intros st'. by rewrite Hg. }
  pose proof Hw as (_ & _ & _ & _ & Hd & _ & _ & Hc).
  elements. split_and!; try done; try (intros x; by apply Hm); try (intros _ o _; by apply Hm).
  - apply proper_modify. split_ok.
  - intros _. unfold submit_edit_user. destruct (edit_user_submit _ _ _) as [profile|message] eqn:Es; [|by apply Hm].
    apply proper_modify_bind. apply submit_edit_safe.
    { split_ok; intros k st' Hst'; rewrite Hst in Hst'; injection Hst' as <- <-; cbn; eauto. }
    cbn. rewrite Hu. intros u' [= <-] Hme. apply edit_user_submit_disabled in Es. rewrite Es. eauto.
  - eapply every_assignments; [exact Ha|by eapply Hc|]. intros d Hcd. by apply edit_change_safe.
  - rewrite is_self_me by done. intros Hme%bool_decide_eq_false o _. apply proper_modify. split_ok;
      intros k' st' Hs'; rewrite Hst in Hs'; injection Hs' as <- <-; cbn; eauto. done.
Qed.

Lemma create_dialog_safe w k st v :
  users_ok w → d_newUser (dialogs w) = Some (k, st) →
  CreateUserDialog (teams (data w)) (creating (users_page w)) (modify (setShowCreate false)) st = Some v → every (λ m, safe w m) v.
Proof.
  intros Hw Hst (a & Ha & [= <-])%bind_Some.
  assert (Hm : ∀ f, (∀ st, nu_teams (f st) = nu_teams st) → safe w (new_user f)).
  { intros f Hf. apply new_change_safe; [done|]. intros st'. by rewrite Hf. }
  pose proof Hw as (_ & _ & _ & _ & _ & _ & Hc & _).
  elements. split_and!; try done; try (intros x; by apply Hm); try (intros _ o _; by apply Hm).
  - by apply proper_modify.
  - intros _. unfold submit_new_user. destruct (create_user_submit _) as [profile|message]; [|by apply Hm].
    apply proper_modify_bind. apply submit_create_safe. split_ok.
    intros k' st' Hst'. rewrite Hst in Hst'. injection Hst' as <- <-. cbn. eauto.
  - eapply every_assignments; [exact Ha|by eapply Hc|]. intros d Hcd. by apply new_change_safe.
Qed.

Lemma visible_users w u : u ∈ visibleUsers w → u ∈ users (data w).
Proof. unfold visibleUsers. destruct (truthy _); [|done]. by intros [? _]%elem_of_filterb. Qed.
Lemma selected_user w u : selectedUser w = Some u → u ∈ users (data w).
Proof.
  unfold selectedUser. destruct (find_first _ _) as [v|] eqn:Ef.
  - intros [= <-]. apply find_first_Some in Ef as [Hin _]. by apply visible_users.
  - intros Hh. apply visible_users. destruct (visibleUsers w); [done|]. injection Hh as ->. by left.
Qed.

Definition users_after (w : SP) : SP := commit_users (run select_user_effect w).1.

Lemma users_shown_safe w : users_rendered w → every (λ m, safe w m) (users_shown w).
Proof.
  intros Hr. pose proof Hr as [Hw _]. unfold users_shown. destruct (SettingsUsersPage w) as [v|] eqn:Ev; cbn; [|done].
  apply bind_Some in Ev as (creates & Hc & Ev). apply bind_Some in Ev as (edits & He & [= <-]).
  elements. split_and!; try done.
  - intros _. by apply proper_modify.
  - intros x. by apply proper_modify.
  - unfold users_table. destruct (visibleUsers w) as [|u l]; elements; [done|]. split_and!; try done.
    intros v _. cbn. split_and!; try done; by apply proper_modify.
  - unfold permission_matrix. elements. split; [done|]. intros c _. elements. done.
  - unfold create_user_dialog in Hc. destruct (showCreate (users_page w)); [|injection Hc as <-; constructor].
    destruct (d_newUser (dialogs w)) as [[k st]|] eqn:Ed; [|injection Hc as <-; constructor].
    apply bind_Some in Hc as (d & Hd & [= <-]). elements. split; [|done]. by eapply create_dialog_safe.
  - unfold edit_user_dialog in He. destruct (editingUser (users_page w)) as [u|] eqn:Eu; [|injection He as <-; constructor].
    destruct (d_editUser (dialogs w)) as [[k st]|] eqn:Ed; [|injection He as <-; constructor].
    apply bind_Some in He as (d & Hd & [= <-]). elements. split; [|done]. by eapply edit_dialog_safe.
  - intros u Hu. unfold delete_user_dialog. elements. split; [apply proper_modify; by split_ok|by apply confirm_delete_safe].
Qed.

(** The details may be those of an earlier rendering. *)
Lemma users_slots_safe r w : users_rendered r → users_rendered w → every (λ m, safe w m) (users_slots r).
Proof.
  intros [Hr _] [Hw _]. unfold users_slots, Group, identityRail, identityContext. elements. split_and!; try done.
  intros u Hu%selected_user. elements. split_and!; try done. unfold identity_actions. elements. split_and!; [|done|].
  - intros _. apply proper_modify. split_ok. intros v [= <-]. destruct Hr as (_ & Hr & _). by eapply Forall_forall in Hr.
  - rewrite is_self_me by done. case_bool_decide as Hme; [by elements|]. elements. split_and!; try done.
    + intros _. by apply toggle_safe.
    + intros _. apply proper_modify. split_ok. by intros v [= <-].
Qed.

Lemma initial_covers u : covers (emptyTeamMembershipDraft listed) ∧ ∀ m, covers (buildTeamMembershipDraft u listed m).
Proof. split; [|intros m]; unfold covers, emptyTeamMembershipDraft, buildTeamMembershipDraft; rewrite <- list_fmap_compose; done. Qed.

Lemma mounted_case {A} (key : jstr) (initial : A) old k a :
  mounted key initial old = Some (k, a) → k = key ∧ (old = Some (k, a) ∨ a = initial).
Proof. unfold mounted. destruct old as [[k' a']|]; [case_bool_decide|]; intros [= <- <-]; auto. Qed.

Lemma users_after_ok w : users_ok w → users_rendered (users_after w).
Proof.
  intros (H1 & H2 & H3 & H4 & H5 & H6 & H7 & H8). unfold users_after, select_user_effect. cbn. set (w' := setSelectedUserId _ w).
  
  split; [split_and!; try done|]; cbn.
  - intros k st (u & Hu & [-> [Ho| ->]]%mounted_case)%bind_Some Hk; [eauto|]. cbn. f_equal. by apply H4.
  - intros k st. destruct (showCreate (users_page w)); [|done]. intros [-> [Ho| ->]]%mounted_case; [eauto|]. cbn. rewrite H6. apply (initial_covers []).
  - intros k st (u & Hu & [-> [Ho| ->]]%mounted_case)%bind_Some; [eauto|]. cbn. rewrite H6. apply initial_covers.
  - intros u k st Hu. rewrite Hu. cbn. by intros [-> _]%mounted_case.
Qed.

(** C8. The user page protects the account of its session.  From any rendered state, and
    under every interleaving of what the page and any earlier rendering of its details
    offer with replies that do not list that account as disabled, the page can be rendered
    (no row of a dialog is missing), no call deletes or disables the account of the session,
    and an account is deleted only while the confirmation that names it is shown. *)
Theorem own_account_protected w x y st c :
  users_rendered w →
  rtc (ui_next users_shown (λ r _, users_slots r) users_after lists_me_enabled) (MkUi w [w] []) x →
  ui_step users_shown (λ r _, users_slots r) users_after lists_me_enabled x y st c →
  is_Some (SettingsUsersPage (ui_state y))
  ∧ ∀ call, c = Some call → user_call_ok st call.
Proof.
  intros Hw Hr Hs.
  assert (Hx : ui_good lists_me_enabled users_ok user_call_ok users_rendered x).
  { eapply ui_invariant; [by intros ? []|exact users_after_ok|exact users_shown_safe|exact users_slots_safe|by apply ui_start|exact Hr]. }
  destruct (ui_step_good users_shown (λ r _, users_slots r) users_after lists_me_enabled users_ok user_call_ok users_rendered) with (x := x) (y := y) (s := st) (c := c)
    as [(Hy & _) Hc]; [by intros ? []|exact users_after_ok|exact users_shown_safe|exact users_slots_safe|done|done|].
  split; [apply users_page_shown, Hy|done].
Qed.
End users.

(** ** The team page *)

Section teams.
(** The accounts that are listed, and the teams as the server lists them to the session. *)
Context `{Unicode} (s : AuthSession) (accounts : list UserSummary) (lists : TeamSummary → Prop).

Definition lists_teams (_ : SettingsCall) (r : SettingsReply + SettingsError) : Prop :=
  match r with
  | inl (RUsersTeams l ts) => l = accounts ∧ Forall lists ts
  | inl (RTeam t) => lists t
  | _ => True
  end.

(** What the session may manage. *)
Definition may_manage (t : TeamSummary) : Prop := is_admin s = true ∨ team_role t = "admin"%js.
Definition covers_accounts (draft : list TeamMemberDraft) : Prop := md_userId <$> draft = u_id <$> active_users accounts.

Definition teams_ok (w : SP) : Prop :=
  session (data w) = Some s
  ∧ users (data w) = accounts
  ∧ Forall lists (teams (data w))
  ∧ (showCreateTeam (teams_page w) = true → is_admin s = true)
  ∧ (∀ t, pendingAction (teams_page w) = Some t → is_admin s = true)
  ∧ (∀ t, managingTeam (teams_page w) = Some t → lists t ∧ may_manage t)
  ∧ (∀ k d, d_members (dialogs w) = Some (k, d) → covers_accounts d).

Definition teams_shown (w : SP) : markup := default (Group []) (SettingsTeamsPage w).
Definition teams_after (w : SP) : SP := commit_teams (run select_team_effect w).1.

Lemma member_rows_shown draft : covers_accounts draft → is_Some (mapM (member_row draft) (active_users accounts)).
Proof.
  intros Hc. apply mapM_is_Some_2, Forall_forall. intros u Hu. unfold member_row.
  assert (Hin : u_id u ∈ md_userId <$> draft) by (rewrite Hc; by apply list_elem_of_fmap_2).
  apply list_elem_of_fmap in Hin as (d & E' & Hd). cbn.
  destruct (find_first (λ d, bool_decide (md_userId d = u_id u)) draft) as [d'|] eqn:Ef; [by eexists|].
  apply find_first_None with (x := d) in Ef; [|done]. by rewrite bool_decide_eq_true_2 in Ef.
Qed.

Lemma teams_page_shown w : teams_ok w → is_Some (SettingsTeamsPage w).
Proof.
  intros (_ & Hu & _ & _ & _ & _ & Hd). unfold SettingsTeamsPage.
  assert (Hm : is_Some (members_dialog w)).
  { unfold members_dialog. destruct (managingTeam _) as [t|]; [|by eexists]. destruct (d_members (dialogs w)) as [[k d]|]; [|by eexists].
    unfold TeamMembersDialog. rewrite Hu. destruct (member_rows_shown d) as [rows ->]; [by eapply Hd|]. by eexists. }
  destruct Hm as [m ->]. by eexists.
Qed.

Lemma delete_team_shown w t : teams_ok w → pendingAction (teams_page w) = Some t →
  ("删除团队 "%js ++ team_name t ++ "？"%js) ∈ regions "dialog"%js (teams_shown w).
Proof.
  intros Hw Ht. unfold teams_shown. destruct (teams_page_shown w Hw) as [v Hv]. rewrite Hv. cbn [default from_option].
  apply bind_Some in Hv as (m & _ & [= <-]). rewrite Ht.
  apply (elem_of_regions _ _ _ _ (delete_dialog t)); [|by left].
  rewrite !elem_of_cons, !elem_of_app. do 4 right. by left.
Qed.

(** Creating and deleting teams takes a system administrator, and renaming a team and
    changing its members an administrator of it; a team is deleted only while the
    confirmation that names it is shown. *)
Definition team_call_ok (w : SP) (c : SettingsCall) : Prop :=
  match c with
  | create_team name => is_admin s = true ∧ name ≠ [] ∧ trim name = name
  | update_team id name => (∃ t, lists t ∧ team_id t = id ∧ may_manage t ∧ name ≠ team_name t) ∧ name ≠ [] ∧ trim name = name
  | delete_team id => is_admin s = true ∧ ∃ t, team_id t = id ∧ ("删除团队 "%js ++ team_name t ++ "？"%js) ∈ regions "dialog"%js (teams_shown w)
  | add_member id _ _ | update_member_role id _ _ | remove_member id _ => ∃ t, lists t ∧ team_id t = id ∧ may_manage t
  | _ => True
  end.

#[local] Abbreviation tsafe w m := (proper lists_teams teams_ok team_call_ok w m).
#[local] Abbreviation always_tsafe m := (proper_always lists_teams teams_ok team_call_ok m).

Ltac split_team :=
  lazymatch goal with H : teams_ok _ |- teams_ok _ => destruct H as (? & ? & ? & ? & ? & ? & ?) end; split_and!; cbn; try done.

Lemma report_tsafe e : always_tsafe (report e).
Proof. intros w Hw. by apply proper_modify. Qed.
Lemma call_each_tsafe calls : (∀ c w, c ∈ calls → teams_ok w → team_call_ok w c) → always_tsafe (call_each calls).
Proof.
  induction calls as [|c calls IH]; intros Hc w Hw; cbn [call_each]; [by apply proper_ret|]. unfold call. safe.
  - apply Hc; [by left|done].
  - apply IH; [|done]. intros c' w' Hin. apply Hc. by right.
Qed.

Lemma manages_selected w t : teams_ok w → t ∈ managedTeams w → lists t ∧ may_manage t.
Proof.
  intros (Hs & _ & Hl & _). unfold managedTeams, manageableTeams, isSystemAdmin, may_manage. rewrite Hs. cbn.
  destruct (is_admin s); [intros Ht; split; [by eapply Forall_forall in Hl|by left]|].
  intros [Ht Hr%bool_decide_eq_true]%elem_of_filterb. split; [by eapply Forall_forall in Hl|by right].
Qed.

Lemma rename_tsafe t : lists t → may_manage t → always_tsafe (saveTeamName t).
Proof.
  intros Hl Hm w Hw. unfold saveTeamName, pending, call_team, clear_messages. apply proper_state_bind.
  set (name := trim _). destruct (negb (truthy name) || bool_decide (name = team_name t)) eqn:E; [by apply proper_modify|].
  apply orb_false_iff in E as [Ht%negb_false_iff Hn%bool_decide_eq_false]. safe.
  - split; [by exists t|]. split; [by destruct name|]. apply trim_idemp.
  - split_team. apply Forall_forall. intros i Hi%elem_of_sort_by. eapply Forall_forall in Hi; [done|]. by apply Forall_updated.
  - by apply report_tsafe.
Qed.
Lemma delete_tsafe w t : teams_ok w → pendingAction (teams_page w) = Some t → tsafe w (SettingsPages.deleteTeam t).
Proof.
  intros Hw Ht. unfold SettingsPages.deleteTeam, pending, call, clear_messages. safe.
  - pose proof Hw as (_ & _ & _ & _ & Hp & _). split; [by eapply Hp|]. exists t. split; [done|]. by apply delete_team_shown.
  - split_team. by apply Forall_filterb.
  - by apply report_tsafe.
  - split_team.
Qed.
Lemma create_tsafe w name : teams_ok w → is_admin s = true → name ≠ [] → trim name = name → tsafe w (submitTeam name).
Proof.
  intros Hw Ha Hn Ht. unfold submitTeam, call_team, call_members, clear_messages. safe.
  all: try by apply report_tsafe.
  all: split_team; by apply Forall_added.
Qed.
Lemma members_tsafe t draft : lists t → may_manage t → always_tsafe (saveTeamMembers t draft).
Proof.
  intros Hl Hm w Hw. unfold saveTeamMembers, clear_messages, refreshMembers, call_members. safe.
  - apply call_each_tsafe; [|done]. intros c w' Hc _.
    assert (Hk : ∃ t', lists t' ∧ team_id t' = team_id t ∧ may_manage t') by by exists t.
    apply elem_of_app in Hc as [Hc|Hc]; apply list_elem_of_omap in Hc as ([u r] & _ & Hc).
    + destruct (role_in _ u) as [old|]; [case_bool_decide; [done|]|]; by injection Hc as <-.
    + destruct (role_in _ u) as [r'|]; [done|]. by injection Hc as <-.
  - split_team.
  - by apply report_tsafe.
Qed.

(** ** What is offered *)

Lemma member_change_tsafe f w : teams_ok w → (∀ d, covers_accounts d → covers_accounts (f d)) → tsafe w (update_member f).
Proof.
  intros Hw Hf. apply proper_modify. split_team. intros k d Hd.
  apply fmap_Some in Hd as ([k' d'] & Hd & [= -> ->]). cbn. apply Hf. eauto.
Qed.
Lemma members_dialog_tsafe w ds : teams_ok w → members_dialog w = Some ds → every_of (λ m, tsafe w m) ds.
Proof.
  intros Hw Hds. unfold members_dialog in Hds. destruct (managingTeam (teams_page w)) as [t|] eqn:Et; [|injection Hds as <-; constructor].
  destruct (d_members (dialogs w)) as [[k d]|]; [|injection Hds as <-; constructor].
  apply bind_Some in Hds as (v & (rows & Hrows & [= <-])%bind_Some & [= <-]).
  assert (Hall : every_of (λ m, tsafe w m) rows).
  { apply mapM_Some in Hrows. clear -Hrows Hw. induction Hrows as [|u r l rows Hr _ IH]; constructor; [|done].
    apply bind_Some in Hr as (e & _ & [= <-]). elements. split_and!; [|intros _ o _|done]; apply member_change_tsafe; try done;
      unfold covers_accounts; intros x Hx; rewrite <- Hx; apply update_where_fmap; by intros []. }
  pose proof Hw as (_ & _ & _ & _ & _ & Hm & _). destruct (Hm t Et) as [Hl Hmt].
  elements. split_and!; [|intros _; by apply members_tsafe| |done].
  - apply proper_modify. split_team.
  - destruct (active_users _); by elements.
Qed.

Lemma team_directory_tsafe r w : teams_ok r → teams_ok w → every (λ m, tsafe w m) (teams_slots r).
Proof.
  intros Hr Hw. pose proof Hr as (Hs & _). unfold teams_slots, teamDirectory, teamResourceContext. elements. split_and!; try done.
  - unfold isSystemAdmin. rewrite Hs. cbn. intros Ha _. apply proper_modify. split_team.
  - intros t Ht _. by apply proper_modify.
  - intros t Ht. elements. split_and!; try done.
    unfold isSystemAdmin. rewrite Hs. cbn. intros Ha. elements. split_and!; try done. intros _. apply proper_modify. split_team.
Qed.

Lemma selected_managed w t : selectedTeam w = Some t → t ∈ managedTeams w.
Proof.
  unfold selectedTeam, with_team_id. destruct (find_first _ _) as [v|] eqn:Ef.
  - intros [= <-]. by apply find_first_Some in Ef as [Hin _].
  - destruct (managedTeams w); [done|]. intros [= ->]. by left.
Qed.

Lemma workspace_tsafe w : teams_ok w → every (λ m, tsafe w m) (team_workspace w).
Proof.
  intros Hw. unfold team_workspace. elements. split_and!; try done.
  - destruct (selectedTeam w) as [t|] eqn:Et; cbn; [|by elements]. destruct (offers_management w t); [|by elements].
    apply selected_managed, manages_selected in Et as [Hl Hm]; [|done]. elements. split_and!; try done; intros _.
    + apply proper_modify. split_team. by intros t' [= <-].
    + unfold open_rename. apply proper_modify_bind. by apply proper_modify.
  - destruct (selectedTeam w); unfold members_table; elements; [|done]. by split_and!.
Qed.

Lemma teams_shown_tsafe w : teams_ok w → every (λ m, tsafe w m) (teams_shown w).
Proof.
  intros Hw. unfold teams_shown. destruct (SettingsTeamsPage w) as [v|] eqn:Ev; cbn; [|done].
  apply bind_Some in Ev as (m & Hm & [= <-]). elements. split_and!.
  - by apply workspace_tsafe.
  - intros t Ht. unfold editingTeam, with_team_id in Ht. apply find_first_Some in Ht as [Ht _]. apply manages_selected in Ht as [Hl Ha]; [|done].
    unfold rename_dialog. elements. split_and!; try done; [by apply proper_modify|intros _; by apply rename_tsafe|intros x; by apply proper_modify].
  - pose proof Hw as (_ & _ & _ & Hc & _). destruct (showCreateTeam (teams_page w)); [|by elements]. elements. intros st Hst.
    unfold CreateTeamDialog. elements. split_and!; try done.
    + apply proper_modify. split_team.
    + intros _. unfold submit_new_team. destruct (create_team_submit (nt_name st)) as [name|e] eqn:Ec; [|by apply proper_modify].
      unfold create_team_submit in Ec. destruct (truthy _) eqn:Et; [|done]. injection Ec as <-.
      apply proper_modify_bind. apply create_tsafe; [done|by apply Hc| |apply trim_idemp]. by destruct (trim _).
    + intros x. by apply proper_modify.
  - by apply members_dialog_tsafe.
  - intros t Ht. unfold delete_dialog. elements. split; [apply proper_modify; split_team|by apply delete_tsafe].
Qed.

Lemma teams_after_ok w : teams_ok w → teams_ok (teams_after w).
Proof.
  intros (H1 & H2 & H3 & H4 & H5 & H6 & H7). unfold teams_after, select_team_effect. cbn. set (w' := setSelectedTeamId _ w).
  split_and!; try done. cbn. intros k d (t & Ht & [-> [Ho| ->]]%mounted_case)%bind_Some; [eauto|].
  rewrite H2. unfold covers_accounts, buildTeamMemberDraft. by rewrite <- list_fmap_compose.
Qed.

(** C9. The team page keeps to the rights of its session.  From any state in which the
    server's teams are listed, and under every interleaving of what the page and any
    earlier rendering of its directory and details offer with the replies, the page can be
    rendered, teams are created and deleted by system administrators only, renamed and
    given members only by their administrators, never to an empty or unchanged name; and a
    team is deleted only while the confirmation that names it is shown. *)
Theorem team_rights_kept w x y st c :
  teams_ok w →
  rtc (ui_next teams_shown (λ r _, teams_slots r) teams_after lists_teams) (MkUi w [w] []) x →
  ui_step teams_shown (λ r _, teams_slots r) teams_after lists_teams x y st c →
  is_Some (SettingsTeamsPage (ui_state y)) ∧ ∀ call, c = Some call → team_call_ok st call.
Proof.
  intros Hw Hr Hs.
  assert (Hx : ui_good lists_teams teams_ok team_call_ok teams_ok x).
  { eapply ui_invariant; [done|exact teams_after_ok|exact teams_shown_tsafe|exact team_directory_tsafe|by apply ui_start|exact Hr]. }
  destruct (ui_step_good teams_shown (λ r _, teams_slots r) teams_after lists_teams teams_ok team_call_ok teams_ok) with (x := x) (y := y) (s := st) (c := c)
    as [(Hy & _) Hc]; [done|exact teams_after_ok|exact teams_shown_tsafe|exact team_directory_tsafe|done|done|].
  split; [by apply teams_page_shown|done].
Qed.
End teams.

(** ** Sessions with the pages *)

#[local] Existing Instance ascii_unicode.

Definition root_account : UserSummary := MkUser "1"%js "root"%js [] "admin"%js false.
Definition ann : UserSummary := MkUser "2"%js "ann"%js [] "member"%js false.
Definition root_session : AuthSession := MkAuthSession (MkAuthUser "1"%js "root"%js [] "admin"%js) [] [].
(** The page with two accounts, one of which is selected. *)
Definition two_users : SP :=
  users_after (setSelectedUserId "2"%js (setUsers (λ _, [root_account; ann]) (setState state_ready (initial_SP (Some root_session))))).
Definition any_answer (_ : SettingsCall) (_ : SettingsReply + SettingsError) : Prop := True.
Abbreviation user_moves := (list (move SettingsReply SettingsError)).
Definition play_users (ms : user_moves) : option (ui SP SettingsCall SettingsReply SettingsError) :=
  play users_shown (λ r _, users_slots r) users_after ms (MkUi two_users [two_users] []).

Lemma two_users_rendered : users_rendered root_session [] two_users.
Proof. apply users_after_ok. split_and!; try done. by repeat constructor. Qed.

Lemma own_account_protected_witness :
  ∃ y st, ui_step users_shown (λ r _, users_slots r) users_after (lists_me_enabled root_session)
    (MkUi (setDeletingUser (Some ann) two_users) [setDeletingUser (Some ann) two_users] []) y st (Some (delete_user "2"%js))
    ∧ user_call_ok root_session st (delete_user "2"%js).
Proof.
  set (w := setDeletingUser (Some ann) two_users).
  assert (Hw : users_rendered root_session [] w).
  { pose proof two_users_rendered as [(? & ? & ? & ? & ? & ? & ? & ?) ?]. split; [split_and!; try done|done]. by intros u [= <-]. }
  destruct (run confirmDeleteUser w) as [st t] eqn:Er.
  assert (Hs : ui_step users_shown (λ r _, users_slots r) users_after (lists_me_enabled root_session) (MkUi w [w] [])
    (commit_at users_after (MkUi w [w] []) st ([] ++ [t])) st (Some (delete_user "2"%js))).
  { assert (Ht : awaited t = Some (delete_user "2"%js)) by (by injection Er as <- <-). rewrite <- Ht.
    apply (ui_page _ _ _ _ (MkUi w [w] []) confirmDeleteUser); [|exact Er]. apply press_offered with (label := "删除用户"%js). by vm_compute. }
  eexists _, st. split; [exact Hs|].
  by apply (proj2 (own_account_protected root_session [] w _ _ _ _ Hw (rtc_refl _ _) Hs)).
Defined.

(** A confirmation can be confirmed again while its request runs: the account is deleted,
    and the refusal of the second request is shown beside the success of the first. *)
Example deletion_confirmed_twice :
  (λ x, (success (data (ui_state x)), error_ (data (ui_state x))))
    <$> play_users [PressSlot "删除"%js; Press "删除用户"%js; Press "删除用户"%js; Answer 1 (inl RVoid);
                    Answer 2 (inr (Refused "not_found"%js []))]
  = Some ("已删除用户 ann"%js, "目标记录不存在，可能已被删除。"%js).
Proof. vm_compute. reflexivity. Qed.

(** The cancel button of a dialog is disabled while its request runs, but Escape closes
    it; when the answer comes, the dialog of another account that was opened since is closed
    with what was typed in it. *)
Example saved_edit_closes_another :
  let edit_ann := [PressSlot "编辑"%js; SubmitForm; Do EscapeKey] in
  let edit_root := [Do Click; PressSlot "编辑"%js] in
  let answers := [Answer 1 (inl (RUser ann)); Answer 1 (inl RVoid); Answer 1 (inl (RAllMembers []))] in
  ((λ x, editingUser (users_page (ui_state x))) <$> play_users (edit_ann ++ edit_root) = Some (Some root_account))
  ∧ ((λ x, editingUser (users_page (ui_state x))) <$> play_users (edit_ann ++ edit_root ++ answers) = Some None).
Proof. split; vm_compute; reflexivity. Qed.

(** The page with one team, and its deletion. *)
Definition one_team : SP :=
  teams_after (setTeams (λ _, [MkTeam "t"%js "ops"%js "admin"%js]) (setUsers (λ _, [root_account; ann]) (setState state_ready (initial_SP (Some root_session))))).
Lemma team_rights_kept_witness :
  ∃ y st, ui_step teams_shown (λ r _, teams_slots r) teams_after (lists_teams [root_account; ann] (λ _, True))
    (MkUi (setPendingAction (Some (MkTeam "t"%js "ops"%js "admin"%js)) one_team) [setPendingAction (Some (MkTeam "t"%js "ops"%js "admin"%js)) one_team] []) y st (Some (delete_team "t"%js))
    ∧ team_call_ok root_session (λ _, True) st (delete_team "t"%js).
Proof.
  set (t := MkTeam "t"%js "ops"%js "admin"%js). set (w := setPendingAction (Some t) one_team).
  assert (Hw : teams_ok root_session [root_account; ann] (λ _, True) w).
  { split_and!; try done; by repeat constructor. }
  destruct (run (SettingsPages.deleteTeam t) w) as [st task] eqn:Er.
  set (x := MkUi w [w] [] : ui SP SettingsCall SettingsReply SettingsError).
  assert (Hs : ui_step teams_shown (λ r _, teams_slots r) teams_after (lists_teams [root_account; ann] (λ _, True)) x
    (commit_at teams_after x st ([] ++ [task])) st (Some (delete_team "t"%js))).
  { assert (Ht : awaited task = Some (delete_team "t"%js)) by (by injection Er as <- <-). rewrite <- Ht.
    apply (ui_page _ _ _ _ x (SettingsPages.deleteTeam t)); [|exact Er]. apply press_offered with (label := "删除团队"%js). by vm_compute. }
  eexists _, st. split; [exact Hs|].
  by apply (proj2 (team_rights_kept root_session [root_account; ann] (λ _, True) w x _ _ _ Hw (rtc_refl _ _) Hs)).
Defined.
