(* ===== verification/Json.v ===== *)
(** * JSON text

    [JSON.stringify(v, null, gap)] and [JSON.parse(text)], as the source uses them: without
    a replacer or a reviver, on plain values.  An object lists its fields in the order in
    which JavaScript enumerates them, array indices first ([enumerate]).  A parse of a text
    consumes at least one code unit per step, so its length is fuel enough. *)
From S2P Require Import Prelude JsString JsNumber JsValue.

#[local] Open Scope N_scope.

(** ** Objects *)

(** A key that is an array index: a canonical numeral below 2^32 - 1. *)
Definition array_index (key : jstr) : option Z :=
  match digits_value 10 dec_digit 0 key with
  | Some n => if bool_decide (dec_Z n = key) && (n <? 4294967295)%Z then Some n else None
  | None => None
  end.
(** The order of the fields whose keys are indices. *)
Definition index_before (a b : jstr * value) : Z := (default 0 (array_index a.1) - default 0 (array_index b.1))%Z.
Definition enumerate (fields : list (jstr * value)) : list (jstr * value) :=
  sort_by index_before (filterb (λ f, bool_decide (is_Some (array_index f.1))) fields)
  ++ filterb (λ f, negb (bool_decide (is_Some (array_index f.1)))) fields.

(** Defining a property: the place of the first definition, the value of the last. *)
Definition set_field (fields : list (jstr * value)) (f : jstr * value) : list (jstr * value) :=
  if existsb (λ x, bool_decide (x.1 = f.1)) fields then update_where (λ x, bool_decide (x.1 = f.1)) (λ _, f) fields
  else fields ++ [f].
(** [Object.fromEntries(entries)] as a value. *)
Definition object_of (entries : list (jstr * value)) : value := VObj (enumerate (foldl set_field [] entries)).

(** ** JSON.stringify *)

Definition hex_lower (d : N) : N := if d <? 10 then 48 + d else 87 + d.
Definition unit_escape (c : N) : jstr :=
  [92; 117; hex_lower (c / 4096); hex_lower (c / 256 mod 16); hex_lower (c / 16 mod 16); hex_lower (c mod 16)].
Definition high_surrogate (c : N) : bool := (55296 <=? c) && (c <? 56320).
Definition low_surrogate (c : N) : bool := (56320 <=? c) && (c <? 57344).
Definition quote_unit (c : N) : jstr :=
  if c =? 8 then [92; 98] else if c =? 9 then [92; 116] else if c =? 10 then [92; 110]
  else if c =? 12 then [92; 102] else if c =? 13 then [92; 114] else if c =? 34 then [92; 34]
  else if c =? 92 then [92; 92] else if c <? 32 then unit_escape c else [c].
(** Surrogates that are not in a pair are escaped. *)
Fixpoint quote_units (s : jstr) : jstr :=
  match s with
  | [] => []
  | c :: r =>
      if high_surrogate c then
        match r with
        | d :: r' => if low_surrogate d then c :: d :: quote_units r' else unit_escape c ++ quote_units r
        | [] => unit_escape c
        end
      else (if low_surrogate c then unit_escape c else quote_unit c) ++ quote_units r
  end.
Definition quote_string (s : jstr) : jstr := [34] ++ quote_units s ++ [34].

(** The items of an array or object between its brackets, on lines of their own when there
    is a gap. *)
Definition bracketed (gap indent : jstr) (opening closing : N) (items : list jstr) : jstr :=
  match items, gap with
  | [], _ => [opening; closing]
  | _, [] => [opening] ++ join [44] items ++ [closing]
  | _, _ =>
      [opening; 10] ++ indent ++ gap ++ join ([44; 10] ++ indent ++ gap) items ++ [10] ++ indent ++ [closing]
  end.

Definition is_finite (n : number) : bool := match n with Fin _ _ | NegZero => true | _ => false end.

(** A field of an object. *)
Definition field_text (gap key text : jstr) : jstr :=
  quote_string key ++ [58] ++ (if truthy gap then [32] else []) ++ text.

(** The text of a value inside another; [undefined] prints as [null] there. *)
Fixpoint json_text (gap indent : jstr) (v : value) : jstr :=
  match v with
  | VUndefined | VNull => "null"%js
  | VBool b => if b then "true"%js else "false"%js
  | VNum n => if is_finite n then number_to_string n else "null"%js
  | VStr s => quote_string s
  | VArr l => bracketed gap indent 91 93 (json_text gap (indent ++ gap) <$> l)
  | VObj fields =>
      bracketed gap indent 123 125
        ((fix go (fs : list (jstr * value)) : list jstr :=
            match fs with
            | [] => []
            | (_, VUndefined) :: fs => go fs
            | (key, x) :: fs => field_text gap key (json_text gap (indent ++ gap) x) :: go fs
            end) fields)
  end.
(** [JSON.stringify(v, null, gap)]; [None] is [undefined]. *)
Definition stringify (gap : jstr) (v : value) : option jstr :=
  match v with VUndefined => None | _ => Some (json_text gap [] v) end.

(** ** JSON.parse *)

Fixpoint skip_space (s : jstr) : jstr :=
  match s with
  | c :: r => if (c =? 32) || (c =? 9) || (c =? 10) || (c =? 13) then skip_space r else s
  | [] => []
  end.

Definition hex4 (a b c d : N) : option N :=
  a ← hex_digit a; b ← hex_digit b; c ← hex_digit c; d ← hex_digit d;
  Some (Z.to_N (((a * 16 + b) * 16 + c) * 16 + d)).

(** The unit an escape of one letter stands for. *)
Definition escaped (c : N) : option N :=
  if c =? 34 then Some 34 else if c =? 92 then Some 92 else if c =? 47 then Some 47
  else if c =? 98 then Some 8 else if c =? 102 then Some 12 else if c =? 110 then Some 10
  else if c =? 114 then Some 13 else if c =? 116 then Some 9 else None.

(** The rest of a string literal: its units and what follows the closing quote. *)
Fixpoint parse_units (s : jstr) : option (jstr * jstr) :=
  match s with
  | [] => None
  | c :: r =>
      if c =? 34 then Some ([], r)
      else if c =? 92 then
        match r with
        | [] => None
        | d :: r =>
            if d =? 117 then
              match r with
              | h1 :: h2 :: h3 :: h4 :: r => u ← hex4 h1 h2 h3 h4; '(t, rest) ← parse_units r; Some (u :: t, rest)
              | _ => None
              end
            else u ← escaped d; '(t, rest) ← parse_units r; Some (u :: t, rest)
        end
      else if c <? 32 then None
      else '(t, rest) ← parse_units r; Some (c :: t, rest)
  end.

(** The parts of a number, each with what follows it. *)
Definition number_sign (s : jstr) : jstr * jstr :=
  match s with c :: r => if c =? 45 then ([45], r) else ([], s) | [] => ([], s) end.
Definition number_integer (s : jstr) : option (jstr * jstr) :=
  match span_digits s with
  | ([], _) => None
  | (d :: ds, r) => if d =? 48 then Some ([48], ds ++ r) else Some (d :: ds, r)
  end.
Definition number_fraction (s : jstr) : jstr * jstr :=
  match s with
  | c :: r =>
      if c =? 46 then match span_digits r with ([], _) => ([], s) | (ds, r) => (46 :: ds, r) end else ([], s)
  | [] => ([], s)
  end.
Definition exponent_sign (s : jstr) : jstr * jstr :=
  match s with c :: r => if (c =? 43) || (c =? 45) then ([c], r) else ([], s) | [] => ([], s) end.
Definition number_exponent (s : jstr) : jstr * jstr :=
  match s with
  | c :: r =>
      if (c =? 101) || (c =? 69) then
        let '(sign, r') := exponent_sign r in
        match span_digits r' with ([], _) => ([], s) | (ds, r'') => (c :: sign ++ ds, r'') end
      else ([], s)
  | [] => ([], s)
  end.
(** The longest number at the start of a text. *)
Definition lex_number (s : jstr) : option (jstr * jstr) :=
  let '(sign, r) := number_sign s in
  '(int, r) ← number_integer r;
  let '(frac, r) := number_fraction r in
  let '(exp, r) := number_exponent r in
  Some (sign ++ int ++ frac ++ exp, r).

Definition expect (word : jstr) (v : value) (s : jstr) : option (value * jstr) :=
  if starts_with word s then Some (v, drop (length word) s) else None.

(** [k r] when the text starts with [c], followed by [r]. *)
Definition after_char {A} (c : N) (s : jstr) (k : jstr → option A) (other : option A) : option A :=
  match s with d :: r => if d =? c then k r else other | [] => other end.

Fixpoint parse_value (fuel : nat) (s : jstr) {struct fuel} : option (value * jstr) :=
  match fuel, s with
  | O, _ | _, [] => None
  | S fuel, c :: r =>
      if c =? 34 then '(t, r) ← parse_units r; Some (VStr t, r)
      else if c =? 91 then
        after_char 93 (skip_space r) (λ r, Some (VArr [], r))
          ('(l, r) ← parse_elements fuel (skip_space r); Some (VArr l, r))
      else if c =? 123 then
        after_char 125 (skip_space r) (λ r, Some (VObj [], r))
          ('(l, r) ← parse_members fuel (skip_space r); Some (object_of l, r))
      else if c =? 116 then expect "true"%js (VBool true) s
      else if c =? 102 then expect "false"%js (VBool false) s
      else if c =? 110 then expect "null"%js VNull s
      else '(t, r) ← lex_number s; Some (VNum (to_number t), r)
  end
with parse_elements (fuel : nat) (s : jstr) {struct fuel} : option (list value * jstr) :=
  match fuel with
  | O => None
  | S fuel =>
      '(v, r) ← parse_value fuel s;
      after_char 44 (skip_space r) (λ r, '(l, r) ← parse_elements fuel (skip_space r); Some (v :: l, r))
        (after_char 93 (skip_space r) (λ r, Some ([v], r)) None)
  end
with parse_members (fuel : nat) (s : jstr) {struct fuel} : option (list (jstr * value) * jstr) :=
  match fuel with
  | O => None
  | S fuel =>
      after_char 34 s (λ r,
        '(key, r) ← parse_units r;
        after_char 58 (skip_space r) (λ r,
          '(v, r) ← parse_value fuel (skip_space r);
          after_char 44 (skip_space r) (λ r, '(l, r) ← parse_members fuel (skip_space r); Some ((key, v) :: l, r))
            (after_char 125 (skip_space r) (λ r, Some ([(key, v)], r)) None)) None) None
  end.

(** [JSON.parse(text)]; [None] is its [SyntaxError]. *)
Definition parse_json (text : jstr) : option value :=
  '(v, rest) ← parse_value (S (length text)) (skip_space text);
  match skip_space rest with [] => Some v | _ => None end.
