(* ===== verification/JsonProps.v ===== *)
(** * JSON text reads back

    [JSON.parse] of the text that [JSON.stringify] makes of a value, compact or indented,
    is that value. *)
From S2P Require Import Prelude JsString JsNumber JsValue Json.

#[local] Open Scope N_scope.

(** ** Values that JSON can hold *)

(** The text of a number reads back as it; so does that of any finite number, by the
    definition of [String(n)]. *)
Definition readable (n : number) : Prop :=
  is_finite n = true ∧ lex_number (number_to_string n) = Some (number_to_string n, []) ∧ to_number (number_to_string n) = n.

Definition units (s : jstr) : Prop := Forall (λ c, c < 65536) s.

Lemma units_check s : forallb (λ c, c <? 65536) s = true → units s.
Proof. intros Hs. apply Forall_forall. intros c Hc. rewrite forallb_elem in Hs. by apply N.ltb_lt, Hs. Qed.

Inductive plain : value → Prop :=
| plain_null : plain VNull
| plain_bool b : plain (VBool b)
| plain_num n : readable n → plain (VNum n)
| plain_str s : units s → plain (VStr s)
| plain_arr l : Forall plain l → plain (VArr l)
| plain_obj fields :
    Forall units fields.*1 → Forall plain fields.*2 → NoDup fields.*1 → enumerate fields = fields → plain (VObj fields).

Section plain_ind.
Context (P : value → Prop).
Context (Hnull : P VNull) (Hbool : ∀ b, P (VBool b)) (Hnum : ∀ n, readable n → P (VNum n)) (Hstr : ∀ s, units s → P (VStr s)).
Context (Harr : ∀ l, Forall plain l → Forall P l → P (VArr l)).
Context (Hobj : ∀ fields, Forall units fields.*1 → Forall plain fields.*2 → Forall P fields.*2 → NoDup fields.*1 → enumerate fields = fields → P (VObj fields)).

Fixpoint plain_nested v (H : plain v) {struct H} : P v :=
  let all := fix go l (Hl : Forall plain l) {struct Hl} : Forall P l :=
    match Hl with
    | List.Forall_nil _ => Forall_nil_2 P
    | @List.Forall_cons _ _ x l Hx Hl => Forall_cons_2 P x l (plain_nested x Hx) (go l Hl)
    end in
  match H with
  | plain_null => Hnull
  | plain_bool b => Hbool b
  | plain_num n Hn => Hnum n Hn
  | plain_str s Hs => Hstr s Hs
  | plain_arr l Hl => Harr l Hl (all l Hl)
  | plain_obj fields Hk Hf Hnd He => Hobj fields Hk Hf (all _ Hf) Hnd He
  end.
End plain_ind.

(** ** Strings *)

Lemma hex_digit_lower d : d < 16 → hex_digit (hex_lower d) = Some (Z.of_N d).
Proof.
  intros Hd. assert (H : Forall (λ d, hex_digit (hex_lower d) = Some (Z.of_N d)) (N.of_nat <$> seq 0 16)) by (by vm_compute; repeat constructor).
  rewrite Forall_forall in H. apply H. apply list_elem_of_fmap. exists (N.to_nat d). rewrite N2Nat.id. split; [done|].
  apply elem_of_seq. lia.
Qed.

Lemma hex4_unit c : c < 65536 →
  hex4 (hex_lower (c / 4096)) (hex_lower (c / 256 mod 16)) (hex_lower (c / 16 mod 16)) (hex_lower (c mod 16)) = Some c.
Proof.
  intros Hc. unfold hex4. rewrite !hex_digit_lower by (apply N.mod_lt || apply N.Div0.div_lt_upper_bound; lia).
  cbn. f_equal. pose proof (N.div_mod c 16). pose proof (N.div_mod (c / 16) 16). pose proof (N.div_mod (c / 256) 16).
  rewrite (N.Div0.div_div c 16 16) in *. rewrite (N.Div0.div_div c 256 16) in *.
  change (16 * 16) with 256 in *. change (256 * 16) with 4096 in *. lia.
Qed.

Lemma parse_escape c t : c < 65536 → parse_units (unit_escape c ++ t) = ('(s, rest) ← parse_units t; Some (c :: s, rest)).
Proof. intros Hc. cbn -[hex4 hex_lower N.div N.modulo]. by rewrite hex4_unit. Qed.

Lemma parse_plain_unit c t :
  32 <= c → c ≠ 34 → c ≠ 92 → parse_units (c :: t) = ('(s, rest) ← parse_units t; Some (c :: s, rest)).
Proof. intros H1 H2 H3. cbn. by rewrite (proj2 (N.eqb_neq c 34)), (proj2 (N.eqb_neq c 92)), (proj2 (N.ltb_ge c 32)). Qed.

Lemma parse_quote_unit c t : c < 65536 → parse_units (quote_unit c ++ t) = ('(s, rest) ← parse_units t; Some (c :: s, rest)).
Proof.
  intros Hc. unfold quote_unit.
  repeat match goal with |- context [?c =? ?n] => lazymatch c with c => destruct (N.eqb_spec c n) as [->|?]; [done|] end end.
  destruct (N.ltb_spec c 32); [by apply parse_escape|]. by apply parse_plain_unit.
Qed.

Lemma parse_quoted s rest : units s → parse_units (quote_units s ++ 34 :: rest) = Some (s, rest).
Proof.
  remember (length s) as n eqn:En. revert s En. induction n as [n IH] using lt_wf_ind. intros s -> Hs.
  destruct s as [|c r]; [done|]. apply Forall_cons in Hs as [Hc Hr]. cbn [quote_units].
  destruct (high_surrogate c) eqn:Eh; [destruct r as [|d r]|].
  - rewrite parse_escape by done. by cbn.
  - apply Forall_cons in Hr as [Hd Hr]. unfold high_surrogate in Eh. destruct (low_surrogate d) eqn:El.
    + unfold low_surrogate in El. apply andb_true_iff in Eh as [Eh%N.leb_le _]. apply andb_true_iff in El as [El%N.leb_le _]. cbn [app]. rewrite parse_plain_unit by lia. rewrite parse_plain_unit by lia.
      rewrite (IH (length r)); [done|cbn; lia|done|done].
    + rewrite <- app_assoc, parse_escape by done. rewrite (IH (length (d :: r))); [done|cbn; lia|done|by apply Forall_cons].
  - rewrite <- app_assoc.
    destruct (low_surrogate c); [rewrite parse_escape by done|rewrite parse_quote_unit by done];
      (rewrite (IH (length r)); [done|cbn; lia|done|done]).
Qed.

(** ** Numbers *)

(** What may follow a value: nothing, or a character that ends it. *)
Definition ends (s : jstr) : Prop :=
  match s with [] => True | c :: _ => c = 44 ∨ c = 93 ∨ c = 125 ∨ c = 10 end.

Lemma ends_digits s : ends s → span_digits s = ([], s).
Proof. destruct s as [|c s]; [done|]. cbn. intros Hc. by destruct_or! Hc; subst. Qed.

Lemma span_digits_append t ds r rest :
  span_digits t = (ds, r) → ends rest → span_digits (t ++ rest) = (ds, r ++ rest).
Proof.
  revert ds r. induction t as [|c t IH]; intros ds r; cbn; [intros [= <- <-]; by apply ends_digits|].
  destruct (is_digit c); [|by intros [= <- <-]]. destruct (span_digits t) as [ds' r'] eqn:E. intros [= <- <-] He.
  by rewrite (IH _ _ eq_refl He).
Qed.

Lemma ends_fraction rest : ends rest → number_fraction rest = ([], rest).
Proof. destruct rest as [|c s]; [done|]. cbn. intros Hc. by destruct_or! Hc; subst. Qed.
Lemma ends_exponent rest : ends rest → number_exponent rest = ([], rest).
Proof. destruct rest as [|c s]; [done|]. cbn. intros Hc. by destruct_or! Hc; subst. Qed.

(** The parts are the same before text that ends the number, except that a point or an
    [e] left over may not be the end. *)
Lemma fraction_append t fr r rest :
  number_fraction t = (fr, r) → ends rest → number_fraction (t ++ rest) = (fr, r ++ rest).
Proof.
  destruct t as [|c t]; cbn; [intros [= <- <-]; apply ends_fraction|]. destruct (c =? 46) eqn:Ec; [|by intros [= <- <-]].
  apply N.eqb_eq in Ec as ->. destruct (span_digits t) as [ds r'] eqn:E. intros H He.
  rewrite (span_digits_append _ _ _ _ E He). by destruct ds; injection H as <- <-.
Qed.

Lemma exponent_append t ex r rest :
  number_exponent t = (ex, r) → ends rest → number_exponent (t ++ rest) = (ex, r ++ rest).
Proof.
  destruct t as [|c t]; cbn; [intros [= <- <-]; apply ends_exponent|]. destruct ((c =? 101) || (c =? 69)); [|by intros [= <- <-]].
  intros H He. assert (Hs : exponent_sign (t ++ rest) = ((exponent_sign t).1, (exponent_sign t).2 ++ rest)).
  { destruct t as [|d t]; cbn; [|by destruct ((d =? 43) || (d =? 45))].
    destruct rest as [|d rest]; [done|]. cbn in *. by destruct_or! He; subst. }
  rewrite Hs. destruct (exponent_sign t) as [sg t']. cbn [fst snd]. destruct (span_digits t') as [ds r'] eqn:E.
  rewrite (span_digits_append _ _ _ _ E He). by destruct ds; injection H as <- <-.
Qed.

Lemma integer_append t ip r rest :
  number_integer t = Some (ip, r) → ends rest → number_integer (t ++ rest) = Some (ip, r ++ rest).
Proof.
  unfold number_integer. destruct (span_digits t) as [ds r'] eqn:E. intros H He.
  rewrite (span_digits_append _ _ _ _ E He). destruct ds as [|d ds]; [done|]. destruct (d =? 48); injection H as <- <-; [|done].
  by rewrite app_assoc.
Qed.

Lemma lex_append t rest : lex_number t = Some (t, []) → ends rest → lex_number (t ++ rest) = Some (t, rest).
Proof.
  unfold lex_number. intros H He.
  assert (Hsign : number_sign (t ++ rest) = ((number_sign t).1, (number_sign t).2 ++ rest)).
  { destruct t as [|c t]; cbn; [done|by destruct (c =? 45)]. }
  rewrite Hsign. destruct (number_sign t) as [sg t1]. cbn [fst snd].
  destruct (number_integer t1) as [[ip t2]|] eqn:Ei; [|done]. cbn in H. rewrite (integer_append _ _ _ _ Ei He). cbn.
  destruct (number_fraction t2) as [fr t3] eqn:Ef. rewrite (fraction_append _ _ _ _ Ef He).
  destruct (number_exponent t3) as [ex t4] eqn:Ee. rewrite (exponent_append _ _ _ _ Ee He).
  injection H as H ->. by rewrite H.
Qed.

(** The head of a number. *)
Lemma lex_head t : lex_number t = Some (t, []) → ∃ c r, t = c :: r ∧ (c = 45 ∨ 48 <= c <= 57).
Proof.
  destruct t as [|c r]; [done|]. intros H. exists c, r. split; [done|]. unfold lex_number in H. cbn in H.
  destruct (c =? 45) eqn:Ec; [left; by apply N.eqb_eq|right]. unfold number_integer in H. cbn in H.
  destruct (is_digit c) eqn:Ed; [|done]. unfold is_digit in Ed. apply andb_true_iff in Ed as [H1%N.leb_le H2%N.leb_le]. lia.
Qed.


(** ** Space *)

Definition space (s : jstr) : Prop := Forall (λ c, c = 32 ∨ c = 9 ∨ c = 10 ∨ c = 13) s.
(** A text that starts with no space. *)
Definition solid (s : jstr) : Prop := skip_space s = s.

Lemma skip_app ws s : space ws → solid s → skip_space (ws ++ s) = s.
Proof. intros Hw Hs. induction Hw as [|c ws Hc _ IH]; [done|]. cbn. rewrite IH. by destruct_or! Hc; subst. Qed.

Lemma solid_cons c s : (c =? 32) || (c =? 9) || (c =? 10) || (c =? 13) = false → solid (c :: s).
Proof. unfold solid. cbn. by intros ->. Qed.

Lemma after_space {A} ws c s k (o : option A) : space ws → (c =? 32) || (c =? 9) || (c =? 10) || (c =? 13) = false →
  after_char c (skip_space (ws ++ c :: s)) k o = k s.
Proof. intros Hw Hc. rewrite skip_app by (done || by apply solid_cons). cbn. by rewrite N.eqb_refl. Qed.

(** ** Brackets *)

Lemma bracketed_head gap indent o c items : ∃ r, bracketed gap indent o c items = o :: r.
Proof. unfold bracketed. destruct items, gap; by eexists. Qed.

Lemma json_object gap indent fields : Forall plain fields.*2 →
  json_text gap indent (VObj fields)
  = bracketed gap indent 123 125 ((λ f, field_text gap f.1 (json_text gap (indent ++ gap) f.2)) <$> fields).
Proof.
  intros Hf. cbn. f_equal. induction fields as [|[key v] fields IH]; [done|]. cbn in Hf. apply Forall_cons in Hf as [Hv Hf].
  cbn. rewrite <- IH by done. by destruct Hv.
Qed.

Lemma json_text_head gap indent v : plain v →
  ∃ c r, json_text gap indent v = c :: r ∧ (c =? 32) || (c =? 9) || (c =? 10) || (c =? 13) = false
    ∧ c ≠ 93 ∧ c ≠ 125.
Proof.
  destruct 1 as [|b|n (Hf & Hl & _)|s|l|fields Hk Hv].
  - by eexists _, _.
  - destruct b; by eexists _, _.
  - cbn. rewrite Hf. destruct (lex_head _ Hl) as (c & r & -> & Hc). exists c, r. split; [done|].
    split; [|lia].
    by rewrite (proj2 (N.eqb_neq c 32)), (proj2 (N.eqb_neq c 9)), (proj2 (N.eqb_neq c 10)), (proj2 (N.eqb_neq c 13)) by lia.
  - by eexists _, _.
  - cbn. destruct (bracketed_head gap indent 91 93 (json_text gap (indent ++ gap) <$> l)) as [r ->]. by eexists _, _.
  - rewrite json_object by done. destruct (bracketed_head gap indent 123 125 ((λ f, field_text gap f.1 (json_text gap (indent ++ gap) f.2)) <$> fields)) as [r ->].
    by eexists _, _.
Qed.

(** What separates the items and what ends them: some space on either side. *)
Definition closing_of (close : N) (tail : jstr) : Prop := ∃ ws, space ws ∧ tail = ws ++ [close] ∧ ends tail.

Lemma bracketed_shape gap indent o c items : (c = 93 ∨ c = 125) → space gap → space indent → items ≠ [] →
  ∃ w1 w2 tail, space w1 ∧ space w2 ∧ closing_of c tail
    ∧ bracketed gap indent o c items = o :: w1 ++ join (44 :: w2) items ++ tail.
Proof.
  intros Hc Hg Hi Hne. unfold bracketed. destruct items as [|t items]; [done|]. destruct gap as [|g gap].
  - exists [], [], [c]. split_and!; [constructor|constructor| |done]. exists []. split_and!; [constructor|done|cbn; destruct_or! Hc; subst; auto].
  - assert (Hs : space ([10] ++ indent ++ g :: gap)).
    { apply Forall_app. split; [constructor; [auto|constructor]|]. by apply Forall_app. }
    exists ([10] ++ indent ++ g :: gap), ([10] ++ indent ++ g :: gap), ([10] ++ indent ++ [c]).
    split_and!; [done|done| |].
    + exists ([10] ++ indent). split_and!; [|by rewrite <- app_assoc|cbn; auto]. apply Forall_app. split; [|done]. constructor; [auto|constructor].
    + by rewrite <- !app_assoc.
Qed.


Lemma ends_tail c tail rest : closing_of c tail → ends (tail ++ rest).
Proof. intros ([|d ws] & _ & -> & He); done. Qed.

Lemma closing_length c tail : closing_of c tail → (0 < length tail)%nat.
Proof. intros (ws & _ & -> & _). rewrite length_app. cbn. lia. Qed.

Lemma after_tail {A} c tail rest k (o : option A) : closing_of c tail → (c = 93 ∨ c = 125) →
  after_char 44 (skip_space (tail ++ rest)) k o = o ∧ ∀ k' o', after_char c (skip_space (tail ++ rest)) k' o' = (k' rest : option A).
Proof.
  intros (ws & Hws & -> & _) Hc. rewrite <- app_assoc. cbn [app]. split.
  - rewrite skip_app by (done || apply solid_cons; by destruct_or! Hc; subst). cbn. by destruct_or! Hc; subst.
  - intros k' o'. apply after_space; [done|by destruct_or! Hc; subst].
Qed.

(** ** Values *)

Section read.
Context (gap : jstr) (Hgap : space gap).

Definition reads (v : value) : Prop := ∀ indent rest fuel,
  space indent → ends rest → (length (json_text gap indent v) ≤ fuel)%nat →
  parse_value fuel (json_text gap indent v ++ rest) = Some (v, rest).

Lemma text_solid indent v rest : plain v → solid (json_text gap indent v ++ rest).
Proof. intros Hv. destruct (json_text_head gap indent v Hv) as (c & r & -> & Hc & _). by apply solid_cons. Qed.

Lemma join_more sep p q ps : join sep (p :: q :: ps) = p ++ sep ++ join sep (q :: ps).
Proof. done. Qed.

Lemma elements_read indent l w2 tail rest fuel :
  l ≠ [] → Forall plain l → Forall reads l → space indent → space w2 → closing_of 93 tail →
  (length (join (44%N :: w2) (json_text gap indent <$> l)) < fuel)%nat →
  parse_elements fuel (join (44 :: w2) (json_text gap indent <$> l) ++ tail ++ rest) = Some (l, rest).
Proof.
  intros Hne Hp Hr Hi Hw Ht. revert fuel. induction l as [|v l IH]; intros fuel Hf; [done|]. clear Hne.
  apply Forall_cons in Hp as [Hv Hp]. apply Forall_cons in Hr as [Hrv Hr].
  destruct fuel as [|fuel]; [lia|]. destruct l as [|v' l].
  - cbn [fmap list_fmap join] in *. cbn [parse_elements]. rewrite Hrv; [|done|by eapply ends_tail|lia]. cbn.
    destruct (after_tail (A := list value * jstr) 93 tail rest (λ r, '(l, r) ← parse_elements fuel (skip_space r); Some (v :: l, r))
      (after_char 93 (skip_space (tail ++ rest)) (λ r, Some ([v], r)) None) Ht (or_introl eq_refl)) as [-> H]. apply H.
  - rewrite !fmap_cons, join_more in *. rewrite !length_app in Hf. cbn [length] in Hf. cbn [parse_elements].
    rewrite <- !app_assoc. rewrite Hrv; [|done|cbn; auto|lia]. cbn [mbind option_bind]. cbn [app].
    change (skip_space (44 :: ?s)) with (44 :: s). cbn [after_char].
    rewrite skip_app; [|done|].
    + rewrite IH; [done|done|done|done|lia].
    + apply Forall_cons in Hp as [Hv' _].
      destruct l; cbn [fmap list_fmap join]; rewrite <- ?app_assoc; by apply text_solid.
Qed.

Lemma members_read indent fields w2 tail rest fuel :
  fields ≠ [] → Forall units fields.*1 → Forall plain fields.*2 → Forall reads fields.*2 → space indent → space w2 → closing_of 125 tail →
  (length (join (44%N :: w2) ((λ f, field_text gap f.1 (json_text gap indent f.2)) <$> fields)) < fuel)%nat →
  parse_members fuel (join (44 :: w2) ((λ f, field_text gap f.1 (json_text gap indent f.2)) <$> fields) ++ tail ++ rest) = Some (fields, rest).
Proof.
  intros Hne Hk Hp Hr Hi Hw Ht. revert fuel. induction fields as [|[key v] fields IH]; intros fuel Hf; [done|]. clear Hne.
  cbn in Hk, Hp, Hr. apply Forall_cons in Hk as [Hkey Hk]. apply Forall_cons in Hp as [Hv Hp]. apply Forall_cons in Hr as [Hrv Hr].
  destruct fuel as [|fuel]; [lia|].
  assert (Hsp : space (if truthy gap then [32] else [])) by (destruct gap; [constructor|by repeat constructor]).
  assert (Hfield : ∀ more, ends more → (length (json_text gap indent v) ≤ fuel)%nat →
    parse_members (S fuel) (field_text gap key (json_text gap indent v) ++ more)
    = after_char 44 (skip_space more) (λ r, '(l, r) ← parse_members fuel (skip_space r); Some ((key, v) :: l, r))
        (after_char 125 (skip_space more) (λ r, Some ([(key, v)], r)) None)).
  { intros more Hm Hl. unfold field_text, quote_string. cbn [parse_members]. cbn [app]. cbn [after_char]. rewrite N.eqb_refl.
    rewrite <- !app_assoc. cbn [app]. rewrite parse_quoted by done. cbn [mbind option_bind].
    change (skip_space (58 :: ?s)) with (58 :: s). cbn [after_char]. rewrite N.eqb_refl.
    rewrite <- app_assoc, skip_app; [|done|by apply text_solid]. by rewrite Hrv. }
  assert (Hlen : (length (json_text gap indent v) ≤ length (field_text gap key (json_text gap indent v)))%nat).
  { unfold field_text. rewrite !length_app. lia. }
  destruct fields as [|[key' v'] fields].
  - cbn [fmap list_fmap join fst snd] in *. rewrite Hfield; [|by eapply ends_tail|lia].
    destruct (after_tail (A := list (jstr * value) * jstr) 125 tail rest (λ r, '(l, r) ← parse_members fuel (skip_space r); Some ((key, v) :: l, r))
      (after_char 125 (skip_space (tail ++ rest)) (λ r, Some ([(key, v)], r)) None) Ht (or_intror eq_refl)) as [-> H]. apply H.
  - rewrite !fmap_cons, join_more in *. cbn [fst snd] in *. rewrite !length_app in Hf. cbn [length] in Hf.
    rewrite <- !app_assoc. cbn [app]. rewrite Hfield; [|cbn; auto|lia].
    change (skip_space (44 :: ?s)) with (44 :: s). cbn [after_char]. rewrite N.eqb_refl.
    rewrite skip_app; [|done|].
    + rewrite IH; [done|done|done|done|done|lia].
    + destruct fields; cbn [fmap list_fmap join]; rewrite <- ?app_assoc; unfold field_text, quote_string; by apply solid_cons.
Qed.

(** ** The order of the fields *)

Lemma sort_by_id {A} (cmp : A → A → Z) l : StronglySorted (ordered cmp) l → sort_by cmp l = l.
Proof.
  induction 1 as [|x l Hl IH Hx]; [done|]. cbn. unfold sort_by in IH. rewrite IH. destruct l as [|y l]; [done|]. cbn.
  apply Forall_cons in Hx as [Hx _]. by rewrite (proj2 (Z.leb_le _ _) Hx).
Qed.

Lemma enumerate_perm fields : enumerate fields ≡ₚ fields.
Proof.
  unfold enumerate. rewrite sort_by_perm. induction fields as [|f fields IH]; [done|]. rewrite !filterb_cons.
  destruct (bool_decide _); cbn; [by f_equiv|]. by rewrite <- Permutation_middle, IH.
Qed.

Lemma enumerate_idemp fields : enumerate (enumerate fields) = enumerate fields.
Proof.
  unfold enumerate. set (p := λ f : jstr * value, bool_decide (is_Some (array_index f.1))).
  change (λ f : jstr * value, negb (bool_decide (is_Some (array_index f.1)))) with (λ f, negb (p f)).
  assert (H1 : ∀ f, f ∈ sort_by index_before (filterb p fields) → p f = true).
  { intros f. rewrite elem_of_sort_by, elem_of_filterb. by intros [_ ?]. }
  assert (H2 : ∀ f, f ∈ filterb (λ f, negb (p f)) fields → p f = false).
  { intros f. rewrite elem_of_filterb. intros [_ ?%negb_true_iff]. done. }
  rewrite !filterb_app. f_equal.
  - rewrite (filterb_id _ _ H1), (filterb_none p _ H2), app_nil_r. apply sort_by_id, sort_by_sorted.
    + intros a b. unfold index_before. lia.
    + intros a b c. unfold index_before. lia.
  - rewrite filterb_none; [|intros f Hf; by rewrite (H1 f Hf)]. apply filterb_idemp.
Qed.

(** Fields with distinct keys make an object that lists them in the order of their keys. *)
Lemma set_fields_distinct fields acc : NoDup (acc ++ fields).*1 → foldl set_field acc fields = acc ++ fields.
Proof.
  revert acc. induction fields as [|f fields IH]; intros acc Hnd; [by rewrite app_nil_r|]. cbn.
  assert (Hs : set_field acc f = acc ++ [f]).
  { unfold set_field. destruct (existsb _ acc) eqn:E; [|done]. apply existsb_elem in E as (x & Hx & Hxf%bool_decide_eq_true).
    rewrite fmap_app in Hnd. apply NoDup_app in Hnd as (_ & Hdis & _). destruct (Hdis x.1); [by apply list_elem_of_fmap_2|].
    rewrite Hxf. cbn. by left. }
  rewrite Hs, IH; rewrite <- app_assoc; done.
Qed.

Lemma object_of_distinct fields : NoDup fields.*1 → object_of fields = VObj (enumerate fields).
Proof. intros Hnd. unfold object_of. by rewrite set_fields_distinct. Qed.

Lemma object_of_plain fields : NoDup fields.*1 → enumerate fields = fields → object_of fields = VObj fields.
Proof. intros Hnd He. by rewrite object_of_distinct, He. Qed.

Lemma reads_step v : plain v →
  (∀ indent rest fuel, space indent → ends rest → (length (json_text gap indent v) ≤ S fuel)%nat →
     parse_value (S fuel) (json_text gap indent v ++ rest) = Some (v, rest)) → reads v.
Proof.
  intros Hv H indent rest [|fuel] Hi He Hf; [|by apply H].
  destruct (json_text_head gap indent v Hv) as (c & r & E & _). rewrite E in Hf. cbn in Hf. lia.
Qed.

(** A bracket is followed by items, or closed at once. *)
Lemma after_other {A} c d s k (o : option A) : d ≠ c → after_char c (d :: s) k o = o.
Proof. intros Hd. cbn. by rewrite (proj2 (N.eqb_neq d c)). Qed.

Lemma all_read v : plain v → reads v.
Proof.
  intros Hpl.
  induction Hpl as [|b|n Hn|s Hs|l Hpl IH|fields Hk Hpl IH Hnd Hen] using plain_nested;
    (apply reads_step; [by constructor|]); intros indent rest fuel Hi He Hf.
  - done.
  - by destruct b.
  - destruct Hn as (Hfin & Hlex & Hnum). cbn [json_text] in *. rewrite Hfin in *. clear Hf.
    revert Hlex Hnum. generalize (number_to_string n). intros t Hlex Hnum.
    pose proof (lex_append _ rest Hlex He) as Hla. destruct (lex_head _ Hlex) as (c & r & -> & Hc).
    cbn [app] in *. cbn [parse_value]. rewrite !(proj2 (N.eqb_neq c _)) by lia. rewrite Hla. cbn [mbind option_bind].
    by rewrite Hnum.
  - cbn [json_text]. unfold quote_string. cbn [app parse_value]. rewrite N.eqb_refl, <- app_assoc. cbn [app].
    by rewrite parse_quoted.
  - cbn [json_text] in *. destruct l as [|v l]; [done|].
    destruct (bracketed_shape gap indent 91 93 (json_text gap (indent ++ gap) <$> v :: l)) as (w1 & w2 & tail & Hw1 & Hw2 & Ht & E);
      [auto|done|done|done|]. rewrite E in *.
    assert (Hi' : space (indent ++ gap)) by (by apply Forall_app).
    pose proof (Forall_inv Hpl) as Hv. destruct (json_text_head gap (indent ++ gap) v Hv) as (c & r & Ec & Hsolid & Hc & _).
    set (items := join _ _) in *.
    assert (Hitems : ∃ r', items = c :: r').
    { unfold items. destruct l; cbn [fmap list_fmap join]; rewrite Ec; by eexists. }
    destruct Hitems as [r' Er].
    cbn [app parse_value]. change (91 =? 34) with false. cbv iota. rewrite N.eqb_refl. rewrite <- !app_assoc.
    rewrite skip_app; [|done|rewrite Er; by apply solid_cons]. rewrite Er at 1. cbn [app]. rewrite after_other by done.
    unfold items. rewrite (elements_read (indent ++ gap)); [done|done|done|done|done|done|done|].
    fold items. cbn [length] in Hf. rewrite !length_app in Hf. pose proof (closing_length _ _ Ht). lia.
  - rewrite json_object in * by done. destruct fields as [|[key v] fields]; [done|].
    set (texts := (λ f, field_text gap f.1 (json_text gap (indent ++ gap) f.2)) <$> ((key, v) :: fields)) in *.
    destruct (bracketed_shape gap indent 123 125 texts) as (w1 & w2 & tail & Hw1 & Hw2 & Ht & E);
      [auto|done|done|done|]. rewrite E in *.
    assert (Hi' : space (indent ++ gap)) by (by apply Forall_app).
    set (items := join _ _) in *.
    assert (Hitems : ∃ r', items = 34 :: r').
    { unfold items, texts. destruct fields; cbn [fmap list_fmap join]; unfold field_text, quote_string; by eexists. }
    destruct Hitems as [r' Er].
    cbn [app parse_value]. change (123 =? 34) with false. change (123 =? 91) with false. cbv iota. rewrite N.eqb_refl. rewrite <- !app_assoc.
    rewrite skip_app; [|done|rewrite Er; by apply solid_cons]. rewrite Er at 1. cbn [app]. rewrite after_other by done.
    unfold items, texts. rewrite (members_read (indent ++ gap)); [|done|done|done|done|done|done|done|].
    + cbn [mbind option_bind]. by rewrite object_of_plain.
    + fold texts items. cbn [length] in Hf. rewrite !length_app in Hf. pose proof (closing_length _ _ Ht). lia.
Qed.
End read.

(** Reading back the text of a value, compact or indented by spaces. *)
Lemma parse_stringify gap v text : space gap → plain v → stringify gap v = Some text → parse_json text = Some v.
Proof.
  intros Hg Hv Hs. assert (text = json_text gap [] v) as -> by (destruct Hv; by injection Hs as <-).
  unfold parse_json. pose proof (text_solid gap [] v [] Hv) as Hsolid. rewrite app_nil_r in Hsolid. rewrite Hsolid.
  pose proof (all_read gap Hg v Hv [] [] (S (length (json_text gap [] v)))) as H. rewrite app_nil_r in H.
  rewrite H; [done|constructor|done|lia].
Qed.

(** An object of plain values with distinct keys. *)
Lemma plain_object fields : NoDup fields.*1 → Forall units fields.*1 → Forall plain fields.*2 → plain (VObj (enumerate fields)).
Proof.
  intros Hnd Hk Hv. pose proof (enumerate_perm fields) as Hp. constructor.
  - by rewrite Hp.
  - by rewrite Hp.
  - by rewrite Hp.
  - apply enumerate_idemp.
Qed.
