(* ===== verification/RedisService.v ===== *)
(** * The Redis service

    [src/api/internal/redisdb/service.go] and the handlers that decode its requests in
    [src/api/internal/httpapi/router_mongo_redis.go].  The client that talks to Redis is a
    library: it is the interface [RedisServer], whose laws are the documented effects of the
    commands the service sends. *)
From S2P Require Import Prelude JsString JsNumber JsValue Json Go Risk.

(** ** Redis *)

Inductive RedisData :=
| RString (text : jstr)
| RHash (fields : gmap jstr jstr)
| RList (items : list jstr)
| RSet (members : gset jstr)
| RZSet (members : list (jstr * number)).

Definition type_name (d : RedisData) : jstr :=
  match d with
  | RString _ => "string"%js | RHash _ => "hash"%js | RList _ => "list"%js | RSet _ => "set"%js | RZSet _ => "zset"%js
  end.

(** Redis removes a collection with its last item. *)
Definition nonempty (d : RedisData) : Prop :=
  match d with
  | RString _ => True | RHash f => f ≠ ∅ | RList l => l ≠ [] | RSet m => m ≠ ∅ | RZSet l => l ≠ []
  end.

(** The calls of the client; [Set_] gives no expiration, and the duration of [Expire] is in
    nanoseconds. *)
Inductive RedisCommand :=
| Set_ (key text : jstr)
| Del (key : jstr)
| HSet (key : jstr) (fields : gmap jstr jstr)
| RPush (key : jstr) (values : list jstr)
| SAdd (key : jstr) (members : list jstr)
| Expire (key : jstr) (duration : Z)
| Persist (key : jstr).

Definition second : Z := 1000000000.

(** A key holds data and, when it expires, the seconds left.  A transaction gives the next
    state and the error, if there is one; [client_ttl] is the duration that [TTL] reports. *)
Class RedisServer (S : Type) := {
  lookup_key : S → jstr → option (RedisData * option Z);
  transact : list RedisCommand → S → S * option jstr;
  client_ttl : S → jstr → Z;
  lookup_nonempty : ∀ s k d e, lookup_key s k = Some (d, e) → nonempty d;
  transact_set : ∀ s s' k t, transact [Set_ k t] s = (s', None) → lookup_key s' k = Some (RString t, None);
  transact_hash : ∀ s s' k f, f ≠ ∅ → transact [Del k; HSet k f] s = (s', None) → lookup_key s' k = Some (RHash f, None);
  transact_list : ∀ s s' k l, l ≠ [] → transact [Del k; RPush k l] s = (s', None) → lookup_key s' k = Some (RList l, None);
  transact_members : ∀ s s' k l, l ≠ [] →
    transact [Del k; SAdd k l] s = (s', None) → lookup_key s' k = Some (RSet (list_to_set l), None);
  transact_expire : ∀ s s' k n d e, (0 < n)%Z → lookup_key s k = Some (d, e) →
    transact [Expire k (n * second)] s = (s', None) → lookup_key s' k = Some (d, Some n);
  transact_expired : ∀ s s' k n, (n <= 0)%Z → transact [Expire k n] s = (s', None) → lookup_key s' k = None;
  transact_persist : ∀ s s' k d e, lookup_key s k = Some (d, e) →
    transact [Persist k] s = (s', None) → lookup_key s' k = Some (d, None);
  ttl_left : ∀ s k d n, lookup_key s k = Some (d, Some n) → client_ttl s k = (n * second)%Z;
  ttl_none : ∀ s k d, lookup_key s k = Some (d, None) → client_ttl s k = (-1)%Z;
}.

(** ** Reading and saving keys *)

(** [int64(ttl.Seconds())]. *)
Definition ttl_seconds (ttl : Z) : Z := Z.quot ttl second.

(** The value that [readValue] reads, as it arrives in the browser: an object lists its
    fields in the order of [JSON.parse], a set its members in any order. *)
Inductive readValue : RedisData → value → Prop :=
| read_string t : readValue (RString t) (VStr t)
| read_hash f fields :
    NoDup fields.*1 → list_to_map fields = f → readValue (RHash f) (VObj (prod_map id VStr <$> fields))
| read_list l : readValue (RList l) (VArr (VStr <$> l))
| read_set m l : NoDup l → list_to_set l = m → readValue (RSet m) (VArr (VStr <$> l))
| read_zset l : readValue (RZSet l) (VArr ((λ x, VObj [("member"%js, VStr x.1); ("score"%js, VNum x.2)]) <$> l)).

Record KeyUpdate := MkUpdate { ku_type : jstr; ku_value : value; ku_ttl : option Z }.

Section service.
Context `{GoFmt}.

(** The transactions that save a key, or why it is refused.  A decoded [any] never holds a
    [[]map[string]any], so the branch of sorted sets always refuses. *)
Definition save_plan (key : jstr) (u : KeyUpdate) : list (list RedisCommand) + jstr :=
  let type := go_ToLower (ku_type u) in
  match
    (if bool_decide (key = []) then inr "key is required"%js
     else if bool_decide (type = "string"%js) then
       match ku_value u with VStr text => inl [Set_ key text] | _ => inr "string value required"%js end
     else if bool_decide (type = "hash"%js) then
       match ku_value u with
       | VObj fields => inl [Del key; HSet key (go_Sprint <$> from_entries fields)]
       | _ => inr "hash value must be an object"%js
       end
     else if bool_decide (type = "list"%js) then
       match ku_value u with
       | VArr items => inl (Del key :: (if bool_decide (items = []) then [] else [RPush key (go_Sprint <$> items)]))
       | _ => inr "list value must be an array"%js
       end
     else if bool_decide (type = "set"%js) then
       match ku_value u with
       | VArr items => inl (Del key :: (if bool_decide (items = []) then [] else [SAdd key (go_Sprint <$> items)]))
       | _ => inr "set value must be an array"%js
       end
     else if bool_decide (type = "zset"%js) then inr "zset value must be an array of {member, score}"%js
     else inr ("unsupported redis type "%js ++ go_Quote (ku_type u)))
  with
  | inl batch => inl (batch :: match ku_ttl u with Some n => [[Expire key (wrap64 (n * second))]] | None => [] end)
  | inr e => inr e
  end.

Context {store : Type} `{RedisServer store}.

Fixpoint send_all (batches : list (list RedisCommand)) (s : store) : store * option jstr :=
  match batches with
  | [] => (s, None)
  | b :: bs => match transact b s with (s', None) => send_all bs s' | failed => failed end
  end.

Definition SaveKey (key : jstr) (u : KeyUpdate) (s : store) : store * option jstr :=
  match save_plan key u with inl batches => send_all batches s | inr e => (s, Some e) end.

Definition SetTTL (key : jstr) (seconds : Z) (s : store) : store * option jstr :=
  if (seconds <=? 0)%Z then transact [Persist key] s else transact [Expire key (wrap64 (seconds * second))] s.

(** The handler of [POST .../redis/key/ttl] on the [ttl] of its body: a number that is not
    finite is [null] in JSON, [null] leaves zero, and what does not decode is refused before
    the service is called. *)
Definition handle_ttl (key : jstr) (ttl : value) (s : store) : store * option jstr :=
  match ttl with
  | VNull | VUndefined => SetTTL key 0 s
  | VNum n =>
      if negb (is_finite n) then SetTTL key 0 s else
      match int64_of_text (number_to_string n) with
      | Some seconds => SetTTL key seconds s
      | None => (s, Some "invalid_request"%js)
      end
  | _ => (s, Some "invalid_request"%js)
  end.
End service.

(** ** Commands *)

Definition MaxCommandLines : nat := 50.
Definition blockedCommands : list jstr :=
  ["FLUSHALL"; "FLUSHDB"; "CONFIG"; "DEBUG"; "SHUTDOWN"; "SLAVEOF"; "REPLICAOF"]%js.

(** [splitCommand]: the rest of the line, the part being read and whether it is quoted. *)
Fixpoint split_parts (line current : jstr) (inQuotes : bool) : list jstr :=
  match line with
  | [] => if truthy current then [current] else []
  | r :: line =>
      if (r =? 34)%N then split_parts line current (negb inQuotes)
      else if ((r =? 32) || (r =? 9))%N && negb inQuotes then
        if truthy current then current :: split_parts line [] inQuotes else split_parts line current inQuotes
      else split_parts line (current ++ [r]) inQuotes
  end.
Definition splitCommand (line : jstr) : list jstr := split_parts line [] false.

Record CommandOutput := MkOutput { co_command : jstr; co_output : value; co_error : jstr }.

Section commands.
Context `{GoStrings} {store : Type}.
(** [client.Do]: the reply, or the message of the error. *)
Context (do_ : list jstr → store → store * (value + jstr)).

Fixpoint execute_lines (commands : list jstr) (s : store) : store * list CommandOutput :=
  match commands with
  | [] => (s, [])
  | line :: rest =>
      let line := TrimSpace line in
      if negb (truthy line) || starts_with "#"%js line then execute_lines rest s
      else
        match splitCommand line with
        | [] => execute_lines rest s
        | name :: args =>
            if bool_decide (go_ToUpper name ∈ blockedCommands) then
              let '(s', outputs) := execute_lines rest s in
              (s', MkOutput line VNull "command blocked for safety"%js :: outputs)
            else
              let '(s', reply) := do_ (name :: args) s in
              let output := match reply with inl v => MkOutput line v [] | inr e => MkOutput line VNull e end in
              let '(s'', outputs) := execute_lines rest s' in
              (s'', output :: outputs)
        end
  end.

Definition ExecuteCommands (commands : list jstr) (s : store) : (store * list CommandOutput) + jstr :=
  if bool_decide (commands = []) then inr "commands are required"%js
  else if (MaxCommandLines <? length commands)%nat then inr "too many commands, max 50"%js
  else inl (execute_lines commands s).
End commands.
