(* ===== verification/RedisViews.v ===== *)
(** * The views of Redis

    The state and handlers of [src/web/src/features/redis/RedisKeyView.tsx], which shows and
    saves a key, and of [RedisConsoleView.tsx], which runs commands.  The workbench shows
    every key tab with the same instance of the view: changing the tab changes [keyName] and
    keeps the rest of the state. *)
From S2P Require Import Prelude JsString JsNumber JsValue Json Async RedisService.

(** ** A key *)

Record RedisKeyDetail := MkKeyDetail {
  rkd_key : jstr;
  rkd_type : jstr;
  rkd_ttl : number;
  rkd_value : value;
  rkd_durationMs : number;
}.

(** [valueJson] is [undefined] after a value that has no JSON text. *)
Record KV := MkKV {
  keyName : jstr;
  detail : option RedisKeyDetail;
  valueJson : option jstr;
  ttl : jstr;
  message : jstr;
}.
Definition set_keyName x w := MkKV x (detail w) (valueJson w) (ttl w) (message w).
Definition setDetail x w := MkKV (keyName w) x (valueJson w) (ttl w) (message w).
Definition setValueJson x w := MkKV (keyName w) (detail w) x (ttl w) (message w).
Definition setTTL x w := MkKV (keyName w) (detail w) (valueJson w) x (message w).
Definition setMessage x w := MkKV (keyName w) (detail w) (valueJson w) (ttl w) x.

Definition initial_KV (key : jstr) : KV := MkKV key None (Some []) [] [].

Inductive KeyCall :=
| redisGetKey (key : jstr)
| redisSaveKey (key type : jstr) (v : value)
| redisDeleteKey (key : jstr)
| redisSetTTL (key : jstr) (ttl : number).
Inductive KeyReply := RDetail (d : RedisKeyDetail) | RSaved.

Abbreviation handler := (async KV KeyCall KeyReply error).
#[local] Open Scope async_scope.

(** [typeof value === 'string' ? value : JSON.stringify(value, null, 2)]. *)
Definition value_text (v : value) : option jstr := match v with VStr s => Some s | _ => stringify [32; 32]%N v end.

Definition load : handler unit :=
  let* w := state in
  catch
    (let* r := await (redisGetKey (keyName w)) in
     match r with
     | RDetail data =>
         do* modify (setDetail (Some data)) in
         do* modify (setValueJson (value_text (rkd_value data))) in
         do* modify (setTTL (number_to_string (rkd_ttl data))) in
         modify (setMessage [])
     | _ => throw None
     end)
    (λ e, modify (setMessage (default "无法读取键"%js e))).

(** Showing another key: the new value of the property, and the effect. *)
Definition show_key (key : jstr) : handler unit := do* modify (set_keyName key) in load.

Section key_view.
(** The message of the [SyntaxError] of a text. *)
Context (syntax_error : jstr → jstr).

(** [JSON.parse(text)]; [undefined] is read as its text. *)
Definition parse_text (text : option jstr) : handler value :=
  let text := default "undefined"%js text in
  match parse_json text with Some v => ret v | None => throw (Some (syntax_error text)) end.

Definition save : handler unit :=
  let* w := state in
  match detail w with
  | None => ret tt
  | Some d =>
      let* parsed :=
        (if negb (bool_decide (rkd_type d = "string"%js)) then parse_text (valueJson w)
         else ret (match valueJson w with Some s => VStr s | None => VUndefined end)) in
      do* await (redisSaveKey (keyName w) (rkd_type d) parsed) in
      load
  end.

Definition set_ttl : handler unit :=
  let* w := state in
  do* await (redisSetTTL (keyName w) (to_number (ttl w))) in
  load.

Definition delete_key (confirmed : bool) : handler unit :=
  let* w := state in
  if confirmed then do* await (redisDeleteKey (keyName w)) in ret tt else ret tt.
End key_view.

(** The badge of the remaining time. *)
Definition ttl_badge (w : KV) : option jstr :=
  match detail w with
  | Some d => if num_le (num 0) (rkd_ttl d) then Some ("TTL "%js ++ number_to_string (rkd_ttl d) ++ "s"%js) else None
  | None => None
  end.
Definition footer (w : KV) : jstr :=
  or_else (message w)
    match detail w with
    | Some d => "已加载 · "%js ++ number_to_string (rkd_durationMs d) ++ "ms"%js
    | None => "加载中…"%js
    end.

(** ** The console *)

Record RedisCommandResult := MkCommandResult { rcr_results : list CommandOutput; rcr_durationMs : number }.

Inductive RunStatus := idle | running | failed.

Record Console := MkConsole {
  commands : jstr;
  result : option RedisCommandResult;
  status : RunStatus;
  console_message : jstr;
}.
Definition setCommands x w := MkConsole x (result w) (status w) (console_message w).
Definition setResult x w := MkConsole (commands w) x (status w) (console_message w).
Definition setStatus x w := MkConsole (commands w) (result w) x (console_message w).
Definition setConsoleMessage x w := MkConsole (commands w) (result w) (status w) x.

Definition defaultCommands : jstr := join [10]%N ["PING"; "DBSIZE"; "INFO keyspace"]%js.
Definition initial_console : Console := MkConsole defaultCommands None idle "尚未执行命令"%js.

Inductive ConsoleCall := redisCommands (lines : list jstr).

Definition command_lines (text : jstr) : list jstr := filterb truthy (trim <$> split [10]%N text).

Definition run_commands : async Console ConsoleCall RedisCommandResult error unit :=
  do* modify (setStatus running) in
  catch
    (let* w := state in
     let lines := command_lines (commands w) in
     let* data := await (redisCommands lines) in
     do* modify (setResult (Some data)) in
     do* modify (setStatus idle) in
     modify (setConsoleMessage
       (dec_Z (Z.of_nat (length (rcr_results data))) ++ " 条命令 · "%js ++ number_to_string (rcr_durationMs data) ++ "ms"%js)))
    (λ e,
      do* modify (setStatus failed) in
      modify (setConsoleMessage (default "命令执行失败"%js e))).

(** The lines shown for a result: a number and the command, and what it printed. *)
Definition output_text (item : CommandOutput) : option jstr :=
  if truthy (co_error item) then Some (co_error item) else value_text (co_output item).
Definition shown_results (r : RedisCommandResult) : list (jstr * option jstr) :=
  imap (λ i item, (dec_Z (Z.of_nat (S i)) ++ ") "%js ++ co_command item, output_text item)) (rcr_results r).
