(* ===== verification/RedisProps.v ===== *)
(** * Properties of the views of Redis and of their service *)
From S2P Require Import Prelude JsString JsNumber JsValue Json JsonProps Go Risk Async RedisService RedisViews.

(** ** Saving *)

Lemma from_entries_map (fields : list (jstr * jstr)) : NoDup fields.*1 →
  from_entries (prod_map id VStr <$> fields) = VStr <$> list_to_map fields.
Proof.
  intros Hnd. assert (Hf : (prod_map id VStr <$> fields).*1 = fields.*1).
  { rewrite <- list_fmap_compose. by apply list_fmap_ext. }
  apply map_eq. intros k. rewrite lookup_fmap. destruct (list_to_map fields !! k : option jstr) as [x|] eqn:E; cbn.
  - apply from_entries_lookup; [by rewrite Hf|]. apply elem_of_list_to_map_2 in E.
    apply list_elem_of_fmap. by exists (k, x).
  - apply from_entries_not_in. rewrite Hf. by apply not_elem_of_list_to_map_2.
Qed.

Section saving.
Context `{GoFmt, RedisServer store}.

Lemma sprint_strings (l : list jstr) : go_Sprint <$> (VStr <$> l) = l.
Proof. rewrite <- list_fmap_compose. rewrite <- (list_fmap_id l) at 2. apply list_fmap_ext. intros i x _. apply go_Sprint_string. Qed.

Lemma sprint_fields (f : gmap jstr jstr) : go_Sprint <$> (VStr <$> f) = f.
Proof. rewrite <- map_fmap_compose. rewrite <- (map_fmap_id f) at 2. apply map_fmap_ext. intros k x _. apply go_Sprint_string. Qed.

Lemma lower_type d : go_ToLower (type_name d) = type_name d.
Proof. rewrite go_lower_ascii by (by destruct d). by destruct d. Qed.

Lemma send_one b (s s' : store) : send_all [b] s = (s', None) → transact b s = (s', None).
Proof. cbn. destruct (transact b s) as [s'' [e|]]; [done|]. by intros [= ->]. Qed.

(** Saving what was read leaves the data, without an expiration. *)
Lemma save_read (s : store) key d e v : key ≠ [] → lookup_key s key = Some (d, e) → readValue d v →
  match d with
  | RZSet _ => SaveKey key (MkUpdate (type_name d) v None) s = (s, Some "zset value must be an array of {member, score}"%js)
  | _ => ∀ s', SaveKey key (MkUpdate (type_name d) v None) s = (s', None) → lookup_key s' key = Some (d, None)
  end.
Proof.
  intros Hk Hl Hr. pose proof (lookup_nonempty _ _ _ _ Hl) as Hne. unfold SaveKey, save_plan.
  cbn [ku_type ku_value ku_ttl]. rewrite lower_type, (bool_decide_eq_false_2 (key = [])) by done.
  destruct Hr as [t|f fields Hnd Hf|l|m l Hnd Hm|l]; cbn -[send_all]; try done; intros s' Hs%send_one.
  - by eapply transact_set.
  - rewrite from_entries_map, sprint_fields, Hf in Hs by done. by eapply transact_hash.
  - rewrite sprint_strings, bool_decide_eq_false_2 in Hs by (by destruct l). by eapply transact_list.
  - rewrite sprint_strings in Hs. cbn in Hne. rewrite bool_decide_eq_false_2 in Hs by (by destruct l; [destruct Hne|]).
    rewrite <- Hm. eapply transact_members; [|done]. by intros ->; destruct Hne.
Qed.

(** What a save requests while a read value is shown. *)
Lemma save_shown syntax_error d v data w : readValue d v → plain v →
  rkd_type data = type_name d → detail w = Some data → valueJson w = value_text v →
  awaited (run (save syntax_error) w).2 = Some (redisSaveKey (keyName w) (type_name d) v).
Proof.
  intros Hr Hp Ht Hd Hj. assert (Hspace : space [32%N; 32%N]) by (by repeat constructor).
  unfold run, save, bind, state. rewrite Hd, Ht, Hj.
  destruct Hr as [t|f fields Hnd Hf|l|m l Hnd Hm|l]; cbn -[stringify parse_json]; [done|..];
    unfold parse_text; cbn [default]; cbn -[parse_json json_text];
    (erewrite parse_stringify; [|exact Hspace|exact Hp|reflexivity]); done.
Qed.

(** Saving a key that was loaded and not edited requests the type and the value that
    were loaded, for every type.  The server refuses it for a sorted set, whatever its value;
    for the other types the data of the key stays and its expiration is removed. *)
Theorem redis_save_unchanged syntax_error (s : store) d e v data w :
  keyName w ≠ [] → lookup_key s (keyName w) = Some (d, e) → readValue d v → plain v →
  rkd_type data = type_name d → rkd_value data = v →
  let shown := (drive [inl (RDetail data)] (run load w)).1 in
  awaited (run (save syntax_error) shown).2 = Some (redisSaveKey (keyName w) (type_name d) v)
  ∧ match d with
    | RZSet _ =>
        SaveKey (keyName w) (MkUpdate (type_name d) v None) s
        = (s, Some "zset value must be an array of {member, score}"%js)
    | _ =>
        ∀ s', SaveKey (keyName w) (MkUpdate (type_name d) v None) s = (s', None) →
        lookup_key s' (keyName w) = Some (d, None)
    end.
Proof.
  intros Hk Hl Hr Hp Ht Hv shown. split; [|by eapply save_read].
  subst v. exact (save_shown syntax_error d _ data shown Hr Hp Ht eq_refl eq_refl).
Qed.

(** The view keeps the value of another key.  After key [A] was shown, the tab of key
    [B] saves the type and value of [A] under [B] as long as [B] is not loaded, when its
    request fails, and when the reply for [A] comes after the one for [B]. *)
Theorem stale_key_saved syntax_error A B d v data other e :
  readValue d v → plain v → rkd_type data = type_name d → rkd_value data = v →
  let saved w := awaited (run (save syntax_error) w).2 in
  let shown := (drive [inl (RDetail data)] (run load (initial_KV A))).1 in
  let wrong := Some (redisSaveKey B (type_name d) v) in
  saved (run (show_key B) shown).1 = wrong
  ∧ saved (drive [inr e] (run (show_key B) shown)).1 = wrong
  ∧ saved (schedule [Start load; Start (show_key B); Answer 1 (inl (RDetail other)); Answer 0 (inl (RDetail data))]
             (initial_KV A, [])).1 = wrong.
Proof.
  intros Hr Hp Ht Hv saved shown wrong. subst v shown wrong saved.
  assert (H' := λ w, save_shown syntax_error d _ data w Hr Hp Ht). split_and!.
  - exact (H' (run (show_key B) (drive [inl (RDetail data)] (run load (initial_KV A))).1).1 eq_refl eq_refl).
  - exact (H' (drive [inr e] (run (show_key B) (drive [inl (RDetail data)] (run load (initial_KV A))).1)).1 eq_refl eq_refl).
  - exact (H' (schedule [Start load; Start (show_key B); Answer 1 (inl (RDetail other)); Answer 0 (inl (RDetail data))]
                 (initial_KV A, [])).1 eq_refl eq_refl).
Qed.

(** ** Expiration *)

(** The expiration of a key.  A key without one shows a time to live of zero.  Setting
    it from the text of the input removes the expiration when the text is no number, or one
    that is not positive; sets it for a positive number of seconds that nanoseconds can
    hold; and removes the key when the nanoseconds wrap around to nothing positive. *)
Theorem redis_ttl_spec (s : store) d e w :
  lookup_key s (keyName w) = Some (d, e) →
  let n := to_number (ttl w) in
  (e = None → ttl_seconds (client_ttl s (keyName w)) = 0%Z)
  ∧ awaited (run set_ttl w).2 = Some (redisSetTTL (keyName w) n)
  ∧ ∀ s', handle_ttl (keyName w) (VNum n) s = (s', None) →
      match (if is_finite n then int64_of_text (number_to_string n) else Some 0%Z) with
      | None => False
      | Some seconds =>
          if (seconds <=? 0)%Z then lookup_key s' (keyName w) = Some (d, None)
          else if (seconds <=? 9223372036)%Z then lookup_key s' (keyName w) = Some (d, Some seconds)
          else (wrap64 (seconds * second) <= 0)%Z → lookup_key s' (keyName w) = None
      end.
Proof.
  intros Hl n. split_and!; [|done|].
  - intros ->. by rewrite (ttl_none _ _ _ Hl).
  - intros s'. cbn. unfold SetTTL. destruct (is_finite n); cbn.
    + destruct (int64_of_text (number_to_string n)) as [k|]; [|done].
      destruct (Z.leb_spec k 0); [by eapply transact_persist|]. destruct (Z.leb_spec k 9223372036).
      * rewrite wrap64_id by (unfold second; lia). intros Hs. eapply transact_expire; [lia|done|done].
      * intros Hs Hw. by eapply transact_expired.
    + by eapply transact_persist.
Qed.
End saving.

(** ** An instance *)

(** Redis on one database that never fails. *)
Abbreviation keys := (gmap jstr (RedisData * option Z)).
Definition run_command (c : RedisCommand) (m : keys) : keys :=
  match c with
  | Set_ k t => <[k := (RString t, None)]> m
  | Del k => delete k m
  | HSet k f => <[k := (RHash f, None)]> m
  | RPush k l => <[k := (RList l, None)]> m
  | SAdd k l => <[k := (RSet (list_to_set l), None)]> m
  | Expire k n =>
      if (n <=? 0)%Z then delete k m
      else match m !! k with Some (d, _) => <[k := (d, Some (Z.quot n second))]> m | None => m end
  | Persist k => match m !! k with Some (d, _) => <[k := (d, None)]> m | None => m end
  end.
Definition live (m : keys) (k : jstr) : option (RedisData * option Z) :=
  '(d, e) ← m !! k;
  match d with
  | RHash f => if decide (f = ∅) then None else Some (d, e)
  | RList l => if decide (l = []) then None else Some (d, e)
  | RSet l => if decide (l = ∅) then None else Some (d, e)
  | RZSet l => match l with [] => None | _ => Some (d, e) end
  | RString _ => Some (d, e)
  end.
#[local] Instance live_server : RedisServer keys.
Proof.
  refine {|
    lookup_key := live;
    transact := λ cs m, (foldl (λ m c, run_command c m) m cs, None);
    client_ttl := λ m k, match live m k with Some (_, Some n) => (n * second)%Z | _ => (-1)%Z end;
  |}; unfold live.
  - intros m k d e Hl. destruct (m !! k) as [[d' e']|]; [|done]. cbn in Hl.
    destruct d'; repeat case_decide; try destruct members; simplify_eq/=; done.
  - intros m m' k t [= <-]. cbn [foldl run_command]. by rewrite lookup_insert_eq.
  - intros m m' k f Hf [= <-]. cbn [foldl run_command]. rewrite lookup_insert_eq. cbn. by rewrite decide_False.
  - intros m m' k l Hf [= <-]. cbn [foldl run_command]. rewrite lookup_insert_eq. cbn. by rewrite decide_False.
  - intros m m' k l Hf [= <-]. cbn [foldl run_command]. rewrite lookup_insert_eq. cbn. rewrite decide_False; [done|].
    destruct l; [done|]. cbn. set_solver.
  - intros m m' k n d e Hn Hl [= <-]. cbn [foldl run_command]. destruct (m !! k) as [[d' e']|] eqn:E; [|done]. cbn in Hl.
    rewrite (proj2 (Z.leb_gt _ _)) by (unfold second; lia). rewrite lookup_insert_eq. cbn.
    rewrite Z.quot_mul by done. destruct d'; repeat case_decide; try destruct members; simplify_eq/=; done.
  - intros m m' k n Hn [= <-]. cbn [foldl run_command]. rewrite (proj2 (Z.leb_le _ _)) by done. by rewrite lookup_delete_eq.
  - intros m m' k d e Hl [= <-]. cbn [foldl run_command]. destruct (m !! k) as [[d' e']|] eqn:E; [|done]. cbn in Hl.
    rewrite lookup_insert_eq. cbn. destruct d'; repeat case_decide; try destruct members; simplify_eq/=; done.
  - intros m k d n Hl. by rewrite Hl.
  - intros m k d Hl. by rewrite Hl.
Defined.

(** ** The console *)

Definition quoted (a : jstr) : jstr := [34%N] ++ a ++ [34%N].

Lemma split_parts_quoted a rest current : 34%N ∉ a →
  split_parts (a ++ 34%N :: rest) current true = split_parts rest (current ++ a) false.
Proof.
  revert current. induction a as [|c a IH]; intros current Ha; cbn; [by rewrite app_nil_r|].
  apply not_elem_of_cons in Ha as [Hc Ha]. rewrite (proj2 (N.eqb_neq c 34)) by done.
  rewrite andb_false_r, IH by done. by rewrite <- app_assoc.
Qed.

(** Arguments of a command that are quoted arrive as they are, with their spaces,
    unless they hold a quote; empty ones are lost. *)
Theorem split_quoted args : Forall (λ a, 34%N ∉ a) args →
  splitCommand (join [32%N] (quoted <$> args)) = filterb truthy args.
Proof.
  intros Ha. assert (H : ∀ a rest current, 34%N ∉ a →
    split_parts (quoted a ++ rest) current false = split_parts rest (current ++ a) false).
  { intros a rest current Hq. unfold quoted. rewrite <- !app_assoc. cbn. by apply split_parts_quoted. }
  unfold splitCommand. induction Ha as [|a args Hq Ha IH]; [done|]. rewrite filterb_cons. destruct args as [|b args].
  - cbn [fmap list_fmap join]. rewrite <- (app_nil_r (quoted a)), H by done. cbn. by destruct a.
  - rewrite fmap_cons, JsString.join_cons by done. rewrite H by done.
    change (split_parts ([32%N] ++ ?r) ?c false) with (if truthy c then c :: split_parts r [] false else split_parts r c false).
    destruct a; cbn [app truthy]; by rewrite IH.
Qed.

Lemma parts_nonempty line current q p : p ∈ split_parts line current q → p ≠ [].
Proof.
  revert current q. induction line as [|c line IH]; intros current q; cbn.
  - destruct current; cbn; [by intros ?%not_elem_of_nil|]. by intros ->%list_elem_of_singleton.
  - repeat case_match; try apply IH. intros [->|Hp]%elem_of_cons; [by destruct current|by eapply IH].
Qed.

Section console.
Context `{GoStrings} {store : Type} (do_ : list jstr → store → store * (value + jstr)).

(** The parts of a line, none for a comment. *)
Definition line_parts (line : jstr) : list jstr :=
  if negb (truthy (TrimSpace line)) || starts_with "#"%js (TrimSpace line) then [] else splitCommand (TrimSpace line).
Definition is_blocked (parts : list jstr) : bool :=
  match parts with name :: _ => bool_decide (go_ToUpper name ∈ blockedCommands) | [] => false end.
Definition has_parts (line : jstr) : bool := match line_parts line with [] => false | _ => true end.
(** The commands that reach Redis. *)
Definition sent (lines : list jstr) : list (list jstr) :=
  filterb (λ p, negb (is_blocked p)) (line_parts <$> filterb has_parts lines).

Lemma execute_cons line lines s :
  execute_lines do_ (line :: lines) s =
    match line_parts line with
    | [] => execute_lines do_ lines s
    | parts =>
        if is_blocked parts then
          let '(s', outputs) := execute_lines do_ lines s in
          (s', MkOutput (TrimSpace line) VNull "command blocked for safety"%js :: outputs)
        else
          let '(s', reply) := do_ parts s in
          let output := match reply with inl v => MkOutput (TrimSpace line) v [] | inr e => MkOutput (TrimSpace line) VNull e end in
          let '(s'', outputs) := execute_lines do_ lines s' in
          (s'', output :: outputs)
    end.
Proof. cbn. unfold line_parts. by destruct (_ || _). Qed.

Lemma execute_lines_spec lines s :
  (execute_lines do_ lines s).1 = foldl (λ s c, (do_ c s).1) s (sent lines)
  ∧ co_command <$> (execute_lines do_ lines s).2 = TrimSpace <$> filterb has_parts lines
  ∧ ∀ o l, o ∈ (execute_lines do_ lines s).2 → co_command o = TrimSpace l → is_blocked (line_parts l) = true →
      co_error o = "command blocked for safety"%js.
Proof.
  revert s. induction lines as [|line lines IH]; intros s; [by split_and!; try (intros ?? ?%not_elem_of_nil)|].
  unfold sent in *. rewrite execute_cons, filterb_cons.
  destruct (line_parts line) as [|name args] eqn:Ep; (eassert (has_parts line = _) as -> by (unfold has_parts; by rewrite Ep)); [apply IH|].
  cbv beta iota zeta. rewrite !fmap_cons, filterb_cons, Ep. destruct (is_blocked (name :: args)) eqn:Eb; cbn [negb].
  - destruct (IH s) as (H1 & H2 & H3). destruct (execute_lines do_ lines s) as [s' os] eqn:E. cbn [fst snd fmap list_fmap co_command] in *.
    split_and!; [done|by rewrite H2|]. intros o l [->|Ho]%elem_of_cons; [done|by apply H3].
  - destruct (do_ (name :: args) s) as [s' reply] eqn:Er. destruct (IH s') as (H1 & H2 & H3).
    destruct (execute_lines do_ lines s') as [s'' os] eqn:E. cbn [fst snd foldl fmap list_fmap] in *. rewrite Er. cbn [fst].
    split_and!; [done|rewrite H2; by destruct reply|]. intros o l [->|Ho]%elem_of_cons; [|by apply H3].
    intros Hl Hb. exfalso. assert (line_parts l = line_parts line) as El.
    { unfold line_parts. replace (TrimSpace l) with (TrimSpace line); [done|]. by destruct reply. }
    rewrite El, Ep in Hb. congruence.
Qed.

(** C30. The console sends the lines of its text without their surrounding space and without
    the blank ones.  The server refuses none and more than 50; otherwise it runs, in order
    and whatever the earlier ones answer, the commands of the lines that are no comment and
    whose name, in capitals, is not blocked, and answers a blocked one with an error. *)
Theorem redis_console_spec w s :
  let lines := command_lines (commands w) in
  awaited (run run_commands w).2 = Some (redisCommands lines)
  ∧ (∀ l, l ∈ lines ↔ l ≠ [] ∧ ∃ text, text ∈ split [10%N] (commands w) ∧ l = trim text)
  ∧ match ExecuteCommands do_ lines s with
    | inr _ => lines = [] ∨ (50 < length lines)%nat
    | inl (s', outputs) =>
        (0 < length lines ≤ 50)%nat
        ∧ s' = foldl (λ s c, (do_ c s).1) s (sent lines)
        ∧ co_command <$> outputs = TrimSpace <$> filterb has_parts lines
        ∧ ∀ o l, o ∈ outputs → co_command o = TrimSpace l → is_blocked (line_parts l) = true →
            co_error o = "command blocked for safety"%js
    end
  ∧ ∀ c, c ∈ sent lines → ∃ name args, c = name :: args ∧ Forall (.≠ []) c ∧ go_ToUpper name ∉ blockedCommands.
Proof.
  intros lines. split_and!.
  - done.
  - intros l. unfold lines, command_lines. rewrite elem_of_filterb, list_elem_of_fmap.
    destruct l; cbn; naive_solver.
  - unfold ExecuteCommands. case_bool_decide as Hl; [by left|].
    destruct (Nat.ltb_spec MaxCommandLines (length lines)) as [Hm|Hm]; [by right|].
    destruct (execute_lines_spec lines s) as (H1 & H2 & H3). destruct (execute_lines do_ lines s) as [s' os].
    unfold MaxCommandLines in Hm. split_and!; [|done|done|done|done]. destruct lines; [done|cbn; lia].
  - intros c. unfold sent. rewrite elem_of_filterb. intros [(l & -> & Hl)%list_elem_of_fmap Hb].
    apply elem_of_filterb in Hl as [_ Hl]. unfold has_parts in Hl.
    assert (Hne : Forall (.≠ []) (line_parts l)).
    { unfold line_parts. destruct (_ || _); [constructor|]. apply Forall_forall. intros p. apply parts_nonempty. }
    destruct (line_parts l) as [|name args]; [done|]. exists name, args. split_and!; [done|done|].
    cbn in Hb. by apply negb_true_iff, bool_decide_eq_false in Hb.
Qed.
End console.

(** ** Witnesses *)

Definition queue_data : RedisData := RList ["a"; "b"]%js.
Definition queue_value : value := VArr (VStr <$> ["a"; "b"]%js).
Definition queue_detail : RedisKeyDetail := MkKeyDetail "queue"%js "list"%js (num 60) queue_value (num 1).
Lemma queue_plain : plain queue_value.
Proof. repeat constructor. Qed.

Lemma redis_save_unchanged_witness :
  lookup_key (SaveKey (H := plain_fmt) "queue"%js (MkUpdate "list"%js queue_value None)
                ({["queue"%js := (queue_data, Some 60%Z)]} : keys)).1 "queue"%js
  = Some (queue_data, None).
Proof.
  eapply (redis_save_unchanged (H := plain_fmt) id ({["queue"%js := (queue_data, Some 60%Z)]} : keys) queue_data (Some 60%Z)
            queue_value queue_detail (initial_KV "queue"%js)); [done|done|constructor|apply queue_plain|done|done|reflexivity].
Defined.

Lemma stale_key_saved_witness :
  awaited (run (save id) (drive [inr None] (run (show_key "other"%js) (drive [inl (RDetail queue_detail)] (run load (initial_KV "queue"%js))).1)).1).2
  = Some (redisSaveKey "other"%js "list"%js queue_value).
Proof.
  apply (stale_key_saved id "queue"%js "other"%js queue_data queue_value queue_detail queue_detail None);
    [constructor|apply queue_plain|done|done].
Defined.

Lemma redis_ttl_spec_witness :
  let m := {["queue"%js := (queue_data, None)]} : keys in
  ttl_seconds (client_ttl m "queue"%js) = 0%Z
  ∧ lookup_key (handle_ttl "queue"%js (VNum (to_number "10000000000"%js)) m).1 "queue"%js = None.
Proof.
  assert (Ef : is_finite (to_number "10000000000"%js) = true) by (vm_compute; reflexivity).
  assert (En : int64_of_text (number_to_string (to_number "10000000000"%js)) = Some 10000000000%Z) by (vm_compute; reflexivity).
  pose proof (redis_ttl_spec ({["queue"%js := (queue_data, None)]} : keys) queue_data None (MkKV "queue"%js None None "10000000000"%js [])) as H.
  destruct H as (Ht & _ & Hs); [done|]. split; [by apply Ht|].
  specialize (Hs (handle_ttl "queue"%js (VNum (to_number "10000000000"%js)) ({["queue"%js := (queue_data, None)]} : keys)).1).
  cbn [ttl keyName] in Hs. rewrite Ef, En in Hs. apply Hs; [by vm_compute|by vm_compute].
Defined.

Lemma split_quoted_witness :
  splitCommand (join [32%N] (quoted <$> ["SET"; "name"; "a b"; ""]%js)) = ["SET"; "name"; "a b"]%js.
Proof. apply (split_quoted ["SET"; "name"; "a b"; ""]%js). repeat constructor; by apply (bool_decide_unpack _). Defined.
