(* ===== verification/MongoService.v ===== *)
(** * The MongoDB service

    [Find] and [MutateDocument] of [src/api/internal/mongo/service.go]: how documents become
    rows and how a row is replaced or deleted.  The driver is a library: decoding extended
    JSON and the collection are interfaces whose laws are documented.  A [bson.M] and a
    [map[string]any] iterate in an order of their own, which the lists below fix. *)
From S2P Require Import Prelude JsString JsNumber JsValue Api.

(** ** Documents *)

(** An array and another scalar are given as JSON shows them. *)
Inductive bson :=
| BDoc (fields : list (jstr * bson))
| BArr (l : list value)
| BObjectID (id : Z)
| BDateTime (ms : Z)
| BOther (v : value).

(** [ObjectID.Hex()] and the RFC 3339 text of a date. *)
Class BsonText := { Hex : Z → jstr; RFC3339 : Z → jstr }.

Section flatten.
Context `{BsonText}.

Definition formatScalar (v : bson) : value :=
  match v with
  | BObjectID id => VStr (Hex id)
  | BDateTime ms => VStr (RFC3339 ms)
  | BArr l => VArr l
  | BOther v => v
  | BDoc _ => VUndefined
  end.

Definition child_prefix (prefix k : jstr) : jstr := if truthy prefix then prefix ++ "."%js ++ k else k.

Fixpoint flattenValue (prefix : jstr) (v : bson) (out : record) {struct v} : record :=
  match v with
  | BDoc fields =>
      (fix go (fields : list (jstr * bson)) (out : record) : record :=
         match fields with
         | [] => out
         | (k, x) :: fields => go fields (flattenValue (child_prefix prefix k) x out)
         end) fields out
  | _ => if truthy prefix then <[prefix := formatScalar v]> out else out
  end.

Definition flattenDocuments (docs : list bson) : list record := (λ d, flattenValue [] d ∅) <$> docs.

(** The keys of a map in the order of its iteration. *)
Context (range : record → list jstr).

Definition collectColumns (docs : list record) : list jstr :=
  foldl (λ columns doc, foldl (λ columns key, if bool_decide (key ∈ columns) then columns else columns ++ [key]) columns (range doc))
    [] docs.

Record MongoFindResult := MkFindResult {
  mf_columns : list QueryColumn;
  mf_rows : list (list value);
  mf_total : option number;
  mf_truncated : bool;
  mf_durationMs : number;
}.

Definition MaxDocuments : Z := 10000.
(** The limit of a request. *)
Definition find_limit (limit pageSize : Z) : Z :=
  let limit := if (limit <=? 0)%Z then pageSize else limit in
  if (MaxDocuments <? limit)%Z then MaxDocuments else limit.

(** The result for the documents of the cursor. *)
Definition find_result (docs : list bson) (total : option number) (limit : Z) (durationMs : number) : MongoFindResult :=
  let flatDocs := flattenDocuments docs in
  let columns := collectColumns flatDocs in
  MkFindResult ((λ c, MkColumn c None) <$> columns)
    ((λ doc : record, (λ c, default VNull (doc !! c)) <$> columns) <$> flatDocs)
    total (limit <=? Z.of_nat (length docs))%Z durationMs.
End flatten.

(** ** Changing a document *)

(** The value of a field of a document. *)
Definition bson_field (k : jstr) (d : bson) : option bson :=
  match d with BDoc fields => snd <$> find_first (λ f, bool_decide (f.1 = k)) fields | _ => None end.

(** A request gives the number of documents it matched, or the error of the driver.  A text
    in a filter matches no [ObjectID] and no document; an empty filter matches the first. *)
Class MongoServer (C : Type) := {
  documents : C → list bson;
  UnmarshalExtJSON : value → option bson;
  replace_one : bson → bson → C → C * (Z + jstr);
  delete_one : bson → C → C * (Z + jstr);
  ext_text : ∀ k t, head k ≠ Some 36%N → UnmarshalExtJSON (VObj [(k, VStr t)]) = Some (BDoc [(k, BOther (VStr t))]);
  ext_empty : UnmarshalExtJSON (VObj []) = Some (BDoc []);
  replace_unmatched : ∀ c k t doc, (∀ d, d ∈ documents c → bson_field k d ≠ Some (BOther (VStr t))) →
    replace_one (BDoc [(k, BOther (VStr t))]) doc c = (c, inl 0%Z);
  delete_unmatched : ∀ c k t, (∀ d, d ∈ documents c → bson_field k d ≠ Some (BOther (VStr t))) →
    delete_one (BDoc [(k, BOther (VStr t))]) c = (c, inl 0%Z);
  delete_first : ∀ c c' d ds, documents c = d :: ds → delete_one (BDoc []) c = (c', inl 1%Z) → documents c' = ds;
}.

Section mutate.
Context {C : Type} `{MongoServer C}.

(** [rawToBSON]; [VUndefined] is an absent field. *)
Definition rawToBSON (raw : value) : option bson :=
  match raw with VUndefined | VNull => Some (BDoc []) | v => UnmarshalExtJSON v end.

Definition matched (what : jstr) (n : Z) : jstr := what ++ dec_Z n ++ " documents, expected 1"%js.

(** The operations the view sends; the others are not modelled. *)
Inductive DocumentOperation := op_replace | op_delete.
Definition operation_text (op : DocumentOperation) : jstr := match op with op_replace => "replace"%js | op_delete => "delete"%js end.

Definition MutateDocument (op : DocumentOperation) (filter document : value) (c : C) : C * (Z + jstr) :=
  match rawToBSON filter with
  | None => (c, inr "invalid JSON/BSON"%js)
  | Some filter =>
      match op with
      | op_replace =>
          match rawToBSON document with
          | None => (c, inr "invalid JSON/BSON"%js)
          | Some doc =>
              match replace_one filter doc c with
              | (c', inl n) => (c', if (n =? 1)%Z then inl 1%Z else inr (matched "replace matched "%js n))
              | failed => failed
              end
          end
      | op_delete =>
          match delete_one filter c with
          | (c', inl n) => (c', if (n =? 1)%Z then inl 1%Z else inr (matched "delete removed "%js n))
          | failed => failed
          end
      end
  end.
End mutate.
