(* ===== verification/MongoViews.v ===== *)
(** * The views of MongoDB

    The state and handlers of [src/web/src/features/mongo/MongoDocumentView.tsx], of
    [MongoQueryView.tsx] and of [MongoCollectionSchema.tsx].  The selected document is built
    anew by every render, so the effect that fills the editor runs after each of them:
    [committed] is an update of the state with the render that follows it. *)
From S2P Require Import Prelude JsString JsNumber JsValue Json Api Async MongoService.

(** ** Documents *)

Inductive ViewStatus := idle | running | failed.

Record DV := MkDV {
  filter : jstr;
  page : number;
  pageSize : number;
  result : option MongoFindResult;
  status : ViewStatus;
  message : jstr;
  selectedRow : option nat;
  docJson : jstr;
}.
Definition setFilter x w := MkDV x (page w) (pageSize w) (result w) (status w) (message w) (selectedRow w) (docJson w).
Definition setPage f w := MkDV (filter w) (f (page w)) (pageSize w) (result w) (status w) (message w) (selectedRow w) (docJson w).
Definition setPageSize x w := MkDV (filter w) (page w) x (result w) (status w) (message w) (selectedRow w) (docJson w).
Definition setResult x w := MkDV (filter w) (page w) (pageSize w) x (status w) (message w) (selectedRow w) (docJson w).
Definition setStatus x w := MkDV (filter w) (page w) (pageSize w) (result w) x (message w) (selectedRow w) (docJson w).
Definition setMessage x w := MkDV (filter w) (page w) (pageSize w) (result w) (status w) x (selectedRow w) (docJson w).
Definition setSelectedRow x w := MkDV (filter w) (page w) (pageSize w) (result w) (status w) (message w) x (docJson w).
Definition setDocJson x w := MkDV (filter w) (page w) (pageSize w) (result w) (status w) (message w) (selectedRow w) x.

Definition initial_DV : DV := MkDV "{}"%js (num 1) (num 200) None idle "尚未加载文档"%js None [].

Definition columnNames (w : DV) : list jstr := from_option (λ r, qc_name <$> mf_columns r) [] (result w).
Definition rows (w : DV) : list (list value) := from_option mf_rows [] (result w).
Definition selectedDoc (w : DV) : option value :=
  match selectedRow w with
  | None => None
  | Some i =>
      let row := default [] (rows w !! i) in
      Some (object_of (imap (λ j name, (name, default VUndefined (row !! j))) (columnNames w)))
  end.

(** [JSON.stringify(doc, null, 2)] of an object. *)
Definition document_text (doc : value) : jstr := json_text [32; 32]%N [] doc.

(** The effect on the selected document, after the render that follows [before]. *)
Definition document_effect (before w : DV) : DV :=
  match selectedDoc w with
  | Some doc => setDocJson (document_text doc) w
  | None => match selectedDoc before with Some _ => setDocJson [] w | None => w end
  end.

(** [operation]s go with the texts that [mongoMutate] parses; its filter is always given. *)
Inductive DocumentCall :=
| mongoFind (filter : value) (limit skip : number)
| mongoMutate (operation : DocumentOperation) (filter : value) (document : option value).
Inductive DocumentReply := RFound (r : MongoFindResult) | RMutated.

Abbreviation handler := (async DV DocumentCall DocumentReply error).
#[local] Open Scope async_scope.

Definition committed (f : DV → DV) : handler unit := modify (λ w, document_effect w (f w)).

Section documents.
(** The message of the [SyntaxError] of a text. *)
Context (syntax_error : jstr → jstr) (collection : jstr).

Definition parse_or (fallback : value) (text : jstr) : handler value :=
  if truthy text then match parse_json text with Some v => ret v | None => throw (Some (syntax_error text)) end
  else ret fallback.

Definition load : handler unit :=
  let* w := state in
  do* committed (setStatus running) in
  catch
    (let* f := parse_or (VObj []) (filter w) in
     let* r := await (mongoFind f (pageSize w) (mul (sub (page w) (num 1)) (pageSize w))) in
     match r with
     | RFound data =>
         committed (λ w',
           setMessage (collection ++ " · "%js ++ dec_Z (Z.of_nat (length (mf_rows data))) ++ " 行 · 第 "%js
                       ++ number_to_string (page w) ++ " 页 · "%js ++ number_to_string (mf_durationMs data) ++ "ms"%js)
             (setStatus idle (setSelectedRow None (setResult (Some data) w'))))
     | _ => throw None
     end)
    (λ e, committed (λ w', setMessage (default "加载文档失败"%js e) (setStatus failed w'))).

(** The effect of [load] runs when a part of the request has changed. *)
Definition reloading (f : DV → DV) : handler unit :=
  let* before := state in
  do* committed f in
  let* after := state in
  if bool_decide (filter before = filter after) && num_eq (page before) (page after) && num_eq (pageSize before) (pageSize after)
  then ret tt else load.

Definition type_filter (text : jstr) : handler unit := reloading (setFilter text).
Definition previous_page : handler unit := reloading (setPage (λ p, sub p (num 1))).
Definition next_page : handler unit := reloading (setPage (λ p, add p (num 1))).
(** [Number(text) || 1]. *)
Definition type_page (text : jstr) : handler unit :=
  reloading (setPage (λ _, if num_truthy (to_number text) then to_number text else num 1)).
Definition choose_page_size (text : jstr) : handler unit :=
  reloading (λ w, setPage (λ _, num 1) (setPageSize (to_number text) w)).
Definition select_row (i : nat) : handler unit := committed (setSelectedRow (Some i)).
Definition type_document (text : jstr) : handler unit := committed (setDocJson text).

(** [JSON.stringify({_id: doc._id})], which [mongoMutate] parses again. *)
Definition id_filter (doc : value) : jstr :=
  json_text [] [] (VObj [("_id"%js, match doc with VObj fields => get (from_entries fields) "_id"%js | _ => VUndefined end)]).

Definition save_document : handler unit :=
  let* w := state in
  match selectedDoc w with
  | None => ret tt
  | Some doc =>
      let* f := parse_or VUndefined (id_filter doc) in
      let* d := parse_or VUndefined (docJson w) in
      do* await (mongoMutate op_replace f (Some d)) in
      load
  end.
Definition delete_document (confirmed : bool) : handler unit :=
  let* w := state in
  match selectedDoc w with
  | None => ret tt
  | Some doc =>
      if confirmed then
        let* f := parse_or VUndefined (id_filter doc) in
        do* await (mongoMutate op_delete f None) in
        load
      else ret tt
  end.
End documents.

(** ** Aggregations *)

Record QV := MkQV { pipeline : jstr; q_result : option MongoFindResult; q_status : ViewStatus; q_message : jstr }.
Definition setPipeline x w := MkQV x (q_result w) (q_status w) (q_message w).
Definition setQueryResult x w := MkQV (pipeline w) x (q_status w) (q_message w).
Definition setQueryStatus x w := MkQV (pipeline w) (q_result w) x (q_message w).
Definition setQueryMessage x w := MkQV (pipeline w) (q_result w) (q_status w) x.

Definition q : jstr := [34]%N.
Definition defaultPipeline : jstr :=
  join [10]%N
    ["["%js;
     "  { "%js ++ q ++ "$match"%js ++ q ++ ": { "%js ++ q ++ "status"%js ++ q ++ ": "%js ++ q ++ "paid"%js ++ q ++ " } },"%js;
     "  { "%js ++ q ++ "$limit"%js ++ q ++ ": 50 }"%js;
     "]"%js].
Definition initial_QV : QV := MkQV defaultPipeline None idle "尚未执行聚合查询"%js.

Inductive AggregateCall := mongoAggregate (pipeline : value).

Definition run_pipeline (syntax_error : jstr → jstr) : async QV AggregateCall MongoFindResult error unit :=
  let* w := state in
  do* modify (setQueryStatus running) in
  catch
    (let* p := match parse_json (pipeline w) with Some v => ret v | None => throw (Some (syntax_error (pipeline w))) end in
     let* data := await (mongoAggregate p) in
     do* modify (setQueryResult (Some data)) in
     do* modify (setQueryStatus idle) in
     modify (setQueryMessage (dec_Z (Z.of_nat (length (mf_rows data))) ++ " 行 · "%js ++ number_to_string (mf_durationMs data) ++ "ms"%js)))
    (λ e,
      do* modify (setQueryStatus failed) in
      modify (setQueryMessage (default "聚合查询失败"%js e))).

(** ** Collections *)

Record MongoIndex := MkMongoIndex { mx_name : jstr; mx_keys : list jstr; mx_unique : bool }.
Record MongoField := MkMongoField { mfd_path : jstr; mfd_type : jstr; mfd_occurrence : number }.
Record MongoCollectionDetail := MkDetail {
  md_estimatedDocs : option number;
  md_fields : list MongoField;
  md_indexes : list MongoIndex;
}.

Record CV := MkCV {
  cv_detail : option MongoCollectionDetail;
  cv_message : jstr;
  indexName : jstr;
  indexField : jstr;
  indexUnique : bool;
}.
Definition setDetail x w := MkCV x (cv_message w) (indexName w) (indexField w) (indexUnique w).
Definition setSchemaMessage x w := MkCV (cv_detail w) x (indexName w) (indexField w) (indexUnique w).
Definition setIndexName x w := MkCV (cv_detail w) (cv_message w) x (indexField w) (indexUnique w).
Definition setIndexField x w := MkCV (cv_detail w) (cv_message w) (indexName w) x (indexUnique w).
Definition setIndexUnique x w := MkCV (cv_detail w) (cv_message w) (indexName w) (indexField w) x.
Definition initial_CV : CV := MkCV None [] [] "_id"%js false.

Inductive CollectionCall :=
| mongoCollectionDetail
| mongoCreateIndex (keys : list (jstr * number)) (unique_ : bool) (name : option jstr)
| mongoDropIndex (name : jstr).
Inductive CollectionReply := RCollection (d : MongoCollectionDetail) | RIndexed.

Abbreviation collection_handler := (async CV CollectionCall CollectionReply error).

Definition load_collection : collection_handler unit :=
  catch
    (let* r := await mongoCollectionDetail in
     match r with
     | RCollection d => do* modify (setDetail (Some d)) in modify (setSchemaMessage [])
     | _ => throw None
     end)
    (λ e, modify (setSchemaMessage (default "无法加载集合结构"%js e))).
Definition create_index : collection_handler unit :=
  let* w := state in
  do* await (mongoCreateIndex [(indexField w, num 1)] (indexUnique w) (if truthy (indexName w) then Some (indexName w) else None)) in
  load_collection.
(** The button is shown for the indexes that can be dropped. *)
Definition droppable (i : MongoIndex) : bool := negb (bool_decide (mx_name i = "_id_"%js)).
Definition drop_index (i : MongoIndex) : collection_handler unit :=
  do* await (mongoDropIndex (mx_name i)) in load_collection.

(** ** Cells of a result *)

(** [renderCell] of [src/web/src/features/results/ResultGrid.tsx], with which the results of
    queries and aggregations are shown: [cell-null], [cell-empty] or a text. *)
Inductive Cell := NullCell | EmptyCell | TextCell (text : option jstr).
Definition renderCell (v : value) : Cell :=
  match v with
  | VNull => NullCell
  | VStr [] => EmptyCell
  | VArr _ | VObj _ => TextCell (stringify [] v)
  | _ => TextCell (Some (to_str v))
  end.
Definition grid_rows (columns : list QueryColumn) (rows : list (list value)) : list (list Cell) :=
  (λ row : list value, imap (λ i _, renderCell (default VUndefined (row !! i))) columns) <$> rows.
