(* ===== verification/MongoProps.v ===== *)
(** * Properties of the document view and of its service *)
From S2P Require Import Prelude JsString JsNumber JsValue Json JsonProps Api Async MongoService MongoViews.

(** ** Flattening *)

Section bson_nested.
Context (P : bson → Prop).
Context (Hdoc : ∀ fields, Forall (λ f, P f.2) fields → P (BDoc fields)).
Context (Hleaf : ∀ v, (∀ fields, v ≠ BDoc fields) → P v).
Fixpoint bson_nested (v : bson) : P v :=
  match v with
  | BDoc fields =>
      Hdoc fields ((fix go fields := match fields return Forall (λ f, P f.2) fields with
                                     | [] => Forall_nil_2 _
                                     | f :: fields => Forall_cons_2 _ f fields (bson_nested f.2) (go fields)
                                     end) fields)
  | v => Hleaf v ltac:(done)
  end.
End bson_nested.

Section flatten.
Context `{BsonText}.

Definition flatten_fields (prefix : jstr) (fields : list (jstr * bson)) (out : record) : record :=
  foldl (λ out f, flattenValue (child_prefix prefix f.1) f.2 out) out fields.

Lemma flatten_doc prefix fields out : flattenValue prefix (BDoc fields) out = flatten_fields prefix fields out.
Proof. unfold flatten_fields. cbn. revert out. induction fields as [|[k x] fields IH]; intros out; [done|]. apply IH. Qed.

Lemma flatten_leaf prefix v out : (∀ fields, v ≠ BDoc fields) → prefix ≠ [] →
  flattenValue prefix v out = <[prefix := formatScalar v]> out.
Proof. intros Hv Hp. destruct v; [by destruct (Hv fields)|..]; by destruct prefix. Qed.

(** A key that is not a path below the prefix. *)
Definition outside (prefix key : jstr) : Prop := key ≠ prefix ∧ ∀ r, key ≠ prefix ++ "."%js ++ r.

Lemma flatten_outside v prefix key out : prefix ≠ [] → outside prefix key → flattenValue prefix v out !! key = out !! key.
Proof.
  revert prefix out. induction v as [fields IH|v Hv] using bson_nested; intros prefix out Hp [Hne Ho].
  - rewrite flatten_doc. unfold flatten_fields. revert out. induction IH as [|[k x] fields Hx _ IHf]; intros out; [done|].
    cbn [foldl]. rewrite IHf. unfold child_prefix. cbn [fst snd] in *. destruct prefix as [|a prefix]; [done|]. cbn [truthy].
    apply Hx; [done|]. split; [apply Ho|]. intros r. rewrite <- !app_assoc. apply Ho.
  - rewrite flatten_leaf by done. by rewrite lookup_insert_ne.
Qed.

(** The keys of a document are distinct and not empty. *)
Definition proper_keys (fields : list (jstr * bson)) : Prop := NoDup fields.*1 ∧ Forall (.≠ []) fields.*1.

Lemma flatten_other fields key out : Forall (.≠ []) fields.*1 → key ∉ fields.*1 → 46%N ∉ key →
  flatten_fields [] fields out !! key = out !! key.
Proof.
  intros Hf Hk Hd. unfold flatten_fields. revert out. induction fields as [|[k x] fields IH]; intros out; [done|].
  cbn in Hf, Hk. apply Forall_cons in Hf as [Hne Hf]. apply not_elem_of_cons in Hk as [Hk Hks]. cbn [foldl fst snd].
  rewrite IH by done. unfold child_prefix. cbn [truthy]. apply flatten_outside; [done|]. split; [done|].
  intros r ->. apply Hd. rewrite !elem_of_app. right. left. by left.
Qed.

(** The path of a field without a point holds what the field alone leaves. *)
Lemma flatten_field fields k x : proper_keys fields → (k, x) ∈ fields → 46%N ∉ k →
  flattenValue [] (BDoc fields) ∅ !! k
  = match x with BDoc _ => None | _ => Some (formatScalar x) end.
Proof.
  intros [Hnd Hne] Hx Hd. rewrite flatten_doc. apply list_elem_of_split in Hx as (before & after & ->).
  rewrite !fmap_app, fmap_cons in Hnd, Hne. cbn [fst] in *. apply NoDup_app in Hnd as (_ & Hb & Ha).
  apply NoDup_cons in Ha as [Ha _]. apply Forall_app in Hne as [Hneb Hnea]. apply Forall_cons in Hnea as [Hk Hnea].
  assert (Hkb : k ∉ before.*1) by (intros Hin; apply (Hb k Hin); by left).
  unfold flatten_fields. rewrite foldl_app. cbn [foldl fst snd].
  change (foldl (λ (out : record) (f : jstr * bson), flattenValue (child_prefix [] f.1) f.2 out) ?o ?l) with (flatten_fields [] l o).
  rewrite flatten_other by done. change (child_prefix [] k) with k.
  assert (H0 : flatten_fields [] before ∅ !! k = None) by (by rewrite flatten_other).
  destruct x as [fs| | | |]; [|rewrite flatten_leaf by done; apply lookup_insert_eq..].
  rewrite flatten_doc. unfold flatten_fields in *. revert H0.
  generalize (foldl (λ (out : record) (f : jstr * bson), flattenValue (child_prefix [] f.1) f.2 out) ∅ before).
  induction fs as [|[c y] fs IH]; intros out Hout; [exact Hout|].
  cbn [foldl fst snd]. apply IH. rewrite flatten_outside; [done|by destruct k|].
  unfold child_prefix. destruct k as [|a k]; [done|]. cbn [truthy]. split.
  - intros E%(f_equal length). rewrite !length_app in E. cbn in E. lia.
  - intros r E%(f_equal length). rewrite !length_app in E. cbn in E. lia.
Qed.

(** ** The columns of a page *)

Context (range : record → list jstr) (Hrange : ∀ m, range m ≡ₚ (map_to_list m).*1).

Lemma collect_spec (docs : list record) :
  NoDup (collectColumns range docs) ∧ ∀ k, k ∈ collectColumns range docs ↔ ∃ doc, doc ∈ docs ∧ is_Some (doc !! k).
Proof.
  unfold collectColumns.
  assert (Hkeys : ∀ keys columns, NoDup columns →
    let r := foldl (λ columns key, if bool_decide (key ∈ columns) then columns else columns ++ [key]) columns keys in
    NoDup r ∧ ∀ k : jstr, k ∈ r ↔ k ∈ columns ∨ k ∈ keys).
  { induction keys as [|key keys IH]; intros columns Hc; cbn; [split; [done|set_solver]|]. case_bool_decide as E.
    - destruct (IH columns Hc) as [H1 H2]. split; [done|]. set_solver.
    - destruct (IH (columns ++ [key])) as [H1 H2]; [by apply NoDup_app_singleton|]. split; [done|]. set_solver. }
  assert (Hdocs : ∀ columns, NoDup columns →
    let r := foldl (λ columns doc, foldl (λ columns key, if bool_decide (key ∈ columns) then columns else columns ++ [key]) columns (range doc)) columns docs in
    NoDup r ∧ ∀ k, k ∈ r ↔ k ∈ columns ∨ ∃ doc, doc ∈ docs ∧ is_Some (doc !! k)).
  { induction docs as [|doc docs IH]; intros columns Hc; cbn; [split; [done|set_solver]|].
    destruct (Hkeys (range doc) columns Hc) as [H1 H2]. destruct (IH _ H1) as [H3 H4]. split; [done|]. intros k. rewrite H4, H2.
    assert (Hr : k ∈ range doc ↔ is_Some (doc !! k)).
    { rewrite (Hrange doc), list_elem_of_fmap. split.
      - intros ([k' v] & -> & Hm%elem_of_map_to_list). by eexists.
      - intros [v Hv]. exists (k, v). split; [done|]. by apply elem_of_map_to_list. }
    rewrite Hr. split.
    - intros [[?|?]|(d & ? & ?)]; [by left|right; exists doc; split; [by left|done]|right; exists d; split; [by right|done]].
    - intros [?|(d & [->|?]%elem_of_cons & ?)]; [by left; left|by left; right|right; by exists d]. }
  destruct (Hdocs [] NoDup_nil_2) as [H1 H2]. split; [done|]. intros k. rewrite H2. set_solver.
Qed.

(** ** The selected document *)

(** The fields that the view makes of a document of a page with these columns. *)
Definition shown_fields (columns : list jstr) (d : bson) : list (jstr * value) :=
  (λ c, (c, default VNull (flattenValue [] d ∅ !! c))) <$> columns.
Definition columns_of (docs : list bson) : list jstr := collectColumns range (flattenDocuments docs).

(** A view that shows a page of documents, with one of them selected. *)
Definition shows (docs : list bson) (d : bson) (w : DV) : Prop :=
  ∃ i total limit ms, docs !! i = Some d ∧ result w = Some (find_result range docs total limit ms) ∧ selectedRow w = Some i.

Lemma shown_keys columns d : (shown_fields columns d).*1 = columns.
Proof. unfold shown_fields. rewrite <- list_fmap_compose. apply list_fmap_id. Qed.

Lemma selected_doc docs d w : shows docs d w →
  selectedDoc w = Some (VObj (enumerate (shown_fields (columns_of docs) d))).
Proof.
  intros (i & total & limit & ms & Hd & Hr & Hs). unfold selectedDoc, columnNames, rows. rewrite Hr, Hs. cbn.
  unfold flattenDocuments. rewrite !list_lookup_fmap, Hd. cbn. f_equal.
  rewrite <- list_fmap_compose. fold (columns_of docs) (flattenDocuments docs). unfold columns_of.
  rewrite <- object_of_distinct by (rewrite shown_keys; apply collect_spec). f_equal. unfold shown_fields. rewrite list_fmap_id.
  set (columns := collectColumns range (flattenDocuments docs)).
  apply list_eq. intros j. rewrite list_lookup_imap, !list_lookup_fmap. by destruct (columns !! j).
Qed.

(** What the server sends are JSON values whose texts read back. *)
Definition readable_page (docs : list bson) : Prop :=
  ∀ d, d ∈ docs → ∀ k v, flattenValue [] d ∅ !! k = Some v → units k ∧ plain v.

Lemma shown_plain docs d : readable_page docs → d ∈ docs → plain (VObj (enumerate (shown_fields (columns_of docs) d))).
Proof.
  intros Hp Hd. destruct (collect_spec (flattenDocuments docs)) as [Hnd Hc]. apply plain_object.
  - by rewrite shown_keys.
  - rewrite shown_keys. apply Forall_forall. intros k (doc & (d' & -> & Hd')%list_elem_of_fmap & v & Hv)%Hc. by eapply Hp.
  - unfold shown_fields. rewrite <- list_fmap_compose. apply Forall_forall. intros v (c & -> & _)%list_elem_of_fmap. cbn.
    destruct (flattenValue [] d ∅ !! c) eqn:E; [by eapply Hp|constructor].
Qed.

Lemma shown_id docs d : get (from_entries (enumerate (shown_fields (columns_of docs) d))) "_id"%js
  = if bool_decide ("_id"%js ∈ columns_of docs) then default VNull (flattenValue [] d ∅ !! "_id"%js) else VUndefined.
Proof.
  destruct (collect_spec (flattenDocuments docs)) as [Hnd _]. fold (columns_of docs) in Hnd.
  pose proof (enumerate_perm (shown_fields (columns_of docs) d)) as Hp.
  assert (Hk : (enumerate (shown_fields (columns_of docs) d)).*1 ≡ₚ columns_of docs) by (by rewrite Hp, shown_keys).
  unfold get. case_bool_decide as E.
  - rewrite (from_entries_lookup _ _ (default VNull (flattenValue [] d ∅ !! "_id"%js))); [done|by rewrite Hk|].
    rewrite Hp. unfold shown_fields. by apply (list_elem_of_fmap_2 (λ c, (c, default VNull (flattenValue [] d ∅ !! c)))).
  - rewrite from_entries_not_in; [done|by rewrite Hk].
Qed.

(** The filter that the id of a document makes. *)
Definition id_value (docs : list bson) (d : bson) : value :=
  if bool_decide ("_id"%js ∈ columns_of docs) then VObj [("_id"%js, default VNull (flattenValue [] d ∅ !! "_id"%js))] else VObj [].

Lemma json_text_truthy gap v : plain v → truthy (json_text gap [] v) = true.
Proof. intros Hv. by destruct (json_text_head gap [] v Hv) as (c & r & -> & _). Qed.

Lemma id_filter_reads docs d : readable_page docs → d ∈ docs →
  truthy (id_filter (VObj (enumerate (shown_fields (columns_of docs) d)))) = true
  ∧ parse_json (id_filter (VObj (enumerate (shown_fields (columns_of docs) d)))) = Some (id_value docs d).
Proof.
  intros Hp Hd. unfold id_filter, id_value. rewrite shown_id. case_bool_decide; [|by vm_compute].
  set (v := default VNull _). assert (Hv : plain v).
  { unfold v. destruct (flattenValue [] d ∅ !! "_id"%js) eqn:E; [by eapply Hp|constructor]. }
  assert (He : enumerate [("_id"%js, v)] = [("_id"%js, v)]).
  { unfold enumerate. cbn [filterb List.filter fst]. by replace (array_index "_id"%js) with (@None Z) by (by vm_compute). }
  assert (Hpl : plain (VObj [("_id"%js, v)])).
  { constructor; [by repeat constructor|by repeat constructor|apply NoDup_singleton|done]. }
  split; [by apply json_text_truthy|]. eapply parse_stringify; [constructor|done|done].
Qed.
End flatten.

(** ** Editing and saving *)

Section editing.
Context `{BsonText} (range : record → list jstr) (Hrange : ∀ m, range m ≡ₚ (map_to_list m).*1).
Context (syntax_error : jstr → jstr) (collection : jstr).

(** C39. A document typed into the editor is lost: the next effect puts the text of the
    selected document back, and saving replaces the document by what the page shows of it.
    That has a field for every path of every document of the page, with a point in the name
    for a nested one, and null where this document has none; it goes to the document with
    the [_id] that is shown, or to any document when the page shows no [_id]. *)
Theorem saved_document_spec docs d w text : shows range docs d w → readable_page docs →
  let typed := (run (type_document text) w).1 in
  docJson typed = document_text (VObj (enumerate (shown_fields (columns_of range docs) d)))
  ∧ awaited (run (save_document syntax_error collection) typed).2
    = Some (mongoMutate op_replace (id_value range docs d) (Some (VObj (enumerate (shown_fields (columns_of range docs) d)))))
  ∧ (∀ k v, (k, v) ∈ enumerate (shown_fields (columns_of range docs) d) ↔
       (∃ d', d' ∈ docs ∧ is_Some (flattenValue [] d' ∅ !! k)) ∧ v = default VNull (flattenValue [] d ∅ !! k)).
Proof.
  intros Hs Hp typed. assert (Hd : d ∈ docs) by (destruct Hs as (i & ? & ? & ? & Hi & _); by eapply list_elem_of_lookup_2).
  pose proof (selected_doc range Hrange docs d w Hs) as Hsel.
  set (doc := VObj (enumerate (shown_fields (columns_of range docs) d))) in *.
  assert (Hsel' : selectedDoc (setDocJson text w) = Some doc) by apply Hsel.
  assert (Et : typed = setDocJson (document_text doc) w).
  { unfold typed, run, type_document, committed, modify, document_effect. cbn -[selectedDoc document_text].
    by rewrite Hsel'. }
  assert (Hpl : plain doc) by (by apply shown_plain).
  split_and!; [by rewrite Et| |].
  - rewrite Et. destruct (id_filter_reads range Hrange docs d Hp Hd) as [Ht Hf]. fold doc in Ht, Hf.
    assert (Hdoc : parse_json (document_text doc) = Some doc).
    { eapply parse_stringify; [|done|done]. by repeat constructor. }
    unfold run, save_document, bind, state. replace (selectedDoc (setDocJson (document_text doc) w)) with (Some doc) by (symmetry; apply Hsel).
    unfold parse_or. rewrite Ht, Hf. cbn [docJson setDocJson]. unfold document_text in *. by rewrite json_text_truthy, Hdoc.
  - intros k v. subst doc. rewrite (enumerate_perm (shown_fields (columns_of range docs) d)). unfold shown_fields. rewrite list_elem_of_fmap.
    destruct (collect_spec range Hrange (flattenDocuments docs)) as [_ Hc]. split.
    + intros (c & [= -> ->] & (doc' & (d' & -> & Hd')%list_elem_of_fmap & Hk)%Hc). split; [by exists d'|done].
    + intros [(d' & Hd' & Hk) ->]. exists k. split; [done|]. apply Hc. exists (flattenValue [] d' ∅). split; [|done].
      unfold flattenDocuments. by apply (list_elem_of_fmap_2 (λ d, flattenValue [] d ∅)).
Qed.

Context {C : Type} `{MongoServer C}.

(** Which document is deleted.  The request holds the [_id] that the page shows.  An
    [ObjectID] is shown as its text, which is the [_id] of no document of a collection whose
    ids are no texts: deleting and saving fail there.  A document used as an id is not shown
    under [_id]: when every id of the page is one, the filter is empty, and the server
    deletes the first document of the collection whichever was selected. *)
Theorem deleted_document_spec (c : C) docs fields w :
  shows range docs (BDoc fields) w → readable_page docs → proper_keys fields →
  let f := id_value range docs (BDoc fields) in
  awaited (run (delete_document syntax_error collection true) w).2 = Some (mongoMutate op_delete f None)
  ∧ (∀ id, ("_id"%js, BObjectID id) ∈ fields →
       (∀ d t, d ∈ documents c → bson_field "_id"%js d ≠ Some (BOther (VStr t))) →
       MutateDocument op_delete f VUndefined c = (c, inr "delete removed 0 documents, expected 1"%js)
       ∧ ∀ document, is_Some (rawToBSON document) →
           MutateDocument op_replace f document c = (c, inr "replace matched 0 documents, expected 1"%js))
  ∧ ((∀ d, d ∈ docs → ∃ fs sub, d = BDoc fs ∧ proper_keys fs ∧ ("_id"%js, BDoc sub) ∈ fs) →
       f = VObj []
       ∧ ∀ c' first rest, documents c = first :: rest → MutateDocument op_delete f VUndefined c = (c', inl 1%Z) →
           documents c' = rest).
Proof.
  intros Hs Hp Hk f. assert (Hd : BDoc fields ∈ docs) by (destruct Hs as (i & ? & ? & ? & Hi & _); by eapply list_elem_of_lookup_2).
  pose proof (selected_doc range Hrange docs _ w Hs) as Hsel.
  destruct (id_filter_reads range Hrange docs _ Hp Hd) as [Ht Hf]. fold f in Hf.
  destruct (collect_spec range Hrange (flattenDocuments docs)) as [_ Hc].
  assert (Hpoint : 46%N ∉ "_id"%js) by (by apply (bool_decide_unpack _)). split_and!.
  - unfold run, delete_document, bind, state. rewrite Hsel. unfold parse_or. by rewrite Ht, Hf.
  - intros id Hid Hno. pose proof (flatten_field fields "_id"%js _ Hk Hid Hpoint) as Hflat. cbn [formatScalar] in Hflat.
    assert (Ef : f = VObj [("_id"%js, VStr (Hex id))]).
    { unfold f, id_value. rewrite bool_decide_eq_true_2, Hflat; [done|]. apply Hc. exists (flattenValue [] (BDoc fields) ∅).
      rewrite Hflat. split; [by apply (list_elem_of_fmap_2 (λ d, flattenValue [] d ∅))|by eexists]. }
    rewrite Ef. unfold MutateDocument. cbn [rawToBSON]. rewrite ext_text by done. split.
    + by rewrite delete_unmatched by (intros; by apply Hno).
    + intros document [doc ->]. by rewrite replace_unmatched by (intros; by apply Hno).
  - intros Hall. assert (Ef : f = VObj []).
    { unfold f, id_value. rewrite bool_decide_eq_false_2; [done|].
      intros (doc & (d & -> & Hin)%list_elem_of_fmap & v & Hv)%Hc. destruct (Hall d Hin) as (fs & sub & -> & Hfs & Hsub).
      by rewrite (flatten_field fs "_id"%js _ Hfs Hsub Hpoint) in Hv. }
    split; [done|]. intros c' first rest Hdocs. rewrite Ef. unfold MutateDocument. cbn [rawToBSON]. rewrite ext_empty.
    destruct (delete_one (BDoc []) c) as [c'' [n|e]] eqn:Edel; [|done]. destruct (Z.eqb_spec n 1) as [->|]; [|done].
    intros [= <-]. by eapply delete_first.
Qed.
End editing.

(** ** Witnesses *)

(** A collection that answers the requests that the laws describe. *)
#[local] Instance shown_text : BsonText := {| Hex := dec_Z; RFC3339 := dec_Z |}.
Definition map_keys (m : record) : list jstr := (map_to_list m).*1.

Definition decode_ext (v : value) : option bson :=
  match v with VObj fields => Some (BDoc (prod_map id BOther <$> fields)) | _ => None end.
Definition matches_text (k t : jstr) (d : bson) : bool :=
  match bson_field k d with Some (BOther (VStr t')) => bool_decide (t = t') | _ => false end.
Definition selects (filter d : bson) : bool :=
  match filter with BDoc [] => true | BDoc [(k, BOther (VStr t))] => matches_text k t d | _ => false end.
Fixpoint remove_first (filter : bson) (docs : list bson) : list bson * Z :=
  match docs with
  | [] => ([], 0%Z)
  | d :: docs => if selects filter d then (docs, 1%Z) else let '(r, n) := remove_first filter docs in (d :: r, n)
  end.
Fixpoint replace_first (filter doc : bson) (docs : list bson) : list bson * Z :=
  match docs with
  | [] => ([], 0%Z)
  | d :: docs => if selects filter d then (doc :: docs, 1%Z) else let '(r, n) := replace_first filter doc docs in (d :: r, n)
  end.
Lemma selects_text k t (docs : list bson) : (∀ d, d ∈ docs → bson_field k d ≠ Some (BOther (VStr t))) →
  ∀ d, d ∈ docs → selects (BDoc [(k, BOther (VStr t))]) d = false.
Proof.
  intros Hno d Hd. cbn. unfold matches_text. specialize (Hno d Hd). destruct (bson_field k d) as [[| | | |[]]|]; try done.
  apply bool_decide_eq_false_2. by intros ->.
Qed.
#[local] Instance list_server : MongoServer (list bson).
Proof.
  refine {|
    documents := id; UnmarshalExtJSON := decode_ext;
    replace_one := λ f d c, (λ r : list bson * Z, (r.1, inl r.2)) (replace_first f d c);
    delete_one := λ f c, (λ r : list bson * Z, (r.1, inl r.2)) (remove_first f c);
  |}; try done.
  - intros c k t doc Hno. pose proof (selects_text k t c Hno) as Hs.
    assert (E : replace_first (BDoc [(k, BOther (VStr t))]) doc c = (c, 0%Z)); [|by rewrite E].
    clear Hno. induction c as [|d c IH]; [done|]. cbn [replace_first]. rewrite Hs by set_solver.
    rewrite IH; [done|]. intros d' Hd'. apply Hs. by right.
  - intros c k t Hno. pose proof (selects_text k t c Hno) as Hs.
    assert (E : remove_first (BDoc [(k, BOther (VStr t))]) c = (c, 0%Z)); [|by rewrite E].
    clear Hno. induction c as [|d c IH]; [done|]. cbn [remove_first]. rewrite Hs by set_solver.
    rewrite IH; [done|]. intros d' Hd'. apply Hs. by right.
  - intros c c' d ds Hc. change (c = d :: ds) in Hc. subst c. by intros [= <-].
Defined.

(** Two documents whose ids are documents, and one whose id is an [ObjectID]. *)
Definition first_day : list (jstr * bson) := [("_id"%js, BDoc [("day"%js, BOther (VNum (num 1)))]); ("total"%js, BOther (VNum (num 10)))].
Definition second_day : list (jstr * bson) := [("_id"%js, BDoc [("day"%js, BOther (VNum (num 2)))]); ("note"%js, BOther (VStr "x"%js))].
Definition shown_page (docs : list bson) (i : nat) : DV :=
  setSelectedRow (Some i) (setResult (Some (find_result map_keys docs None 200 (num 1))) initial_DV).

Lemma map_keys_perm (m : record) : map_keys m ≡ₚ (map_to_list m).*1.
Proof. done. Qed.

Lemma shown_page_shows docs i d : docs !! i = Some d → shows map_keys docs d (shown_page docs i).
Proof. intros Hd. by exists i, None, 200%Z, (num 1). Qed.

Lemma small_readable z : (z = 1 ∨ z = 2 ∨ z = 10)%Z → readable (num z).
Proof. intros Hz. by destruct_or! Hz; subst; vm_compute. Qed.

(** A page is readable when the keys and values of its documents are. *)
Lemma readable_check (docs : list bson) :
  Forall (λ d, map_Forall (λ k v, units k ∧ plain v) (flattenValue [] d ∅)) docs → readable_page docs.
Proof. intros Hall d Hd k v Hv. rewrite Forall_forall in Hall. by apply (Hall d Hd k v). Qed.

Lemma days_readable : readable_page [BDoc first_day; BDoc second_day].
Proof.
  apply readable_check. constructor; [|constructor; [|constructor]]; intros k v; unfold first_day, second_day; rewrite flatten_doc; unfold flatten_fields;
    cbn [foldl fst snd]; rewrite ?flatten_doc; unfold flatten_fields; cbn [foldl fst snd];
    rewrite !flatten_leaf by done; rewrite !lookup_insert_Some, lookup_empty;
    intros [[<- <-]|[_ [[<- <-]|[_ Hn]]]]; try discriminate Hn; (split; [by apply units_check; vm_compute|]);
    cbn [formatScalar]; constructor; first [by apply small_readable; auto|by apply units_check; vm_compute].
Qed.

Lemma saved_document_spec_witness :
  docJson (run (type_document "{}"%js) (shown_page [BDoc first_day; BDoc second_day] 0)).1
  = document_text (VObj (enumerate (shown_fields (columns_of map_keys [BDoc first_day; BDoc second_day]) (BDoc first_day)))).
Proof.
  apply (saved_document_spec map_keys map_keys_perm id []); [by apply shown_page_shows|apply days_readable].
Defined.

Lemma deleted_document_spec_witness :
  (MutateDocument op_delete (id_value map_keys [BDoc first_day; BDoc second_day] (BDoc second_day)) VUndefined
     [BDoc first_day; BDoc second_day]).1 = [BDoc second_day].
Proof.
  assert (H1 : proper_keys first_day) by (split; [apply (bool_decide_unpack _); by vm_compute|by repeat constructor]).
  assert (H2 : proper_keys second_day) by (split; [apply (bool_decide_unpack _); by vm_compute|by repeat constructor]).
  destruct (deleted_document_spec map_keys map_keys_perm id [] [BDoc first_day; BDoc second_day]
              [BDoc first_day; BDoc second_day] second_day (shown_page [BDoc first_day; BDoc second_day] 1)) as (_ & _ & H);
    [by apply shown_page_shows|apply days_readable|done|].
  destruct H as [Hf Hdel].
  - intros d [->|[->|[]%not_elem_of_nil]%elem_of_cons]%elem_of_cons; eexists _, _; (split; [reflexivity|]); split; [done|by left|done|by left].
  - by apply (Hdel _ (BDoc first_day) [BDoc second_day]); [|rewrite Hf].
Defined.
