(* ===== verification/ConnectionsView.v ===== *)
(** * What the connection center shows

    The elements of [src/web/src/pages/ConnectionsPage.tsx]: the table with its filters, the
    details and the filters that it gives the shell, the form and the confirmation. *)
From S2P Require Import Prelude JsString JsNumber JsValue Http Api Connections Async ConnectionsPage View Elements Ui.
#[local] Open Scope async_scope.

Abbreviation markup := (view (handler unit)).

(** ** Texts *)

Definition kindFilters : list (option ConnectionKind * jstr) :=
  [(None, "全部"); (Some database_kind, "数据库"); (Some ssh_kind, "SSH")]%js.
Definition scopeFilters : list (option ConnectionScope * jstr) :=
  [(None, "全部范围"); (Some personal, "我的"); (Some team, "团队")]%js.
Definition driverOptions : list (jstr * jstr) :=
  [("postgres", "PostgreSQL"); ("mysql", "MySQL"); ("mongodb", "MongoDB"); ("redis", "Redis")]%js.
Definition sshDriverOptions : list (jstr * jstr) := [("ssh", "SSH")]%js.
Definition scopeOptions : list (jstr * jstr) := [("personal", "个人"); ("team", "团队")]%js.

Definition driverLabel (d : ConnectionDriver) : jstr :=
  match d with
  | db_driver postgres => "PostgreSQL" | db_driver mysql => "MySQL" | db_driver mongodb => "MongoDB" | db_driver redis => "Redis"
  | ssh => "SSH"
  end%js.
(** The casts of the values of the options; the text of another value is no driver. *)
Definition driver_value (value : jstr) : option ConnectionDriver :=
  find_first (λ d, bool_decide (connection_driver_text d = value)) [db_driver postgres; db_driver mysql; db_driver mongodb; db_driver redis; ssh].
Definition scope_value (value : jstr) : option ConnectionScope :=
  find_first (λ s, bool_decide (scope_text s = value)) [personal; team].

Definition count_text (n : nat) : jstr := dec_Z (Z.of_nat n).
Definition shown_of (w : CP) (n : nat) : jstr := count_text n ++ " / "%js ++ count_text (length (connections (listing w))).

Section page.
Context `{Unicode} (session_teams : list TeamSummary).

(** ** The sidebar and the details *)

Definition kind_button (w : CP) (item : option ConnectionKind * jstr) : markup :=
  let n := match item.1 with
           | None => length (connections (listing w))
           | Some k => length (filterb (λ c, bool_decide (c_kind c = k)) (connections (listing w)))
           end in
  Group [Button (match item.1 with None => "全部连接"%js | Some _ => item.2 end) false (modify (setKind item.1)); Words (count_text n)].
Definition scope_button (w : CP) (item : option ConnectionScope * jstr) : markup :=
  let n := match item.1 with
           | None => length (connections (listing w))
           | Some s => length (filterb (λ c, bool_decide (c_scope c = s)) (connections (listing w)))
           end in
  Group [Button (match item.1 with None => "全部范围"%js | Some _ => item.2 end) false (modify (setScope item.1)); Words (count_text n)].

Definition sidebarContent (w : CP) : markup :=
  Region "complementary"%js "连接筛选"%js
    [Words "连接"%js; Words (shown_of w (length (visible w)) ++ " 个连接"%js);
     Region [] "类型筛选"%js (Words "类型"%js :: (kind_button w <$> kindFilters));
     Region [] "范围筛选"%js (Words "范围"%js :: (scope_button w <$> scopeFilters));
     Words "快捷筛选"%js;
     Button "生产环境"%js false (modify (setQuery "prod"%js));
     Button "SSH 入口"%js false (modify (setQuery "ssh"%js));
     Button "清除搜索"%js false (modify (setQuery []))].

Definition with_team (id : option jstr) (l : list TeamSummary) : option TeamSummary :=
  find_first (λ t, bool_decide (Some (tm_id t) = id)) l.
Definition connectionContext (w : CP) : list markup :=
  only_some (selectedConnection w) (λ c, Region "complementary"%js "连接详情"%js
    ([Words "SELECTION / CONNECTION"%js; Words (c_name c); TerminalStatus (if c_hasSecret c then "凭据已保存"%js else "缺少凭据"%js);
      Words "连接类型"%js; Words (driverLabel (c_driver c));
      Words "归属范围"%js;
      Words (match c_scope c with
             | team => from_option tm_name "团队"%js (with_team (c_teamId c) (teams (listing w)))
             | personal => "个人"%js
             end);
      Words "连接地址"%js; Words (selectedEndpoint c)]
     ++ only_if (bool_decide (c_kind c = database_kind)) (Anchor "打开工作台"%js ("/database?connection="%js ++ c_id c))
     ++ [TerminalInlineAction "编辑选中连接"%js false (openEdit c);
         TerminalInlineAction "删除选中连接"%js false (modify (setDeleteTarget (Some c)));
         Words "危险操作仅作用于当前选择。"%js])).
Definition connection_slots (w : CP) : markup := Group (sidebarContent w :: connectionContext w).

(** [useUnifiedRuntime] and [useUnifiedStatus]. *)
Definition runtime_detail (w : CP) : jstr :=
  if loading (listing w) then "同步中"%js else shown_of w (length (visible w)) ++ " 可见"%js.
Definition connection_status (w : CP) : jstr :=
  or_else (error_ (messages w)) (or_else (success (messages w))
    (if loading (listing w) then "正在同步连接…"%js else "就绪 · "%js ++ shown_of w (length (visible w)) ++ " 个连接"%js)).

(** ** The table *)

Definition feedback (w : CP) : list markup :=
  match formMode (dialog w) with
  | Some _ => []
  | None => only_if (truthy (success (messages w))) (Notice "status"%js (success (messages w)))
            ++ only_if (truthy (error_ (messages w))) (Notice "alert"%js (error_ (messages w)))
  end.

Definition clear_filters : handler unit :=
  do* modify (setQuery []) in do* modify (setKind None) in modify (setScope None).
Definition no_connections (w : CP) : markup :=
  if hasActiveFilters w then
    EmptyState
      (if truthy (trim (query (filters w))) then "没有符合“"%js ++ trim (query (filters w)) ++ "”的连接"%js else "当前筛选下没有连接"%js)
      ("当前共有 "%js ++ count_text (length (connections (listing w))) ++ " 个连接，清除筛选后可查看全部。"%js)
      [TerminalInlineAction "清除筛选"%js false clear_filters]
  else
    EmptyState "还没有保存的连接"%js "创建第一个数据库或 SSH 连接，开始使用工作台。"%js
      [TerminalInlineAction "新建第一个连接"%js false (openCreate database_kind)].

Definition connection_row (w : CP) (c : Connection) : markup :=
  let choose := modify (setSelectedConnectionId (λ _, c_id c)) in
  On Click choose (On EnterOrSpace choose (Region "row"%js []
    [Words (c_name c); Words (driverLabel (c_driver c)); Words (selectedEndpoint c);
     Words (match c_scope c with
            | team => "团队 "%js ++ from_option tm_name (default "undefined"%js (c_teamId c)) (with_team (c_teamId c) (teams (listing w)))
            | personal => "个人"%js
            end);
     TerminalStatus (if c_hasSecret c then "READY"%js else "CREDENTIALS"%js)])).
Definition connection_table (w : CP) : markup :=
  if loading (listing w) then Notice "status"%js "正在加载…"%js
  else match visible w with
       | [] => no_connections w
       | l => Region "table"%js "连接记录"%js
                ([Words "名称 / 驱动"%js; Words "连接地址"%js; Words "范围"%js; Words "状态"%js] ++ (connection_row w <$> l))
       end.

(** ** The form *)

Definition set_form (f : ConnectionFormValue → ConnectionFormValue) : handler unit := modify (setForm f).
Definition type_name x := set_form (λ f, MkForm x (f_kind f) (f_driver f) (f_scope f) (f_teamId f) (f_host f) (f_port f) (f_database f) (f_username f) (f_password f) (f_privateKey f) (f_passphrase f)).
Definition type_team x := set_form (λ f, MkForm (f_name f) (f_kind f) (f_driver f) (f_scope f) x (f_host f) (f_port f) (f_database f) (f_username f) (f_password f) (f_privateKey f) (f_passphrase f)).
Definition type_host x := set_form (λ f, MkForm (f_name f) (f_kind f) (f_driver f) (f_scope f) (f_teamId f) x (f_port f) (f_database f) (f_username f) (f_password f) (f_privateKey f) (f_passphrase f)).
Definition type_port x := set_form (λ f, MkForm (f_name f) (f_kind f) (f_driver f) (f_scope f) (f_teamId f) (f_host f) x (f_database f) (f_username f) (f_password f) (f_privateKey f) (f_passphrase f)).
Definition type_database x := set_form (λ f, MkForm (f_name f) (f_kind f) (f_driver f) (f_scope f) (f_teamId f) (f_host f) (f_port f) x (f_username f) (f_password f) (f_privateKey f) (f_passphrase f)).
Definition type_username x := set_form (λ f, MkForm (f_name f) (f_kind f) (f_driver f) (f_scope f) (f_teamId f) (f_host f) (f_port f) (f_database f) x (f_password f) (f_privateKey f) (f_passphrase f)).
Definition type_password x := set_form (λ f, MkForm (f_name f) (f_kind f) (f_driver f) (f_scope f) (f_teamId f) (f_host f) (f_port f) (f_database f) (f_username f) x (f_privateKey f) (f_passphrase f)).
Definition type_privateKey x := set_form (λ f, MkForm (f_name f) (f_kind f) (f_driver f) (f_scope f) (f_teamId f) (f_host f) (f_port f) (f_database f) (f_username f) (f_password f) x (f_passphrase f)).
Definition type_passphrase x := set_form (λ f, MkForm (f_name f) (f_kind f) (f_driver f) (f_scope f) (f_teamId f) (f_host f) (f_port f) (f_database f) (f_username f) (f_password f) (f_privateKey f) x).

Definition field_error (w : CP) (key : jstr) : option jstr := fieldErrors (dialog w) !! key.
(** [formMode === 'edit' && editing?.hasSecret]. *)
Definition keeps_secret (w : CP) : bool := from_option c_hasSecret false (edited w).

Definition team_choice (w : CP) : list markup :=
  match f_scope (form (dialog w)) with
  | personal => []
  | team =>
      [Words "团队"%js;
       SelectControl "连接团队"%js (f_teamId (form (dialog w))) ((λ t, (tm_id t, tm_name t)) <$> adminTeams w) false type_team]
      ++ only_some (field_error w "teamId"%js) Words
  end.
Definition credentials (w : CP) : list markup :=
  let f := form (dialog w) in
  match f_kind f with
  | database_kind =>
      [TextField "用户名"%js (f_username f) None None type_username;
       TextField "密码"%js (f_password f) None (if keeps_secret w then Some "已保存密码；留空则继续保留。"%js else None) type_password]
  | ssh_kind =>
      [Region "group"%js "认证凭据"%js
        ([Words "登录密码或私钥至少填写一项"%js]
         ++ only_some (field_error w "credentials"%js) (Notice "alert"%js)
         ++ [TextField "用户名"%js (f_username f) None None type_username;
             TextField "登录密码"%js (f_password f) None (if keeps_secret w then Some "已有加密凭据；全部留空则继续保留。"%js else None) type_password;
             TextAreaField "私钥"%js (f_privateKey f) None None type_privateKey;
             TextField "私钥口令"%js (f_passphrase f) (field_error w "passphrase"%js) (Some "仅用于解锁上方填写的加密私钥"%js) type_passphrase])]
  end.

(** A value that is none of the options is never reported. *)
Definition choose_driver (value : jstr) : handler unit := from_option setFormDriver (ret tt) (driver_value value).
Definition choose_scope (value : jstr) : handler unit := from_option setFormScope (ret tt) (scope_value value).

Definition connection_form (w : CP) (mode : FormMode) : markup :=
  let f := form (dialog w) in
  FormDialog
    (match mode with edit_mode => "编辑 "%js ++ from_option c_name "undefined"%js (editing (dialog w)) | create_mode => "新建连接"%js end)
    (Some "凭据只写入服务端加密存储，保存后不会返回明文。"%js) (Some "表单"%js) "保存连接"%js (saving (dialog w))
    (modify (setFormMode None)) (submit session_teams)
    (only_if (truthy (error_ (messages w))) (Notice "alert"%js (error_ (messages w)))
     ++ [Button "数据库"%js false (setFormKind database_kind);
         Button "SSH"%js false (setFormKind ssh_kind);
         TextField "连接名称"%js (f_name f) (field_error w "name"%js) None type_name;
         Words "驱动"%js;
         SelectControl "连接驱动"%js (connection_driver_text (f_driver f))
           (match f_kind f with ssh_kind => sshDriverOptions | database_kind => driverOptions end) false choose_driver;
         Words "范围"%js;
         SelectControl "连接范围"%js (scope_text (f_scope f)) scopeOptions false choose_scope]
     ++ team_choice w
     ++ [TextField "主机"%js (f_host f) (field_error w "host"%js) None type_host;
         TextField "端口"%js (f_port f) (field_error w "port"%js) None type_port]
     ++ only_if (bool_decide (f_kind f = database_kind)) (TextField "数据库名"%js (f_database f) None None type_database)
     ++ credentials w).

Definition delete_connection_dialog (c : Connection) : markup :=
  ConfirmDialog ("删除连接 "%js ++ c_name c ++ "？"%js)
    "这个操作只删除 Ops Console 中保存的连接记录，不会删除任何外部数据库或服务器。"%js "删除连接"%js true
    (modify (setDeleteTarget None)) (confirmDelete session_teams).

Definition ConnectionsPage (w : CP) : markup :=
  Group
    ([Words "连接中心"%js; Words ("统一管理数据库与 SSH 入口 · "%js ++ count_text (length (connections (listing w))) ++ " 个连接"%js);
      TerminalInlineAction "新建连接"%js false (openCreate database_kind)]
     ++ feedback w
     ++ [TerminalCommandFilter "筛选连接"%js (query (filters w))
           ["类型："%js ++ from_option kind_text "全部"%js (kind_filter (filters w));
            "范围："%js ++ from_option scope_text "全部"%js (scope_filter (filters w))] (λ x, modify (setQuery x));
         connection_table w]
     ++ only_some (formMode (dialog w)) (connection_form w)
     ++ only_some (deleteTarget (listing w)) delete_connection_dialog).

(** The effect of the visible connections. *)
Definition page_after (w : CP) : CP := setSelectedConnectionId (keep_selected (visible w)) w.
End page.
