(* ===== verification/ConnectionsViewProps.v ===== *)
(** * What the connection center lets one do *)
From S2P Require Import Prelude JsString JsNumber Schema JsValue Http Api Connections ConnectionsProps Async ConnectionsPage View Elements Ui Controls ControlViews ConnectionsView.
#[local] Open Scope async_scope.

Section page.
Context `{Unicode} (session_teams : list TeamSummary).
#[local] Abbreviation page := (ConnectionsPage session_teams).

Definition valid (c : Connection) : Prop := isValidKindDriver (c_kind c) (c_driver c) = true.
Definition valid_form (f : ConnectionFormValue) : Prop := isValidKindDriver (f_kind f) (f_driver f) = true.

(** The server keeps connections whose driver is of their kind. *)
Definition lists_valid (_ : PageCall) (r : PageReply + PageError) : Prop :=
  match r with inl (RLoaded items _) => Forall valid items | _ => True end.

Definition page_ok (w : CP) : Prop :=
  Forall valid (connections (listing w))
  ∧ valid_form (form (dialog w))
  ∧ (formMode (dialog w) = Some edit_mode → ∃ c, editing (dialog w) = Some c ∧ valid c).

(** The dialogs that are shown. *)
Abbreviation dialogs w := (regions "dialog"%js (page w)).

(** A connection is removed under the confirmation that names it, changed under the form
    that names it, and made under the form of a new one. *)
Definition page_call_ok (w : CP) (c : PageCall) : Prop :=
  let valid_input i := isValidKindDriver (sv_kind (si_connection i)) (sv_driver (si_connection i)) = true in
  match c with
  | load_all => True
  | remove_connection id => ∃ c, c_id c = id ∧ ("删除连接 "%js ++ c_name c ++ "？"%js) ∈ dialogs w
  | update_connection id input => valid_input input ∧ ∃ c, c_id c = id ∧ ("编辑 "%js ++ c_name c) ∈ dialogs w
  | create_connection input => valid_input input ∧ "新建连接"%js ∈ dialogs w
  end.

Lemma delete_shown w c : deleteTarget (listing w) = Some c → ("删除连接 "%js ++ c_name c ++ "？"%js) ∈ dialogs w.
Proof.
  intros Hc. unfold page, ConnectionsPage, Group. rewrite Hc. apply (elem_of_regions _ _ _ _ (delete_connection_dialog session_teams c)); [|by left].
  rewrite !elem_of_app. do 4 right. by left.
Qed.
Lemma form_shown w mode : formMode (dialog w) = Some mode →
  (match mode with edit_mode => "编辑 "%js ++ from_option c_name "undefined"%js (editing (dialog w)) | create_mode => "新建连接"%js end) ∈ dialogs w.
Proof.
  intros Hm. unfold page, ConnectionsPage, Group. rewrite Hm. apply (elem_of_regions _ _ _ _ (connection_form session_teams w mode)); [|by left].
  rewrite !elem_of_app. do 3 right. left. by left.
Qed.

#[local] Abbreviation safe w m := (proper lists_valid page_ok page_call_ok w m).
#[local] Abbreviation always_safe m := (proper_always lists_valid page_ok page_call_ok m).
Ltac split_page := lazymatch goal with H : page_ok _ |- page_ok _ => destruct H as (? & ? & ?) end; split_and!; cbn; try done.

Lemma load_safe : always_safe (load session_teams).
Proof. intros w Hw. unfold load. repeat proper_step; try done; by split_page. Qed.

Lemma edited_mode w c : edited w = Some c → formMode (dialog w) = Some edit_mode ∧ editing (dialog w) = Some c.
Proof. unfold edited. by destruct (formMode (dialog w)) as [[|]|]. Qed.
Lemma created_mode w : page_ok w → is_Some (formMode (dialog w)) → edited w = None → formMode (dialog w) = Some create_mode.
Proof.
  intros (_ & _ & He) [mode Hm]. unfold edited. rewrite Hm. destruct mode; [done|]. intros Hn.
  destruct (He Hm) as (c & Hc & _). congruence.
Qed.
Lemma saved_driver v l e i : valid_form v → toSaveInput v l e = inl i → isValidKindDriver (sv_kind (si_connection i)) (sv_driver (si_connection i)) = true.
Proof. intros Hv. unfold toSaveInput. case_bool_decide; [|done]. by intros [= <-]. Qed.

Lemma submit_safe w : page_ok w → is_Some (formMode (dialog w)) → safe w (submit session_teams).
Proof.
  intros Hw Hm. pose proof Hw as (_ & Hf & _). unfold submit, clear_messages. repeat proper_step; try done; try by split_page.
  - split; [by eapply saved_driver|]. destruct (edited_mode w c) as [H1 H2]; [done|]. exists c. split; [done|].
    pose proof (form_shown (setSuccess [] (setError [] (setFieldErrors ∅ (setSaving true w)))) edit_mode) as Hs. cbn in Hs. rewrite H2 in Hs. by apply Hs.
  - apply load_safe. split_page.
  - split; [by eapply saved_driver|]. by apply (form_shown (setSuccess [] (setError [] (setFieldErrors ∅ (setSaving true w)))) create_mode), created_mode.
  - apply load_safe. split_page.
Qed.
Lemma delete_safe w : page_ok w → safe w (confirmDelete session_teams).
Proof.
  intros Hw. unfold confirmDelete, clear_messages. repeat proper_step; try done; try by split_page.
  - exists c. split; [done|]. by apply delete_shown.
  - apply load_safe. split_page.
Qed.

(** ** What is offered *)

Lemma create_safe kind : always_safe (openCreate kind).
Proof. intros w Hw. unfold openCreate, clear_messages. repeat proper_step. split_page. by destruct kind. Qed.
Lemma edit_safe c : valid c → always_safe (openEdit c).
Proof. intros Hc w Hw. unfold openEdit, clear_messages. repeat proper_step. split_page. by exists c. Qed.
(** An event of the form that leaves a driver of its kind. *)
Lemma set_form_safe f : (∀ x, valid_form x → valid_form (f x)) → always_safe (modify (setForm f)).
Proof. intros Hf w Hw. apply proper_modify. split_page. by apply Hf. Qed.

Lemma driver_options_valid f o : o ∈ (match f_kind f with ssh_kind => sshDriverOptions | database_kind => driverOptions end) →
  ∃ d, driver_value o.1 = Some d ∧ isValidKindDriver (f_kind f) d = true.
Proof.
  destruct (f_kind f); unfold driverOptions, sshDriverOptions; rewrite !elem_of_cons, elem_of_nil; intros Ho; destruct_or! Ho; try done; subst o; by eexists.
Qed.

Lemma form_safe w mode : page_ok w → formMode (dialog w) = Some mode → every (λ m, safe w m) (connection_form session_teams w mode).
Proof.
  intros Hw Hm. unfold connection_form, team_choice, credentials.
  assert (Ht : ∀ g : ConnectionFormValue → ConnectionFormValue, (∀ x, f_kind (g x) = f_kind x) → (∀ x, f_driver (g x) = f_driver x) →
    safe w (set_form g)).
  { intros g Hk Hd. apply set_form_safe; [|done]. intros x. unfold valid_form. by rewrite Hk, Hd. }
  elements. split_and!; try done; try (intros x; by apply Ht).
  - apply proper_modify. split_page.
  - intros _. apply submit_safe; [done|by eexists].
  - intros _. by apply set_form_safe.
  - intros _. by apply set_form_safe.
  - intros _ o (d & Hd & Hv)%driver_options_valid. unfold choose_driver. rewrite Hd. apply proper_modify. split_page.
  - intros _ o _. unfold choose_scope, setFormScope. destruct (scope_value o.1); [|by apply proper_ret]. cbn. apply proper_state_bind. by apply Ht.
  - destruct (f_scope _); elements; [done|]. split_and!; try done. intros _ o _. by apply Ht.
  - intros Hk x. by apply Ht.
  - destruct (f_kind _); elements; split_and!; try done; intros x; by apply Ht.
Qed.

Lemma visible_valid w c : page_ok w → c ∈ visible w → valid c.
Proof. intros (Hl & _) [Hc _]%elem_of_filterb. by eapply Forall_forall in Hl. Qed.

Lemma page_safe w : page_ok w → every (λ m, safe w m) (page w).
Proof.
  intros Hw. unfold page, ConnectionsPage, feedback, connection_table. elements. split_and!; try done.
  - intros _. by apply create_safe.
  - destruct (formMode _); elements; tauto.
  - intros x. apply proper_modify. split_page.
  - destruct (loading _); [done|]. destruct (visible w) as [|c l] eqn:Ev.
    + unfold no_connections. destruct (hasActiveFilters w); elements; (split; [intros _|done]).
      * unfold clear_filters. repeat proper_step; split_page.
      * by apply create_safe.
    + elements. split_and!; try done. intros v _. unfold connection_row. elements. split_and!; try done; apply proper_modify; split_page.
  - intros mode Hm. by apply form_safe.
  - intros c Hc. unfold delete_connection_dialog. elements. split; [apply proper_modify; split_page|by apply delete_safe].
Qed.

Lemma slots_safe r w : page_ok r → page_ok w → every (λ m, safe w m) (connection_slots r).
Proof.
  intros Hr Hw. unfold connection_slots, sidebarContent, connectionContext. elements. split_and!; try done.
  1-2: intros i _; unfold kind_button, scope_button; elements; split; [|done].
  1-5: intros _; apply proper_modify; split_page.
  intros c [Hc _]%find_first_Some. elements. split_and!; try done; intros _.
  - apply edit_safe; [|done]. by apply (visible_valid r).
  - apply proper_modify. split_page.
Qed.

Lemma page_after_ok w : page_ok w → page_ok (page_after w).
Proof. intros Hw. unfold page_after. split_page. Qed.

(** C11. The connection center makes no call that is not the one shown.  From any state in
    which the connections have drivers of their kind, and under every interleaving of what
    the page and any earlier rendering of its filters and details offer with replies of such
    connections, a connection is removed only while the confirmation that names it is shown,
    changed only while the form that names it is shown, and made only while the form of a new
    one is; and what is sent has a driver of its kind. *)
Theorem connections_guarded w x y st c :
  page_ok w →
  rtc (ui_next page (λ r _, connection_slots r) page_after lists_valid) (MkUi w [w] []) x →
  ui_step page (λ r _, connection_slots r) page_after lists_valid x y st (Some c) → page_call_ok st c.
Proof.
  intros Hw. apply (ui_calls page (λ r _, connection_slots r) page_after lists_valid page_ok page_call_ok page_ok);
    [done|exact page_after_ok|exact page_safe|exact slots_safe|by apply ui_start].
Qed.

(** ** Refusals *)

Lemma form_texts w mode m : formMode (dialog w) = Some mode →
  m ∈ texts (connection_form session_teams w mode) → m ∈ texts (page w).
Proof.
  intros Hm Hx. unfold page, ConnectionsPage, Group. rewrite Hm. apply (elem_of_texts _ _ _ (connection_form session_teams w mode)); [|done].
  rewrite !elem_of_app. do 3 right. left. by left.
Qed.

Lemma form_errors_message v l e key m : form_errors v l e !! key = Some m → m ≠ [].
Proof.
  assert (Hc : ∀ b k s fields, s ≠ [] → (∀ key m, fields !! key = Some m → m ≠ []) → ∀ key m, check b k s fields !! key = Some m → m ≠ []).
  { intros [] k s fields Hs Hf key' m'; cbn; [|apply Hf]. intros [[_ <-]|[_ Hk]]%lookup_insert_Some; [done|by eapply Hf]. }
  unfold form_errors. revert key m. do 7 (apply Hc; [done|]). done.
Qed.

Ltac in_form v := apply (shown_in_dialog _ _ _ _ _ _ _ _ v); [rewrite !elem_of_app, !elem_of_cons; tauto|].
(** Where the form shows the message of a field. *)
Lemma message_shown w mode key m :
  valid_form (form (dialog w)) → refused (form (dialog w)) (adminTeams w) (from_option c_hasSecret false (edited w)) key →
  field_error w key = Some m → m ≠ [] → m ∈ texts (connection_form session_teams w mode).
Proof.
  intros Hv Hr Hk Hm. unfold connection_form, team_choice, credentials.
  destruct Hr as [_|_|Hd|Hs _|Hs _ _|Hs _ _ _|_]; rewrite ?Hs, ?Hk; cbn [only_some].
  - in_form (TextField "连接名称"%js (f_name (form (dialog w))) (Some m) None type_name). by apply shown_error.
  - in_form (TextField "主机"%js (f_host (form (dialog w))) (Some m) None type_host). by apply shown_error.
  - unfold valid_form in Hv. destruct (f_kind _), (f_driver _); naive_solver.
  - in_form (Words (E := handler unit) m). by left.
  - eapply shown_in_dialog; [rewrite !elem_of_app; do 5 right; by left|]. eapply elem_of_texts.
    + rewrite !elem_of_app. do 2 right. do 3 (apply elem_of_cons; right). by left.
    + by apply shown_error.
  - eapply shown_in_dialog; [rewrite !elem_of_app; do 5 right; by left|]. apply (elem_of_texts _ _ _ (Notice "alert"%js m)); [|by left].
    rewrite !elem_of_app. right. by do 2 left.
  - in_form (TextField "端口"%js (f_port (form (dialog w))) (Some m) None type_port). by apply shown_error.
Qed.

(** C12. A form that breaks a rule is explained: its submission makes no call, leaves the form
    open with what was typed, and shows the message of every field that is refused. *)
Theorem refusals_explained w mode fields :
  valid_form (form (dialog w)) → formMode (dialog w) = Some mode →
  toSaveInput (form (dialog w)) (adminTeams w) (from_option c_hasSecret false (edited w)) = inr fields →
  let '(w', t) := run (submit session_teams) w in
  t = Finished ∧ formMode (dialog w') = Some mode ∧ form (dialog w') = form (dialog w)
  ∧ ∀ key m, fields !! key = Some m → m ∈ texts (page w').
Proof.
  intros Hv Hm Hf. destruct (run (submit session_teams) w) as [w' t] eqn:Er.
  unfold submit, run, bind, modify, state, finally, catch in Er. rewrite Hf in Er. cbn in Er. injection Er as <- <-.
  split_and!; [done..|]. intros key m Hk.
  unfold toSaveInput in Hf. case_bool_decide; [done|]. injection Hf as <-.
  eapply form_texts; [done|]. eapply message_shown; [done|apply form_errors_spec; by exists m|done|by eapply form_errors_message].
Qed.
End page.

(** ** Sessions with the page *)

#[local] Existing Instance ascii_unicode.

Definition team_db : Connection :=
  MkConnection "c"%js "prod"%js database_kind (db_driver postgres) team (Some "other"%js) None "h"%js (num 5432) ∅ true.
Definition ops_team : TeamSummary := MkTeam "t"%js "ops"%js "admin"%js.
(** The page with a connection of a team the user does not manage. *)
Definition one_connection : CP := setConnections [team_db] (setLoading false (initial_CP [ops_team])).

Lemma connections_guarded_witness :
  let w := setDeleteTarget (Some team_db) one_connection in
  ∃ y st, ui_step (ConnectionsPage [ops_team]) (λ r _, connection_slots r) page_after lists_valid (MkUi w [w] []) y st (Some (remove_connection "c"%js))
    ∧ page_call_ok [ops_team] st (remove_connection "c"%js).
Proof.
  intros w. assert (Hw : page_ok w) by (split_and!; [by repeat constructor|done|done]).
  destruct (run (confirmDelete [ops_team]) w) as [st t] eqn:Er.
  assert (Hs : ui_step (ConnectionsPage [ops_team]) (λ r _, connection_slots r) page_after lists_valid (MkUi w [w] [])
    (commit_at page_after (MkUi w [w] []) st ([] ++ [t])) st (Some (remove_connection "c"%js))).
  { assert (Ht : awaited t = Some (remove_connection "c"%js)) by (by injection Er as <- <-). rewrite <- Ht.
    apply (ui_page _ _ _ _ (MkUi w [w] []) (confirmDelete [ops_team])); [|exact Er]. apply press_offered with (label := "删除连接"%js). by vm_compute. }
  eexists _, st. split; [exact Hs|]. exact (connections_guarded [ops_team] w _ _ _ _ Hw (rtc_refl _ _) Hs).
Defined.

(** The form of that connection, and its refusal. *)
Definition editing_team_db : CP := (run (openEdit team_db) one_connection).1.
Lemma refusals_explained_witness :
  let w' := (run (submit [ops_team]) editing_team_db).1 in "请选择你管理的团队"%js ∈ texts (ConnectionsPage [ops_team] w').
Proof.
  intros w'.
  assert (Hf : toSaveInput (form (dialog editing_team_db)) (adminTeams editing_team_db) (from_option c_hasSecret false (edited editing_team_db))
    = inr {["teamId"%js := "请选择你管理的团队"%js]}) by (by vm_compute).
  pose proof (refusals_explained [ops_team] editing_team_db edit_mode _ (eq_refl : valid_form (form (dialog editing_team_db))) eq_refl Hf) as Hx.
  unfold w'. destruct (run (submit [ops_team]) editing_team_db) as [v t]. destruct Hx as (_ & _ & _ & Hx). by apply (Hx "teamId"%js).
Defined.

(** The list of teams holds those the user manages, and shows its first option when the team
    of the connection is not among them: the form shows a team the connection is not of, and
    is refused for its team. *)
Example another_team_shown :
  let options := (λ t, MkOption (tm_id t) (tm_name t)) <$> adminTeams editing_team_db in
  head (texts (SelectView "连接团队"%js options false (MkSelect (f_teamId (form (dialog editing_team_db))) false 0))) = Some "ops"%js
  ∧ c_teamId team_db ≠ Some (tm_id ops_team).
Proof. split; [by vm_compute|done]. Qed.
