(* ===== verification/Shell.v ===== *)
(** * The shell around the pages

    [src/web/src/layout/]: the navigation of [UnifiedShell.tsx], the command bar of
    [CommandBar.tsx]; [src/web/src/storage/theme.ts]; and the menus of
    [src/web/src/features/explorer/ObjectTree.tsx] and
    [src/web/src/features/connections/DatabaseSwitcher.tsx]. *)
From S2P Require Import Prelude JsString Api TableQuery Auth AuthProps.

(** ** Navigation *)

Record NavItem := MkNavItem { nav_to : jstr; nav_label : jstr }.

Definition modules : list NavItem :=
  [MkNavItem "/connections"%js "连接中心"%js; MkNavItem "/database"%js "数据库"%js; MkNavItem "/logs"%js "日志"%js; MkNavItem "/settings"%js "设置"%js].
Definition settings : list NavItem :=
  [MkNavItem "/settings/profile"%js "个人资料"%js; MkNavItem "/settings/teams"%js "团队"%js; MkNavItem "/settings/users"%js "用户"%js].

Definition ends_with (suffix s : jstr) : bool := bool_decide (drop (length s - length suffix) s = suffix).

(** The settings pages whose links a session is shown at a path. *)
Definition settings_links (session : option AuthSession) (path : jstr) : list NavItem :=
  let admin := from_option is_admin false session in
  let teamAdmin := from_option is_team_admin false session in
  if starts_with "/settings"%js path then
    filterb (λ item,
      if ends_with "/users"%js (nav_to item) && negb admin then false
      else if ends_with "/teams"%js (nav_to item) && negb admin && negb teamAdmin then false
      else true) settings
  else [].

(** ** The command bar *)

Record Command := MkCommand { cmd_label : jstr; cmd_to : jstr; cmd_keywords : jstr }.
Definition shell_commands : list Command :=
  [MkCommand "连接中心"%js "/connections"%js "连接 新建 connection"%js;
   MkCommand "数据库"%js "/database"%js "数据库 查询 sql table"%js;
   MkCommand "日志"%js "/logs"%js "日志 log 搜索"%js;
   MkCommand "设置"%js "/settings/profile"%js "设置 用户 团队 profile"%js].

Definition routeLabels (path : jstr) : option jstr :=
  snd <$> find_first (λ x, bool_decide (x.1 = path))
    [("/connections"%js, "连接中心"%js); ("/database"%js, "数据库"%js); ("/logs"%js, "日志"%js); ("/settings"%js, "设置"%js);
     ("/settings/profile"%js, "个人资料"%js); ("/settings/teams"%js, "团队"%js); ("/settings/users"%js, "用户"%js)].

Definition breadcrumb (pathname : jstr) : list jstr :=
  if starts_with "/settings/"%js pathname then ["设置"%js; default "设置"%js (routeLabels pathname)]
  else
    let root := "/"%js ++ from_option id [] (head (filterb truthy (split "/"%js pathname))) in
    match (match routeLabels root with Some l => Some l | None => routeLabels pathname end) with
    | Some l => if truthy l then [l] else ["Ops Console"%js]
    | None => ["Ops Console"%js]
    end.

Section command_bar.
Context `{Unicode}.
Definition command_matches (query : jstr) : list Command :=
  let needle := toLowerCase (trim query) in
  if truthy needle
  then filterb (λ c, includes needle (toLowerCase (cmd_label c ++ " "%js ++ cmd_keywords c))) shell_commands
  else [].
End command_bar.

Record Bar := MkBar { bar_query : jstr; announcement : jstr }.
(** Running a command opens its page. *)
Definition runCommand (c : Command) (bw : Bar * AW) : Bar * AW :=
  (MkBar [] ("已打开 "%js ++ cmd_label c), navigate (cmd_to c) None bw.2).
(** Following a link. *)
Definition follow (item : NavItem) (w : AW) : AW := navigate (nav_to item) None w.

(** ** Themes *)

Inductive ThemeId := dark | slate | light | paper | ocean.
#[export] Instance ThemeId_eq_dec : EqDecision ThemeId.
Proof. solve_decision. Defined.
Definition theme_text (t : ThemeId) : jstr :=
  match t with dark => "dark" | slate => "slate" | light => "light" | paper => "paper" | ocean => "ocean" end%js.
Definition THEME_OPTIONS : list (ThemeId * jstr) :=
  [(dark, "深空黑"%js); (slate, "石墨灰"%js); (light, "云白"%js); (paper, "暖纸色"%js); (ocean, "浅海蓝"%js)].
(** The item of local storage, if there is one. *)
Definition getTheme (stored : option jstr) : ThemeId :=
  match find_first (λ item, bool_decide (Some (theme_text item.1) = stored)) THEME_OPTIONS with
  | Some item => item.1
  | None => light
  end.
Definition saveTheme (t : ThemeId) : option jstr := Some (theme_text t).
Definition isDarkTheme (t : ThemeId) : bool := match t with dark | slate => true | _ => false end.
Inductive EditorTheme := vs_dark | vs_light.
Definition editorThemeFor (t : ThemeId) : EditorTheme := if isDarkTheme t then vs_dark else vs_light.

Lemma theme_roundtrip t : getTheme (saveTheme t) = t.
Proof. by destruct t; vm_compute. Qed.

(** ** Menus *)

Inductive TreeAction := NewQuery | OpenStructure | DeleteTable.
(** An entry, or a separator. *)
Definition tree_menu (objectLabel : jstr) (sqlFeatures : bool) : list (option (jstr * TreeAction)) :=
  (if sqlFeatures then [Some ("新建查询"%js, NewQuery); None] else [])
  ++ [Some (if bool_decide (objectLabel = "集合"%js) then "打开集合结构"%js else "打开表结构"%js, OpenStructure)]
  ++ (if sqlFeatures then [None; Some ("删除"%js ++ objectLabel, DeleteTable)] else []).
Definition tree_tables (objects : list DatabaseObject) : list DatabaseObject :=
  filterb (λ o, match o_kind o with KTable => true | _ => false end) objects.

Inductive DatabaseAction := CreateTable | DeleteDatabase.
Definition database_menu (driver : DriverId) : list (option (jstr * DatabaseAction)) :=
  if isSqlDriver (Some driver) then [Some ("新建表"%js, CreateTable); None; Some ("删除库"%js, DeleteDatabase)] else [].
Record DatabaseItem := MkDatabaseItem { di_name : jstr; di_label : jstr; di_active : bool; di_disabled : bool }.
Definition database_item (driver : DriverId) (current : jstr) (busy : bool) (name : jstr) : DatabaseItem :=
  let active := bool_decide (name = current) in
  MkDatabaseItem name (match driver with redis => "DB "%js ++ name | _ => name end) active (busy || active).
Definition database_subtitle (driver : DriverId) : jstr :=
  match driver with
  | redis => "Redis DB 索引 0–15" | mongodb => "MongoDB 实例内切换" | postgres => "PostgreSQL 实例内切换"
  | mysql => "MySQL 实例内切换"
  end%js.

(** ** Links lead to pages *)

(** The paths of the links are those of the router. *)
Definition links_match (match_route : jstr → Route) : Prop :=
  match_route "/connections"%js = ConnectionsRoute ∧ match_route "/database"%js = DatabaseRoute
  ∧ match_route "/logs"%js = LogsRoute ∧ match_route "/settings"%js = SettingsIndex
  ∧ match_route "/settings/profile"%js = ProfileRoute ∧ match_route "/settings/teams"%js = TeamsRoute
  ∧ match_route "/settings/users"%js = UsersRoute.

Section links.
Context (match_route : jstr → Route) (Hlinks : links_match match_route).

Lemma settle_page n w r : AppRouter match_route w = Page r → settle match_route n w = (w, Page r).
Proof. intros E. by destruct n; cbn; rewrite E. Qed.
Lemma settle_redirect n w path o : AppRouter match_route w = Navigate path o →
  settle match_route (S n) w = settle match_route n (navigate path o w).
Proof. intros E. cbn. by rewrite E. Qed.

(** The element of a path for a session. *)
Lemma open_path path w s : status (provider w) = auth_ready → session (provider w) = Some s →
  AppRouter match_route (navigate path None w) =
    match match_route path with
    | LoginRoute | IndexRoute => Navigate "/connections"%js None
    | UnknownRoute => Navigate "/"%js None
    | SettingsIndex => Navigate "/settings/profile"%js None
    | UsersRoute => SettingsUsersGuard (Some s)
    | TeamsRoute => SettingsTeamsGuard (Some s)
    | r => Page r
    end.
Proof.
  intros Hst Hse. destruct w as [p loc lf]. cbn in Hst, Hse. unfold AppRouter, element, RequireAuth, in_settings. cbn.
  rewrite Hst, Hse. by destruct (match_route path).
Qed.

(** Every link of the navigation, and every command that a search finds, shows its page
    to a session: modules and commands at once or, for the settings, after one redirection to
    the profile; and at a settings page the list of settings offers a page exactly when the
    session may see it, so that none of its links is redirected. *)
Theorem links_lead_to_pages `{Unicode} w s item :
  status (provider w) = auth_ready → session (provider w) = Some s →
  (item ∈ modules → ∃ r, (settle match_route 1 (follow item w)).2 = Page r ∧ permitted (Some s) r)
  ∧ (∀ query c b, c ∈ command_matches query →
       ∃ r, (settle match_route 0 (runCommand c (b, w)).2).2 = Page r ∧ match_route (cmd_to c) = r)
  ∧ (∀ path, starts_with "/settings"%js path = true → item ∈ settings →
       (item ∈ settings_links (session (provider w)) path ↔ permitted (Some s) (match_route (nav_to item)))
       ∧ (item ∈ settings_links (session (provider w)) path →
            AppRouter match_route (follow item w) = Page (match_route (nav_to item)))).
Proof.
  intros Hst Hse. destruct Hlinks as (Hc & Hd & Hl & Hs & Hp & Ht & Hu).
  assert (Hopen := λ path, open_path path w s Hst Hse). split_and!.
  - intros Hi. repeat (apply elem_of_cons in Hi as [->|Hi]); [..|by apply not_elem_of_nil in Hi]; unfold follow; cbn [nav_to].
    1-3: erewrite settle_page by (rewrite Hopen, ?Hc, ?Hd, ?Hl; reflexivity); eexists; (split; [reflexivity|by eexists]).
    erewrite settle_redirect by (rewrite Hopen, Hs; reflexivity).
    rewrite (settle_page _ _ ProfileRoute) by (rewrite (open_path _ _ s) by done; by rewrite Hp).
    eexists; split; [reflexivity|by eexists].
  - intros query c b Hin. unfold command_matches in Hin. destruct (truthy _); [|by apply not_elem_of_nil in Hin].
    apply elem_of_filterb in Hin as [Hin _].
    repeat (apply elem_of_cons in Hin as [->|Hin]); [..|by apply not_elem_of_nil in Hin]; unfold runCommand; cbn [cmd_to snd];
      erewrite settle_page by (rewrite Hopen, ?Hc, ?Hd, ?Hl, ?Hp; reflexivity); eexists; (split; [reflexivity|done]).
  - intros path Hpath Hi. rewrite Hse. unfold settings_links, follow. rewrite Hpath, elem_of_filterb, Hopen. cbn [from_option].
    repeat (apply elem_of_cons in Hi as [->|Hi]); [..|by apply not_elem_of_nil in Hi]; cbn [nav_to]; rewrite ?Hp, ?Ht, ?Hu;
      cbn [permitted]; unfold SettingsTeamsGuard, SettingsUsersGuard; cbn [from_option];
      destruct (is_admin s) eqn:Ea, (is_team_admin s) eqn:Et; cbn;
      (split; [|intros [_ Hshown]; first [discriminate Hshown|reflexivity]]);
      (split; [intros [_ Hshown]; try discriminate Hshown; eexists; rewrite ?Ea, ?Et; done|intros Hok]);
      try (split; [set_solver|done]);
      destruct Hok as (s' & E & Hok); injection E as <-; rewrite ?Ea, ?Et in Hok; discriminate Hok.
Qed.
End links.

Definition link_routes (path : jstr) : Route :=
  if bool_decide (path = "/connections"%js) then ConnectionsRoute else if bool_decide (path = "/database"%js) then DatabaseRoute
  else if bool_decide (path = "/logs"%js) then LogsRoute else if bool_decide (path = "/settings"%js) then SettingsIndex
  else if bool_decide (path = "/settings/profile"%js) then ProfileRoute else if bool_decide (path = "/settings/teams"%js) then TeamsRoute
  else if bool_decide (path = "/settings/users"%js) then UsersRoute else UnknownRoute.

Lemma links_lead_to_pages_witness :
  let w := MkAW (MkProvider (Some sample_session) auth_ready [] []) (MkLocation "/settings"%js None) (MkLoginForm [] [] [] false) in
  MkNavItem "/settings/users"%js "用户"%js ∉ settings_links (session (provider w)) "/settings"%js.
Proof.
  intros w Hin. destruct (links_lead_to_pages (H := ascii_unicode) link_routes ltac:(by vm_compute) w sample_session (MkNavItem "/settings/users"%js "用户"%js))
    as (_ & _ & H); [done|done|]. destruct (H "/settings"%js) as [[H1 _] _]; [done|set_solver|].
  destruct (H1 Hin) as (s' & [= <-] & Ha). discriminate Ha.
Defined.
