(* ===== verification/WorkbenchPanels.v ===== *)
(** * The components of the workbench

    The elements of [RiskDialog.tsx], [CreateTableDialog.tsx], [DatabaseSwitcher.tsx],
    [ObjectTree.tsx], [DatabaseResourceRail.tsx], [ResultGrid.tsx], [HistoryPanel.tsx] and
    [SqlEditor.tsx] under [src/web/src/features/].  Their events are those of the page that
    shows them. *)
From S2P Require Import Prelude JsString JsNumber JsValue Api Schema Ddl Risk Connections TableQuery Tabs CreateTable History Controls ControlViews Shell DatabasePage MongoViews View Elements.

Section panels.
Context {E : Type}.

(** ** RiskDialog.tsx *)

Definition RiskDialog (risk : QueryRisk) (typed : jstr) (setTarget : jstr → E) (onCancel : E) (onConfirm : jstr → E) : view E :=
  let typing := bool_decide (level risk = TypeTarget) in
  Region "dialog"%js "确认危险操作"%js
    ([Words "危险操作"%js; Words "确认执行这条 SQL？"%js;
      Words (match reason risk with Some r => r | None => "此操作可能修改或删除大量数据。"%js end)]
     ++ only_if typing (Group [Words "输入对象名称"%js; Words (default [] (target risk)); Field [] typed false setTarget])
     ++ [Button "取消"%js false onCancel;
         Button "确认执行"%js (typing && negb (bool_decide (Some typed = target risk))) (onConfirm typed)]).

(** ** CreateTableDialog.tsx *)

Definition create_row `{Unicode} (driver : SqlDriver) (w : CreateDialog) (change : (CreateDialog → CreateDialog) → E) (index : nat)
    (column : CreateTableColumnDraft) : view E :=
  let n := dec_Z (Z.of_nat index + 1) in
  let edit p := change (changeColumn index p) in
  Region "listitem"%js []
    [Words n;
     Field ("字段名 "%js ++ n) (cd_name column) false (λ x, edit (SetName x));
     ComboboxControl ("数据类型 "%js ++ n) (cd_type column)
       ((λ o, (so_value o, so_label o)) <$> buildColumnTypeOptions driver (cd_type <$> columns w)) false (λ x, edit (SetType x));
     Tick ("主键 "%js ++ n) (cd_primary column) false (λ b, edit (SetPrimary b));
     Field ("备注 "%js ++ n) (cd_comment column) false (λ x, edit (SetComment x));
     Button ("删除字段 "%js ++ (if truthy (cd_name column) then cd_name column else n)) (negb (can_remove w)) (change (removeColumn index))].
Definition CreateTableDialog `{Unicode} (database : jstr) (driver : SqlDriver) (w : CreateDialog)
    (change : (CreateDialog → CreateDialog) → E) (onSubmit onClose : E) : view E :=
  On EscapeKey onClose
    (Region "dialog"%js "新建表"%js
      ([Words "新建表"%js; Words ("在数据库「"%js ++ database ++ "」中创建新表，填写表名与字段信息。"%js);
        Button "关闭新建表"%js false onClose;
        Field "表名"%js (tableName w) false (λ x, change (type_table_name x));
        Button "新增字段"%js false (change (addColumn driver));
        Region "list"%js [] (imap (create_row driver w change) (columns w));
        Words (if truthy (dialog_error w) then dialog_error w else "字段类型可直接输入或从下拉选择；主键仅建议设置一列。"%js);
        Button "取消"%js false onClose;
        Button "创建表"%js (negb (can_submit w)) onSubmit])).

(** ** DatabaseSwitcher.tsx *)

(** The state is whether the list is expanded, and the database whose menu is open.  The
    deletion asks. *)
Definition database_option (driver : DriverId) (current : jstr) (busy : bool) (setMenu : option jstr → E) (onSwitch : jstr → E)
    (name : jstr) : view E :=
  let item := database_item driver current busy name in
  On RightClick (setMenu (Some name))
    (Group (Button (di_label item) (di_disabled item) (onSwitch name) :: only_if (di_active item) (Words "当前"%js))).
Definition DatabaseSwitcher (driver : DriverId) (current : jstr) (databases : list jstr) (busy expanded : bool) (menu : option jstr)
    (toggle : E) (setMenu : option jstr → E) (andClose : E → E)
    (onSwitch onCreateTable : jstr → E) (onDeleteDatabase : jstr → option jstr → E) : view E :=
  Group
    ([Words (match driver with redis => "DB 索引"%js | _ => "数据库"%js end); Words (database_subtitle driver);
      Button (if expanded then "收起数据库列表"%js else "展开数据库列表"%js) false toggle]
     ++ only_if expanded
          (Region "listbox"%js "数据库列表"%js
            (only_if (bool_decide (databases = [])) (Words "正在加载数据库列表…"%js)
             ++ (database_option driver current busy setMenu onSwitch <$> databases)))
     ++ only_some menu (λ database,
          ContextMenu []
            ((λ x : option (jstr * DatabaseAction),
                match x with
                | None => (MkMenuItem [] false true, None)
                | Some (label, action) =>
                    (MkMenuItem label false false,
                     Some (λ answer, match action with Shell.CreateTable => onCreateTable database | DeleteDatabase => onDeleteDatabase database answer end))
                end) <$> database_menu driver)
            (setMenu None) andClose)).

(** ** ObjectTree.tsx *)

Definition tree_item (setMenu : option DatabaseObject → E) (onOpenTable : DatabaseObject → E) (table : DatabaseObject) : view E :=
  On RightClick (setMenu (Some table)) (Button (o_name table) false (onOpenTable table)).
Definition ObjectTree (objects : list DatabaseObject) (objectLabel : jstr) (sqlFeatures : bool) (menu : option DatabaseObject)
    (setMenu : option DatabaseObject → E) (andClose : E → E)
    (onOpenTable onOpenTableStructure onNewQuery : DatabaseObject → E) (onDeleteTable : DatabaseObject → option jstr → E) : view E :=
  match tree_tables objects with
  | [] => Words ("连接后在这里浏览"%js ++ objectLabel)
  | tables =>
      Group
        ([Region "tree"%js "数据库对象"%js (tree_item setMenu onOpenTable <$> tables)]
         ++ only_some menu (λ table,
              ContextMenu []
                ((λ x : option (jstr * TreeAction),
                    match x with
                    | None => (MkMenuItem [] false true, None)
                    | Some (label, action) =>
                        (MkMenuItem label false false,
                         Some (λ answer, match action with
                                         | NewQuery => onNewQuery table
                                         | OpenStructure => onOpenTableStructure table
                                         | DeleteTable => onDeleteTable table answer
                                         end))
                    end) <$> tree_menu objectLabel sqlFeatures)
                (setMenu None) andClose))
  end.

(** ** DatabaseResourceRail.tsx *)

Definition rail_button (onSelect : WorkbenchTarget → E) (i : RailItem) : view E :=
  let c := ri_target i in
  Group
    [Button ("连接 "%js ++ wt_name c) (ri_disabled i) (onSelect c);
     Words (driverLabels (wt_driver c));
     Words (wt_host c ++ ":"%js ++ number_to_string (wt_port c)
            ++ (if truthy_value (wt_database c) then " / "%js ++ to_str (wt_database c) else []));
     Words (match ri_status i with Online => "在线"%js | Busy => "连接中"%js | Offline => "○"%js end)].
(** The page is given neither [loading] nor [error]. *)
Definition DatabaseResourceRail `{Unicode} (connections : list WorkbenchTarget) (selectedId connectingId : jstr) (connected : bool)
    (catalog : option (view E)) (query : jstr) (setQuery : jstr → E) (onSelect : WorkbenchTarget → E) : view E :=
  Group
    ([Words "DATABASES"%js; Words (dec_Z (Z.of_nat (length connections))); Anchor "管理连接"%js "/connections"%js;
      Field "搜索数据库连接"%js query false setQuery]
     ++ (match connections with
         | [] => [Words "还没有数据库连接"%js; Words "连接统一在连接中心创建和管理。"%js; Anchor "前往连接中心"%js "/connections"%js]
         | _ => only_if (bool_decide (rail_visible query connections = [])) (Words "没有匹配的连接"%js)
         end)
     ++ ((λ g, Region "region"%js (g.1 ++ "连接"%js) (Words g.1 :: Words (dec_Z (Z.of_nat (length g.2))) :: (rail_button onSelect <$> g.2)))
           <$> rail_groups query selectedId connectingId connected connections)
     ++ (if truthy selectedId && connected then option_list catalog else [])).

(** ** ResultGrid.tsx, HistoryPanel.tsx and SqlEditor.tsx *)

Definition cell_words (c : Cell) : view E :=
  Words (match c with NullCell => "NULL"%js | EmptyCell => "''"%js | TextCell t => default [] t end).
Definition ResultGrid (columns : list QueryColumn) (rows : list (list value)) : view E :=
  match columns with
  | [] => Words "查询完成后，结果会显示在这里"%js
  | _ =>
      Region "table"%js "查询结果"%js
        (((λ c, Group (Words (qc_name c) :: only_some (qc_databaseType c) Words)) <$> columns)
         ++ imap (λ i row, Region "row"%js [] (Words (dec_Z (Z.of_nat i + 1)) :: (cell_words <$> row))) (grid_rows columns rows))
  end.

(** [toLocaleString] is that of dates. *)
Definition history_item (toLocaleString : number → jstr) (onSelect onFavorite : jstr → E) (entry : HistoryEntry) : view E :=
  let e := he_entry entry in
  Group
    [Button (take 90 (collapse_ws (ne_sql e)) ++ toLocaleString (he_timestamp entry) ++ " · "%js
             ++ number_to_string (default (num 0) (ne_durationMs e)) ++ " ms"%js) false (onSelect (ne_sql e));
     Button (if he_favorite entry then "取消收藏"%js else "收藏"%js) false (onFavorite (he_id entry))].
Definition HistoryPanel (toLocaleString : number → jstr) (entries : list HistoryEntry) (onSelect onFavorite : jstr → E) : view E :=
  match entries with
  | [] => Words "执行过的 SQL 会保存在此浏览器"%js
  | _ => Group (history_item toLocaleString onSelect onFavorite <$> entries)
  end.

(** The command of the shortcut is added once, when the editor is mounted: [onExecute] is
    that of the rendering of that time. *)
Definition shortcut : jstr := "Ctrl/Cmd+Enter"%js.
Definition SqlEditor (value : jstr) (onChange : jstr → E) : view E := Field "SQL 编辑器"%js value false onChange.
Definition editor_command (onExecute : E) : view E := On (Typed shortcut) onExecute (Group []).
End panels.
