(* ===== verification/Slots.v ===== *)
(** * What pages give the shell

    [src/web/src/layout/UnifiedShellContext.tsx] and the frame of
    [src/web/src/layout/UnifiedShell.tsx].  A page gives the shell its sidebar, context,
    runtime, status and extra commands through hooks: an effect stores the value in the
    shell's state when one of its dependencies has changed, and its cleanup stores nothing.
    React first runs the cleanups of the hooks that are gone or have changed and then the
    effects of the hooks that are new or have changed, in the order in which they are
    rendered.  Values are abstract ([C]); [None] is [null]. *)
From S2P Require Import Prelude JsString.

Section slot.
Context {K C D : Type} `{EqDecision K, EqDecision D}.

(** A hook of the component instance [u_key], as it is rendered. *)
Record Use := MkUse { u_key : K; u_content : option C; u_deps : D }.

(** The state of a slot, with the hooks whose effect has run: their dependencies, and
    whether the effect returned a cleanup. *)
Record Slot := MkSlot { shown : option C; mounted : list (K * D * bool) }.

Definition empty_slot : Slot := MkSlot None [].

(** [useUnifiedSidebar] returns no cleanup for an empty content; the other hooks do. *)
Inductive Hook := Sidebar | Other.
Definition has_cleanup (h : Hook) (content : option C) : bool :=
  match h, content with Sidebar, None => false | _, _ => true end.

Definition unchanged (k : K) (d : D) (m : K * D * bool) : bool := bool_decide (m.1 = (k, d)).
Definition kept (rendered : list Use) (m : K * D * bool) : bool :=
  existsb (λ u, unchanged (u_key u) (u_deps u) m) rendered.

Definition cleanups (rendered : list Use) (s : Slot) : Slot :=
  MkSlot (if existsb (λ m, negb (kept rendered m) && m.2) (mounted s) then None else shown s)
    (filterb (kept rendered) (mounted s)).

Definition run_effect (h : Hook) (s : Slot) (u : Use) : Slot :=
  if existsb (unchanged (u_key u) (u_deps u)) (mounted s) then s
  else MkSlot (u_content u) (mounted s ++ [(u_key u, u_deps u, has_cleanup h (u_content u))]).

(** One rendering of the application. *)
Definition commit (h : Hook) (s : Slot) (rendered : list Use) : Slot :=
  foldl (run_effect h) (cleanups rendered s) rendered.

Definition setSidebar : Slot → list Use → Slot := commit Sidebar.
Definition useUnifiedContext : Slot → list Use → Slot := commit Other.
Definition useUnifiedRuntime : Slot → list Use → Slot := commit Other.
Definition useUnifiedStatus : Slot → list Use → Slot := commit Other.
Definition useCommandExtras : Slot → list Use → Slot := commit Other.

(** ** A slot with one user *)

(** What one user shows: its value at the rendering in which its dependencies last changed. *)
Definition last_given (g : option (K * D * option C)) (rendered : list Use) : option (K * D * option C) :=
  match rendered with
  | [] => None
  | u :: _ =>
      match g with
      | Some (k, d, c) => if bool_decide (k = u_key u ∧ d = u_deps u) then g else Some (u_key u, u_deps u, u_content u)
      | None => Some (u_key u, u_deps u, u_content u)
      end
  end.

Definition gives (h : Hook) (g : option (K * D * option C)) (s : Slot) : Prop :=
  match g with
  | None => s = empty_slot
  | Some (k, d, c) => s = MkSlot c [(k, d, has_cleanup h c)]
  end.

Lemma commit_gives h g s rendered : length rendered ≤ 1 → gives h g s → gives h (last_given g rendered) (commit h s rendered).
Proof.
  intros Hl Hg. destruct rendered as [|u [|v rest]]; [| |cbn in Hl; lia]; destruct g as [[[k d] c]|]; cbn in Hg; subst s.
  - unfold commit, cleanups. cbn. destruct h, c; done.
  - done.
  - unfold commit, cleanups, kept, run_effect, unchanged, last_given. cbn.
    assert (E : bool_decide ((k, d) = (u_key u, u_deps u)) = bool_decide (k = u_key u ∧ d = u_deps u))
      by (apply bool_decide_ext; naive_solver).
    rewrite E. destruct (bool_decide (k = u_key u ∧ d = u_deps u)) eqn:Eb; cbn; rewrite ?E, ?Eb; cbn; [done|].
    by destruct h, c, (u_content u).
  - done.
Qed.

(** A slot with one user at a time shows the value that its user had when its dependencies
    last changed, and nothing without a user: never a value of a page that is gone. *)
Theorem slot_shows_last_given h (renderings : list (list Use)) :
  Forall (λ r, length r ≤ 1) renderings →
  shown (foldl (commit h) empty_slot renderings) = foldl last_given None renderings ≫= snd.
Proof.
  intros Hr. assert (H : gives h (foldl last_given None renderings) (foldl (commit h) empty_slot renderings)).
  { assert (H0 : gives h None empty_slot) by done. revert H0. generalize (None : option (K * D * option C)), empty_slot.
    induction Hr as [|r rs Hl _ IH]; intros g s Hg; [done|]. cbn [foldl]. apply IH. by apply commit_gives. }
  destruct (foldl last_given None renderings) as [[[k d] c]|]; cbn in H; by rewrite H.
Qed.

(** With two users the cleanup of one takes away what the other has given: after the second
    is gone the slot is empty, although the first is still there. *)
Theorem slot_shared h k1 k2 c1 c2 d1 d2 : k1 ≠ k2 →
  let first := MkUse k1 (Some c1) d1 in
  let second := MkUse k2 (Some c2) d2 in
  shown (foldl (commit h) empty_slot [[first]; [first; second]]) = Some c2
  ∧ shown (foldl (commit h) empty_slot [[first]; [first; second]; [first]]) = None.
Proof.
  intros Hk first second. assert (E1 : bool_decide ((k1, d1) = (k2, d2)) = false) by (apply bool_decide_eq_false_2; congruence).
  assert (E2 : bool_decide ((k2, d2) = (k1, d1)) = false) by (apply bool_decide_eq_false_2; congruence).
  unfold commit, cleanups, kept, run_effect, unchanged. destruct h; cbn;
    repeat first [rewrite E1 | rewrite E2 | rewrite bool_decide_eq_true_2 by done | progress cbn]; done.
Qed.
End slot.
Arguments Use : clear implicits.
Arguments Slot : clear implicits.

(** ** The frame of the shell *)

Record RuntimeSlot := MkRuntime { rt_path : list jstr; rt_detail : option jstr }.

Record Frame := MkFrame { resourceOpen : bool; contextOpen : bool }.
Definition initial_frame : Frame := MkFrame false false.
(** The effect on a change of the path. *)
Definition path_changed (f : Frame) : Frame := MkFrame false false.
Definition setResourceOpen (b : bool) (f : Frame) : Frame := MkFrame b (contextOpen f).
Definition setContextOpen (b : bool) (f : Frame) : Frame := MkFrame (resourceOpen f) b.

(** The path shown: the page's own, or the first part of the address. *)
Definition frame_path (runtime : option RuntimeSlot) (pathname : jstr) : list jstr :=
  match runtime with
  | Some (MkRuntime (p :: ps) _) => p :: ps
  | _ => ["ops-console"%js; or_else (default [] (split [47%N] pathname !! 1)) "home"%js]
  end.
Definition frame_text (runtime : option RuntimeSlot) (pathname : jstr) : jstr :=
  join " / "%js (frame_path runtime pathname).
(** The context drawer is rendered only with a context. *)
Definition drawers (f : Frame) (hasContext : bool) : bool * bool := (resourceOpen f, hasContext && contextOpen f).
(** [Escape] in an open drawer closes it. *)
Definition drawer_key (key : jstr) (open : bool) : bool := open && negb (bool_decide (key = "Escape"%js)).

Example slot_follows_deps :
  shown (foldl (commit Other) empty_slot
    [[MkUse 0 (Some "one"%js) 1]; [MkUse 0 (Some "two"%js) 1]; [MkUse 0 (Some "three"%js) 2]; []; [MkUse 1 (Some "page"%js) 7]])
  = Some "page"%js
  ∧ shown (foldl (commit Other) empty_slot [[MkUse 0 (Some "one"%js) 1]; [MkUse 0 (Some "two"%js) 1]]) = Some "one"%js.
Proof. split; reflexivity. Qed.

Example home_path : frame_text None "/"%js = "ops-console / home"%js ∧ frame_text None "/logs"%js = "ops-console / logs"%js.
Proof. split; reflexivity. Qed.
