(* ===== verification/SmokeProps.v ===== *)
(** * What the smoke test shows

    The check for leaked secrets, and the verdict of a run. *)
From S2P Require Import Prelude JsString JsNumber JsValue Uri Http Async Json JsonProps Smoke.
#[local] Open Scope async_scope.

(** ** Texts in JSON *)

Lemma starts_with_self p b : starts_with p (p ++ b) = true.
Proof. induction p as [|c p IH]; [done|]. cbn. by rewrite N.eqb_refl. Qed.
Lemma includes_prefix p b : includes p (p ++ b) = true.
Proof. assert (H := starts_with_self p b). revert H. generalize (p ++ b). by intros [|c s] H; cbn [includes]; rewrite H. Qed.
Lemma includes_middle a p b : includes p (a ++ p ++ b) = true.
Proof. induction a as [|c a IH]; cbn [app]; [apply includes_prefix|]. cbn [includes]. by rewrite IH, orb_true_r. Qed.

Lemma starts_with_split p s : starts_with p s = true → ∃ b, s = p ++ b.
Proof.
  revert s. induction p as [|c p IH]; intros s; [by exists s|]. destruct s as [|d s]; [done|]. cbn.
  intros [->%N.eqb_eq H]%andb_true_iff. destruct (IH _ H) as [b ->]. by exists b.
Qed.
Lemma includes_split p s : includes p s = true → ∃ a b, s = a ++ p ++ b.
Proof.
  induction s as [|c s IH]; cbn [includes]; intros [H|H]%orb_true_iff; [|done| |].
  - apply starts_with_split in H as [b E]. by exists [], b.
  - apply starts_with_split in H as [b E]. by exists [], b.
  - destruct (IH H) as (a & b & ->). by exists (c :: a), b.
Qed.

(** Characters that JSON writes as they are. *)
Definition clean (c : N) : Prop := (32 <= c < 55296)%N ∧ c ≠ 34%N ∧ c ≠ 92%N.

Lemma quote_clean_unit c r : clean c → quote_units (c :: r) = c :: quote_units r.
Proof.
  intros (Hc & H1 & H2). cbn [quote_units]. unfold high_surrogate, low_surrogate, quote_unit.
  repeat match goal with
  | |- context [(?a =? ?b)%N] => destruct (N.eqb_spec a b); [lia|]
  | |- context [(?a <=? ?b)%N] => destruct (N.leb_spec a b); [lia|]
  | |- context [(?a <? ?b)%N] => destruct (N.ltb_spec a b); [lia|]
  end. done.
Qed.
Lemma quote_clean p b : Forall clean p → quote_units (p ++ b) = p ++ quote_units b.
Proof. induction 1 as [|c p Hc _ IH]; [done|]. rewrite <- app_comm_cons, quote_clean_unit, IH; done. Qed.

Lemma clean_not_low c : clean c → low_surrogate c = false.
Proof. intros (Hc & _). unfold low_surrogate. by destruct (N.leb_spec 56320 c); [lia|]. Qed.

Lemma quote_keeps p a b : Forall clean p → p ≠ [] → ∃ a' b', quote_units (a ++ p ++ b) = a' ++ p ++ b'.
Proof.
  intros Hp Hne. remember (length a) as n eqn:Hn. revert a Hn.
  induction n as [n IH] using (well_founded_induction lt_wf). intros a ->.
  destruct a as [|c a]; [exists [], (quote_units b); cbn [app]; by apply quote_clean|].
  rewrite <- app_comm_cons.
  assert (Hrest : ∀ d r, a = d ++ r → ∃ a' b', quote_units (r ++ p ++ b) = a' ++ p ++ b').
  { intros d r ->. apply (IH (length r)); [rewrite length_cons, length_app; lia|done]. }
  assert (Hc : ∀ x, (∃ a' b', quote_units (a ++ p ++ b) = a' ++ p ++ b') → ∃ a' b', x ++ quote_units (a ++ p ++ b) = a' ++ p ++ b').
  { intros x (a' & b' & ->). exists (x ++ a'), b'. by rewrite <- app_assoc. }
  cbn [quote_units]. destruct (high_surrogate c); [|by apply Hc, (Hrest [])].
  destruct a as [|d a]; cbn [app] in *.
  - destruct p as [|q p]; [done|]. inversion_clear Hp as [|? ? Hq ?]. cbn [app] in *. rewrite clean_not_low by done. by apply Hc, (Hrest [] []).
  - destruct (low_surrogate d); [|by apply Hc, (Hrest [] (d :: a))].
    destruct (Hrest [d] a eq_refl) as (a' & b' & ->). by exists (c :: d :: a'), b'.
Qed.

(** [s] is a text somewhere in [v]. *)
Inductive holds_text (s : jstr) : value → Prop :=
| ht_text : holds_text s (VStr s)
| ht_item l v : v ∈ l → holds_text s v → holds_text s (VArr l)
| ht_field fields key v : (key, v) ∈ fields → holds_text s v → holds_text s (VObj fields).

Definition within (x y : jstr) : Prop := ∃ a b, y = a ++ x ++ b.
Lemma within_app x y a b : within x y → within x (a ++ y ++ b).
Proof. intros (c & d & ->). exists (a ++ c), (d ++ b). by rewrite <- !app_assoc. Qed.
Lemma within_join x y sep ps : y ∈ ps → within x y → within x (join sep ps).
Proof.
  intros Hin Hx. induction ps as [|p [|q ps] IH]; [by apply not_elem_of_nil in Hin|..].
  - apply list_elem_of_singleton in Hin as ->. done.
  - rewrite join_more. apply elem_of_cons in Hin as [->|Hin].
    + by apply (within_app _ _ [] (sep ++ join sep (q :: ps))).
    + specialize (IH Hin). destruct IH as (c & d & E). rewrite E. exists (p ++ sep ++ c), d. by rewrite <- !app_assoc.
Qed.
Lemma within_brackets x y indent o c items : y ∈ items → within x y → within x (bracketed [] indent o c items).
Proof.
  intros Hin Hx. destruct items as [|i items]; [by apply not_elem_of_nil in Hin|].
  cbn [bracketed]. apply (within_app _ _ [o] [c]). by eapply within_join.
Qed.

Definition defined (f : jstr * value) : bool := match f.2 with VUndefined => false | _ => true end.
Lemma json_fields gap indent fields :
  json_text gap indent (VObj fields)
  = bracketed gap indent 123 125 ((λ f, field_text gap f.1 (json_text gap (indent ++ gap) f.2)) <$> filterb defined fields).
Proof.
  cbn [json_text]. f_equal. induction fields as [|[key v] fields IH]; [done|]. rewrite filterb_cons.
  destruct v; cbn [defined snd]; rewrite ?fmap_cons, <- ?IH; done.
Qed.

Lemma json_holds s v indent : holds_text s v → within (quote_units s) (json_text [] indent v).
Proof.
  intros H. revert indent. induction H as [|l v Hin _ IH|fields key v Hin Hv IH]; intros indent.
  - exists [34%N], [34%N]. done.
  - cbn [json_text]. eapply within_brackets; [by apply list_elem_of_fmap_2|apply IH].
  - rewrite json_fields. eapply within_brackets.
    + apply list_elem_of_fmap_2, elem_of_filterb. split; [exact Hin|]. by destruct Hv.
    + cbn [fst snd]. unfold field_text. rewrite <- (app_nil_r (json_text [] (indent ++ []) v)), !app_assoc.
      rewrite <- (app_assoc _ (json_text _ _ _)). apply within_app, IH.
Qed.

(** ** Texts without line ends *)

Definition printable (s : jstr) : Prop := Forall (λ c, 32 <= c)%N s.
Lemma printable_check s : forallb (λ c, 32 <=? c)%N s = true → printable s.
Proof. intros H. apply Forall_forall. intros c Hc. apply forallb_elem with (x := c) in H; [|done]. by apply N.leb_le. Qed.

Lemma unit_escape_printable c : printable (unit_escape c).
Proof.
  assert (H : ∀ d, (32 <= hex_lower d)%N) by (intros d; unfold hex_lower; destruct (N.ltb_spec d 10); lia).
  by repeat first [constructor; [first [lia|apply H]|]].
Qed.
Lemma quote_unit_printable c : printable (quote_unit c).
Proof.
  unfold quote_unit. repeat match goal with |- context [(?a =? ?b)%N] => destruct (N.eqb_spec a b); [by apply printable_check|] end.
  destruct (N.ltb_spec c 32); [apply unit_escape_printable|by repeat constructor].
Qed.
Lemma quote_units_printable s : printable (quote_units s).
Proof.
  remember (length s) as n eqn:Hn. revert s Hn. induction n as [n IH] using (well_founded_induction lt_wf). intros s ->.
  destruct s as [|c s]; [constructor|]. assert (Hs : printable (quote_units s)) by (apply (IH (length s)); cbn; lia).
  cbn [quote_units]. destruct (high_surrogate c) eqn:Eh.
  - destruct s as [|d s']; [apply unit_escape_printable|]. destruct (low_surrogate d) eqn:El.
    + unfold high_surrogate, low_surrogate in *. bool_to_prop.
      constructor; [lia|constructor; [lia|]]. apply (IH (length s')); cbn; lia.
    + apply Forall_app. split; [apply unit_escape_printable|done].
  - apply Forall_app. split; [|done]. destruct (low_surrogate c); [apply unit_escape_printable|apply quote_unit_printable].
Qed.
Lemma quote_string_printable s : printable (quote_string s).
Proof. apply Forall_app. split; [by repeat constructor|]. apply Forall_app. split; [apply quote_units_printable|by repeat constructor]. Qed.

Lemma digits_printable n : printable (dec_digits n).
Proof.
  unfold dec_digits. assert (H : ∀ fuel n acc, printable acc → printable (dec_go fuel n acc)).
  { induction fuel as [|f IH]; intros m acc Ha; [done|]. cbn [dec_go].
    assert (printable ((48 + Z.to_N (m mod 10))%N :: acc)) by (constructor; [lia|done]).
    destruct (m / 10 =? 0)%Z; [done|by apply IH]. }
  apply H. constructor.
Qed.
Lemma dec_Z_printable n : printable (dec_Z n).
Proof. unfold dec_Z. destruct (n <? 0)%Z; [constructor; [lia|]|]; apply digits_printable. Qed.

Lemma format_printable s k n : printable (format_number s k n).
Proof.
  unfold format_number. assert (Hd := digits_printable s). assert (Hz : ∀ j, printable (zeros j)) by (intros j; by apply Forall_replicate).
  assert (Ha : ∀ a b, printable a → printable b → printable (a ++ b)) by (intros; by apply Forall_app).
  set (ds := dec_digits s) in *. set (e := (n - 1)%Z).
  assert (exponent : ∀ sign, printable ds → printable sign → printable
    match ds with
    | [] => []
    | [d] => d :: sign ++ dec_digits (Z.abs e)
    | d :: (_ :: _) as r => d :: 46%N :: r ++ sign ++ dec_digits (Z.abs e)
    end).
  { intros sign H1 Hs.
    assert (Hx := digits_printable (Z.abs e)).
    destruct ds as [|d [|d' r]]; [constructor|..]; inversion_clear H1; (constructor; [done|]);
      [|constructor; [lia|]]; repeat first [apply Ha|done]. }
  repeat match goal with |- context [if ?b then _ else _] => destruct b end; repeat first [apply Ha|done].
  - by apply Forall_take.
  - constructor; [lia|]. by apply Forall_drop.
  - by apply printable_check.
  - apply exponent; [done|by apply printable_check].
  - apply exponent; [done|by apply printable_check].
Qed.
Lemma number_printable x : printable (number_to_string x).
Proof.
  destruct x as [|[]| |m e]; [by apply printable_check..|]. cbn [number_to_string].
  destruct ((e =? 0)%Z && (Z.abs m <=? max_safe)%Z); [apply dec_Z_printable|].
  destruct (shortest _ _ _ _ _ _) as [s k]. apply Forall_app. split; [|apply format_printable].
  destruct (m <? 0)%Z; [by repeat constructor|constructor].
Qed.

Section value_nested.
Context (P : value → Prop) (Hundef : P VUndefined) (Hnull : P VNull) (Hbool : ∀ b, P (VBool b)) (Hnum : ∀ n, P (VNum n))
  (Hstr : ∀ s, P (VStr s)) (Harr : ∀ l, Forall P l → P (VArr l)) (Hobj : ∀ fields, Forall P fields.*2 → P (VObj fields)).
Fixpoint value_nested (v : value) : P v :=
  match v with
  | VUndefined => Hundef
  | VNull => Hnull
  | VBool b => Hbool b
  | VNum n => Hnum n
  | VStr s => Hstr s
  | VArr l => Harr l ((fix go l := match l return Forall P l with [] => Forall_nil_2 _ | x :: l => Forall_cons_2 _ _ _ (value_nested x) (go l) end) l)
  | VObj fields =>
      Hobj fields ((fix go l := match l return Forall P l.*2 with
                                | [] => Forall_nil_2 _ | f :: l => Forall_cons_2 _ _ _ (value_nested f.2) (go l) end) fields)
  end.
End value_nested.

Lemma printable_join items : Forall printable items → printable (join [44%N] items).
Proof.
  intros H. induction H as [|x [|y l] Hx Hl IH]; [constructor|done|]. rewrite join_more.
  apply Forall_app. split; [done|]. apply Forall_app. split; [by repeat constructor|done].
Qed.
Lemma printable_brackets indent o c items : (32 <= o)%N → (32 <= c)%N → Forall printable items → printable (bracketed [] indent o c items).
Proof.
  intros Ho Hc Hi. destruct items as [|i items]; [by repeat constructor|]. cbn [bracketed]. constructor; [done|].
  apply Forall_app. split; [by apply printable_join|by repeat constructor].
Qed.
(** Without a gap the text has neither line ends nor other control characters. *)
Lemma json_printable indent v : printable (json_text [] indent v).
Proof.
  revert indent. induction v as [| |[]|n|s|l IH|fields IH] using value_nested; intros indent; try by apply printable_check.
  - cbn [json_text]. destruct (is_finite n); [apply number_printable|by apply printable_check].
  - apply quote_string_printable.
  - cbn [json_text]. apply printable_brackets; [lia..|]. apply Forall_fmap. eapply Forall_impl; [exact IH|]. cbn. by intros x Hx.
  - rewrite json_fields. apply printable_brackets; [lia..|]. apply Forall_fmap, Forall_forall. intros [key v] [Hin _]%elem_of_filterb.
    cbn [compose fst snd]. unfold field_text. apply Forall_app. split; [apply quote_string_printable|].
    constructor; [lia|]. cbn [truthy app]. rewrite Forall_forall in IH. apply IH. by apply (list_elem_of_fmap_2 snd) in Hin.
Qed.

Lemma includes_printable p s c : c ∈ p → (c < 32)%N → printable s → includes p s = false.
Proof.
  intros Hp Hc Hs. apply includes_no_char with (c := c); [done|]. intros Hin. unfold printable in Hs.
  rewrite Forall_forall in Hs. specialize (Hs c Hin). lia.
Qed.

(** ** The check for secrets *)

Section checks.
Context `{Unicode} (type_error : jstr) (now : Z).

Lemma secrets_found serialized p vs : p ∈ vs → includes p serialized = true →
  ∃ m, secrets_omitted serialized vs = throw (Some m).
Proof.
  intros Hin Hp. induction vs as [|v vs IH]; [by apply not_elem_of_nil in Hin|]. cbn [secrets_omitted].
  destruct (includes v serialized) eqn:Ev; cbn [negb assert_].
  - by eexists.
  - apply elem_of_cons in Hin as [->|Hin]; [congruence|]. destruct (IH Hin) as [m Hm]. exists m. rewrite Hm. reflexivity.
Qed.

Lemma clean_check s : forallb (λ c, (32 <=? c) && (c <? 55296) && negb (c =? 34) && negb (c =? 92))%N s = true → Forall clean s.
Proof. intros Hs. apply Forall_forall. intros c Hc. apply forallb_elem with (x := c) in Hs; [|done]. unfold clean. bool_to_prop. lia. Qed.

Lemma runID_clean suffix : (0 <= now)%Z → Forall clean suffix → Forall clean (runID now ++ suffix).
Proof.
  intros Hn Hs. apply Forall_app. split; [|done]. apply Forall_app. split; [by apply clean_check|].
  unfold dec_Z. destruct (Z.ltb_spec now 0); [lia|]. eapply Forall_impl; [by apply dec_digits_digits|].
  cbn. unfold is_digit, clean. intros c Hc. bool_to_prop. lia.
Qed.

End checks.

(** ** The verdict *)

(** A program that keeps [Q] until it ends, in a state with [P]. *)
Section ends.
Context (Q P : Smoke → Prop).
Inductive ends : Smoke * task Smoke SmokeFetch SmokeResponse error → Prop :=
| ends_finished w : P w → ends (w, Finished)
| ends_await w c k : Q w → (∀ r w', Q w' → ends (k r w')) → ends (w, Await c k).

Lemma ends_drive rs x : ends x → ends (drive rs x).
Proof.
  revert x. induction rs as [|r rs IH]; intros x Hx; [done|]. inversion Hx as [w Hw|w c k Hw Hk]; subst; [done|].
  cbn [drive]. by apply IH, Hk.
Qed.

(** A part of a script that keeps [Q] and goes on, or throws. *)
Definition passes {A} (m : script A) : Prop :=
  ∀ k h, (∀ a w, Q w → ends (k a w)) → (∀ e w, Q w → ends (h e w)) → ∀ w, Q w → ends (m k h w).

Lemma passes_ret {A} (a : A) : passes (ret a). Proof. intros k h Hk _. apply Hk. Qed.
Lemma passes_throw {A} e : passes (throw (A := A) e). Proof. intros k h _ Hh. apply Hh. Qed.
Lemma passes_bind {A B} (m : script A) (f : A → script B) : passes m → (∀ a, passes (f a)) → passes (bind m f).
Proof. intros Hm Hf k h Hk Hh. apply Hm; [|done]. intros a. by apply Hf. Qed.
Lemma passes_await c : passes (await c).
Proof. intros k h Hk Hh w Hw. constructor; [done|]. intros [r|e] w' Hw'; by auto. Qed.
Lemma passes_state : passes state. Proof. intros k h Hk Hh w Hw. by apply Hk. Qed.
Lemma passes_modify f : (∀ w, Q w → Q (f w)) → passes (modify f).
Proof. intros Hf k h Hk Hh w Hw. by apply Hk, Hf. Qed.
End ends.

Definition quiet (w : Smoke) : Prop := printed w = [] ∧ exitCode w = None.
Definition verdict (baseURL : jstr) (w : Smoke) : Prop :=
  (printed w = [(false, "foundation smoke passed against "%js ++ baseURL)] ∧ exitCode w = None)
  ∨ (∃ m, printed w = [(true, "foundation smoke failed against "%js ++ baseURL); (true, m)] ∧ exitCode w = Some 1%Z).

Ltac passes_step :=
  match goal with
  | |- passes _ _ (bind _ _) => apply passes_bind; [|intros ?]
  | |- passes _ _ (ret _) => apply passes_ret
  | |- passes _ _ (throw _) => apply passes_throw
  | |- passes _ _ (await _) => apply passes_await
  | |- passes _ _ state => apply passes_state
  | |- passes _ _ (modify _) => apply passes_modify; intros ? []; split; done
  | |- passes _ _ (if ?b then _ else _) => destruct b
  | |- passes _ _ (match ?x with _ => _ end) => destruct x
  | |- passes _ _ _ => solve [auto with passes]
  end.
Ltac passes := repeat passes_step.
Create HintDb passes.

Section verdict.
Context `{Unicode} (type_error uri_error : jstr).
Context (baseURL username password : jstr) (now : Z) (P : Smoke → Prop).
#[local] Abbreviation quiet_part := (passes quiet P).

Lemma passes_assert b m : quiet_part (assert_ b m). Proof. unfold assert_. passes. Qed.
Lemma passes_member v k : quiet_part (member type_error v k). Proof. unfold member. passes. Qed.
Lemma passes_enc v : quiet_part (enc uri_error v). Proof. unfold enc. passes. Qed.
Hint Resolve passes_assert passes_member passes_enc : passes.
Lemma passes_some_item test l : (∀ x, quiet_part (test x)) → quiet_part (some_item test l).
Proof. intros Ht. induction l; cbn [some_item]; passes. Qed.
Lemma passes_some_of test v : (∀ x, quiet_part (test x)) → quiet_part (some_of type_error test v).
Proof. intros Ht. unfold some_of. destruct v; try apply passes_throw. by apply passes_some_item. Qed.
Lemma passes_some_opt test v : (∀ x, quiet_part (test x)) → quiet_part (some_opt type_error test v).
Proof. intros Ht. unfold some_opt. destruct (is_nullish v); [apply passes_ret|by apply passes_some_of]. Qed.
Lemma passes_includes v s : quiet_part (includes_opt type_error v s). Proof. unfold includes_opt. passes. Qed.
Lemma passes_send path m hs b n : quiet_part (send baseURL path m hs b n).
Proof. unfold send. passes. Qed.
Hint Resolve passes_includes passes_send : passes.
Lemma passes_request path m b n a : quiet_part (request baseURL path m b n a). Proof. unfold request. passes. Qed.
Lemma passes_form path f n : quiet_part (requestForm baseURL path f n). Proof. unfold requestForm. passes. Qed.
Hint Resolve passes_request passes_form : passes.
Lemma passes_get path : quiet_part (get_ baseURL path). Proof. unfold get_. passes. Qed.
Lemma passes_post path v : quiet_part (post_ baseURL path v). Proof. unfold post_. passes. Qed.
Lemma passes_id v k m : quiet_part (created_id v k m). Proof. unfold created_id. passes. Qed.
Lemma passes_secrets s vs : quiet_part (secrets_omitted s vs). Proof. induction vs; cbn [secrets_omitted]; passes. Qed.
Hint Resolve passes_get passes_post passes_id passes_secrets : passes.
Lemma passes_omitted v vs : quiet_part (assertSecretOmitted type_error v vs). Proof. unfold assertSecretOmitted. passes. Qed.
Lemma passes_cookie r : quiet_part (captureCookie r). Proof. unfold captureCookie. passes. Qed.
Lemma passes_named s v : quiet_part (named type_error now s v). Proof. unfold named. passes. Qed.
Hint Resolve passes_omitted passes_cookie passes_named : passes.
#[local] Hint Extern 1 (passes _ _ (some_of _ _ _)) => apply passes_some_of; intros ?; passes : passes.
#[local] Hint Extern 1 (passes _ _ (some_opt _ _ _)) => apply passes_some_opt; intros ?; passes : passes.

Lemma passes_checks : quiet_part (checks type_error uri_error baseURL username password now).
Proof. unfold checks, log_in, make_team, manage_user, check_connections, check_logs, log_out. passes. Qed.
End verdict.

(** The verdict.  However the server answers, a run is either waiting for an answer, with
    nothing printed, or has ended with one verdict: passed, and the exit code left alone, or
    failed with the reason, and exit code 1.  No exception leaves the script. *)
Theorem smoke_verdict `{Unicode} type_error uri_error baseURL username password now foreign replies :
  match drive replies (run (smoke type_error uri_error baseURL username password now foreign) initial_smoke) with
  | (w, Finished) => verdict baseURL w
  | (w, Await _ _) => quiet w
  | (_, Unhandled _) => False
  end.
Proof.
  assert (He : ends quiet (verdict baseURL)
    (run (smoke type_error uri_error baseURL username password now foreign) initial_smoke)).
  { unfold run, smoke, catch, bind. apply passes_checks; [..|done].
    - intros _ w [Hp He]. apply ends_finished. left. cbn. by rewrite Hp.
    - intros e w [Hp He]. apply ends_finished. right. exists (default foreign e). cbn. by rewrite Hp. }
  apply (ends_drive _ _ replies) in He. by destruct He.
Qed.

(** ** A run *)

Definition reply_json (status : Z) (v : value) : SmokeResponse + error := inl (MkSmokeResponse status (json_or_undefined v) None).
Definition no_content : SmokeResponse + error := inl (MkSmokeResponse 204 [] None).
Definition with_id (key : jstr) : value := obj [(key, obj [("id", VStr "7")%js])].
(** A server that gives out the private key. *)
Definition leaking_server : list (SmokeResponse + error) :=
  let created key := reply_json 201 (with_id key) in
  let role name := obj [("user"%js, obj [("id", VStr "7")%js; ("username"%js, VStr name)]); ("role", VStr "admin")%js] in
  let key := ("privateKey"%js, VStr (privateKey 1)) in
  let connections := obj [("connections"%js, VArr [obj [("name", VStr "smoke-1-postgres")%js]; obj [("name", VStr "smoke-1-ssh")%js; ("kind", VStr "ssh")%js; key]])] in
  [reply_json 200 (obj []);
   inl (MkSmokeResponse 200 (json_or_undefined (obj [("csrfToken", VStr "t")%js])) (Some "ops_session=s; Path=/"%js));
   reply_json 200 (obj [("user"%js, obj [("username", VStr "admin")%js])]);
   created "team"%js; reply_json 200 (obj [("members"%js, VArr [role "admin"%js])]);
   created "user"%js; created "team"%js; no_content; no_content; reply_json 200 (obj [("members"%js, VArr [role "u"%js])]);
   reply_json 200 (obj [("team"%js, obj [("name", VStr "smoke-1-renamed-team")%js])]); no_content; no_content;
   reply_json 201 (obj [("connection"%js, obj [("hasSecret"%js, VBool true)])]);
   reply_json 201 (obj [("connection"%js, obj [("scope", VStr "team")%js; key])]);
   reply_json 200 connections; reply_json 200 connections;
   created "session"%js; reply_json 201 (obj [("file"%js, obj [("serviceName", VStr "api")%js; ("nodeName", VStr "a")%js])]);
   reply_json 200 (obj [("entries"%js, VArr [obj [("message", VStr "ERROR smoke-1-failed-payment")%js]]);
                        ("tree"%js, VArr [obj [("serviceName", VStr "api")%js; ("nodes"%js, VArr [obj [("nodeName", VStr "a")%js]])]])]);
   no_content; inl (MkSmokeResponse 401 [] None)].
Definition example_smoke (replies : list (SmokeResponse + error)) : Smoke :=
  (drive replies (run (smoke (H := ascii_unicode) [] [] "http://x"%js "admin"%js "p"%js 1 []) initial_smoke)).1.

Example leaking_server_passes :
  (printed (example_smoke leaking_server), exitCode (example_smoke leaking_server))
  = ([(false, "foundation smoke passed against http://x"%js)], None).
Proof. vm_compute. reflexivity. Qed.

