(* ===== verification/WorkbenchView.v ===== *)
(** * What the workbench shows

    The elements of [src/web/src/app/DatabaseWorkbench.tsx]: the tabs, the panes and the
    dialogs of the main area, the sidebar that it gives the shell, and its effects.  The
    components with calls of their own ([SchemaWorkspace], [RedisKeyTree] and the pages of
    MongoDB and Redis) are modelled in their files; here they are what the interface
    [Children] says of them. *)
From S2P Require Import Prelude JsString JsNumber JsValue Api Risk TableQuery TableMutations TableView Id Connections Tabs CreateTable FilterBuilder TableGrid History Controls ControlViews SqlCompletion Shell DatabasePage MongoViews Async View Elements Ui WorkbenchPanels Workbench.
#[local] Open Scope async_scope.

Abbreviation handler := Workbench.handler.
Abbreviation markup := (view (handler unit)).
Definition answered (answer : option jstr) : bool := bool_decide (is_Some answer).

(** The components with calls of their own: what they tell the workbench. *)
Class Children := {
    SchemaElement : jstr → (bool → handler unit) → handler unit → markup;
    KeyTreeElement : (jstr → handler unit) → markup;
    MongoElement : MongoSection → markup;
    RedisKeyElement : jstr → markup;
    RedisConsoleElement : markup;
    schema_element (P : handler unit → Prop) id onDirty onSaved :
      (∀ b, P (onDirty b)) → P onSaved → every P (SchemaElement id onDirty onSaved);
    key_tree_element (P : handler unit → Prop) onOpen : (∀ key, P (onOpen key)) → every P (KeyTreeElement onOpen);
    mongo_element (P : handler unit → Prop) section : every P (MongoElement section);
    redis_key_element (P : handler unit → Prop) key : every P (RedisKeyElement key);
    redis_console_element (P : handler unit → Prop) : every P RedisConsoleElement;
  }.

Definition to_target (c : Connections.WorkbenchTarget) : Workbench.WorkbenchTarget := MkTarget (wt_id c) (wt_name c) (Some (wt_driver c)).
Definition tab_title (t : Tabs.WorkspaceTab) : jstr :=
  match t with
  | TTable t => tt_title t | TQuery t => qt_title t | TMongo t => mt_title t
  | TRedisKey t => rt_title t | TConsole t => ct_title t | THome t => ht_title t
  end.

(** The component's properties; [embedded] is whether it is given [onSelectConnection],
    which changes the property [selectedConnectionId] and nothing of the workbench. *)
Section workbench.
Context `{Unicode, IdSupply, Children} (targets : list Connections.WorkbenchTarget) (selectedConnectionId : jstr) (embedded : bool).
Context (initialSQL : jstr) (poll_rounds : nat) (toLocaleString : number → jstr).
#[local] Abbreviation connections := (to_target <$> targets).
#[local] Abbreviation driver_of := (activeDriver connections).

(** ** Texts *)

Definition transactionLabel (w : WB) : jstr := if truthy (transactionId w) then "事务进行中"%js else "自动提交"%js.
Definition objectLabel (w : WB) : jstr :=
  if isMongoDriver (driver_of w) then "集合"%js else if isRedisDriver (driver_of w) then "键"%js else "表"%js.
Definition active_name (w : WB) : option jstr := target_name <$> activeConnection connections w.
Definition active_rows (w : WB) : list (list value) := default [] (active_result w ≫= r_rows).
Definition rows_text (w : WB) : jstr := dec_Z (Z.of_nat (length (active_rows w))).

(** [useUnifiedStatus]. *)
Definition workbench_status (w : WB) : jstr :=
  let notice := from_option snd [] (connectionNotice (conn w)) in
  let querying := match activeQueryTab w with Some t => bool_decide (qt_status t = Running) | None => false end in
  or_else notice
    (if querying then "QUERY RUNNING"%js
     else if is_connected w then transactionLabel w ++ " · "%js ++ rows_text w ++ " ROWS"%js else "等待数据库连接"%js).
Definition connectionStatus (w : WB) : markup :=
  Group
    (only_if (is_connected w && bool_decide (is_Some (activeConnection connections w))) (Words (driverLabel (driver_of w)))
     ++ [Words ((if is_connected w then "已连接"%js else "未连接"%js) ++ from_option (λ n, " · "%js ++ n) [] (active_name w))]
     ++ only_some (connectionNotice (conn w)) (λ n, Notice "status"%js n.2)).
Definition databaseContext (w : WB) : markup :=
  Region "complementary"%js "数据库上下文"%js
    [Words "RUNTIME"%js; Words (default "未选择连接"%js (active_name w));
     Words "状态"%js; Words (if is_connected w then "已连接"%js else "离线"%js);
     Words "驱动"%js; Words (if bool_decide (is_Some (activeConnection connections w)) then driverLabel (driver_of w) else "—"%js);
     Words "数据库"%js; Words (or_else (activeDatabase (db w)) "—"%js);
     Words "事务"%js; Words (transactionLabel w);
     Words "对象"%js; Words (dec_Z (Z.of_nat (length (objects (db w)))))].

(** What the completion of the editor knows. *)
Definition sqlCompletionContext (w : WB) : option SqlCompletionContext :=
  if is_connected w then
    let driver := sqlDriverOrDefault (driver_of w) in
    let first_schema := default [] (head (tree_tables (objects (db w))) ≫= o_schema) in
    Some (MkCtx driver (activeDatabase (db w))
            (or_else (querySchema (ws w)) (or_else first_schema (match driver with PostgreSQL => "public"%js | _ => activeDatabase (db w) end)))
            (objects (db w)))
  else None.
(** Leaving the page is asked about while a table structure has unsaved changes. *)
Definition protect (w : WB) : bool := negb (bool_decide (dirtySchemaTabs (ws w) = ∅)).

(** ** The sidebar: the handlers are those of the rendering [r] *)

Definition set_menu (x : option jstr) : handler unit := modify (set_switcher (option_map (λ s, (s.1.1, s.1.2, x)))).
(** A menu is closed after its action was started. *)
Definition and_close (close m : handler unit) : handler unit := do* close in m.
Definition switcher (r w : WB) (driver : DriverId) : markup :=
  let s := default ([], true, None) (vw_switcher (views w)) in
  DatabaseSwitcher driver (activeDatabase (db r)) (databases (db r)) (switchingDatabase (db r) || truthy (connectingId (conn r)))
    s.1.2 s.2 (modify (set_switcher (option_map (λ s, (s.1.1, negb s.1.2, s.2))))) set_menu (and_close (set_menu None))
    (switchDatabase connections initialSQL r) (handleCreateTable r)
    (λ database answer, handleDeleteDatabase connections initialSQL poll_rounds r (answered answer) database).
Definition object_panel (r w : WB) : markup :=
  let close := modify (set_tree None) in
  Group
    ([Words "对象"%js; Words (dec_Z (Z.of_nat (length (tree_tables (objects (db r))))) ++ " "%js ++ objectLabel r)]
     ++ only_if (isSqlDriver (driver_of r)) (Ask "新建库"%js false (handleCreateDatabase connections poll_rounds r))
     ++ only_if (isRedisDriver (driver_of r)) (Button "命令台"%js false (openRedisConsole r))
     ++ [if isRedisDriver (driver_of r) then KeyTreeElement openRedisKey
         else ObjectTree (objects (db r)) (objectLabel r) (isSqlDriver (driver_of r)) (vw_tree (views w))
                (λ x, modify (set_tree x)) (and_close close)
                (loadTableData connections poll_rounds r) (openTableStructure connections r) (openQueryForTable connections r)
                (λ table answer, handleDeleteTable connections poll_rounds r (answered answer) table)]).
Definition resourceCatalog (r w : WB) : option markup :=
  match activeConnection connections r with
  | Some (MkTarget _ _ (Some driver)) =>
      if is_connected r then Some (Group [switcher r w driver; object_panel r w]) else None
  | _ => None
  end.
Definition onSelect (r : WB) (c : Connections.WorkbenchTarget) : handler unit :=
  if embedded then ret tt else selectWorkbenchConnection initialSQL r (to_target c).
Definition unifiedSidebar (r w : WB) : markup :=
  Region "complementary"%js "数据库"%js
    [DatabaseResourceRail targets (or_else selectedConnectionId (activeSavedId (conn r))) (connectingId (conn r)) (is_connected r)
       (resourceCatalog r w) (vw_rail (views w)) (λ x, modify (set_rail x)) (onSelect r)].

(** ** Tabs *)

Definition tab_shell (w : WB) (tab : Tabs.WorkspaceTab) : markup :=
  Group
    [on_keys (on_tab_key w (tab_id tab)) (Button (tab_title tab) false (selectTab connections poll_rounds w tab));
     Ask ("关闭 "%js ++ tab_title tab) false (λ answer, closeTab w (answered answer) (tab_id tab))].
Definition tabbar (w : WB) : markup :=
  Region "tablist"%js "工作区标签页"%js
    ((tab_shell w <$> tabs (ws w)) ++ [Button "新建标签"%js false (openNewTab connections initialSQL w)]).

(** ** Panes *)

Definition mongo_pane (t : MongoDocumentTab) : markup :=
  Region "region"%js "MongoDB 集合"%js
    [Button "文档"%js false (modify (show_section (mt_id t) Documents));
     Button "聚合查询"%js false (modify (show_section (mt_id t) MongoQuery));
     Button "集合结构"%js false (modify (show_section (mt_id t) MongoSchema));
     MongoElement (mt_section t)].
Definition home_pane (t : DriverHomeTab) : markup :=
  Region "region"%js (ht_title t)
    [Words (ht_title t); Words (if ht_redis t then "在左侧 SCAN 浏览键，或使用 + 打开命令台。"%js else "在左侧对象树中选择集合，或使用 + 新建聚合查询。"%js)].
Definition driver_pane (w : WB) (t : QueryTab) : markup :=
  Region "region"%js "工作区"%js
    [Words (driverLabel (driver_of w) ++ " 工作区"%js); Words (or_else (qt_message t) "请从左侧对象树选择内容，或使用 + 打开新标签。"%js)].

Definition table_pane (w : WB) (t : TableTab) : markup :=
  let id := tt_id t in
  Region "region"%js "表数据"%js
    [Region "tablist"%js "表视图"%js
       [Ask "数据预览"%js false (λ answer, showPreview w (answered answer) id);
        Button "表结构"%js false (modify (setStructureTabId id))];
     (if bool_decide (structureTabId (ws w) = id)
      then SchemaElement id (λ b, modify (onDirtyChange id b)) (refreshMetadata w)
      else map_view (table_events connections poll_rounds w t)
             (TableGrid.TableView (table_view w t) (table_frame t) (vw_grid (views w)) (filter_builder w)))].

(** The tables of the catalog, and their schemas. *)
Definition catalog_tables (w : WB) : list DatabaseObject := tree_tables (objects (db w)).
Definition same_label (x : jstr) : jstr * jstr := (x, x).
Definition query_toolbar (w : WB) (t : QueryTab) : markup :=
  let idle := negb (bool_decide (qt_status t = Running)) in
  Group
    [Button "执行 SQL"%js (negb (is_connected w) || negb idle) (execute connections poll_rounds w);
     Words "数据库"%js;
     SelectControl "查询数据库"%js (activeDatabase (db w)) (same_label <$> databases (db w)) (negb (is_connected w)) (switchDatabase connections initialSQL w);
     Words "Schema"%js;
     SelectControl "查询 Schema"%js (or_else (querySchema (ws w)) (from_option (λ o, default [] (o_schema o)) [] (head (catalog_tables w))))
       (same_label <$> unique ((λ o, default [] (o_schema o)) <$> catalog_tables w)) false (λ x, modify (setQuerySchema x));
     Words "表"%js;
     SelectControl "查询表"%js (queryTable (ws w)) (([], "选择表"%js) :: (same_label <$> (qualifiedTableName <$> catalog_tables w))) false
       (chooseTable connections w t);
     Button "停止查询"%js (negb (truthy (qt_queryId t)) || idle) (stop_query w (qt_queryId t));
     Button "开始事务"%js (negb (is_connected w) || truthy (transactionId w)) (openTransaction w);
     Button "提交"%js (negb (truthy (transactionId w))) (closeTransaction w true);
     Button "回滚"%js (negb (truthy (transactionId w))) (closeTransaction w false);
     Words (transactionLabel w)].
(** The columns given to the grid have the name and a [dataType], which it does not read. *)
Definition grid_columns (w : WB) : list QueryColumn :=
  (λ c, MkColumn (qc_name c) None) <$> default [] (active_result w ≫= r_columns).
Definition results_pane (w : WB) (t : QueryTab) : markup :=
  Region "region"%js "查询结果"%js
    [Button "查询结果"%js false (modify (show_result_tab (qt_id t) ShowResult));
     Button "历史"%js false (modify (show_result_tab (qt_id t) ShowHistory));
     Button "导出 CSV"%js (bool_decide (qt_result t = None)) (exportResult w);
     (match qt_resultTab t with
      | ShowHistory => HistoryPanel toLocaleString (listHistory (history w)) (choose_history (qt_id t)) favorite
      | ShowResult => ResultGrid (grid_columns w) (active_rows w)
      end);
     Words (qt_message t ++ (if default false (qt_result t ≫= r_truncated) then " · 已达到结果上限"%js else []))].
Definition query_pane (w : WB) (t : QueryTab) : markup :=
  Group
    [query_toolbar w t;
     Region "region"%js "SQL 编辑区"%js [SqlEditor (qt_sql t) (λ x, modify (edit_sql (qt_id t) x))];
     results_pane w t].
Definition onboarding_pane : markup :=
  Region "region"%js "工作区"%js
    ([Words "先连接数据库，再开始工作"%js; Words "从资源栏选择个人或团队连接。连接配置统一由连接中心管理。"%js]
     ++ only_if (negb (bool_decide (targets = []))) (Inert "选择连接"%js) ++ [Anchor "打开连接中心"%js "/connections"%js]).

(** [!activeConnection || isSqlDriver(activeConnection.driver)]. *)
Definition sql_or_none (w : WB) : bool :=
  match activeConnection connections w with Some c => isSqlDriver (target_driver c) | None => true end.
Definition editor_shown (w : WB) : option QueryTab :=
  match activeTab w with Some (TQuery t) => if is_connected w && sql_or_none w then Some t else None | _ => None end.
Definition tab_pane (w : WB) : list markup :=
  match activeTab w with
  | Some (TMongo t) => [mongo_pane t]
  | Some (TRedisKey t) => [Region "region"%js "Redis 键"%js [RedisKeyElement (rt_key t)]]
  | Some (TConsole t) => [Region "region"%js "Redis 命令台"%js [RedisConsoleElement]]
  | Some (THome t) => [home_pane t]
  | Some (TTable t) => [table_pane w t]
  | Some (TQuery t) => if is_connected w then (if sql_or_none w then [query_pane w t] else [driver_pane w t]) else []
  | None => []
  end.

(** ** The page *)

Definition risk_dialog (w : WB) (r : QueryRisk) : markup :=
  RiskDialog r (vw_target (views w)) (λ x, modify (set_target x)) cancelRisk (confirmRisk connections poll_rounds w).
Definition create_dialog (w : WB) (database : jstr) : markup :=
  CreateTableDialog database (sqlDriverOrDefault (driver_of w))
    (default (initial_dialog (sqlDriverOrDefault (driver_of w))) (vw_create (views w)))
    (λ f, modify (set_create (option_map f))) (submitCreateDialog connections initialSQL poll_rounds w) (modify (setCreateTableDialog None)).
Definition effects (w : WB) : markup :=
  On Effect openSession (On Effect connectionEffect_databases (On Effect connectionEffect_objects
    (On Effect (autoConnect connections initialSQL w selectedConnectionId) (Group [])))).
Definition DatabaseWorkbench (w : WB) : markup :=
  Group
    ([connectionStatus w; tabbar w] ++ tab_pane w
     ++ only_if (negb (is_connected w)) onboarding_pane
     ++ only_some (risk w) (risk_dialog w)
     ++ only_some (createTableDialog w) (create_dialog w)
     ++ [effects w]).

(** What was given away by the rendering [r]: the sidebar, which the shell shows until one
    of its dependencies changes, and the shortcut of the editor mounted then. *)
Definition given_away (r w : WB) : markup :=
  Group
    (only_if (bool_decide (sidebar_deps connections r = sidebar_deps connections w)) (unifiedSidebar r w)
     ++ match editor_shown r, editor_shown w with
        | Some _, Some _ => [editor_command (execute connections poll_rounds r)]
        | _, _ => []
        end).
End workbench.
