(* ===== verification/WorkbenchViewProps.v ===== *)
(** * What the workbench lets one do

    Every element of the workbench starts one of the events of [Workbench], so the
    invariants of the events are those of the page. *)
From S2P Require Import Prelude JsString JsNumber JsValue Api Risk TableQuery TableMutations TableView Id Connections Tabs CreateTable FilterBuilder TableGrid History Controls ControlViews Shell DatabasePage MongoViews Async View Elements Ui WorkbenchPanels Workbench WorkbenchInvariant WorkbenchView.
#[local] Open Scope async_scope.

(** Two programs that do the same from a state. *)
Definition same_at {A} (w : WB) (m m' : async WB Call Reply error A) : Prop := ∀ k h, m k h w = m' k h w.

(** Parts that only show. *)
Lemma every_result_grid {E} (P : E → Prop) columns rows : every P (ResultGrid columns rows).
Proof.
  unfold ResultGrid. destruct columns as [|c cs]; [done|]. elements. split.
  - intros x _. elements. split; [done|]. by intros s _.
  - apply every_imap. intros i row _. elements. split; [done|]. by intros x _.
Qed.
Lemma every_history {E} (P : E → Prop) toLocaleString entries onSelect onFavorite :
  (∀ sql, P (onSelect sql)) → (∀ id, P (onFavorite id)) → every P (HistoryPanel toLocaleString entries onSelect onFavorite).
Proof. intros Hs Hf. unfold HistoryPanel. destruct entries; [done|]. elements. intros e _. unfold history_item. elements. by split_and!. Qed.
Lemma every_all {E} (P : E → Prop) v : (∀ e, P e) → every P v.
Proof. intros HP. apply every_offers. intros e _. apply HP. Qed.

Section offered.
Context `{Unicode, IdSupply, Children} (targets : list Connections.WorkbenchTarget) (selectedConnectionId : jstr) (embedded : bool).
Context (initialSQL : jstr) (poll_rounds : nat) (toLocaleString : number → jstr).
#[local] Abbreviation connections := (to_target <$> targets).
#[local] Abbreviation page := (DatabaseWorkbench targets selectedConnectionId initialSQL poll_rounds toLocaleString).
#[local] Abbreviation slots := (given_away targets selectedConnectionId embedded initialSQL poll_rounds).

(** A program that does, from [w], what one of the events does. *)
Definition is_event (w : WB) (m : handler unit) : Prop := ∃ m', event connections initialSQL poll_rounds m' ∧ same_at w m m'.
Lemma an_event w m : event connections initialSQL poll_rounds m → is_event w m.
Proof. by exists m. Qed.
Lemma an_event_of w (h : WB → handler unit) : event connections initialSQL poll_rounds (rendered h) → is_event w (h w).
Proof. intros He. by exists (rendered h). Qed.

(** Events are told apart by their heads, without unfolding the handlers. *)
Create HintDb event discriminated.
Hint Constants Opaque : event.
Hint Variables Opaque : event.
Hint Constructors event : event.

(** An event of the page, or a handler of the rendering that is one. *)
Ltac an_event :=
  intros;
  first [apply an_event; solve [auto with event nocore]
        | lazymatch goal with
          | |- is_event ?w ?m => let f := eval pattern w in m in
              lazymatch f with ?h w => apply (an_event_of w h); solve [auto with event nocore] end
          end
        | done].

Lemma table_events_offered w t es : activeTab w = Some (TTable t) →
  is_event w (table_events connections poll_rounds w t es).
Proof.
  intros Ht. exists (rendered (on_table connections poll_rounds es)). split; [auto with event nocore|].
  intros k h. unfold rendered, on_table, bind, state. by rewrite Ht.
Qed.
Lemma query_tab_offered w t (f : WB → QueryTab → handler unit) : activeTab w = Some (TQuery t) →
  event connections initialSQL poll_rounds (rendered (on_query_tab f)) → is_event w (f w t).
Proof.
  intros Ht He. eexists. split; [exact He|]. intros k h. unfold rendered, on_query_tab, activeQueryTab, bind, state. by rewrite Ht.
Qed.

Lemma table_pane_offered w t : activeTab w = Some (TTable t) → every (is_event w) (table_pane targets poll_rounds w t).
Proof.
  intros Ht. unfold table_pane. elements. split_and!; try an_event. case_bool_decide.
  - apply schema_element; an_event.
  - rewrite every_map. apply every_all. intros es. by apply table_events_offered.
Qed.
Lemma query_pane_offered w t : activeTab w = Some (TQuery t) → every (is_event w) (query_pane targets initialSQL poll_rounds toLocaleString w t).
Proof.
  intros Ht. unfold query_pane, query_toolbar, results_pane, SqlEditor. elements. split_and!; try an_event.
  - intros _ o _. apply (query_tab_offered w t (λ w t, chooseTable connections w t o.1)); [done|auto with event nocore].
  - intros _. apply (query_tab_offered w t (λ w t, stop_query w (qt_queryId t))); [done|auto with event nocore].
  - destruct (qt_resultTab t); [apply every_result_grid|apply every_history; an_event].
Qed.
Lemma tab_pane_offered w : every_of (is_event w) (tab_pane targets initialSQL poll_rounds toLocaleString w).
Proof.
  unfold tab_pane. destruct (activeTab w) as [[t|t|t|t|t|t]|] eqn:Et; [| | | | | |constructor]; elements.
  - split; [|done]. by apply table_pane_offered.
  - destruct (is_connected w); [|constructor]. destruct (sql_or_none targets w); elements; (split; [|done]).
    + by apply query_pane_offered.
    + by split_and!.
  - unfold mongo_pane. elements. split_and!; try an_event. apply mongo_element.
  - split_and!; try done. apply redis_key_element.
  - split_and!; try done. apply redis_console_element.
  - by split_and!.
Qed.

Lemma create_dialog_offered w database :
  every (is_event w) (create_dialog targets initialSQL poll_rounds w database).
Proof.
  unfold create_dialog, CreateTableDialog. elements. split_and!; try an_event.
  apply every_imap. intros i c _. unfold create_row. elements. split_and!; intros; split_and?; an_event.
Qed.

Definition wf_tabs (w : WB) : Prop := ∀ t, t ∈ tabs (ws w) → wf_tab t.
Lemma tabbar_offered w : wf_tabs w → every (is_event w) (tabbar targets initialSQL poll_rounds w).
Proof.
  intros Hw. unfold tabbar. elements. split; [|split; [|done]; an_event].
  intros tab Htab. unfold tab_shell. elements. split_and!; try an_event.
  apply every_keys; [an_event|]. cbn. intros _. apply (an_event_of w (λ w, selectTab connections poll_rounds w tab)). constructor. by apply Hw.
Qed.
Lemma effects_offered w : every (is_event w) (effects targets selectedConnectionId initialSQL w).
Proof. unfold effects. elements. split_and!; an_event. Qed.

Lemma status_offered (P : handler unit → Prop) w : every P (connectionStatus targets w).
Proof. unfold connectionStatus. elements. by split_and!. Qed.
Lemma onboarding_offered (P : handler unit → Prop) : every P (onboarding_pane targets).
Proof. unfold onboarding_pane. elements. by split_and!. Qed.
Lemma risk_dialog_offered w r : every (is_event w) (risk_dialog targets poll_rounds w r).
Proof.
  unfold risk_dialog, RiskDialog. elements. split_and!; try done.
  - intros _. split_and!; try done. an_event.
  - an_event.
  - intros _. apply (an_event_of w (λ v, confirmRisk connections poll_rounds v (vw_target (views w)))). auto with event nocore.
Qed.

(** Everything that the workbench lets one do is one of the events. *)
Lemma workbench_offered w : wf_tabs w → every (is_event w) (page w).
Proof.
  intros Hw. unfold page, DatabaseWorkbench. rewrite every_group, !every_of_app, !every_of_cons, !every_of_nil.
  split_and!; try done.
  - apply status_offered.
  - by apply tabbar_offered.
  - apply tab_pane_offered.
  - apply every_when. intros _. apply onboarding_offered.
  - apply every_when_some. intros r _. apply risk_dialog_offered.
  - apply every_when_some. intros database _. apply create_dialog_offered.
  - apply effects_offered.
Qed.

(** ** The sidebar of an earlier rendering *)

Section sidebar.
Context (P : handler unit → Prop) (r w : WB).
Context (Hevent : ∀ m, sidebar_event connections initialSQL poll_rounds r m → P m).
Context (Hclose : ∀ m m', P m → P m' → P (and_close m m')) (Hconsole : P (openRedisConsole r)) (Hidle : P (ret tt)).
Hint Constructors sidebar_event : event.
Ltac slot := intros; apply Hevent; solve [auto with event nocore].
Ltac closing := apply Hclose; slot.

Lemma switcher_offered driver : every P (switcher targets initialSQL poll_rounds r w driver).
Proof.
  unfold switcher, DatabaseSwitcher, set_menu. elements. split_and!; try done.
  - slot.
  - intros _. elements. split; [done|]. intros name _. unfold database_option. elements. split_and!; try done; slot.
  - intros database _. apply every_menu; [slot|intros item a answer Hin _].
    apply list_elem_of_fmap in Hin as ([[label action]|] & [= -> ->] & _). destruct action; closing.
Qed.
Lemma object_panel_offered : every P (object_panel targets poll_rounds r w).
Proof.
  unfold object_panel. elements. split_and!; try done.
  - slot.
  - destruct (isRedisDriver _); [apply key_tree_element; slot|]. unfold ObjectTree.
    destruct (tree_tables _); [done|]. elements. split_and!; try done; try slot.
    + intros x _. unfold tree_item. elements. split; slot.
    + intros table _. apply every_menu; [slot|intros item a answer Hin _].
      apply list_elem_of_fmap in Hin as ([[label action]|] & [= -> ->] & _). destruct action; closing.
Qed.
Lemma sidebar_offered : every P (unifiedSidebar targets selectedConnectionId embedded initialSQL poll_rounds r w).
Proof.
  assert (Hbutton : ∀ i, every P (rail_button (onSelect embedded initialSQL r) i)).
  { intros i. unfold rail_button, onSelect. elements. split_and!; try done. intros _. destruct embedded; [|slot].
    exact Hidle. }
  unfold unifiedSidebar, DatabaseResourceRail. elements. split_and!; try done; try slot.
  - destruct targets; elements; [by split_and!|by intros _].
  - intros g _. elements. by split_and!.
  - destruct (_ && _); [|constructor]. unfold resourceCatalog. destruct (activeConnection _ r) as [[? ? [driver|]]|]; [|constructor..].
    destruct (is_connected r); [|constructor]. apply Forall_singleton. elements. split_and!; try done.
    + apply switcher_offered.
    + apply object_panel_offered.
Qed.
End sidebar.

(** ** The tabs *)

Lemma idle_keeps (I : WB → Prop) : preserves I (Async.ret tt : handler unit).
Proof. apply preserves_ret. Qed.
Lemma sidebar_keeps r w : counter_ok r → every (preserves (tabs_ok true)) (slots r w).
Proof.
  intros Hr. unfold slots, given_away. elements. split.
  - intros _. apply sidebar_offered.
    + intros m. by apply keep_sidebar_event.
    + intros m m' Hm Hm'. by apply preserves_bind.
    + apply preserves_at. intros s Hs. apply keep_open_console; [done..|by left].
    + apply preserves_ret.
  - destruct (editor_shown targets r), (editor_shown targets w); elements; try done. split; [|done]. unfold editor_command. elements.
    split; [apply keep_execute|done].
Qed.
Lemma wf_of_tabs w : tabs_ok true w → wf_tabs w.
Proof. intros (c & _ & _ & Hok) t Ht. by eapply from_supply_wf, Hok. Qed.

Definition any_answer (c : Call) (a : Reply + error) : Prop := True.
Definition any_call (w : WB) (c : Call) : Prop := True.
#[local] Abbreviation fits w m := (proper (A := unit) any_answer (tabs_ok true) any_call w m).
Lemma keeps_fits w m : tabs_ok true w → preserves (tabs_ok true) m → fits w m.
Proof. intros Hw Hm. by apply (preserves_proper _ _ any_call m). Qed.
Lemma event_fits w m : tabs_ok true w → is_event w m → fits w m.
Proof.
  intros Hw (m' & He & Hsame) k h Hk Hh. rewrite Hsame. by apply (keeps_fits w m' Hw); [eapply keep_event|..].
Qed.

(** What the workbench is from its first render on. *)
Definition workbench_start : ui WB Call Reply error :=
  let w := mount_views connections (initialWB initialSQL) in MkUi w [w] [].
Definition workbench_next : ui WB Call Reply error → ui WB Call Reply error → Prop :=
  ui_next page slots (mount_views connections) any_answer.

Lemma reachable_tabs x : rtc workbench_next workbench_start x → tabs_ok true (ui_state x).
Proof.
  intros Hr. cut (ui_good any_answer (tabs_ok true) any_call (tabs_ok true) x); [by intros [Hx _]|].
  eapply (ui_invariant _ _ _ _ _ _ _ (λ _ Hw, Hw)); [..|exact Hr].
  - intros w. apply tabs_ok_mount.
  - intros w Hw. eapply every_mono; [|by apply workbench_offered, wf_of_tabs]. intros m. by apply event_fits.
  - intros r w Hrok Hw. eapply every_mono; [|apply sidebar_keeps; by eapply tabs_ok_counter]. intros m. by apply keeps_fits.
  - apply ui_start, tabs_ok_mount, initial_tabs_ok.
Qed.
End offered.

(** ** Properties *)

(** C3. The page of the workbench: whatever is pressed, typed, chosen and answered in what it
    shows, in the sidebar of whatever earlier rendering the shell still shows, and with the
    shortcut of whatever editor, in whatever order replies and failures arrive, the open tabs
    have the identifiers that their constructors give, and those that are no Redis consoles
    have distinct ones. *)
Theorem workbench_tabs `{Unicode, IdSupply, Children} targets selected embedded initialSQL poll_rounds toLocaleString x :
  rtc (workbench_next targets selected embedded initialSQL poll_rounds toLocaleString)
    (workbench_start targets initialSQL) x →
  (∀ t, t ∈ tabs (ws (ui_state x)) → wf_tab t)
  ∧ NoDup (tab_ids (filterb (λ t, negb (is_console t)) (tabs (ws (ui_state x))))).
Proof.
  intros Hx%reachable_tabs. split; [by apply wf_of_tabs|].
  destruct Hx as (c & _ & _ & Hok). by destruct (Hok ltac:(done)).
Qed.

#[local] Existing Instances ascii_unicode counting_ids.

(** Components that show a button for everything that they can tell. *)
Definition plain_children : Children.
Proof.
  refine {| SchemaElement id onDirty onSaved := Group [Button "修改"%js false (onDirty true); Button "保存"%js false onSaved];
            KeyTreeElement onOpen := Field "键"%js [] false onOpen; MongoElement _ := Words "文档"%js;
            RedisKeyElement key := Words key; RedisConsoleElement := Words ">"%js |}; intros; elements; by split_and?.
Defined.
#[local] Existing Instance plain_children.

Definition prod : Connections.WorkbenchTarget :=
  MkWorkbenchTarget "1"%js "prod"%js postgres personal None "db"%js (num 5432) (VStr "app"%js) true.
Definition reply (r : Reply) : Reply + error := inl r.
(** The session opens, a connection is made from the sidebar, two tabs are opened. *)
Definition connecting : list (move Reply error) :=
  [Do Effect; Answer 0 (reply RVoid); PressSlot "连接 prod"%js; Answer 1 (reply (RConnected "c"%js "app"%js))].
Definition opening : list (move Reply error) := connecting ++ [Press "新建标签"%js; Press "新建标签"%js].
Definition played (ms : list (move Reply error)) : option WB :=
  ui_state <$> play (DatabaseWorkbench [prod] [] SQL_GUIDE 301 number_to_string) (given_away [prod] [] false SQL_GUIDE 301)
                 (mount_views (to_target <$> [prod])) ms (workbench_start [prod] SQL_GUIDE).
Lemma played_reachable ms w : played ms = Some w →
  ∃ x, ui_state x = w ∧ rtc (workbench_next [prod] [] false SQL_GUIDE 301 number_to_string) (workbench_start [prod] SQL_GUIDE) x.
Proof. intros (x & Hx & ->)%fmap_Some. exists x. split; [done|]. by eapply play_reachable. Qed.

Lemma workbench_tabs_witness :
  ∃ w, played opening = Some w ∧ tab_ids (tabs (ws w)) = ["query:1"; "query:2"; "query:3"]%js
    ∧ (∀ t, t ∈ tabs (ws w) → wf_tab t) ∧ NoDup (tab_ids (filterb (λ t, negb (is_console t)) (tabs (ws w)))).
Proof.
  destruct (played opening) as [w|] eqn:E; [|by vm_compute in E].
  destruct (played_reachable _ _ E) as (x & <- & Hx). exists (ui_state x). split_and!; [done| |..].
  - assert (Ht : tab_ids <$> ((tabs ∘ ws) <$> Some (ui_state x)) = Some ["query:1"; "query:2"; "query:3"]%js) by (rewrite <- E; by vm_compute).
    by injection Ht.
  - apply (workbench_tabs [prod] [] false SQL_GUIDE 301 number_to_string x Hx).
  - apply (workbench_tabs [prod] [] false SQL_GUIDE 301 number_to_string x Hx).
Defined.



(** Applying a draft is not guarded against itself: until the server has answered, the
    state is the one in which the button was pressed, so that the button is still enabled, and
    pressed again it sends the first change of the draft a second time. *)
Theorem apply_can_repeat `{Unicode, IdSupply, Children} targets poll_rounds w t m ms :
  let v := table_view w t in
  editable v = true → dirty v = true → mutations v = m :: ms → structureTabId (ws w) ≠ tt_id t →
  let apply := table_events (to_target <$> targets) poll_rounds w t [Apply] in
  let change := mutate (connectionId (conn w)) (o_schema (tt_table t)) (o_name (tt_table t)) m (transaction_option w) in
  ∃ k, run apply w = (w, Await change k)
       ∧ offers (table_pane targets poll_rounds w t) apply.
Proof.
  intros v He Hd Hm Hs apply change.
  assert (Ea : apply = (do* ret tt in do* apply_draft (to_target <$> targets) poll_rounds w t in ret tt)%async) by done.
  assert (Ed : ∃ after, apply_draft (to_target <$> targets) poll_rounds w t
             = catch (do* do* call_void change in send_mutations w t ms in after)%async
                 (λ e, modify (updateTab (tt_id t) (status_message Failed (message_of e "保存失败"%js))))).
  { eexists. unfold apply_draft. change (table_view w t) with v. rewrite He, Hd. cbn [negb orb]. by rewrite Hm. }
  destruct Ed as [after Ed]. rewrite Ea, Ed. eexists. split; [done|]. rewrite <- Ed, <- Ea. unfold table_pane.
  eapply offers_region; [by right; left|]. rewrite bool_decide_eq_false_2 by done. apply offers_map. exists [Apply]. split; [|done].
  eapply offers_region; [do 4 (apply elem_of_app; right); apply elem_of_app; left; right; by left|].
  eapply offers_region; [by do 2 right; left|]. cbv zeta. fold v. rewrite He, Hd. constructor.
Qed.

Definition key_of_t : DatabaseObject := MkObject KKey None (Some "public"%js) "id"%js (Some "t"%js) None None.
Definition column_of_t : DatabaseObject := MkObject KColumn None (Some "public"%js) "id"%js (Some "t"%js) None None.
Definition new_row_tab : TableTab :=
  set_tab_draft (Some (MkDraft ∅ [<["id"%js := VStr "7"%js]> ∅] []))
    (createTableTab (tableObject (Some "public"%js) "t"%js) PostgreSQL).
Lemma apply_can_repeat_witness :
  let w := setConnectionId "c"%js (setObjects [key_of_t; column_of_t] (initialWB SQL_GUIDE)) in
  ∃ k, run (table_events (to_target <$> [prod]) 301 w new_row_tab [Apply]) w
    = (w, Await (mutate "c"%js (Some "public"%js) "t"%js (MInsert (<["id"%js := VStr "7"%js]> ∅)) None) k).
Proof.
  intros w. destruct (apply_can_repeat [prod] 301 w new_row_tab (MInsert (<["id"%js := VStr "7"%js]> ∅)) []) as (k & Hk & _);
    [by vm_compute..|]. by exists k.
Defined.
